(** * The control plane of the media router: a shallow embedding

    The TypeScript classes [Transport], [WebRtcTransport], [PlainTransport],
    [DataProducer], [RtpObserver] and [WebRtcServer] are embedded as state
    records with their methods written in a small state, trace and exception
    monad, so that each definition can be read next to the method it comes
    from.  An [await] on the request channel splits a method in two: the part
    that runs up to the request (named [_begin]) and the part that runs when
    the response arrives (named [_resume]).

    [logger.debug] calls are not modelled; [logger.warn] and [logger.error]
    are. *)

From Stdlib Require Import NArith ZArith String Ascii List Bool Lia.
From Stdlib Require Import DecimalString DecimalPos DecimalZ.
From Stdlib.Strings Require Import Byte.
From stdpp Require Import base list.
Import ListNotations.

Local Open Scope string_scope.
Local Open Scope list_scope.

(** ** JavaScript completions and a monad for methods *)

Module Js.

Inductive ErrorClass := TypeError | Error.

Record Exception := exception
    { exn_class : ErrorClass; exn_message : string }.

Inductive Completion (A : Type) :=
  | Return (a : A)
  | Throw (e : Exception).
Arguments Return {A} a.
Arguments Throw {A} e.

  (** A method of an object whose state is [S], leaving a trace of effects
      [E].  A throw keeps the state and the trace reached so far, as a
      JavaScript exception does. *)
Definition M (S E A : Type) : Type := S -> Completion A * S * list E.

Section Monad.
Context {S E : Type}.

Definition ret {A} (a : A) : M S E A := fun s => (Return a, s, []).

Definition bind {A B} (m : M S E A) (k : A -> M S E B) : M S E B :=
      fun s =>
        match m s with
        | (Return a, s', l) =>
            match k a s' with
            | (r, s'', l') => (r, s'', l ++ l')
            end
        | (Throw e, s', l) => (Throw e, s', l)
        end.

Definition throw {A} (c : ErrorClass) (msg : string) : M S E A :=
      fun s => (Throw (exception c msg), s, []).

Definition rethrow {A} (e : Exception) : M S E A :=
      fun s => (Throw e, s, []).

Definition gets {A} (f : S -> A) : M S E A := fun s => (Return (f s), s, []).

Definition modify (f : S -> S) : M S E unit := fun s => (Return tt, f s, []).

Definition tell (e : E) : M S E unit := fun s => (Return tt, s, [e]).

Definition when (b : bool) (m : M S E unit) : M S E unit :=
      if b then m else ret tt.

    (** [for (const x of xs) { body }] *)
Fixpoint for_of {A} (xs : list A) (body : A -> M S E unit) : M S E unit :=
      match xs with
      | [] => ret tt
      | x :: xs' => bind (body x) (fun _ => for_of xs' body)
      end.

(** A loop body followed by a [tell]. *)
Definition then_tell {A} (body : A -> M S E unit) (n : A -> E) (x : A) : M S E unit :=
  bind (body x) (fun _ => tell (n x)).

(** [P] holds after [m] whenever it held before, however [m] ends. *)
Definition stable {A} (P : S -> Prop) (m : M S E A) : Prop :=
  forall s, P s -> P (snd (fst (m s))).

Definition result {A} (o : Completion A * S * list E) : Completion A := fst (fst o).
Definition state {A} (o : Completion A * S * list E) : S := snd (fst o).
Definition trace {A} (o : Completion A * S * list E) : list E := snd o.
End Monad.

  (** The double quote of the template strings. *)
Definition dq : string := String (ascii_of_nat 34) EmptyString.

Definition quoted (s : string) : string := (dq ++ s ++ dq)%string.

  (** [`${n}`] and [String(n)] for an integer [n]. *)
Definition String_of_N (n : N) : string := NilZero.string_of_uint (N.to_uint n).
Definition String_of_Z (z : Z) : string := NilZero.string_of_int (Z.to_int z).

  (** A JS string is truthy when it is not empty. *)
Definition truthy (s : string) : bool := negb (String.eqb s "").

Definition truthy_opt (o : option string) : bool :=
    match o with Some s => truthy s | None => false end.

  (** ** [Map<string, V>]: insertion ordered, one entry per key *)
Section Map.
Context {V : Type}.

Definition Map := list (string * V).

Definition has (k : string) (m : Map) : bool :=
      existsb (fun e => String.eqb (fst e) k) m.

Fixpoint replace (k : string) (v : V) (m : Map) : Map :=
      match m with
      | [] => []
      | (k', v') :: m' =>
          if String.eqb k' k then (k', v) :: m' else (k', v') :: replace k v m'
      end.

Definition set (k : string) (v : V) (m : Map) : Map :=
      if has k m then replace k v m else m ++ [(k, v)].

Definition delete (k : string) (m : Map) : Map :=
      List.filter (fun e => negb (String.eqb (fst e) k)) m.

Definition values (m : Map) : list V := List.map snd m.

Definition keys (m : Map) : list string := List.map fst m.

Definition clear (m : Map) : Map := [].
End Map.
Arguments Map V : clear implicits.

End Js.

Import Js.

Declare Scope js_scope.
Delimit Scope js_scope with js.
Notation "x <- m ;; k" := (Js.bind m (fun x => k))
  (at level 100, m at next level, right associativity) : js_scope.
Notation "m ;;; k" := (Js.bind m (fun _ => k))
  (at level 100, right associativity) : js_scope.

(** ** Effects on the collaborators of a resource *)

Inductive Emitter := this | observer.

(** What a method does to the outside: requests and notifications on the
    channels, listeners removed, events emitted on the resource itself
    ([this]) or on its public [observer], and log lines. *)
Inductive Effect (Req Arg : Type) :=
| channel_request (method : string) (handlerId : option string) (data : option Req)
| channel_removeAllListeners (id : string)
| payloadChannel_removeAllListeners (id : string)
| payloadChannel_notify (event handlerId data : string) (payload : Arg)
| emit (on : Emitter) (event : string) (args : list Arg)
| safeEmit (on : Emitter) (event : string) (args : list Arg)
| logger_warn (msg : string)
| logger_error (msg : string).
Arguments channel_request {Req Arg}.
Arguments channel_removeAllListeners {Req Arg}.
Arguments payloadChannel_removeAllListeners {Req Arg}.
Arguments payloadChannel_notify {Req Arg}.
Arguments emit {Req Arg}.
Arguments safeEmit {Req Arg}.
Arguments logger_warn {Req Arg}.
Arguments logger_error {Req Arg}.

Definition is_request {Req Arg} (e : Effect Req Arg) : bool :=
  match e with channel_request _ _ _ => true | _ => false end.

Definition is_emission {Req Arg} (e : Effect Req Arg) : bool :=
  match e with emit _ _ _ | safeEmit _ _ _ => true | _ => false end.

Record SctpStreamParameters := sctpStreamParameters_
  { streamId : option nat;
    ordered : option bool;
    maxPacketLifeTime : option nat;
    maxRetransmits : option nat }.

Inductive AppData :=
| appData_falsy                 (* undefined, null, 0, '' ... *)
| appData_object (o : string)
| appData_other.                (* truthy and not an object *)

(** [appData && typeof appData !== 'object'] *)
Definition appData_invalid (a : AppData) : bool :=
  match a with appData_other => true | _ => false end.

(** ** DataProducer *)

Module DataProducer.

Inductive DataProducerType := sctp | direct.

Record Internal := internal_
    { routerId : string; transportId : string; dataProducerId : string }.

Record Data := data_
    { type : DataProducerType;
      sctpStreamParameters : option SctpStreamParameters;
      label : string;
      protocol : string }.

Record t := dataProducer
    { internal : Internal; data : Data; closed : bool; appData : AppData }.

Definition id (p : t) : string := dataProducerId (internal p).

Inductive Request := closeDataProducer (dataProducerId : string).

  (** The [message] argument of [send]. *)
Inductive Message :=
  | msg_string (s : string)
  | msg_buffer (b : list byte)
  | msg_other.

Definition Eff := Effect Request Message.
Definition M := Js.M t Eff.

Definition set_closed (b : bool) (p : t) : t :=
    {| internal := internal p; data := data p; closed := b; appData := appData p |}.

Local Open Scope js_scope.

Definition close : M unit :=
    c <- gets closed ;;
    if c then ret tt else
    modify (set_closed true) ;;;
    i <- gets internal ;;
    tell (channel_removeAllListeners (dataProducerId i)) ;;;
    tell (payloadChannel_removeAllListeners (dataProducerId i)) ;;;
    tell (channel_request "transport.closeDataProducer" (Some (transportId i))
            (Some (closeDataProducer (dataProducerId i)))) ;;;
    tell (emit this "@close" []) ;;;
    tell (safeEmit observer "close" []).

Definition transportClosed : M unit :=
    c <- gets closed ;;
    if c then ret tt else
    modify (set_closed true) ;;;
    i <- gets internal ;;
    tell (channel_removeAllListeners (dataProducerId i)) ;;;
    tell (payloadChannel_removeAllListeners (dataProducerId i)) ;;;
    tell (safeEmit this "transportclose" []) ;;;
    tell (safeEmit observer "close" []).

Definition message_length (m : Message) : nat :=
    match m with
    | msg_string s => String.length s
    | msg_buffer b => List.length b
    | msg_other => 0
    end.

  (** The [ppid] argument of [send] is a JS number, and [send] does two
      things with it: it compares it with 56 and 57, and it turns it into text
      with [String()].  A safe integer, one of magnitude below 2^53, is
      printed in decimal.  Any other number (a larger integer, a fraction, an
      infinity, NaN) is neither 56 nor 57 and is kept as the text [String()]
      gives for it, such as ["1e+21"], ["0.5"] or ["NaN"]: a text that no
      safe integer is printed as. *)
Definition is_safe_integer (n : Z) : bool := (Z.abs n <? 2 ^ 53)%Z.

Record SafeInteger := safeInteger
    { value : Z; value_safe : is_safe_integer value = true }.

Definition prints_safe_integer (text : string) : bool :=
    match NilZero.int_of_string text with
    | Some d =>
        is_safe_integer (Z.of_int d) && String.eqb (String_of_Z (Z.of_int d)) text
    | None => false
    end.

Record OtherNumber := otherNumber
    { text : string; text_other : prints_safe_integer text = false }.

Inductive Number :=
  | integer (n : SafeInteger)
  | other_number (n : OtherNumber).

  (** [ppid === k] for an integer literal [k] *)
Definition strict_equal (ppid : Number) (k : Z) : bool :=
    match ppid with
    | integer n => (value n =? k)%Z
    | other_number _ => false
    end.

  (** [String(ppid)] *)
Definition String_of_Number (ppid : Number) : string :=
    match ppid with
    | integer n => String_of_Z (value n)
    | other_number n => text n
    end.

Definition ppid_51 : Number := integer {| value := 51; value_safe := eq_refl |}.
Definition ppid_53 : Number := integer {| value := 53; value_safe := eq_refl |}.
Definition ppid_56 : Number := integer {| value := 56; value_safe := eq_refl |}.
Definition ppid_57 : Number := integer {| value := 57; value_safe := eq_refl |}.

Definition default_ppid (message : Message) : Number :=
    match message with
    | msg_string s => if Nat.ltb 0 (String.length s) then ppid_51 else ppid_56
    | _ => if Nat.ltb 0 (message_length message) then ppid_53 else ppid_57
    end.

  (** [ppid] is [Some n] when [typeof ppid === 'number']. *)
Definition send (message : Message) (ppid : option Number) : M unit :=
    match message with
    | msg_other => throw TypeError "message must be a string or a Buffer"
    | _ =>
        let ppid := match ppid with Some n => n | None => default_ppid message end in
        let message :=
          if strict_equal ppid 56 then msg_string " "
          else if strict_equal ppid 57 then msg_buffer [x00]
          else message in
        let notifData := String_of_Number ppid in
        i <- gets internal ;;
        tell (payloadChannel_notify "dataProducer.send" (dataProducerId i) notifData message)
    end.

End DataProducer.

(** ** RtpObserver *)

Module RtpObserver.

Record Internal := internal_ { routerId : string; rtpObserverId : string }.

Record t := rtpObserver
    { internal : Internal; closed : bool; paused : bool; appData : AppData }.

Inductive Request := closeRtpObserver (rtpObserverId : string).

Definition Eff := Effect Request unit.
Definition M := Js.M t Eff.

Definition set_closed (b : bool) (o : t) : t :=
    {| internal := internal o; closed := b; paused := paused o; appData := appData o |}.

Definition set_paused (b : bool) (o : t) : t :=
    {| internal := internal o; closed := closed o; paused := b; appData := appData o |}.

Local Open Scope js_scope.

Definition close : M unit :=
    c <- gets closed ;;
    if c then ret tt else
    modify (set_closed true) ;;;
    i <- gets internal ;;
    tell (channel_removeAllListeners (rtpObserverId i)) ;;;
    tell (payloadChannel_removeAllListeners (rtpObserverId i)) ;;;
    tell (channel_request "router.closeRtpObserver" (Some (routerId i))
            (Some (closeRtpObserver (rtpObserverId i)))) ;;;
    tell (emit this "@close" []) ;;;
    tell (safeEmit observer "close" []).

Definition routerClosed : M unit :=
    c <- gets closed ;;
    if c then ret tt else
    modify (set_closed true) ;;;
    i <- gets internal ;;
    tell (channel_removeAllListeners (rtpObserverId i)) ;;;
    tell (payloadChannel_removeAllListeners (rtpObserverId i)) ;;;
    tell (safeEmit this "routerclose" []) ;;;
    tell (safeEmit observer "close" []).

  (** [pause()] up to its [await]: it reads [wasPaused] and issues the
      request; [wasPaused] is what the suspended call keeps. *)
Definition pause_begin : M bool :=
    wasPaused <- gets paused ;;
    i <- gets internal ;;
    tell (channel_request "rtpObserver.pause" (Some (rtpObserverId i)) None) ;;;
    ret wasPaused.

  (** [pause()] from its [await] on, when the request resolved. *)
Definition pause_resume (wasPaused : bool) : M unit :=
    modify (set_paused true) ;;;
    when (negb wasPaused) (tell (safeEmit observer "pause" [])).

Definition resume_begin : M bool :=
    wasPaused <- gets paused ;;
    i <- gets internal ;;
    tell (channel_request "rtpObserver.resume" (Some (rtpObserverId i)) None) ;;;
    ret wasPaused.

Definition resume_resume (wasPaused : bool) : M unit :=
    modify (set_paused false) ;;;
    when wasPaused (tell (safeEmit observer "resume" [])).



End RtpObserver.

(** *** The Producers of an RtpObserver *)

(** [addProducer()] and [removeProducer()], lines 248 to 288.  The class
    [Producer] and the Router's [getProducerById] are parameters. *)
Module RtpObserverProducers.

Section RtpObserverProducers.
Context {Producer : Type} (getProducerById : string -> option Producer).

Inductive Request := producer_request (producerId : string).

Definition Eff := Effect Request Producer.
Definition M := Js.M RtpObserver.t Eff.

Local Open Scope js_scope.

(** Either method up to its [await]: [method] is the request and the name
    of the method. *)
Definition begin (method : string) (producerId : string) : M Producer :=
  match getProducerById producerId with
  | None => throw Error ("Producer with id " ++ quoted producerId ++ " not found")%string
  | Some producer =>
      i <- gets RtpObserver.internal ;;
      tell (channel_request method (Some (RtpObserver.rtpObserverId i))
              (Some (producer_request producerId))) ;;;
      ret producer
  end.

Definition addProducer_begin : string -> M Producer := begin "rtpObserver.addProducer".

Definition addProducer_resume (producer : Producer) : M unit :=
  tell (safeEmit observer "addproducer" [producer]).

Definition removeProducer_begin : string -> M Producer := begin "rtpObserver.removeProducer".

Definition removeProducer_resume (producer : Producer) : M unit :=
  tell (safeEmit observer "removeproducer" [producer]).

(** A whole call: [response] is how the request settled. *)
Definition addProducer (producerId : string) (response : Completion unit) : M unit :=
  producer <- addProducer_begin producerId ;;
  match response with
  | Throw e => rethrow e
  | Return _ => addProducer_resume producer
  end.

Definition removeProducer (producerId : string) (response : Completion unit) : M unit :=
  producer <- removeProducer_begin producerId ;;
  match response with
  | Throw e => rethrow e
  | Return _ => removeProducer_resume producer
  end.

Definition request (method : string) (o : RtpObserver.t) (producerId : string) : Eff :=
  channel_request method (Some (RtpObserver.rtpObserverId (RtpObserver.internal o)))
    (Some (producer_request producerId)).

End RtpObserverProducers.

End RtpObserverProducers.

(** ** RTP parameters and the imported helpers *)

Record RtcpParameters := rtcpParameters_
  { cname : option string; reducedSize : option bool; mux : option bool }.

(** [{}] *)
Definition empty_rtcp : RtcpParameters :=
  {| cname := None; reducedSize := None; mux := None |}.

Record RtpEncodingParameters := rtpEncodingParameters_
  { ssrc : option N;
    rid : option string;
    codecPayloadType : option N;
    rtx : option N;
    dtx : option bool;
    scalabilityMode : option string;
    maxBitrate : option N }.

(** [{}] *)
Definition empty_encoding : RtpEncodingParameters :=
  {| ssrc := None; rid := None; codecPayloadType := None; rtx := None;
     dtx := None; scalabilityMode := None; maxBitrate := None |}.

(** The [encodings] property as [produce()] tests it. *)
Inductive Encodings :=
| encodings_falsy                                  (* !rtpParameters.encodings *)
| encodings_not_array                              (* truthy, !Array.isArray *)
| encodings_array (l : list RtpEncodingParameters).

(** [mid] as [consume()] tests it. *)
Inductive Mid :=
| mid_falsy                                        (* undefined, null, 0 ... *)
| mid_not_string                                   (* truthy, typeof !== 'string' *)
| mid_string (s : string).

(** The modules [ortc] and [utils] and the types of [RtpParameters.ts] are
    imported by the classes but are not part of the sources at hand: they are
    taken as parameters.  A validator either returns or throws. *)
Class Imports := imports_
  { RtpCapabilities : Type;
    RtpMapping : Type;
    MediaSection : Type;          (* codecs and header extensions *)
    ConsumerLayers : Type;
    ConsumerScore : Type;
    DataConsumerData : Type }.

Section RtpParameters.
Context `{Imports}.

Record RtpParameters := rtpParameters_
  { mid : option string;
    media : MediaSection;
    encodings : Encodings;
    rtcp : option RtcpParameters }.

Definition set_encodings (e : Encodings) (p : RtpParameters) : RtpParameters :=
  {| mid := mid p; media := media p; encodings := e; rtcp := rtcp p |}.

Definition set_rtcp (r : option RtcpParameters) (p : RtpParameters) : RtpParameters :=
  {| mid := mid p; media := media p; encodings := encodings p; rtcp := r |}.

Definition set_mid (m : option string) (p : RtpParameters) : RtpParameters :=
  {| mid := m; media := media p; encodings := encodings p; rtcp := rtcp p |}.

Definition set_cname (c : option string) (r : RtcpParameters) : RtcpParameters :=
  {| cname := c; reducedSize := reducedSize r; mux := mux r |}.

(** [rtpParameters.rtcp && rtpParameters.rtcp.cname] *)
Definition rtcp_cname (p : RtpParameters) : option string :=
  match rtcp p with Some r => cname r | None => None end.

(** The number of entries of [encodings], when it is an array. *)
Definition encodings_length (p : RtpParameters) : option nat :=
  match encodings p with encodings_array l => Some (List.length l) | _ => None end.

Class Ortc := ortc_
  { validateRtpParameters : RtpParameters -> option Exception;
    validateRtpCapabilities : RtpCapabilities -> option Exception;
    validateSctpStreamParameters : option SctpStreamParameters -> option Exception;
    getProducerRtpParametersMapping :
      RtpParameters -> RtpCapabilities -> Completion RtpMapping;
    getConsumableRtpParameters :
      string -> RtpParameters -> RtpCapabilities -> RtpMapping -> Completion RtpParameters;
    getConsumerRtpParameters :
      RtpParameters -> RtpCapabilities -> bool -> bool -> Completion RtpParameters;
    utils_clone : option SctpStreamParameters -> SctpStreamParameters }.

End RtpParameters.

(** ** Producer, Consumer and DataConsumer *)

Module Owned.

(** Modelled from the spec: the classes Producer, Consumer and DataConsumer
    are not part of the sources at hand.  They are given the closing
    operations of section 4.1 with the shape [DataProducer] has in the
    sources: a one-way [closed] flag guarding each operation, a direct
    [close()] that issues the engine request and emits the private ['@close'],
    an owner cascade [transportClosed()] that does neither, and for a Consumer
    or a DataConsumer the close of the producer it refers to, which emits the
    private signal named after it. *)
Record t (D : Type) := owned
  { id : string; transportId : string; closed : bool; data : D }.
Arguments owned {D}.
Arguments id {D}.
Arguments transportId {D}.
Arguments closed {D}.
Arguments data {D}.

Inductive Request := close_request (id : string).

Definition Eff := Effect Request unit.

Section Methods.
Context {D : Type}.

Definition M := Js.M (t D) Eff.

Definition set_closed (b : bool) (o : t D) : t D :=
  {| id := id o; transportId := transportId o; closed := b; data := data o |}.

Local Open Scope js_scope.

(** Modelled from the spec: direct close. *)
Definition close (method : string) : M unit :=
  c <- gets closed ;;
  if c then ret tt else
  modify (set_closed true) ;;;
  i <- gets id ;;
  tid <- gets transportId ;;
  tell (channel_removeAllListeners i) ;;;
  tell (payloadChannel_removeAllListeners i) ;;;
  tell (channel_request method (Some tid) (Some (close_request i))) ;;;
  tell (emit this "@close" []) ;;;
  tell (safeEmit observer "close" []).

(** Modelled from the spec: owner cascade close. *)
Definition transportClosed : M unit :=
  c <- gets closed ;;
  if c then ret tt else
  modify (set_closed true) ;;;
  i <- gets id ;;
  tell (channel_removeAllListeners i) ;;;
  tell (payloadChannel_removeAllListeners i) ;;;
  tell (safeEmit this "transportclose" []) ;;;
  tell (safeEmit observer "close" []).

(** Modelled from the spec: the producer referred to was closed; [event] is
    ["producerclose"] or ["dataproducerclose"]. *)
Definition sourceClosed (event : string) : M unit :=
  c <- gets closed ;;
  if c then ret tt else
  modify (set_closed true) ;;;
  i <- gets id ;;
  tell (channel_removeAllListeners i) ;;;
  tell (payloadChannel_removeAllListeners i) ;;;
  tell (emit this ("@" ++ event)%string []) ;;;
  tell (safeEmit this event []) ;;;
  tell (safeEmit observer "close" []).

End Methods.

End Owned.

(** ** Transport *)

Module Transport.

Section Transport.
Context `{I : Imports} `{O : @Ortc I}.

Record Internal := internal_ { routerId : string; transportId : string }.

Record SctpParameters := sctpParameters_
  { port : N;
    OS : N;
    MIS : option nat;             (* [Some n] when [typeof MIS === 'number'] *)
    maxMessageSize : N }.

Record TransportData := transportData_ { sctpParameters : option SctpParameters }.

Record ProducerData := producerData_
  { p_kind : string;
    p_rtpParameters : RtpParameters;
    p_type : string;
    p_consumableRtpParameters : RtpParameters;
    p_paused : bool;
    p_appData : AppData }.

Local Abbreviation Producer := (Owned.t ProducerData).

Record ConsumerData := consumerData_
  { c_producerId : string;
    c_kind : string;
    c_rtpParameters : RtpParameters;
    c_type : string;
    c_paused : bool;
    c_producerPaused : bool;
    c_score : option ConsumerScore;
    c_preferredLayers : option ConsumerLayers;
    c_appData : AppData }.

Local Abbreviation Consumer := (Owned.t ConsumerData).

Local Abbreviation DataConsumer := (Owned.t (DataConsumerData * AppData)).

(** What the Router hands to the constructor: its capabilities and the two
    lookups, as they answer at the time of a call. *)
Record Router := router_
  { getRouterRtpCapabilities : RtpCapabilities;
    getProducerById : string -> option Producer;
    getDataProducerById : string -> option DataProducer.t }.

Record ProducerOptions := producerOptions_
  { po_id : option string;
    po_kind : string;
    po_rtpParameters : RtpParameters;
    po_paused : bool;
    po_keyFrameRequestDelay : option nat;
    po_appData : AppData }.

Record ConsumerOptions := consumerOptions_
  { co_producerId : option string;   (* [Some s] when [typeof producerId === 'string'] *)
    co_rtpCapabilities : RtpCapabilities;
    co_paused : bool;
    co_mid : Mid;
    co_preferredLayers : option ConsumerLayers;
    co_ignoreDtx : bool;
    co_enableRtx : option bool;
    co_pipe : bool;
    co_appData : AppData }.

Record DataProducerOptions := dataProducerOptions_
  { dpo_id : option string;
    dpo_sctpStreamParameters : option SctpStreamParameters;
    dpo_label : string;
    dpo_protocol : string;
    dpo_appData : AppData }.

Record DataConsumerOptions := dataConsumerOptions_
  { dco_dataProducerId : option string;
    dco_ordered : option bool;
    dco_maxPacketLifeTime : option nat;
    dco_maxRetransmits : option nat;
    dco_appData : AppData }.

(** The [reqData] of the requests a Transport issues. *)
Inductive Request :=
| closeTransport_req (transportId : string)
| produce_req (producerId kind : string) (rtpParameters : RtpParameters)
    (rtpMapping : RtpMapping) (keyFrameRequestDelay : option nat) (paused : bool)
| consume_req (consumerId producerId kind : string) (rtpParameters : RtpParameters)
    (type : string) (consumableRtpEncodings : Encodings) (paused : bool)
    (preferredLayers : option ConsumerLayers) (ignoreDtx : bool)
| produceData_req (dataProducerId : string) (type : DataProducer.DataProducerType)
    (sctpStreamParameters : option SctpStreamParameters) (label protocol : string)
| consumeData_req (dataConsumerId dataProducerId : string)
    (type : DataProducer.DataProducerType)
    (sctpStreamParameters : option SctpStreamParameters) (label protocol : string).

(** The objects a Transport creates live in four stores; a reference is an
    index into the store of its class. *)
Inductive Ref :=
| producer_ref (a : nat)
| consumer_ref (a : nat)
| dataProducer_ref (a : nat)
| dataConsumer_ref (a : nat).

(** An entry of the trace: an effect and the object that caused it. *)
Inductive Entry :=
| on_transport (e : Effect Request Ref)
| on_producer (a : nat) (e : Owned.Eff)
| on_consumer (a : nat) (e : Owned.Eff)
| on_dataProducer (a : nat) (e : DataProducer.Eff)
| on_dataConsumer (a : nat) (e : Owned.Eff).

(** The private fields of a Transport followed by the stores of the objects
    it has created.  A DataConsumer is stored with the [sctpStreamId] that
    its two listeners (lines 995 to 1012) have captured. *)
Record State := state_
  { constructor_name : string;    (* [this.constructor.name] *)
    internal : Internal;
    data : TransportData;
    closed : bool;
    appData : AppData;
    producers : Map nat;
    consumers : Map nat;
    dataProducers : Map nat;
    dataConsumers : Map nat;
    cnameForProducers : option string;
    nextMidForConsumers : N;
    sctpStreamIds : option (list N);
    nextSctpStreamId : nat;
    producerObjs : list Producer;
    consumerObjs : list Consumer;
    dataProducerObjs : list DataProducer.t;
    dataConsumerObjs : list (DataConsumer * option nat) }.

Definition set_closed (v : bool) (s : State) : State :=
  {| constructor_name := constructor_name s; internal := internal s; data := data s;
     closed := v; appData := appData s; producers := producers s; consumers := consumers s;
     dataProducers := dataProducers s; dataConsumers := dataConsumers s;
     cnameForProducers := cnameForProducers s;
     nextMidForConsumers := nextMidForConsumers s; sctpStreamIds := sctpStreamIds s;
     nextSctpStreamId := nextSctpStreamId s; producerObjs := producerObjs s;
     consumerObjs := consumerObjs s; dataProducerObjs := dataProducerObjs s;
     dataConsumerObjs := dataConsumerObjs s |}.

Definition set_producers (v : Map nat) (s : State) : State :=
  {| constructor_name := constructor_name s; internal := internal s; data := data s;
     closed := closed s; appData := appData s; producers := v; consumers := consumers s;
     dataProducers := dataProducers s; dataConsumers := dataConsumers s;
     cnameForProducers := cnameForProducers s;
     nextMidForConsumers := nextMidForConsumers s; sctpStreamIds := sctpStreamIds s;
     nextSctpStreamId := nextSctpStreamId s; producerObjs := producerObjs s;
     consumerObjs := consumerObjs s; dataProducerObjs := dataProducerObjs s;
     dataConsumerObjs := dataConsumerObjs s |}.

Definition set_consumers (v : Map nat) (s : State) : State :=
  {| constructor_name := constructor_name s; internal := internal s; data := data s;
     closed := closed s; appData := appData s; producers := producers s; consumers := v;
     dataProducers := dataProducers s; dataConsumers := dataConsumers s;
     cnameForProducers := cnameForProducers s;
     nextMidForConsumers := nextMidForConsumers s; sctpStreamIds := sctpStreamIds s;
     nextSctpStreamId := nextSctpStreamId s; producerObjs := producerObjs s;
     consumerObjs := consumerObjs s; dataProducerObjs := dataProducerObjs s;
     dataConsumerObjs := dataConsumerObjs s |}.

Definition set_dataProducers (v : Map nat) (s : State) : State :=
  {| constructor_name := constructor_name s; internal := internal s; data := data s;
     closed := closed s; appData := appData s; producers := producers s;
     consumers := consumers s; dataProducers := v; dataConsumers := dataConsumers s;
     cnameForProducers := cnameForProducers s;
     nextMidForConsumers := nextMidForConsumers s; sctpStreamIds := sctpStreamIds s;
     nextSctpStreamId := nextSctpStreamId s; producerObjs := producerObjs s;
     consumerObjs := consumerObjs s; dataProducerObjs := dataProducerObjs s;
     dataConsumerObjs := dataConsumerObjs s |}.

Definition set_dataConsumers (v : Map nat) (s : State) : State :=
  {| constructor_name := constructor_name s; internal := internal s; data := data s;
     closed := closed s; appData := appData s; producers := producers s;
     consumers := consumers s; dataProducers := dataProducers s; dataConsumers := v;
     cnameForProducers := cnameForProducers s;
     nextMidForConsumers := nextMidForConsumers s; sctpStreamIds := sctpStreamIds s;
     nextSctpStreamId := nextSctpStreamId s; producerObjs := producerObjs s;
     consumerObjs := consumerObjs s; dataProducerObjs := dataProducerObjs s;
     dataConsumerObjs := dataConsumerObjs s |}.

Definition set_cnameForProducers (v : option string) (s : State) : State :=
  {| constructor_name := constructor_name s; internal := internal s; data := data s;
     closed := closed s; appData := appData s; producers := producers s;
     consumers := consumers s; dataProducers := dataProducers s;
     dataConsumers := dataConsumers s; cnameForProducers := v;
     nextMidForConsumers := nextMidForConsumers s; sctpStreamIds := sctpStreamIds s;
     nextSctpStreamId := nextSctpStreamId s; producerObjs := producerObjs s;
     consumerObjs := consumerObjs s; dataProducerObjs := dataProducerObjs s;
     dataConsumerObjs := dataConsumerObjs s |}.

Definition set_nextMidForConsumers (v : N) (s : State) : State :=
  {| constructor_name := constructor_name s; internal := internal s; data := data s;
     closed := closed s; appData := appData s; producers := producers s;
     consumers := consumers s; dataProducers := dataProducers s;
     dataConsumers := dataConsumers s; cnameForProducers := cnameForProducers s;
     nextMidForConsumers := v; sctpStreamIds := sctpStreamIds s;
     nextSctpStreamId := nextSctpStreamId s; producerObjs := producerObjs s;
     consumerObjs := consumerObjs s; dataProducerObjs := dataProducerObjs s;
     dataConsumerObjs := dataConsumerObjs s |}.

Definition set_sctpStreamIds (v : option (list N)) (s : State) : State :=
  {| constructor_name := constructor_name s; internal := internal s; data := data s;
     closed := closed s; appData := appData s; producers := producers s;
     consumers := consumers s; dataProducers := dataProducers s;
     dataConsumers := dataConsumers s; cnameForProducers := cnameForProducers s;
     nextMidForConsumers := nextMidForConsumers s; sctpStreamIds := v;
     nextSctpStreamId := nextSctpStreamId s; producerObjs := producerObjs s;
     consumerObjs := consumerObjs s; dataProducerObjs := dataProducerObjs s;
     dataConsumerObjs := dataConsumerObjs s |}.

Definition set_nextSctpStreamId (v : nat) (s : State) : State :=
  {| constructor_name := constructor_name s; internal := internal s; data := data s;
     closed := closed s; appData := appData s; producers := producers s;
     consumers := consumers s; dataProducers := dataProducers s;
     dataConsumers := dataConsumers s; cnameForProducers := cnameForProducers s;
     nextMidForConsumers := nextMidForConsumers s; sctpStreamIds := sctpStreamIds s;
     nextSctpStreamId := v; producerObjs := producerObjs s; consumerObjs := consumerObjs s;
     dataProducerObjs := dataProducerObjs s; dataConsumerObjs := dataConsumerObjs s |}.

Definition set_producerObjs (v : list Producer) (s : State) : State :=
  {| constructor_name := constructor_name s; internal := internal s; data := data s;
     closed := closed s; appData := appData s; producers := producers s;
     consumers := consumers s; dataProducers := dataProducers s;
     dataConsumers := dataConsumers s; cnameForProducers := cnameForProducers s;
     nextMidForConsumers := nextMidForConsumers s; sctpStreamIds := sctpStreamIds s;
     nextSctpStreamId := nextSctpStreamId s; producerObjs := v;
     consumerObjs := consumerObjs s; dataProducerObjs := dataProducerObjs s;
     dataConsumerObjs := dataConsumerObjs s |}.

Definition set_consumerObjs (v : list Consumer) (s : State) : State :=
  {| constructor_name := constructor_name s; internal := internal s; data := data s;
     closed := closed s; appData := appData s; producers := producers s;
     consumers := consumers s; dataProducers := dataProducers s;
     dataConsumers := dataConsumers s; cnameForProducers := cnameForProducers s;
     nextMidForConsumers := nextMidForConsumers s; sctpStreamIds := sctpStreamIds s;
     nextSctpStreamId := nextSctpStreamId s; producerObjs := producerObjs s;
     consumerObjs := v; dataProducerObjs := dataProducerObjs s;
     dataConsumerObjs := dataConsumerObjs s |}.

Definition set_dataProducerObjs (v : list DataProducer.t) (s : State) : State :=
  {| constructor_name := constructor_name s; internal := internal s; data := data s;
     closed := closed s; appData := appData s; producers := producers s;
     consumers := consumers s; dataProducers := dataProducers s;
     dataConsumers := dataConsumers s; cnameForProducers := cnameForProducers s;
     nextMidForConsumers := nextMidForConsumers s; sctpStreamIds := sctpStreamIds s;
     nextSctpStreamId := nextSctpStreamId s; producerObjs := producerObjs s;
     consumerObjs := consumerObjs s; dataProducerObjs := v;
     dataConsumerObjs := dataConsumerObjs s |}.

Definition set_dataConsumerObjs (v : list (DataConsumer * option nat)) (s : State) : State :=
  {| constructor_name := constructor_name s; internal := internal s; data := data s;
     closed := closed s; appData := appData s; producers := producers s;
     consumers := consumers s; dataProducers := dataProducers s;
     dataConsumers := dataConsumers s; cnameForProducers := cnameForProducers s;
     nextMidForConsumers := nextMidForConsumers s; sctpStreamIds := sctpStreamIds s;
     nextSctpStreamId := nextSctpStreamId s; producerObjs := producerObjs s;
     consumerObjs := consumerObjs s; dataProducerObjs := dataProducerObjs s;
     dataConsumerObjs := v |}.
Definition M := Js.M State Entry.

Local Open Scope js_scope.

Definition lift_check (r : option Exception) : M unit :=
  match r with Some e => rethrow e | None => ret tt end.

Definition lift_completion {A} (r : Completion A) : M A :=
  match r with Return a => ret a | Throw e => rethrow e end.

(** [[ x, y ].includes(s)] *)
Definition includes (s : string) (l : list string) : bool :=
  existsb (String.eqb s) l.

(** A new object gets the next free index of its store. *)
Definition new_producer (p : Producer) : M nat :=
  os <- gets producerObjs ;;
  modify (set_producerObjs (os ++ [p])) ;;;
  ret (List.length os).

Definition new_consumer (c : Consumer) : M nat :=
  os <- gets consumerObjs ;;
  modify (set_consumerObjs (os ++ [c])) ;;;
  ret (List.length os).

Definition new_dataProducer (p : DataProducer.t) : M nat :=
  os <- gets dataProducerObjs ;;
  modify (set_dataProducerObjs (os ++ [p])) ;;;
  ret (List.length os).

Definition new_dataConsumer (c : DataConsumer) (sctpStreamId : option nat) : M nat :=
  os <- gets dataConsumerObjs ;;
  modify (set_dataConsumerObjs (os ++ [(c, sctpStreamId)])) ;;;
  ret (List.length os).

(** *** The listeners installed on the objects created *)

(** [producer.on('@close', ...)], lines 652 to 656 *)
Definition on_producer_close (a : nat) : M unit :=
  os <- gets producerObjs ;;
  match os !! a with
  | None => ret tt
  | Some producer =>
      ps <- gets producers ;;
      modify (set_producers (delete (Owned.id producer) ps)) ;;;
      tell (on_transport (emit this "@producerclose" [producer_ref a]))
  end.

(** [consumer.on('@close', ...)] and [consumer.on('@producerclose', ...)],
    lines 790 and 791 *)
Definition on_consumer_close (a : nat) : M unit :=
  os <- gets consumerObjs ;;
  match os !! a with
  | None => ret tt
  | Some consumer =>
      cs <- gets consumers ;;
      modify (set_consumers (delete (Owned.id consumer) cs))
  end.

(** [dataProducer.on('@close', ...)], lines 871 to 875 *)
Definition on_dataProducer_close (a : nat) : M unit :=
  os <- gets dataProducerObjs ;;
  match os !! a with
  | None => ret tt
  | Some dataProducer =>
      ps <- gets dataProducers ;;
      modify (set_dataProducers (delete (DataProducer.id dataProducer) ps)) ;;;
      tell (on_transport (emit this "@dataproducerclose" [dataProducer_ref a]))
  end.

(** [this.#sctpStreamIds[sctpStreamId] = v], a write into a Buffer: nothing
    happens out of range. *)
Definition write_sctpStreamIds (sctpStreamId : option nat) (v : N) (ids : list N) : list N :=
  match sctpStreamId with
  | Some k => <[k:=v]> ids
  | None => ids
  end.

(** [dataConsumer.on('@close', ...)] and
    [dataConsumer.on('@dataproducerclose', ...)], lines 995 to 1012 *)
Definition on_dataConsumer_close (a : nat) : M unit :=
  os <- gets dataConsumerObjs ;;
  match os !! a with
  | None => ret tt
  | Some (dataConsumer, sctpStreamId) =>
      cs <- gets dataConsumers ;;
      modify (set_dataConsumers (delete (Owned.id dataConsumer) cs)) ;;;
      ids <- gets sctpStreamIds ;;
      match ids with
      | Some ids => modify (set_sctpStreamIds (Some (write_sctpStreamIds sctpStreamId 0%N ids)))
      | None => ret tt
      end
  end.

Definition is_emit {Req Arg} (event : string) (e : Effect Req Arg) : bool :=
  match e with
  | emit this ev _ => String.eqb ev event
  | _ => false
  end.

(** An effect of an object reaches the trace and, when it is an event a
    listener above waits for, runs that listener. *)
Definition deliver_producer (a : nat) (e : Owned.Eff) : M unit :=
  tell (on_producer a e) ;;;
  when (is_emit "@close" e) (on_producer_close a).

Definition deliver_consumer (a : nat) (e : Owned.Eff) : M unit :=
  tell (on_consumer a e) ;;;
  when (is_emit "@close" e) (on_consumer_close a) ;;;
  when (is_emit "@producerclose" e) (on_consumer_close a).

Definition deliver_dataProducer (a : nat) (e : DataProducer.Eff) : M unit :=
  tell (on_dataProducer a e) ;;;
  when (is_emit "@close" e) (on_dataProducer_close a).

Definition deliver_dataConsumer (a : nat) (e : Owned.Eff) : M unit :=
  tell (on_dataConsumer a e) ;;;
  when (is_emit "@close" e) (on_dataConsumer_close a) ;;;
  when (is_emit "@dataproducerclose" e) (on_dataConsumer_close a).

(** A method [m] called on the object at index [a] of a store: the object is
    updated in place and its effects are delivered in order. *)
Definition invoke {Obj E} (get : State -> option Obj) (put : Obj -> State -> State)
    (deliver : E -> M unit) (m : Js.M Obj E unit) : M unit :=
  o <- gets get ;;
  match o with
  | None => ret tt
  | Some o =>
      match m o with
      | (r, o', effs) =>
          modify (put o') ;;;
          for_of effs deliver ;;;
          lift_completion r
      end
  end.

Definition on_producerObj (a : nat) (m : Js.M Producer Owned.Eff unit) : M unit :=
  invoke (fun s => producerObjs s !! a)
         (fun o s => set_producerObjs (<[a:=o]> (producerObjs s)) s)
         (deliver_producer a) m.

Definition on_consumerObj (a : nat) (m : Js.M Consumer Owned.Eff unit) : M unit :=
  invoke (fun s => consumerObjs s !! a)
         (fun o s => set_consumerObjs (<[a:=o]> (consumerObjs s)) s)
         (deliver_consumer a) m.

Definition on_dataProducerObj (a : nat) (m : DataProducer.M unit) : M unit :=
  invoke (fun s => dataProducerObjs s !! a)
         (fun o s => set_dataProducerObjs (<[a:=o]> (dataProducerObjs s)) s)
         (deliver_dataProducer a) m.

Definition on_dataConsumerObj (a : nat) (m : Js.M DataConsumer Owned.Eff unit) : M unit :=
  invoke (fun s => fst <$> dataConsumerObjs s !! a)
         (fun o s => set_dataConsumerObjs
                       (alter (fun c => (o, snd c)) a (dataConsumerObjs s)) s)
         (deliver_dataConsumer a) m.

(** *** The three ways a Transport is closed *)

Definition close : M unit :=
  c <- gets closed ;;
  if c then ret tt else
  modify (set_closed true) ;;;
  i <- gets internal ;;
  tell (on_transport (channel_removeAllListeners (transportId i))) ;;;
  tell (on_transport (payloadChannel_removeAllListeners (transportId i))) ;;;
  tell (on_transport (channel_request "router.closeTransport" (Some (routerId i))
                        (Some (closeTransport_req (transportId i))))) ;;;
  ps <- gets producers ;;
  for_of (values ps) (fun producer =>
    on_producerObj producer Owned.transportClosed ;;;
    tell (on_transport (emit this "@producerclose" [producer_ref producer]))) ;;;
  modify (set_producers (clear ps)) ;;;
  cs <- gets consumers ;;
  for_of (values cs) (fun consumer =>
    on_consumerObj consumer Owned.transportClosed) ;;;
  modify (set_consumers (clear cs)) ;;;
  dps <- gets dataProducers ;;
  for_of (values dps) (fun dataProducer =>
    on_dataProducerObj dataProducer DataProducer.transportClosed ;;;
    tell (on_transport (emit this "@dataproducerclose" [dataProducer_ref dataProducer]))) ;;;
  modify (set_dataProducers (clear dps)) ;;;
  dcs <- gets dataConsumers ;;
  for_of (values dcs) (fun dataConsumer =>
    on_dataConsumerObj dataConsumer Owned.transportClosed) ;;;
  modify (set_dataConsumers (clear dcs)) ;;;
  tell (on_transport (emit this "@close" [])) ;;;
  tell (on_transport (safeEmit observer "close" [])).

(** The part shared by [routerClosed()] and [listenServerClosed()]: in the
    sources the two bodies repeat it. *)
Definition close_owned : M unit :=
  ps <- gets producers ;;
  for_of (values ps) (fun producer =>
    on_producerObj producer Owned.transportClosed) ;;;
  modify (set_producers (clear ps)) ;;;
  cs <- gets consumers ;;
  for_of (values cs) (fun consumer =>
    on_consumerObj consumer Owned.transportClosed) ;;;
  modify (set_consumers (clear cs)) ;;;
  dps <- gets dataProducers ;;
  for_of (values dps) (fun dataProducer =>
    on_dataProducerObj dataProducer DataProducer.transportClosed) ;;;
  modify (set_dataProducers (clear dps)) ;;;
  dcs <- gets dataConsumers ;;
  for_of (values dcs) (fun dataConsumer =>
    on_dataConsumerObj dataConsumer Owned.transportClosed) ;;;
  modify (set_dataConsumers (clear dcs)).

Definition routerClosed : M unit :=
  c <- gets closed ;;
  if c then ret tt else
  modify (set_closed true) ;;;
  i <- gets internal ;;
  tell (on_transport (channel_removeAllListeners (transportId i))) ;;;
  tell (on_transport (payloadChannel_removeAllListeners (transportId i))) ;;;
  close_owned ;;;
  tell (on_transport (safeEmit this "routerclose" [])) ;;;
  tell (on_transport (safeEmit observer "close" [])).

Definition listenServerClosed : M unit :=
  c <- gets closed ;;
  if c then ret tt else
  modify (set_closed true) ;;;
  i <- gets internal ;;
  tell (on_transport (channel_removeAllListeners (transportId i))) ;;;
  tell (on_transport (payloadChannel_removeAllListeners (transportId i))) ;;;
  close_owned ;;;
  tell (on_transport (emit this "@listenserverclose" [])) ;;;
  tell (on_transport (safeEmit this "listenserverclose" [])) ;;;
  tell (on_transport (safeEmit observer "close" [])).

(** *** produce() *)

(** What a suspended [produce()] keeps across its [await]. *)
Record ProduceCall := produceCall_
  { pc_producerId : string;
    pc_kind : string;
    pc_rtpParameters : RtpParameters;
    pc_consumableRtpParameters : RtpParameters;
    pc_appData : AppData;
    pc_paused : bool }.

Record ProduceStatus := produceStatus_ { ps_type : string }.

(** Lines 574 to 582: if missing or empty encodings, add one. *)
Definition encodings_blank (p : RtpParameters) : bool :=
  match encodings p with
  | encodings_falsy => true
  | encodings_not_array => true
  | encodings_array l => Nat.eqb (List.length l) 0
  end.

Definition normalize_encodings (p : RtpParameters) : RtpParameters :=
  if encodings_blank p then set_encodings (encodings_array [empty_encoding]) p else p.

(** Lines 584 to 604.  [uuid] is what [uuidv4()] returns if it is called. *)
Definition assign_cname (uuid : string) (p : RtpParameters) : M RtpParameters :=
  name <- gets constructor_name ;;
  if negb (String.eqb name "PipeTransport") then
    cn <- gets cnameForProducers ;;
    (if negb (truthy_opt cn) && truthy_opt (rtcp_cname p) then
       modify (set_cnameForProducers (rtcp_cname p))
     else if negb (truthy_opt cn) then
       modify (set_cnameForProducers (Some (substring 0 8 uuid)))
     else ret tt) ;;;
    cn <- gets cnameForProducers ;;
    let r := match rtcp p with Some r => r | None => empty_rtcp end in
    ret (set_rtcp (Some (set_cname cn r)) p)
  else ret p.

(** [produce()] up to its [await]; [uuid_cname] and [uuid_id] are the values
    of the two [uuidv4()] calls. *)
Definition produce_begin (router : Router) (uuid_cname uuid_id : string)
    (o : ProducerOptions) : M ProduceCall :=
  ps <- gets producers ;;
  let id := match po_id o with Some s => s | None => "" end in
  if truthy_opt (po_id o) && has id ps then
    throw TypeError ("a Producer with same id " ++ quoted id ++ " already exists")%string
  else if negb (includes (po_kind o) ["audio"; "video"]) then
    throw TypeError ("invalid kind " ++ quoted (po_kind o))%string
  else if appData_invalid (po_appData o) then
    throw TypeError "if given, appData must be an object"
  else
    lift_check (validateRtpParameters (po_rtpParameters o)) ;;;
    let rtpParameters := normalize_encodings (po_rtpParameters o) in
    rtpParameters <- assign_cname uuid_cname rtpParameters ;;
    let routerRtpCapabilities := getRouterRtpCapabilities router in
    rtpMapping <- lift_completion
      (getProducerRtpParametersMapping rtpParameters routerRtpCapabilities) ;;
    consumableRtpParameters <- lift_completion
      (getConsumableRtpParameters (po_kind o) rtpParameters routerRtpCapabilities
         rtpMapping) ;;
    let producerId := if truthy_opt (po_id o) then id else uuid_id in
    i <- gets internal ;;
    tell (on_transport (channel_request "transport.produce" (Some (transportId i))
            (Some (produce_req producerId (po_kind o) rtpParameters rtpMapping
                     (po_keyFrameRequestDelay o) (po_paused o))))) ;;;
    ret {| pc_producerId := producerId; pc_kind := po_kind o;
           pc_rtpParameters := rtpParameters;
           pc_consumableRtpParameters := consumableRtpParameters;
           pc_appData := po_appData o; pc_paused := po_paused o |}.

(** [produce()] from its [await] on, when the request resolved with
    [status]. *)
Definition produce_resume (c : ProduceCall) (status : ProduceStatus) : M nat :=
  i <- gets internal ;;
  producer <- new_producer
    (Owned.owned (pc_producerId c) (transportId i) false
       {| p_kind := pc_kind c; p_rtpParameters := pc_rtpParameters c;
          p_type := ps_type status;
          p_consumableRtpParameters := pc_consumableRtpParameters c;
          p_paused := pc_paused c; p_appData := pc_appData c |}) ;;
  ps <- gets producers ;;
  modify (set_producers (set (pc_producerId c) producer ps)) ;;;
  tell (on_transport (emit this "@newproducer" [producer_ref producer])) ;;;
  tell (on_transport (safeEmit observer "newproducer" [producer_ref producer])) ;;;
  ret producer.

(** *** consume() *)

Record ConsumeCall := consumeCall_
  { cc_consumerId : string;
    cc_producerId : string;
    cc_kind : string;
    cc_rtpParameters : RtpParameters;
    cc_type : string;
    cc_appData : AppData }.

Record ConsumeStatus := consumeStatus_
  { cs_paused : bool;
    cs_producerPaused : bool;
    cs_score : option ConsumerScore;
    cs_preferredLayers : option ConsumerLayers }.

(** [if (mid)] *)
Definition mid_truthy (m : Mid) : bool :=
  match m with
  | mid_falsy => false
  | mid_not_string => true
  | mid_string s => truthy s
  end.

(** [mid && (typeof mid !== 'string' || mid.length === 0)] *)
Definition mid_invalid (m : Mid) : bool :=
  mid_truthy m &&
  match m with
  | mid_string s => Nat.eqb (String.length s) 0
  | _ => true
  end.

Definition max_mid : N := 100000000.

(** [rtpParameters.mid = `${this.#nextMidForConsumers++}`] and the wrap of
    lines 737 to 744. *)
Definition next_mid : M string :=
  n <- gets nextMidForConsumers ;;
  modify (set_nextMidForConsumers (n + 1)) ;;;
  n' <- gets nextMidForConsumers ;;
  when (N.eqb n' max_mid)
    (tell (on_transport (logger_error
       ("consume() | reaching max MID value " ++ quoted (String_of_N n'))%string)) ;;;
     modify (set_nextMidForConsumers 0)) ;;;
  ret (String_of_N n).

(** The value of a truthy [mid]; one that is not a string does not get
    here, [consume()] has thrown. *)
Definition mid_value (m : Mid) : option string :=
  match m with mid_string s => Some s | _ => None end.

(** Lines 726 to 746: set MID. *)
Definition assign_mid (pipe : bool) (m : Mid) (p : RtpParameters) : M RtpParameters :=
  if negb pipe then
    if mid_truthy m then ret (set_mid (mid_value m) p)
    else
      s <- next_mid ;;
      ret (set_mid (Some s) p)
  else ret p.

(** [consume()] up to its [await]; [uuid] is the value of [uuidv4()]. *)
Definition consume_begin (router : Router) (uuid : string) (o : ConsumerOptions)
    : M ConsumeCall :=
  if negb (truthy_opt (co_producerId o)) then
    throw TypeError "missing producerId"
  else if appData_invalid (co_appData o) then
    throw TypeError "if given, appData must be an object"
  else if mid_invalid (co_mid o) then
    throw TypeError "if given, mid must be non empty string"
  else
    let producerId := match co_producerId o with Some s => s | None => "" end in
    lift_check (validateRtpCapabilities (co_rtpCapabilities o)) ;;;
    match getProducerById router producerId with
    | None =>
        throw Error ("Producer with id " ++ quoted producerId ++ " not found")%string
    | Some producer =>
        let enableRtx :=
          match co_enableRtx o with
          | Some b => b
          | None => String.eqb (p_kind (Owned.data producer)) "video"
          end in
        rtpParameters <- lift_completion
          (getConsumerRtpParameters (p_consumableRtpParameters (Owned.data producer))
             (co_rtpCapabilities o) (co_pipe o) enableRtx) ;;
        rtpParameters <- assign_mid (co_pipe o) (co_mid o) rtpParameters ;;
        let type := if co_pipe o then "pipe" else p_type (Owned.data producer) in
        i <- gets internal ;;
        tell (on_transport (channel_request "transport.consume" (Some (transportId i))
                (Some (consume_req uuid producerId (p_kind (Owned.data producer))
                         rtpParameters type
                         (encodings (p_consumableRtpParameters (Owned.data producer)))
                         (co_paused o) (co_preferredLayers o) (co_ignoreDtx o))))) ;;;
        ret {| cc_consumerId := uuid; cc_producerId := producerId;
               cc_kind := p_kind (Owned.data producer);
               cc_rtpParameters := rtpParameters; cc_type := type;
               cc_appData := co_appData o |}
    end.

Definition consume_resume (c : ConsumeCall) (status : ConsumeStatus) : M nat :=
  i <- gets internal ;;
  consumer <- new_consumer
    (Owned.owned (cc_consumerId c) (transportId i) false
       {| c_producerId := cc_producerId c; c_kind := cc_kind c;
          c_rtpParameters := cc_rtpParameters c; c_type := cc_type c;
          c_paused := cs_paused status; c_producerPaused := cs_producerPaused status;
          c_score := cs_score status; c_preferredLayers := cs_preferredLayers status;
          c_appData := cc_appData c |}) ;;
  cs <- gets consumers ;;
  modify (set_consumers (set (cc_consumerId c) consumer cs)) ;;;
  tell (on_transport (safeEmit observer "newconsumer" [consumer_ref consumer])) ;;;
  ret consumer.

(** *** produceData() *)

Record ProduceDataCall := produceDataCall_
  { pdc_dataProducerId : string; pdc_appData : AppData }.

Definition produceData_begin (uuid : string) (o : DataProducerOptions)
    : M ProduceDataCall :=
  dps <- gets dataProducers ;;
  let id := match dpo_id o with Some s => s | None => "" end in
  if truthy_opt (dpo_id o) && has id dps then
    throw TypeError ("a DataProducer with same id " ++ quoted id ++ " already exists")%string
  else if appData_invalid (dpo_appData o) then
    throw TypeError "if given, appData must be an object"
  else
    name <- gets constructor_name ;;
    type <-
      (if negb (String.eqb name "DirectTransport") then
         lift_check (validateSctpStreamParameters (dpo_sctpStreamParameters o)) ;;;
         ret DataProducer.sctp
       else
         when (match dpo_sctpStreamParameters o with Some _ => true | None => false end)
           (tell (on_transport (logger_warn
              "produceData() | sctpStreamParameters are ignored when producing data on a DirectTransport"))) ;;;
         ret DataProducer.direct) ;;
    let dataProducerId := if truthy_opt (dpo_id o) then id else uuid in
    i <- gets internal ;;
    tell (on_transport (channel_request "transport.produceData" (Some (transportId i))
            (Some (produceData_req dataProducerId type (dpo_sctpStreamParameters o)
                     (dpo_label o) (dpo_protocol o))))) ;;;
    ret {| pdc_dataProducerId := dataProducerId; pdc_appData := dpo_appData o |}.

Definition produceData_resume (c : ProduceDataCall) (data : DataProducer.Data) : M nat :=
  i <- gets internal ;;
  dataProducer <- new_dataProducer
    {| DataProducer.internal :=
         DataProducer.internal_ (routerId i) (transportId i) (pdc_dataProducerId c);
       DataProducer.data := data;
       DataProducer.closed := false;
       DataProducer.appData := pdc_appData c |} ;;
  dps <- gets dataProducers ;;
  modify (set_dataProducers (set (pdc_dataProducerId c) dataProducer dps)) ;;;
  tell (on_transport (emit this "@newdataproducer" [dataProducer_ref dataProducer])) ;;;
  tell (on_transport (safeEmit observer "newdataproducer" [dataProducer_ref dataProducer])) ;;;
  ret dataProducer.

(** *** consumeData() and the SCTP stream ids *)

(** [!this.#sctpStreamIds[sctpStreamId]] *)
Definition slot_free (ids : list N) (sctpStreamId : nat) : bool :=
  match ids !! sctpStreamId with
  | Some v => N.eqb v 0
  | None => true
  end.

(** The [for] loop of lines 1052 to 1062, with [n] iterations left. *)
Fixpoint scan (ids : list N) (next idx n : nat) : option nat :=
  match n with
  | 0 => None
  | S n' =>
      let sctpStreamId := (next + idx) mod List.length ids in
      if slot_free ids sctpStreamId then Some sctpStreamId
      else scan ids next (S idx) n'
  end.

Definition getNextSctpStreamId : M nat :=
  d <- gets data ;;
  match sctpParameters d with
  | None => throw TypeError "missing sctpParameters.MIS"
  | Some sp =>
      match MIS sp with
      | None => throw TypeError "missing sctpParameters.MIS"
      | Some numStreams =>
          ids <- gets sctpStreamIds ;;
          when (match ids with None => true | Some _ => false end)
            (modify (set_sctpStreamIds (Some (replicate numStreams 0%N)))) ;;;
          ids <- gets sctpStreamIds ;;
          let ids := match ids with Some b => b | None => [] end in
          next <- gets nextSctpStreamId ;;
          match scan ids next 0 (List.length ids) with
          | Some sctpStreamId =>
              modify (set_nextSctpStreamId (sctpStreamId + 1)) ;;;
              ret sctpStreamId
          | None => throw Error "no sctpStreamId available"
          end
      end
  end.

Record ConsumeDataCall := consumeDataCall_
  { cdc_dataConsumerId : string;
    cdc_sctpStreamId : option nat;
    cdc_appData : AppData }.

Definition override {A} (given : option A) (current : option A) : option A :=
  match given with Some v => Some v | None => current end.

Definition some {A} (o : option A) : bool :=
  match o with Some _ => true | None => false end.

Definition consumeData_begin (router : Router) (uuid : string) (o : DataConsumerOptions)
    : M ConsumeDataCall :=
  if negb (truthy_opt (dco_dataProducerId o)) then
    throw TypeError "missing dataProducerId"
  else if appData_invalid (dco_appData o) then
    throw TypeError "if given, appData must be an object"
  else
    let dataProducerId := match dco_dataProducerId o with Some s => s | None => "" end in
    match getDataProducerById router dataProducerId with
    | None =>
        throw Error ("DataProducer with id " ++ quoted dataProducerId ++ " not found")%string
    | Some dataProducer =>
        name <- gets constructor_name ;;
        r <-
          (if negb (String.eqb name "DirectTransport") then
             let p := utils_clone
                        (DataProducer.sctpStreamParameters (DataProducer.data dataProducer)) in
             let p := {| streamId := streamId p;
                         ordered := override (dco_ordered o) (ordered p);
                         maxPacketLifeTime :=
                           override (dco_maxPacketLifeTime o) (maxPacketLifeTime p);
                         maxRetransmits :=
                           override (dco_maxRetransmits o) (maxRetransmits p) |} in
             sctpStreamId <- getNextSctpStreamId ;;
             ids <- gets sctpStreamIds ;;
             modify (set_sctpStreamIds
                       (write_sctpStreamIds (Some sctpStreamId) 1%N <$> ids)) ;;;
             ret (DataProducer.sctp,
                  Some {| streamId := Some sctpStreamId; ordered := ordered p;
                          maxPacketLifeTime := maxPacketLifeTime p;
                          maxRetransmits := maxRetransmits p |},
                  Some sctpStreamId)
           else
             when (some (dco_ordered o) || some (dco_maxPacketLifeTime o)
                   || some (dco_maxRetransmits o))
               (tell (on_transport (logger_warn
                  "consumeData() | ordered, maxPacketLifeTime and maxRetransmits are ignored when consuming data on a DirectTransport"))) ;;;
             ret (DataProducer.direct, None, None)) ;;
        let '(type, sctpStreamParameters, sctpStreamId) := r in
        i <- gets internal ;;
        tell (on_transport (channel_request "transport.consumeData" (Some (transportId i))
                (Some (consumeData_req uuid dataProducerId type sctpStreamParameters
                         (DataProducer.label (DataProducer.data dataProducer))
                         (DataProducer.protocol (DataProducer.data dataProducer)))))) ;;;
        ret {| cdc_dataConsumerId := uuid; cdc_sctpStreamId := sctpStreamId;
               cdc_appData := dco_appData o |}
    end.

Definition consumeData_resume (c : ConsumeDataCall) (data : DataConsumerData) : M nat :=
  i <- gets internal ;;
  dataConsumer <- new_dataConsumer
    (Owned.owned (cdc_dataConsumerId c) (transportId i) false (data, cdc_appData c))
    (cdc_sctpStreamId c) ;;
  dcs <- gets dataConsumers ;;
  modify (set_dataConsumers (set (cdc_dataConsumerId c) dataConsumer dcs)) ;;;
  tell (on_transport (safeEmit observer "newdataconsumer" [dataConsumer_ref dataConsumer])) ;;;
  ret dataConsumer.

(** *** Whole calls and the interleaving of suspended calls *)

(** A call with nothing in between: [response] is how the request settled; a
    rejection is thrown at the [await]. *)
Definition produce (router : Router) (uuid_cname uuid_id : string) (o : ProducerOptions)
    (response : Completion ProduceStatus) : M nat :=
  c <- produce_begin router uuid_cname uuid_id o ;;
  match response with
  | Throw e => rethrow e
  | Return status => produce_resume c status
  end.

Definition consume (router : Router) (uuid : string) (o : ConsumerOptions)
    (response : Completion ConsumeStatus) : M nat :=
  c <- consume_begin router uuid o ;;
  match response with
  | Throw e => rethrow e
  | Return status => consume_resume c status
  end.

Definition produceData (uuid : string) (o : DataProducerOptions)
    (response : Completion DataProducer.Data) : M nat :=
  c <- produceData_begin uuid o ;;
  match response with
  | Throw e => rethrow e
  | Return data => produceData_resume c data
  end.

Definition consumeData (router : Router) (uuid : string) (o : DataConsumerOptions)
    (response : Completion DataConsumerData) : M nat :=
  c <- consumeData_begin router uuid o ;;
  match response with
  | Throw e => rethrow e
  | Return data => consumeData_resume c data
  end.

(** A call suspended at its [await]. *)
Inductive Pending :=
| pending_produce (c : ProduceCall)
| pending_consume (c : ConsumeCall)
| pending_produceData (c : ProduceDataCall)
| pending_consumeData (c : ConsumeDataCall).

Inductive Response :=
| produce_response (status : ProduceStatus)
| consume_response (status : ConsumeStatus)
| produceData_response (data : DataProducer.Data)
| consumeData_response (data : DataConsumerData).

(** A Transport together with the calls awaiting the engine. *)
Record Sys := sys_ { world : State; pending : list Pending }.

(** What can happen to a Transport, one turn of the event loop each. *)
Inductive Action :=
| call_close
| call_routerClosed
| call_listenServerClosed
| call_produce (router : Router) (uuid_cname uuid_id : string) (o : ProducerOptions)
| call_consume (router : Router) (uuid : string) (o : ConsumerOptions)
| call_produceData (uuid : string) (o : DataProducerOptions)
| call_consumeData (router : Router) (uuid : string) (o : DataConsumerOptions)
| resolve (i : nat) (r : Response)
| reject (i : nat)
| producer_close (a : nat)
| consumer_close (a : nat)
| consumer_producerclose (a : nat)
| dataProducer_close (a : nat)
| dataConsumer_close (a : nat)
| dataConsumer_dataproducerclose (a : nat).

(** A method that returns nothing to keep. *)
Definition run_unit {A} (m : M A) (s : Sys) : Sys * list Entry :=
  match m (world s) with
  | (_, w, l) => ({| world := w; pending := pending s |}, l)
  end.

(** A call up to its [await]: it is suspended unless it has thrown. *)
Definition run_begin {C} (m : M C) (k : C -> Pending) (s : Sys) : Sys * list Entry :=
  match m (world s) with
  | (Return c, w, l) => ({| world := w; pending := pending s ++ [k c] |}, l)
  | (Throw _, w, l) => ({| world := w; pending := pending s |}, l)
  end.

Definition run_resume {A} (i : nat) (m : M A) (s : Sys) : Sys * list Entry :=
  match m (world s) with
  | (_, w, l) => ({| world := w; pending := base.delete i (pending s) |}, l)
  end.

Definition step (a : Action) (s : Sys) : Sys * list Entry :=
  match a with
  | call_close => run_unit close s
  | call_routerClosed => run_unit routerClosed s
  | call_listenServerClosed => run_unit listenServerClosed s
  | call_produce router u1 u2 o => run_begin (produce_begin router u1 u2 o) pending_produce s
  | call_consume router u o => run_begin (consume_begin router u o) pending_consume s
  | call_produceData u o => run_begin (produceData_begin u o) pending_produceData s
  | call_consumeData router u o =>
      run_begin (consumeData_begin router u o) pending_consumeData s
  | resolve i r =>
      match pending s !! i, r with
      | Some (pending_produce c), produce_response st => run_resume i (produce_resume c st) s
      | Some (pending_consume c), consume_response st => run_resume i (consume_resume c st) s
      | Some (pending_produceData c), produceData_response d =>
          run_resume i (produceData_resume c d) s
      | Some (pending_consumeData c), consumeData_response d =>
          run_resume i (consumeData_resume c d) s
      | _, _ => (s, [])
      end
  | reject i => ({| world := world s; pending := base.delete i (pending s) |}, [])
  | producer_close a =>
      run_unit (on_producerObj a (Owned.close "transport.closeProducer")) s
  | consumer_close a =>
      run_unit (on_consumerObj a (Owned.close "transport.closeConsumer")) s
  | consumer_producerclose a =>
      run_unit (on_consumerObj a (Owned.sourceClosed "producerclose")) s
  | dataProducer_close a => run_unit (on_dataProducerObj a DataProducer.close) s
  | dataConsumer_close a =>
      run_unit (on_dataConsumerObj a (Owned.close "transport.closeDataConsumer")) s
  | dataConsumer_dataproducerclose a =>
      run_unit (on_dataConsumerObj a (Owned.sourceClosed "dataproducerclose")) s
  end.

Fixpoint run (acts : list Action) (s : Sys) : Sys :=
  match acts with
  | [] => s
  | a :: acts' => run acts' (fst (step a s))
  end.

(** The fields as the constructor and the field initialisers leave them. *)
Definition new (name : string) (i : Internal) (d : TransportData) (a : AppData) : State :=
  {| constructor_name := name; internal := i; data := d; closed := false; appData := a;
     producers := []; consumers := []; dataProducers := []; dataConsumers := [];
     cnameForProducers := None; nextMidForConsumers := 0; sctpStreamIds := None;
     nextSctpStreamId := 0; producerObjs := []; consumerObjs := [];
     dataProducerObjs := []; dataConsumerObjs := [] |}.

Definition reachable (s : Sys) : Prop :=
  exists name i d a acts, s = run acts {| world := new name i d a; pending := [] |}.

(** *** The terminal state of a close, and what counts as a notification *)

(** One turn of each of the four loops of a close. *)
Definition close_producer (a : nat) : M unit := on_producerObj a Owned.transportClosed.

Definition close_consumer (a : nat) : M unit := on_consumerObj a Owned.transportClosed.

Definition close_dataProducer (a : nat) : M unit :=
  on_dataProducerObj a DataProducer.transportClosed.

Definition close_dataConsumer_at (a : nat) : M unit :=
  on_dataConsumerObj a Owned.transportClosed.


(** Each object referred to by [refs] is changed by [f], in the order of
    [refs]. *)
Definition cascade {Obj} (f : Obj -> Obj) (refs : list nat) (objs : list Obj) : list Obj :=
  fold_left (fun os a => alter f a os) refs objs.

Definition close_dataConsumer (c : DataConsumer * option nat) : DataConsumer * option nat :=
  (Owned.set_closed true (fst c), snd c).

(** The state in which a close leaves an open Transport: the flag is set,
    the four maps are empty, every object the maps referred to is closed and
    the other fields are as they were. *)
Definition closed_state (s : State) : State :=
  {| constructor_name := constructor_name s; internal := internal s; data := data s;
     closed := true; appData := appData s;
     producers := []; consumers := []; dataProducers := []; dataConsumers := [];
     cnameForProducers := cnameForProducers s;
     nextMidForConsumers := nextMidForConsumers s; sctpStreamIds := sctpStreamIds s;
     nextSctpStreamId := nextSctpStreamId s;
     producerObjs :=
       cascade (Owned.set_closed true) (values (producers s)) (producerObjs s);
     consumerObjs :=
       cascade (Owned.set_closed true) (values (consumers s)) (consumerObjs s);
     dataProducerObjs :=
       cascade (DataProducer.set_closed true) (values (dataProducers s))
         (dataProducerObjs s);
     dataConsumerObjs :=
       cascade close_dataConsumer (values (dataConsumers s)) (dataConsumerObjs s) |}.

(** The notifications that leave the Transport upwards or outwards: the
    requests to the engine and the events emitted on the Transport itself,
    private or public.  The events of its [observer], the listeners it
    removes and what its objects do are not among them. *)
Definition upward (e : Entry) : bool :=
  match e with
  | on_transport (channel_request _ _ _) => true
  | on_transport (emit this _ _) => true
  | on_transport (safeEmit this _ _) => true
  | _ => false
  end.

Definition inward (e : Entry) : bool := negb (upward e).

(** The entries the Transport itself has caused. *)
Definition from_transport (e : Entry) : bool :=
  match e with on_transport _ => true | _ => false end.

Definition closeTransport_request (s : State) : Entry :=
  on_transport (channel_request "router.closeTransport" (Some (routerId (internal s)))
                  (Some (closeTransport_req (transportId (internal s))))).

Definition producerclose_signal (a : nat) : Entry :=
  on_transport (emit this "@producerclose" [producer_ref a]).

Definition dataproducerclose_signal (a : nat) : Entry :=
  on_transport (emit this "@dataproducerclose" [dataProducer_ref a]).

Definition observer_close : Entry := on_transport (safeEmit observer "close" []).

Definition is_observer_close (e : Entry) : bool :=
  match e with
  | on_transport (safeEmit observer ev _) => String.eqb ev "close"
  | _ => false
  end.

(** [P] is kept by every method a turn of the event loop can run. *)
Definition methods_stable (P : State -> Prop) : Prop :=
  stable P close /\ stable P routerClosed /\ stable P listenServerClosed
  /\ (forall router u1 u2 o, stable P (produce_begin router u1 u2 o))
  /\ (forall c st, stable P (produce_resume c st))
  /\ (forall router u o, stable P (consume_begin router u o))
  /\ (forall c st, stable P (consume_resume c st))
  /\ (forall u o, stable P (produceData_begin u o))
  /\ (forall c d, stable P (produceData_resume c d))
  /\ (forall router u o, stable P (consumeData_begin router u o))
  /\ (forall c d, stable P (consumeData_resume c d))
  /\ (forall a m, stable P (on_producerObj a m))
  /\ (forall a m, stable P (on_consumerObj a m))
  /\ (forall a m, stable P (on_dataProducerObj a m))
  /\ (forall a m, stable P (on_dataConsumerObj a m)).

(** *** What [produce()] and [consume()] are expected to assign *)

(** The CNAME of the Producers of a Transport: the one it already has, else
    the one the producer brings, else a random one. *)
Definition chosen_cname (s : State) (uuid : string) (p : RtpParameters) : option string :=
  if truthy_opt (cnameForProducers s) then cnameForProducers s
  else if truthy_opt (rtcp_cname p) then rtcp_cname p
  else Some (substring 0 8 uuid).

Definition is_pipe (s : State) : bool := String.eqb (constructor_name s) "PipeTransport".

(** The counter after a MID was taken from it. *)
Definition next_counter (n : N) : N :=
  if N.eqb (n + 1) max_mid then 0%N else (n + 1)%N.

Definition max_mid_reached : Entry :=
  on_transport (logger_error
    ("consume() | reaching max MID value " ++ quoted (String_of_N max_mid))%string).

(** A turn of the event loop that takes no MID from the counter: any but a
    [consume()] for a Consumer that is not a pipe Consumer and brings no mid
    of its own. *)
Definition takes_no_mid (a : Action) : bool :=
  match a with
  | call_consume _ _ o => co_pipe o || mid_truthy (co_mid o)
  | _ => true
  end.

(** A line logged through [logger.warn]. *)
Definition is_warning (e : Entry) : bool :=
  match e with
  | on_transport (logger_warn _) => true
  | _ => false
  end.

(** The arguments of [produce()] pass the checks of lines 558 to 572. *)
Definition produce_accepts (s : State) (o : ProducerOptions) : Prop :=
  (truthy_opt (po_id o)
   && has (match po_id o with Some id => id | None => "" end) (producers s)) = false
  /\ includes (po_kind o) ["audio"; "video"] = true
  /\ appData_invalid (po_appData o) = false
  /\ validateRtpParameters (po_rtpParameters o) = None.

(** The arguments of [consume()] pass the checks of lines 687 to 701. *)
Definition consume_accepts (o : ConsumerOptions) : Prop :=
  truthy_opt (co_producerId o) = true
  /\ appData_invalid (co_appData o) = false
  /\ mid_invalid (co_mid o) = false
  /\ validateRtpCapabilities (co_rtpCapabilities o) = None.

(** The Router does not know the [producerId] given. *)
Definition unresolved (router : Router) (o : ConsumerOptions) : Prop :=
  forall id, co_producerId o = Some id -> getProducerById router id = None.

(** Modelled from the spec: [ortc.getConsumableRtpParameters] is not part of
    the sources at hand.  By the scenario of section 8 (parameters without
    encodings give consumable parameters with exactly one encoding entry, the
    default inserted), the consumable parameters it returns have one encoding
    for each encoding of the parameters it is given. *)
Definition consumable_per_encoding : Prop :=
  forall kind p caps m c,
    getConsumableRtpParameters kind p caps m = Return c ->
    encodings_length c = encodings_length p.

(** *** What the allocation of SCTP stream ids is expected to do *)

(** [sctpParameters.MIS], when it is there and a number. *)
Definition MIS_of (s : State) : option nat :=
  match sctpParameters (data s) with
  | Some sp => MIS sp
  | None => None
  end.

(** The bitmap an allocation scans: the one the Transport has, else a fresh
    one of [numStreams] clear slots. *)
Definition bitmap (numStreams : nat) (s : State) : list N :=
  match sctpStreamIds s with
  | Some ids => ids
  | None => replicate numStreams 0%N
  end.

(** [k] is the first id whose slot is clear, going from [next] around the
    bitmap. *)
Definition first_free_from (ids : list N) (next k : nat) : Prop :=
  exists idx,
    idx < List.length ids
    /\ k = (next + idx) mod List.length ids
    /\ slot_free ids k = true
    /\ forall j, j < idx -> slot_free ids ((next + j) mod List.length ids) = false.

Definition all_taken (ids : list N) : Prop :=
  forall k, k < List.length ids -> slot_free ids k = false.

(** The Transport after an allocation has returned [k]. *)
Definition allocated (numStreams k : nat) (s : State) : State :=
  set_nextSctpStreamId (k + 1) (set_sctpStreamIds (Some (bitmap numStreams s)) s).

(** The Transport after an allocation has thrown. *)
Definition exhausted (numStreams : nat) (s : State) : State :=
  set_sctpStreamIds (Some (bitmap numStreams s)) s.

(** The Transport after [consumeData()] has marked the id [k] it got. *)
Definition marked (numStreams k : nat) (s : State) : State :=
  set_sctpStreamIds (Some (<[k:=1%N]> (bitmap numStreams s))) (allocated numStreams k s).

Definition no_sctpStreamId : Exception := exception Error "no sctpStreamId available".

(** [consumeData()] gets past its checks of lines 900 to 914 and finds
    [dataProducer]. *)
Definition consumeData_accepts (router : Router) (o : DataConsumerOptions)
    (dataProducer : DataProducer.t) : Prop :=
  truthy_opt (dco_dataProducerId o) = true
  /\ appData_invalid (dco_appData o) = false
  /\ forall id, dco_dataProducerId o = Some id ->
       getDataProducerById router id = Some dataProducer.

Definition is_direct (s : State) : bool := String.eqb (constructor_name s) "DirectTransport".

(** The stream id a DataConsumer holds while it is open. *)
Definition held (c : DataConsumer * option nat) : option nat :=
  if Owned.closed (fst c) then None else snd c.

Definition held_ids (s : State) : list nat := omap held (dataConsumerObjs s).

(** The stream id a suspended [consumeData()] has taken for the DataConsumer
    it is about to create. *)
Definition reserved (p : Pending) : option nat :=
  match p with
  | pending_consumeData c => cdc_sctpStreamId c
  | _ => None
  end.

Definition reserved_ids (l : list Pending) : list nat := omap reserved l.

(** The slot of [k] is set in the bitmap. *)
Definition taken (s : State) (k : nat) : Prop :=
  exists ids, sctpStreamIds s = Some ids /\ slot_free ids k = false.

(** The stream ids of the open DataConsumers and of the suspended calls. *)
Definition ids_in_use (s : Sys) : list nat :=
  held_ids (world s) ++ reserved_ids (pending s).

(** No two open DataConsumers or suspended calls have the same stream id,
    and the slot of each of their ids is set. *)
Definition allocator_inv (s : Sys) : Prop :=
  NoDup (ids_in_use s) /\ forall k, k ∈ ids_in_use s -> taken (world s) k.

(** The allocation as it would be if it looked at the DataConsumers: [k] is
    the first id, going from [next] around [size] ids, that no open
    DataConsumer holds. *)
Definition first_unheld_from (s : State) (size next k : nat) : Prop :=
  exists idx,
    idx < size
    /\ k = (next + idx) mod size
    /\ (k ∉ held_ids s)
    /\ forall j, j < idx -> (next + j) mod size ∈ held_ids s.

(** The slot of [k] is set although no open DataConsumer holds [k] and no
    suspended call has taken it. *)
Definition leaked (s : Sys) (k : nat) : Prop :=
  taken (world s) k /\ (k ∉ ids_in_use s).

(** The ids below [j] are taken, the others are free, and the cursor is at
    [j]: the allocator after [j] allocations and no release. *)
Definition filled (numStreams j : nat) (s : State) : Prop :=
  bitmap numStreams s = replicate j 1%N ++ replicate (numStreams - j) 0%N
  /\ nextSctpStreamId s = j.

(** Calls of [consumeData()] with the options [o] and answers of the engine,
    in the order in which they happen: [inl uuid] is a call, whose request
    carries the id [uuid], and [inr (i, r)] is the answer [r] to the call that
    is the [i]-th of those waiting. *)
Definition calls_and_answers (router : Router) (o : DataConsumerOptions)
    (events : list (string + nat * Response)) : list Action :=
  List.map (fun e => match e with
                     | inl uuid => call_consumeData router uuid o
                     | inr (i, r) => resolve i r
                     end) events.

(** How many of the events are calls. *)
Definition calls (events : list (string + nat * Response)) : nat :=
  List.length
    (List.filter (fun e => match e with inl _ => true | inr _ => false end) events).

(** *** What [produceData()] is expected to check and to request *)

(** The arguments of [produceData()] pass the checks of lines 815 to 822. *)
Definition produceData_accepts (s : State) (o : DataProducerOptions) : Prop :=
  (truthy_opt (dpo_id o)
   && has (match dpo_id o with Some id => id | None => "" end) (dataProducers s)) = false
  /\ appData_invalid (dpo_appData o) = false.

(** [id || uuidv4()] *)
Definition id_or (id : option string) (uuid : string) : string :=
  match id with
  | Some s => if truthy s then s else uuid
  | None => uuid
  end.

Definition produceData_request (s : State) (uuid : string) (o : DataProducerOptions)
    (type : DataProducer.DataProducerType) : Entry :=
  on_transport
    (channel_request "transport.produceData" (Some (transportId (internal s)))
       (Some (produceData_req (id_or (dpo_id o) uuid) type
                (dpo_sctpStreamParameters o) (dpo_label o) (dpo_protocol o)))).

Definition sctpStreamParameters_ignored : Entry :=
  on_transport (logger_warn
    "produceData() | sctpStreamParameters are ignored when producing data on a DirectTransport").

(** *** What [consumeData()] is expected to request *)




(** *** What a failing [produce()] or [consume()] leaves behind *)

(** The parameters [produce()] goes on with, on a Transport that is not a
    PipeTransport: one default encoding if there was none, and the CNAME of
    the Transport. *)
Definition produced_parameters (s : State) (uuid : string) (p : RtpParameters)
    : RtpParameters :=
  set_rtcp
    (Some (set_cname (chosen_cname s uuid p)
             (match rtcp p with Some r => r | None => empty_rtcp end)))
    (normalize_encodings p).

(** The bitmap, when it is there, has [numStreams] slots that hold 0 or 1,
    and the cursor is not beyond them. *)
Definition bitmap_shaped (numStreams : nat) (s : State) : Prop :=
  MIS_of s = Some numStreams
  /\ nextSctpStreamId s <= numStreams
  /\ match sctpStreamIds s with
     | Some ids =>
         List.length ids = numStreams /\ Forall (fun v => v = 0%N \/ v = 1%N) ids
     | None => True
     end.

(** *** The registries *)

(** A registry [m] over a store [objs]: one entry for a key, and each entry
    refers to an open object of the store whose id is the key. *)
Definition registered {Obj} (id : Obj -> string) (closed : Obj -> bool)
    (m : Map nat) (objs : list Obj) : Prop :=
  NoDup (keys m)
  /\ forall k a, In (k, a) m ->
       exists o, objs !! a = Some o /\ id o = k /\ closed o = false.

Definition registry_inv (s : State) : Prop :=
  registered Owned.id Owned.closed (producers s) (producerObjs s)
  /\ registered Owned.id Owned.closed (consumers s) (consumerObjs s)
  /\ registered DataProducer.id DataProducer.closed (dataProducers s) (dataProducerObjs s)
  /\ registered (fun c => Owned.id (fst c)) (fun c => Owned.closed (fst c))
       (dataConsumers s) (dataConsumerObjs s).

(** *** An object of a registry and the listeners on it *)

(** The events of a Producer, of a Consumer and of a DataConsumer that a
    listener installed by the Transport waits for. *)
Definition unregisters_producer (e : Owned.Eff) : bool := is_emit "@close" e.

Definition unregisters_consumer (e : Owned.Eff) : bool :=
  is_emit "@close" e || is_emit "@producerclose" e.

Definition unregisters_dataConsumer (e : Owned.Eff) : bool :=
  is_emit "@close" e || is_emit "@dataproducerclose" e.

(** The objects [produce()], [consume()] and [consumeData()] construct from
    what the call has kept and what the engine has answered. *)
Definition produced (c : ProduceCall) (status : ProduceStatus) (s : State) : Producer :=
  Owned.owned (pc_producerId c) (transportId (internal s)) false
    {| p_kind := pc_kind c; p_rtpParameters := pc_rtpParameters c;
       p_type := ps_type status;
       p_consumableRtpParameters := pc_consumableRtpParameters c;
       p_paused := pc_paused c; p_appData := pc_appData c |}.

Definition consumed (c : ConsumeCall) (status : ConsumeStatus) (s : State) : Consumer :=
  Owned.owned (cc_consumerId c) (transportId (internal s)) false
    {| c_producerId := cc_producerId c; c_kind := cc_kind c;
       c_rtpParameters := cc_rtpParameters c; c_type := cc_type c;
       c_paused := cs_paused status; c_producerPaused := cs_producerPaused status;
       c_score := cs_score status; c_preferredLayers := cs_preferredLayers status;
       c_appData := cc_appData c |}.

Definition consumedData (c : ConsumeDataCall) (data : DataConsumerData) (s : State)
    : DataConsumer :=
  Owned.owned (cdc_dataConsumerId c) (transportId (internal s)) false (data, cdc_appData c).

End Transport.

Abbreviation Producer := (Owned.t ProducerData).
Abbreviation Consumer := (Owned.t ConsumerData).
Abbreviation DataConsumer := (Owned.t (DataConsumerData * AppData)).

End Transport.

(** ** The state mirrors of the subclasses *)

Inductive SctpState :=
| sctp_new | sctp_connecting | sctp_connected | sctp_failed | sctp_closed.

Inductive IceState :=
| ice_new | ice_connected | ice_completed | ice_disconnected | ice_closed.

Inductive DtlsState :=
| dtls_new | dtls_connecting | dtls_connected | dtls_failed | dtls_closed.

Record TransportTuple := transportTuple_
  { localIp : string;
    localPort : nat;
    remoteIp : option string;
    remotePort : option nat;
    protocol : string }.

(** The argument of an event a subclass emits. *)
Inductive StateArg :=
| arg_sctpState (s : SctpState)
| arg_iceState (s : IceState)
| arg_dtlsState (s : DtlsState)
| arg_tuple (t : TransportTuple)
| arg_trace (info : string).

(** A notification of the engine for a transport: the event and its data. *)
Inductive Notification :=
| tuple_notification (t : TransportTuple)
| rtcptuple_notification (t : TransportTuple)
| icestatechange (s : IceState)
| iceselectedtuplechange (t : TransportTuple)
| dtlsstatechange (s : DtlsState) (dtlsRemoteCert : string)
| sctpstatechange (s : SctpState)
| trace_notification (info : string)
| unknown_notification (event : string).

Definition event_name (n : Notification) : string :=
  match n with
  | tuple_notification _ => "tuple"
  | rtcptuple_notification _ => "rtcptuple"
  | icestatechange _ => "icestatechange"
  | iceselectedtuplechange _ => "iceselectedtuplechange"
  | dtlsstatechange _ _ => "dtlsstatechange"
  | sctpstatechange _ => "sctpstatechange"
  | trace_notification _ => "trace"
  | unknown_notification event => event
  end.

(** ** PlainTransport *)

Module PlainTransport.

Section PlainTransport.
Context `{I : Imports} `{O : @Ortc I}.

Record Data := data_
  { rtcpMux : option bool;
    comedia : option bool;
    tuple : TransportTuple;
    rtcpTuple : option TransportTuple;
    sctpState : option SctpState }.

Record State := state_ { base : Transport.State; data : Data }.

Inductive Entry :=
| inherited (e : Transport.Entry)
| own (e : Effect Transport.Request StateArg).

Definition M := Js.M State Entry.

(** The inherited getter [this.closed]. *)
Definition closed (s : State) : bool := Transport.closed (base s).

Definition set_base (b : Transport.State) (s : State) : State :=
  {| base := b; data := data s |}.

Definition set_data (d : Data) (s : State) : State :=
  {| base := base s; data := d |}.

Definition set_sctpState (v : option SctpState) (d : Data) : Data :=
  {| rtcpMux := rtcpMux d; comedia := comedia d; tuple := tuple d;
     rtcpTuple := rtcpTuple d; sctpState := v |}.

Definition set_tuple (v : TransportTuple) (d : Data) : Data :=
  {| rtcpMux := rtcpMux d; comedia := comedia d; tuple := v;
     rtcpTuple := rtcpTuple d; sctpState := sctpState d |}.

Definition set_rtcpTuple (v : option TransportTuple) (d : Data) : Data :=
  {| rtcpMux := rtcpMux d; comedia := comedia d; tuple := tuple d;
     rtcpTuple := v; sctpState := sctpState d |}.

(** A method of the superclass run on this object. *)
Definition super {A} (m : Transport.M A) : M A :=
  fun s =>
    match m (base s) with
    | (r, b, l) => (r, set_base b s, List.map inherited l)
    end.

Local Open Scope js_scope.

(** [if (this.#data.sctpState) this.#data.sctpState = 'closed'] *)
Definition close_sctpState : M unit :=
  d <- gets data ;;
  match sctpState d with
  | Some _ => modify (set_data (set_sctpState (Some sctp_closed) d))
  | None => ret tt
  end.

Definition close : M unit :=
  c <- gets closed ;;
  if c then ret tt else
  close_sctpState ;;;
  super Transport.close.

Definition routerClosed : M unit :=
  c <- gets closed ;;
  if c then ret tt else
  close_sctpState ;;;
  super Transport.routerClosed.

(** Not overridden: the method of [Transport]. *)
Definition listenServerClosed : M unit := super Transport.listenServerClosed.

(** The listener of [handleWorkerNotifications()]. *)
Definition handleWorkerNotification (n : Notification) : M unit :=
  d <- gets data ;;
  match n with
  | tuple_notification t =>
      modify (set_data (set_tuple t d)) ;;;
      tell (own (safeEmit this "tuple" [arg_tuple t])) ;;;
      tell (own (safeEmit observer "tuple" [arg_tuple t]))
  | rtcptuple_notification t =>
      modify (set_data (set_rtcpTuple (Some t) d)) ;;;
      tell (own (safeEmit this "rtcptuple" [arg_tuple t])) ;;;
      tell (own (safeEmit observer "rtcptuple" [arg_tuple t]))
  | sctpstatechange st =>
      modify (set_data (set_sctpState (Some st) d)) ;;;
      tell (own (safeEmit this "sctpstatechange" [arg_sctpState st])) ;;;
      tell (own (safeEmit observer "sctpstatechange" [arg_sctpState st]))
  | trace_notification info =>
      tell (own (safeEmit this "trace" [arg_trace info])) ;;;
      tell (own (safeEmit observer "trace" [arg_trace info]))
  | _ =>
      tell (own (logger_error ("ignoring unknown event " ++ quoted (event_name n))%string))
  end.

End PlainTransport.

End PlainTransport.

(** ** WebRtcTransport *)

Module WebRtcTransport.

Section WebRtcTransport.
Context `{I : Imports} `{O : @Ortc I}.

Record Data := data_
  { iceState : IceState;
    iceSelectedTuple : option TransportTuple;
    dtlsState : DtlsState;
    dtlsRemoteCert : option string;
    sctpState : option SctpState }.

Record State := state_ { base : Transport.State; data : Data }.

Inductive Entry :=
| inherited (e : Transport.Entry)
| own (e : Effect Transport.Request StateArg).

Definition M := Js.M State Entry.

(** The inherited getter [this.closed]. *)
Definition closed (s : State) : bool := Transport.closed (base s).

Definition set_base (b : Transport.State) (s : State) : State :=
  {| base := b; data := data s |}.

Definition set_data (d : Data) (s : State) : State :=
  {| base := base s; data := d |}.

Definition set_iceState (v : IceState) (d : Data) : Data :=
  {| iceState := v; iceSelectedTuple := iceSelectedTuple d; dtlsState := dtlsState d;
     dtlsRemoteCert := dtlsRemoteCert d; sctpState := sctpState d |}.

Definition set_iceSelectedTuple (v : option TransportTuple) (d : Data) : Data :=
  {| iceState := iceState d; iceSelectedTuple := v; dtlsState := dtlsState d;
     dtlsRemoteCert := dtlsRemoteCert d; sctpState := sctpState d |}.

Definition set_dtlsState (v : DtlsState) (d : Data) : Data :=
  {| iceState := iceState d; iceSelectedTuple := iceSelectedTuple d; dtlsState := v;
     dtlsRemoteCert := dtlsRemoteCert d; sctpState := sctpState d |}.

Definition set_dtlsRemoteCert (v : option string) (d : Data) : Data :=
  {| iceState := iceState d; iceSelectedTuple := iceSelectedTuple d;
     dtlsState := dtlsState d; dtlsRemoteCert := v; sctpState := sctpState d |}.

Definition set_sctpState (v : option SctpState) (d : Data) : Data :=
  {| iceState := iceState d; iceSelectedTuple := iceSelectedTuple d;
     dtlsState := dtlsState d; dtlsRemoteCert := dtlsRemoteCert d; sctpState := v |}.

Definition super {A} (m : Transport.M A) : M A :=
  fun s =>
    match m (base s) with
    | (r, b, l) => (r, set_base b s, List.map inherited l)
    end.

Local Open Scope js_scope.

(** The four assignments that open [close()], [routerClosed()] and
    [webRtcServerClosed()]. *)
Definition close_mirrors : M unit :=
  modify (fun s => set_data (set_iceState ice_closed (data s)) s) ;;;
  modify (fun s => set_data (set_iceSelectedTuple None (data s)) s) ;;;
  modify (fun s => set_data (set_dtlsState dtls_closed (data s)) s) ;;;
  d <- gets data ;;
  match sctpState d with
  | Some _ => modify (set_data (set_sctpState (Some sctp_closed) d))
  | None => ret tt
  end.

Definition close : M unit :=
  c <- gets closed ;;
  if c then ret tt else
  close_mirrors ;;;
  super Transport.close.

Definition routerClosed : M unit :=
  c <- gets closed ;;
  if c then ret tt else
  close_mirrors ;;;
  super Transport.routerClosed.

Definition webRtcServerClosed : M unit :=
  c <- gets closed ;;
  if c then ret tt else
  close_mirrors ;;;
  super Transport.listenServerClosed.

(** Not overridden: the method of [Transport]. *)
Definition listenServerClosed : M unit := super Transport.listenServerClosed.

(** The listener of [handleWorkerNotifications()]. *)
Definition handleWorkerNotification (n : Notification) : M unit :=
  d <- gets data ;;
  match n with
  | icestatechange st =>
      modify (set_data (set_iceState st d)) ;;;
      tell (own (safeEmit this "icestatechange" [arg_iceState st])) ;;;
      tell (own (safeEmit observer "icestatechange" [arg_iceState st]))
  | iceselectedtuplechange t =>
      modify (set_data (set_iceSelectedTuple (Some t) d)) ;;;
      tell (own (safeEmit this "iceselectedtuplechange" [arg_tuple t])) ;;;
      tell (own (safeEmit observer "iceselectedtuplechange" [arg_tuple t]))
  | dtlsstatechange st cert =>
      modify (set_data (set_dtlsState st d)) ;;;
      when (match st with dtls_connected => true | _ => false end)
        (modify (fun s => set_data (set_dtlsRemoteCert (Some cert) (data s)) s)) ;;;
      tell (own (safeEmit this "dtlsstatechange" [arg_dtlsState st])) ;;;
      tell (own (safeEmit observer "dtlsstatechange" [arg_dtlsState st]))
  | sctpstatechange st =>
      modify (set_data (set_sctpState (Some st) d)) ;;;
      tell (own (safeEmit this "sctpstatechange" [arg_sctpState st])) ;;;
      tell (own (safeEmit observer "sctpstatechange" [arg_sctpState st]))
  | trace_notification info =>
      tell (own (safeEmit this "trace" [arg_trace info])) ;;;
      tell (own (safeEmit observer "trace" [arg_trace info]))
  | _ =>
      tell (own (logger_error ("ignoring unknown event " ++ quoted (event_name n))%string))
  end.

End WebRtcTransport.

End WebRtcTransport.

(** ** WebRtcServer *)

Module WebRtcServer.

Section WebRtcServer.
Context `{I : Imports} `{O : @Ortc I}.

Inductive Request := closeWebRtcServer (webRtcServerId : string).

(** The WebRtcTransports are objects of their Routers; the server keeps
    references to them, here indices into [webRtcTransportObjs]. *)
Record State := state_
  { webRtcServerId : string;
    closed : bool;
    appData : AppData;
    webRtcTransports : Map nat;
    webRtcTransportObjs : list WebRtcTransport.State }.

Inductive Entry :=
| on_server (e : Effect Request nat)
| on_webRtcTransport (a : nat) (e : WebRtcTransport.Entry).

Definition M := Js.M State Entry.

Definition set_closed (v : bool) (s : State) : State :=
  {| webRtcServerId := webRtcServerId s; closed := v; appData := appData s;
     webRtcTransports := webRtcTransports s;
     webRtcTransportObjs := webRtcTransportObjs s |}.

Definition set_webRtcTransports (v : Map nat) (s : State) : State :=
  {| webRtcServerId := webRtcServerId s; closed := closed s; appData := appData s;
     webRtcTransports := v; webRtcTransportObjs := webRtcTransportObjs s |}.

Definition set_webRtcTransportObjs (v : list WebRtcTransport.State) (s : State) : State :=
  {| webRtcServerId := webRtcServerId s; closed := closed s; appData := appData s;
     webRtcTransports := webRtcTransports s; webRtcTransportObjs := v |}.

Local Open Scope js_scope.

(** A method called on the WebRtcTransport at index [a]. *)
Definition on_webRtcTransportObj (a : nat) (m : WebRtcTransport.M unit) : M unit :=
  os <- gets webRtcTransportObjs ;;
  match os !! a with
  | None => ret tt
  | Some o =>
      match m o with
      | (r, o', effs) =>
          modify (set_webRtcTransportObjs (<[a:=o']> os)) ;;;
          for_of effs (fun e => tell (on_webRtcTransport a e)) ;;;
          match r with Return _ => ret tt | Throw e => rethrow e end
      end
  end.

Definition close : M unit :=
  c <- gets closed ;;
  if c then ret tt else
  modify (set_closed true) ;;;
  i <- gets webRtcServerId ;;
  tell (on_server (channel_request "worker.closeWebRtcServer" None
                     (Some (closeWebRtcServer i)))) ;;;
  ts <- gets webRtcTransports ;;
  for_of (values ts) (fun webRtcTransport =>
    on_webRtcTransportObj webRtcTransport WebRtcTransport.listenServerClosed ;;;
    tell (on_server (safeEmit observer "webrtctransportunhandled" [webRtcTransport]))) ;;;
  modify (set_webRtcTransports (clear ts)) ;;;
  tell (on_server (emit this "@close" [])) ;;;
  tell (on_server (safeEmit observer "close" [])).

Definition workerClosed : M unit :=
  c <- gets closed ;;
  if c then ret tt else
  modify (set_closed true) ;;;
  ts <- gets webRtcTransports ;;
  modify (set_webRtcTransports (clear ts)) ;;;
  tell (on_server (safeEmit this "workerclose" [])) ;;;
  tell (on_server (safeEmit observer "close" [])).

(** [handleWebRtcTransport(webRtcTransport)], for the transport at index
    [a]. *)
Definition handleWebRtcTransport (a : nat) : M unit :=
  os <- gets webRtcTransportObjs ;;
  match os !! a with
  | None => ret tt
  | Some webRtcTransport =>
      ts <- gets webRtcTransports ;;
      modify (set_webRtcTransports
                (set (Transport.transportId (Transport.internal
                        (WebRtcTransport.base webRtcTransport))) a ts)) ;;;
      tell (on_server (safeEmit observer "webrtctransporthandled" [a]))
  end.

(** The listener [webRtcTransport.on('@close', ...)] of lines 242 to 248. *)
Definition on_webRtcTransport_close (a : nat) : M unit :=
  os <- gets webRtcTransportObjs ;;
  match os !! a with
  | None => ret tt
  | Some webRtcTransport =>
      ts <- gets webRtcTransports ;;
      modify (set_webRtcTransports
                (delete (Transport.transportId (Transport.internal
                           (WebRtcTransport.base webRtcTransport))) ts)) ;;;
      tell (on_server (safeEmit observer "webrtctransportunhandled" [a]))
  end.

(** *** What closing a WebRtcServer is expected to do *)

(** The entries the server itself has caused. *)
Definition from_server (e : Entry) : bool :=
  match e with on_server _ => true | _ => false end.

Definition closeWebRtcServer_request (s : State) : Entry :=
  on_server (channel_request "worker.closeWebRtcServer" None
               (Some (closeWebRtcServer (webRtcServerId s)))).

Definition handled (a : nat) : Entry :=
  on_server (safeEmit observer "webrtctransporthandled" [a]).

Definition unhandled (a : nat) : Entry :=
  on_server (safeEmit observer "webrtctransportunhandled" [a]).

(** A WebRtcTransport after [listenServerClosed()]. *)
Definition listen_closed (t : WebRtcTransport.State) : WebRtcTransport.State :=
  state (WebRtcTransport.listenServerClosed t).

(** The id under which the server keeps a WebRtcTransport. *)
Definition id_of (t : WebRtcTransport.State) : string :=
  Transport.transportId (Transport.internal (WebRtcTransport.base t)).

End WebRtcServer.

End WebRtcServer.

(** ** An instance of the imports, for the examples *)

Module Examples.

#[export] Instance imports : Imports :=
  {| RtpCapabilities := list string;
     RtpMapping := list (N * N);
     MediaSection := list string;
     ConsumerLayers := nat;
     ConsumerScore := nat;
     DataConsumerData := string |}.

(** Validators that accept everything, a mapping of nothing, consumable
    parameters with the encodings they are made from, and consumer parameters
    that repeat the consumable ones. *)
Definition consumable (p : RtpParameters) : RtpParameters :=
  {| mid := None; media := media p;
     encodings := encodings p;
     rtcp := rtcp p |}.

#[export] Instance ortc : Ortc :=
  {| validateRtpParameters := fun _ => None;
     validateRtpCapabilities := fun _ => None;
     validateSctpStreamParameters := fun _ => None;
     getProducerRtpParametersMapping := fun _ _ => Return [];
     getConsumableRtpParameters := fun _ p _ _ => Return (consumable p);
     getConsumerRtpParameters := fun p _ _ _ => Return p;
     utils_clone := fun o =>
       match o with
       | Some p => p
       | None => {| streamId := None; ordered := None; maxPacketLifeTime := None;
                    maxRetransmits := None |}
       end |}.

Definition router : Transport.Router :=
  {| Transport.getRouterRtpCapabilities := [];
     Transport.getProducerById := fun _ => None;
     Transport.getDataProducerById := fun _ => None |}.

Definition a_dataProducer : DataProducer.t :=
  {| DataProducer.internal := DataProducer.internal_ "r" "t0" "dp";
     DataProducer.data := DataProducer.data_ DataProducer.sctp None "" "";
     DataProducer.closed := false;
     DataProducer.appData := appData_falsy |}.

(** A Router that knows the DataProducer ["dp"]. *)
Definition router_dp : Transport.Router :=
  {| Transport.getRouterRtpCapabilities := [];
     Transport.getProducerById := fun _ => None;
     Transport.getDataProducerById := fun id =>
       if String.eqb id "dp" then Some a_dataProducer else None |}.

(** A transport of class [name] whose SCTP parameters carry [MIS = mis]. *)
Definition transport (name : string) (mis : nat) : Transport.State :=
  Transport.new name (Transport.internal_ "r" "t")
    (Transport.transportData_ (Some (Transport.sctpParameters_ 5000 1024 (Some mis) 262144)))
    appData_falsy.

Definition consumeData_options : Transport.DataConsumerOptions :=
  {| Transport.dco_dataProducerId := Some "dp"; Transport.dco_ordered := None;
     Transport.dco_maxPacketLifeTime := None; Transport.dco_maxRetransmits := None;
     Transport.dco_appData := appData_falsy |}.

Definition rtp (c : option string) (e : Encodings) : RtpParameters :=
  {| mid := None; media := []; encodings := e;
     rtcp := Some {| cname := c; reducedSize := None; mux := None |} |}.

Definition produce_options (id : option string) (c : option string) (e : Encodings)
    : Transport.ProducerOptions :=
  {| Transport.po_id := id; Transport.po_kind := "video";
     Transport.po_rtpParameters := rtp c e; Transport.po_paused := false;
     Transport.po_keyFrameRequestDelay := None; Transport.po_appData := appData_falsy |}.

(** The WebRtcTransport of the examples after a Producer and a DataProducer
    were created on it. *)
Definition produceData_options : Transport.DataProducerOptions :=
  {| Transport.dpo_id := Some "dp"; Transport.dpo_sctpStreamParameters := None;
     Transport.dpo_label := ""; Transport.dpo_protocol := "";
     Transport.dpo_appData := appData_falsy |}.

Definition busy : Transport.Sys :=
  Transport.run
    [Transport.call_produce router "0f1e2d3c-uuid" "p1"
       (produce_options None None encodings_falsy);
     Transport.resolve 0 (Transport.produce_response (Transport.produceStatus_ "simple"));
     Transport.call_produceData "dp1" produceData_options;
     Transport.resolve 0
       (Transport.produceData_response (DataProducer.data_ DataProducer.sctp None "" ""))]
    (Transport.sys_ (transport "WebRtcTransport" 2) []).

(** Two [produce()] for the id ["x"] on the WebRtcTransport of the examples,
    the second made while the first awaits the engine, and both answered. *)
Definition same_id_twice : Transport.Sys :=
  Transport.run
    [Transport.call_produce router "0f1e2d3c-uuid" "u1"
       (produce_options (Some "x") None encodings_falsy);
     Transport.call_produce router "4b5a6978-uuid" "u2"
       (produce_options (Some "x") None encodings_falsy);
     Transport.resolve 0 (Transport.produce_response (Transport.produceStatus_ "simple"));
     Transport.resolve 0 (Transport.produce_response (Transport.produceStatus_ "simple"))]
    (Transport.sys_ (transport "WebRtcTransport" 2) []).

(** A WebRtcTransport with ICE, DTLS and SCTP connected, and a WebRtcServer
    that handles it. *)
Definition connected : WebRtcTransport.State :=
  {| WebRtcTransport.base := transport "WebRtcTransport" 2;
     WebRtcTransport.data :=
       {| WebRtcTransport.iceState := ice_connected;
          WebRtcTransport.iceSelectedTuple := None;
          WebRtcTransport.dtlsState := dtls_connected;
          WebRtcTransport.dtlsRemoteCert := None;
          WebRtcTransport.sctpState := Some sctp_connected |} |}.

Definition server : WebRtcServer.State :=
  state (WebRtcServer.handleWebRtcTransport 0
           {| WebRtcServer.webRtcServerId := "srv"; WebRtcServer.closed := false;
              WebRtcServer.appData := appData_falsy;
              WebRtcServer.webRtcTransports := [];
              WebRtcServer.webRtcTransportObjs := [connected] |}).

Definition closed_dataProducer : DataProducer.t :=
  DataProducer.set_closed true a_dataProducer.

(** A Router that knows the video Producer ["p1"]. *)
Definition a_producer : Transport.Producer :=
  Owned.owned "p1" "t0" false
    {| Transport.p_kind := "video";
       Transport.p_rtpParameters := rtp None (encodings_array [empty_encoding]);
       Transport.p_type := "simple";
       Transport.p_consumableRtpParameters :=
         consumable (rtp None (encodings_array [empty_encoding]));
       Transport.p_paused := false; Transport.p_appData := appData_falsy |}.

Definition router_p : Transport.Router :=
  {| Transport.getRouterRtpCapabilities := [];
     Transport.getProducerById := fun id =>
       if String.eqb id "p1" then Some a_producer else None;
     Transport.getDataProducerById := fun _ => None |}.

Definition consume_options (id : string) (m : Mid) (pipe : bool)
    : Transport.ConsumerOptions :=
  {| Transport.co_producerId := Some id; Transport.co_rtpCapabilities := [];
     Transport.co_paused := false; Transport.co_mid := m;
     Transport.co_preferredLayers := None; Transport.co_ignoreDtx := false;
     Transport.co_enableRtx := None; Transport.co_pipe := pipe;
     Transport.co_appData := appData_falsy |}.

(** [n] calls of [consume()] in a row for the Producer ["p1"], without a mid,
    each rejected by the engine. *)
Definition rejected_consumes (n : N) : list Transport.Action :=
  N.iter n
    (fun acts =>
       Transport.call_consume router_p "u" (consume_options "p1" mid_falsy false)
       :: Transport.reject 0 :: acts)
    [].

(** The WebRtcTransport of the examples after 99999999 such calls. *)
Definition last_mid : Transport.State :=
  Transport.set_nextMidForConsumers 99999999 (transport "WebRtcTransport" 2).

(** A WebRtcTransport with one stream id and a [consumeData()] awaiting the
    engine. *)
Definition one_pending : Transport.Sys :=
  Transport.run
    [Transport.call_consumeData router_dp "dc1" consumeData_options]
    (Transport.sys_ (transport "WebRtcTransport" 1) []).

(** A WebRtcTransport with two stream ids: the DataConsumer ["dc1"] holds
    id 0, and a [consumeData()] awaiting the engine has taken id 1. *)
Definition both_taken : Transport.Sys :=
  Transport.run
    [Transport.call_consumeData router_dp "dc1" consumeData_options;
     Transport.call_consumeData router_dp "dc2" consumeData_options;
     Transport.resolve 0 (Transport.consumeData_response "data")]
    (Transport.sys_ (transport "WebRtcTransport" 2) []).

(** A PlainTransport whose SCTP association is connected. *)
Definition plain : PlainTransport.State :=
  {| PlainTransport.base := transport "PlainTransport" 2;
     PlainTransport.data :=
       {| PlainTransport.rtcpMux := Some true;
          PlainTransport.comedia := None;
          PlainTransport.tuple := transportTuple_ "127.0.0.1" 4000 None None "udp";
          PlainTransport.rtcpTuple := None;
          PlainTransport.sctpState := Some sctp_connected |} |}.

End Examples.

(** ** Vocabulary of the properties *)

(** On a closed resource the operation does nothing: no change of state, no
    effect, no throw. *)
Definition silent_when_closed {S E} (closed : S -> bool) (op : Js.M S E unit) : Prop :=
  forall s, closed s = true -> op s = (Return tt, s, []).

(** The operation leaves the resource closed. *)
Definition closes {S E} (closed : S -> bool) (op : Js.M S E unit) : Prop :=
  forall s, closed (state (op s)) = true.

(** The closing operations [ops] of a resource: each closes it, and each is
    silent once any of them has run. *)
Definition idempotent_closing {S E} (closed : S -> bool) (ops : list (Js.M S E unit))
    : Prop :=
  forall op, In op ops ->
    silent_when_closed closed op
    /\ closes closed op
    /\ forall op', In op' ops ->
         forall s, op (state (op' s)) = (Return tt, state (op' s), []).

(** How a close leaves the mirrors of a WebRtcTransport and of a
    PlainTransport: ICE and DTLS closed, SCTP closed when it is there. *)
Definition closed_sctpState (before : option SctpState) : option SctpState :=
  match before with Some _ => Some sctp_closed | None => None end.

Definition webRtc_mirrors_closed (before after : WebRtcTransport.Data) : Prop :=
  WebRtcTransport.iceState after = ice_closed
  /\ WebRtcTransport.dtlsState after = dtls_closed
  /\ WebRtcTransport.sctpState after = closed_sctpState (WebRtcTransport.sctpState before).

Definition plain_mirrors_closed (before after : PlainTransport.Data) : Prop :=
  PlainTransport.sctpState after = closed_sctpState (PlainTransport.sctpState before).

(** The flag of a closed resource stays set. *)
Definition keeps_closed {S E A} (closed : S -> bool) (op : Js.M S E A) : Prop :=
  stable (fun s => closed s = true) op.

(** The notification [send] issues. *)
Definition sent (p : DataProducer.t) (ppid : string) (payload : DataProducer.Message)
    : DataProducer.Eff :=
  payloadChannel_notify "dataProducer.send" (DataProducer.id p) ppid payload.



(** The data of a WebRtcTransport after a close that closes its mirrors: the
    ICE and DTLS states closed, SCTP closed when it is there, no selected
    tuple, and the remote certificate kept. *)
Definition webRtc_closed_data (d : WebRtcTransport.Data) : WebRtcTransport.Data :=
  {| WebRtcTransport.iceState := ice_closed;
     WebRtcTransport.iceSelectedTuple := None;
     WebRtcTransport.dtlsState := dtls_closed;
     WebRtcTransport.dtlsRemoteCert := WebRtcTransport.dtlsRemoteCert d;
     WebRtcTransport.sctpState := closed_sctpState (WebRtcTransport.sctpState d) |}.

(** The data of a PlainTransport after such a close: SCTP closed when it is
    there, the rest kept. *)
Definition plain_closed_data (d : PlainTransport.Data) : PlainTransport.Data :=
  PlainTransport.set_sctpState (closed_sctpState (PlainTransport.sctpState d)) d.

(** *** Notifications in a row *)

(** The value of a mirror after the notifications [ns]: what the last
    notification about it ([pick]) has said, else what it was. *)
Definition latest {A} (pick : Notification -> option A) (ns : list Notification)
    (before : A) : A :=
  fold_left (fun v n => match pick n with Some v' => v' | None => v end) ns before.

Definition ice_of (n : Notification) : option IceState :=
  match n with icestatechange st => Some st | _ => None end.

Definition iceTuple_of (n : Notification) : option (option TransportTuple) :=
  match n with iceselectedtuplechange t => Some (Some t) | _ => None end.

Definition dtls_of (n : Notification) : option DtlsState :=
  match n with dtlsstatechange st _ => Some st | _ => None end.

(** The remote certificate comes with a change of the DTLS state to
    connected only. *)
Definition cert_of (n : Notification) : option (option string) :=
  match n with dtlsstatechange dtls_connected cert => Some (Some cert) | _ => None end.

Definition sctp_of (n : Notification) : option (option SctpState) :=
  match n with sctpstatechange st => Some (Some st) | _ => None end.

Definition tuple_of (n : Notification) : option TransportTuple :=
  match n with tuple_notification t => Some t | _ => None end.

Definition rtcpTuple_of (n : Notification) : option (option TransportTuple) :=
  match n with rtcptuple_notification t => Some (Some t) | _ => None end.

(** The listener of a transport run on the notifications [ns], in the order
    in which they arrive. *)
Definition webRtc_notifications `{I : Imports} `{O : @Ortc I} (ns : list Notification)
    : WebRtcTransport.M unit :=
  for_of ns WebRtcTransport.handleWorkerNotification.

Definition plain_notifications `{I : Imports} `{O : @Ortc I} (ns : list Notification)
    : PlainTransport.M unit :=
  for_of ns PlainTransport.handleWorkerNotification.

(** * Properties *)

(** ** The monad *)

Section MonadFacts.
Context {S E : Type}.
Implicit Types (s : S).

Lemma bind_Return {A B} (m : M S E A) (k : A -> M S E B) s a s1 l1 :
  m s = (Return a, s1, l1) ->
  bind m k s = (result (k a s1), state (k a s1), l1 ++ trace (k a s1)).
Proof.
  intros Hm. unfold bind. rewrite Hm.
  destruct (k a s1) as [[r s2] l2]. reflexivity.
Qed.

Lemma bind_Throw {A B} (m : M S E A) (k : A -> M S E B) s e s1 l1 :
  m s = (Throw e, s1, l1) -> bind m k s = (Throw e, s1, l1).
Proof. intros Hm. unfold bind. rewrite Hm. reflexivity. Qed.

Lemma outcome_eta {A} (o : Completion A * S * list E) :
  o = (result o, state o, trace o).
Proof. destruct o as [[r s] l]. reflexivity. Qed.

Lemma for_of_tell {A} (f : A -> E) (xs : list A) s :
  for_of xs (fun x => tell (f x)) s = (Return tt, s, List.map f xs).
Proof.
  revert s. induction xs as [|x xs IH]; intros s; [reflexivity|].
  cbn [for_of]. erewrite bind_Return by reflexivity.
  rewrite IH. reflexivity.
Qed.

Lemma result_bind_Return {A B} (m : M S E A) (k : A -> M S E B) s a :
  result (m s) = Return a -> result (bind m k s) = result (k a (state (m s))).
Proof.
  intros Hm. rewrite (bind_Return m k s a (state (m s)) (trace (m s))); [reflexivity|].
  rewrite <- Hm. apply outcome_eta.
Qed.

Lemma state_bind_Return {A B} (m : M S E A) (k : A -> M S E B) s a :
  result (m s) = Return a -> state (bind m k s) = state (k a (state (m s))).
Proof.
  intros Hm. rewrite (bind_Return m k s a (state (m s)) (trace (m s))); [reflexivity|].
  rewrite <- Hm. apply outcome_eta.
Qed.

Lemma trace_bind_Return {A B} (m : M S E A) (k : A -> M S E B) s a :
  result (m s) = Return a ->
  trace (bind m k s) = trace (m s) ++ trace (k a (state (m s))).
Proof.
  intros Hm. rewrite (bind_Return m k s a (state (m s)) (trace (m s))); [reflexivity|].
  rewrite <- Hm. apply outcome_eta.
Qed.

Section Stable.
Context (P : S -> Prop).

Lemma stable_ret {A} (a : A) : stable (E:=E) P (ret a).
Proof. intros s Hs. exact Hs. Qed.

Lemma stable_gets {A} (f : S -> A) : stable (E:=E) P (gets f).
Proof. intros s Hs. exact Hs. Qed.

Lemma stable_tell (e : E) : stable P (tell e).
Proof. intros s Hs. exact Hs. Qed.

Lemma stable_throw {A} c msg : stable P (@throw S E A c msg).
Proof. intros s Hs. exact Hs. Qed.

Lemma stable_rethrow {A} e : stable P (@rethrow S E A e).
Proof. intros s Hs. exact Hs. Qed.

Lemma stable_modify (g : S -> S) : (forall s, P s -> P (g s)) -> stable (E:=E) P (modify g).
Proof. intros Hg s Hs. apply Hg, Hs. Qed.

Lemma stable_bind {A B} (m : M S E A) (k : A -> M S E B) :
  stable P m -> (forall a, stable P (k a)) -> stable P (bind m k).
Proof.
  intros Hm Hk s Hs. unfold bind. specialize (Hm s Hs).
  destruct (m s) as [[[a|e] s1] l1]; cbn in *; [|exact Hm].
  specialize (Hk a s1 Hm). destruct (k a s1) as [[r s2] l2]. exact Hk.
Qed.

Lemma stable_when b (m : M S E unit) : stable P m -> stable P (when b m).
Proof. intros Hm. destruct b; [exact Hm|apply stable_ret]. Qed.

Lemma stable_for_of {A} (xs : list A) (body : A -> M S E unit) :
  (forall x, stable P (body x)) -> stable P (for_of xs body).
Proof.
  intros Hb. induction xs as [|x xs IH]; [apply stable_ret|].
  apply stable_bind; [apply Hb|intros _; exact IH].
Qed.

End Stable.

Section Loops.
Context {A : Type} (body : A -> M S E unit).
Hypothesis body_returns : forall x s, result (body x s) = Return tt.

Lemma for_of_result xs s : result (for_of xs body s) = Return tt.
Proof.
  revert s. induction xs as [|x xs IH]; intros s; [reflexivity|].
  cbn [for_of]. rewrite (result_bind_Return _ _ _ tt) by apply body_returns. apply IH.
Qed.

Lemma for_of_state (g : A -> S -> S) xs s :
  (forall x s, state (body x s) = g x s) ->
  state (for_of xs body s) = fold_left (fun s x => g x s) xs s.
Proof.
  intros Hg. revert s. induction xs as [|x xs IH]; intros s; [reflexivity|].
  cbn [for_of fold_left]. rewrite (state_bind_Return _ _ _ tt) by apply body_returns.
  rewrite IH, Hg. reflexivity.
Qed.

Lemma for_of_filter_nil (p : E -> bool) xs s :
  (forall x s, List.filter p (trace (body x s)) = []) ->
  List.filter p (trace (for_of xs body s)) = [].
Proof.
  intros Hp. revert s. induction xs as [|x xs IH]; intros s; [reflexivity|].
  cbn [for_of]. rewrite (trace_bind_Return _ _ _ tt) by apply body_returns.
  rewrite List.filter_app, Hp, IH. reflexivity.
Qed.

Lemma then_tell_returns n x s : result (then_tell body n x s) = Return tt.
Proof.
  unfold then_tell. rewrite (result_bind_Return _ _ _ tt) by apply body_returns.
  reflexivity.
Qed.

Lemma then_tell_state n x s : state (then_tell body n x s) = state (body x s).
Proof.
  unfold then_tell. rewrite (state_bind_Return _ _ _ tt) by apply body_returns.
  reflexivity.
Qed.

Lemma then_tell_trace n x s : trace (then_tell body n x s) = trace (body x s) ++ [n x].
Proof.
  unfold then_tell. rewrite (trace_bind_Return _ _ _ tt) by apply body_returns.
  reflexivity.
Qed.

Lemma for_of_then_tell_state n xs s :
  state (for_of xs (then_tell body n) s) = state (for_of xs body s).
Proof.
  revert s. induction xs as [|x xs IH]; intros s; [reflexivity|].
  cbn [for_of]. rewrite (state_bind_Return _ _ _ tt) by apply then_tell_returns.
  rewrite (state_bind_Return _ _ _ tt) by apply body_returns.
  rewrite then_tell_state. apply IH.
Qed.

Lemma for_of_then_tell_drop n (p : E -> bool) xs s :
  (forall x, p (n x) = false) ->
  List.filter p (trace (for_of xs (then_tell body n) s))
  = List.filter p (trace (for_of xs body s)).
Proof.
  intros Hp. revert s. induction xs as [|x xs IH]; intros s; [reflexivity|].
  cbn [for_of]. rewrite (trace_bind_Return _ _ _ tt) by apply then_tell_returns.
  rewrite (trace_bind_Return _ _ _ tt) by apply body_returns.
  rewrite then_tell_state, then_tell_trace, !List.filter_app, IH.
  cbn [List.filter]. rewrite Hp, app_nil_r. reflexivity.
Qed.

Lemma for_of_then_tell_keep n (q : E -> bool) xs s :
  (forall x, q (n x) = true) ->
  (forall x s, List.filter q (trace (body x s)) = []) ->
  List.filter q (trace (for_of xs (then_tell body n) s)) = List.map n xs.
Proof.
  intros Hq Hb. revert s. induction xs as [|x xs IH]; intros s; [reflexivity|].
  cbn [for_of List.map]. rewrite (trace_bind_Return _ _ _ tt) by apply then_tell_returns.
  rewrite then_tell_trace, !List.filter_app, Hb, IH.
  cbn [List.filter]. rewrite Hq. reflexivity.
Qed.

End Loops.

End MonadFacts.

(** ** DataProducer.send *)

Section DataProducerSend.
Import DataProducer.

Lemma String_of_Z_inj z z' : String_of_Z z = String_of_Z z' -> z = z'.
Proof.
  unfold String_of_Z. intros H.
  assert (Hnil : forall x, Z.to_int x <> Decimal.Pos Decimal.Nil
                           /\ Z.to_int x <> Decimal.Neg Decimal.Nil).
  { intros x. destruct x as [|q|q]; cbn; split; try discriminate;
      intros Hq; injection Hq as Hq; exact (Unsigned.to_uint_nonnil _ Hq). }
  assert (Hi : Some (Z.to_int z) = Some (Z.to_int z')).
  { rewrite <- (NilZero.isi (Z.to_int z)), <- (NilZero.isi (Z.to_int z'));
      try apply Hnil. rewrite H. reflexivity. }
  injection Hi as Hi. rewrite <- (DecimalZ.of_to z), <- (DecimalZ.of_to z'), Hi.
  reflexivity.
Qed.

(** The text of a number that is not a safe integer is not the text of a
    safe integer. *)
Lemma text_not_safe (o : OtherNumber) (n : SafeInteger) :
  text o <> String_of_Z (value n).
Proof.
  intros H. pose proof (text_other o) as Ho. unfold prints_safe_integer in Ho.
  rewrite H in Ho. unfold String_of_Z in Ho at 1.
  rewrite NilZero.isi in Ho.
  - rewrite DecimalZ.of_to, (value_safe n), String.eqb_refl in Ho. discriminate.
  - destruct (value n); cbn; try discriminate.
    intros Hq; injection Hq as Hq; exact (Unsigned.to_uint_nonnil _ Hq).
  - destruct (value n); cbn; try discriminate.
    intros Hq; injection Hq as Hq; exact (Unsigned.to_uint_nonnil _ Hq).
Qed.

(** C10, the counterexample: with the explicit ppid 51 an empty string is
    sent as it is, so an empty payload does go out. *)
Lemma send_empty_payload :
  exists payload,
    In (sent Examples.a_dataProducer "51" payload)
       (trace (send (msg_string "") (Some ppid_51) Examples.a_dataProducer))
    /\ message_length payload = 0.
Proof. exists (msg_string ""). split; [left; reflexivity | reflexivity]. Qed.

(** C10, as amended: [send] throws a TypeError when the message is neither a
    string nor a Buffer; a ppid that is not a number defaults to 51 for a
    non-empty string, 56 for an empty string, 53 for a non-empty Buffer and 57
    for an empty Buffer; with ppid 56 the message notified is a single space
    and with ppid 57 a one-byte Buffer; with any other explicit ppid, a safe
    integer or not, the message is notified as given, with the ppid as
    [String()] prints it.  So no empty payload is notified when the ppid is
    left out, and the text notified is ["56"] or ["57"] only when the ppid is
    that number. *)
Theorem send_honours_ppid (p : t) :
  (forall ppid,
      send msg_other ppid p
      = (Throw (exception TypeError "message must be a string or a Buffer"), p, []))
  /\ (forall s, s <> "" ->
        send (msg_string s) None p = (Return tt, p, [sent p "51" (msg_string s)]))
  /\ send (msg_string "") None p = (Return tt, p, [sent p "56" (msg_string " ")])
  /\ (forall b, b <> [] ->
        send (msg_buffer b) None p = (Return tt, p, [sent p "53" (msg_buffer b)]))
  /\ send (msg_buffer []) None p = (Return tt, p, [sent p "57" (msg_buffer [x00])])
  /\ (forall m n, m <> msg_other -> value n = 56%Z ->
        send m (Some (integer n)) p = (Return tt, p, [sent p "56" (msg_string " ")]))
  /\ (forall m n, m <> msg_other -> value n = 57%Z ->
        send m (Some (integer n)) p = (Return tt, p, [sent p "57" (msg_buffer [x00])]))
  /\ (forall m n, m <> msg_other -> value n <> 56%Z -> value n <> 57%Z ->
        send m (Some (integer n)) p
        = (Return tt, p, [sent p (String_of_Z (value n)) m])
        /\ String_of_Z (value n) <> "56" /\ String_of_Z (value n) <> "57")
  /\ (forall m n, m <> msg_other ->
        send m (Some (other_number n)) p = (Return tt, p, [sent p (text n) m])
        /\ text n <> "56" /\ text n <> "57")
  /\ (forall m ppid payload,
        In (sent p ppid payload) (trace (send m None p)) -> message_length payload <> 0).
Proof.
  split; [reflexivity|].
  split; [intros s Hs; destruct s; [congruence | reflexivity]|].
  split; [reflexivity|].
  split; [intros b Hb; destruct b; [congruence | reflexivity]|].
  split; [reflexivity|].
  split.
  { intros m n Hm Hn. unfold send, strict_equal, String_of_Number. rewrite Hn.
    destruct m; [reflexivity | reflexivity | congruence]. }
  split.
  { intros m n Hm Hn. unfold send, strict_equal, String_of_Number. rewrite Hn.
    destruct m; [reflexivity | reflexivity | congruence]. }
  split.
  { intros m n Hm H56 H57. split; [|split].
    - unfold send, strict_equal, String_of_Number.
      apply Z.eqb_neq in H56, H57. rewrite H56, H57.
      destruct m; [reflexivity | reflexivity | congruence].
    - intros H. apply H56, String_of_Z_inj. exact H.
    - intros H. apply H57, String_of_Z_inj. exact H. }
  split.
  { intros m n Hm. split; [|split].
    - destruct m; [reflexivity | reflexivity | congruence].
    - exact (text_not_safe n {| value := 56; value_safe := eq_refl |}).
    - exact (text_not_safe n {| value := 57; value_safe := eq_refl |}). }
  intros m ppid payload Hin.
  destruct m as [s|b|]; [destruct s | destruct b |];
    cbn in Hin; unfold sent in Hin;
    repeat match goal with
           | H : _ \/ _ |- _ => destruct H
           | H : False |- _ => destruct H
           | H : payloadChannel_notify _ _ _ _ = payloadChannel_notify _ _ _ _ |- _ =>
               injection H as <- <-
           end; cbn; congruence.
Qed.

Lemma send_honours_ppid_witness :
  "hello" <> ""
  /\ send (msg_string "hello") None Examples.a_dataProducer
     = (Return tt, Examples.a_dataProducer,
        [sent Examples.a_dataProducer "51" (msg_string "hello")]).
Proof.
  split; [discriminate|].
  apply (proj1 (proj2 (send_honours_ppid Examples.a_dataProducer))). discriminate.
Defined.

(** The number 1e21 is no safe integer; [String()] prints it as ["1e+21"],
    and so it is sent. *)
Lemma send_prints_ppid :
  send (msg_string "a") (Some (other_number {| text := "1e+21"; text_other := eq_refl |}))
    Examples.a_dataProducer
  = (Return tt, Examples.a_dataProducer,
     [sent Examples.a_dataProducer "1e+21" (msg_string "a")]).
Proof. reflexivity. Qed.

End DataProducerSend.

(** ** RtpObserver.pause and resume *)

Section RtpObserverPause.
Import RtpObserver.


End RtpObserverPause.

(** ** The three closes of a Transport *)

Section MonadSteps.
Context {S E : Type}.

Lemma bind_gets {A B} (f : S -> A) (k : A -> M S E B) s : bind (gets f) k s = k (f s) s.
Proof. unfold bind, gets. destruct (k (f s) s) as [[r s1] l]. reflexivity. Qed.

Lemma bind_modify {B} (g : S -> S) (k : unit -> M S E B) s :
  bind (modify g) k s = k tt (g s).
Proof. unfold bind, modify. destruct (k tt (g s)) as [[r s1] l]. reflexivity. Qed.

Lemma bind_ret {A B} (a : A) (k : A -> M S E B) s : bind (ret a) k s = k a s.
Proof. unfold bind, ret. destruct (k a s) as [[r s1] l]. reflexivity. Qed.

Lemma bind_tell {B} (e : E) (k : unit -> M S E B) s :
  bind (tell e) k s = (result (k tt s), state (k tt s), e :: trace (k tt s)).
Proof. unfold bind, tell. destruct (k tt s) as [[r s1] l]. reflexivity. Qed.

Lemma step_gets {A B} (f : S -> A) (k : A -> M S E B) s o :
  k (f s) s = o -> bind (gets f) k s = o.
Proof. intros <-. apply bind_gets. Qed.

Lemma step_modify {B} (g : S -> S) (k : unit -> M S E B) s o :
  k tt (g s) = o -> bind (modify g) k s = o.
Proof. intros <-. apply bind_modify. Qed.

Lemma step_tell {B} (e : E) (k : unit -> M S E B) s r s1 l :
  k tt s = (r, s1, l) -> bind (tell e) k s = (r, s1, e :: l).
Proof. intros Hk. rewrite bind_tell, Hk. reflexivity. Qed.

Lemma step_bind {A B} (m : M S E A) (k : A -> M S E B) s a s1 l1 r s2 l2 :
  m s = (Return a, s1, l1) -> k a s1 = (r, s2, l2) -> bind m k s = (r, s2, l1 ++ l2).
Proof. intros Hm Hk. rewrite (bind_Return m k s a s1 l1 Hm), Hk. reflexivity. Qed.

Lemma returns_eq {A} (m : M S E A) s a s1 :
  result (m s) = Return a -> state (m s) = s1 -> m s = (Return a, s1, trace (m s)).
Proof. intros <- <-. apply outcome_eta. Qed.

End MonadSteps.

Lemma alter_lookup {A} (f : A -> A) (a : nat) (l : list A) :
  alter f a l = match l !! a with Some o => <[a := f o]> l | None => l end.
Proof.
  revert a. induction l as [|x l IH]; intros [|a]; cbn; try reflexivity.
  specialize (IH a). cbn in IH. rewrite IH. destruct (l !! a); reflexivity.
Qed.

Section TransportClose.
Context `{I : Imports} `{O : @Ortc I}.
Import Transport.

Lemma set_producerObjs_id s : set_producerObjs (producerObjs s) s = s.
Proof. destruct s; reflexivity. Qed.

Lemma set_consumerObjs_id s : set_consumerObjs (consumerObjs s) s = s.
Proof. destruct s; reflexivity. Qed.

Lemma set_dataProducerObjs_id s : set_dataProducerObjs (dataProducerObjs s) s = s.
Proof. destruct s; reflexivity. Qed.

Lemma set_dataConsumerObjs_id s : set_dataConsumerObjs (dataConsumerObjs s) s = s.
Proof. destruct s; reflexivity. Qed.

(** One turn of a loop: the object is closed and nothing is caused by the
    Transport itself. *)
Lemma close_producer_eq a s :
  close_producer a s
  = (Return tt, set_producerObjs (alter (Owned.set_closed true) a (producerObjs s)) s,
     trace (close_producer a s))
  /\ List.filter from_transport (trace (close_producer a s)) = [].
Proof.
  rewrite alter_lookup. unfold close_producer, on_producerObj, invoke. rewrite bind_gets.
  destruct (producerObjs s !! a) as [o|] eqn:Ho.
  - destruct o as [id tid [|] d]; unfold Owned.set_closed; cbn.
    + rewrite !list_insert_id by exact Ho. rewrite !set_producerObjs_id.
      split; reflexivity.
    + split; reflexivity.
  - cbn. rewrite set_producerObjs_id. split; reflexivity.
Qed.

Lemma close_consumer_eq a s :
  close_consumer a s
  = (Return tt, set_consumerObjs (alter (Owned.set_closed true) a (consumerObjs s)) s,
     trace (close_consumer a s))
  /\ List.filter from_transport (trace (close_consumer a s)) = [].
Proof.
  rewrite alter_lookup. unfold close_consumer, on_consumerObj, invoke. rewrite bind_gets.
  destruct (consumerObjs s !! a) as [o|] eqn:Ho.
  - destruct o as [id tid [|] d]; unfold Owned.set_closed; cbn.
    + rewrite !list_insert_id by exact Ho. rewrite !set_consumerObjs_id.
      split; reflexivity.
    + split; reflexivity.
  - cbn. rewrite set_consumerObjs_id. split; reflexivity.
Qed.

Lemma close_dataProducer_eq a s :
  close_dataProducer a s
  = (Return tt,
     set_dataProducerObjs (alter (DataProducer.set_closed true) a (dataProducerObjs s)) s,
     trace (close_dataProducer a s))
  /\ List.filter from_transport (trace (close_dataProducer a s)) = [].
Proof.
  rewrite alter_lookup. unfold close_dataProducer, on_dataProducerObj, invoke.
  rewrite bind_gets.
  destruct (dataProducerObjs s !! a) as [o|] eqn:Ho.
  - destruct o as [i d [|] ad]; unfold DataProducer.set_closed; cbn.
    + rewrite !list_insert_id by exact Ho. rewrite !set_dataProducerObjs_id.
      split; reflexivity.
    + split; reflexivity.
  - cbn. rewrite set_dataProducerObjs_id. split; reflexivity.
Qed.

Lemma close_dataConsumer_at_eq a s :
  close_dataConsumer_at a s
  = (Return tt,
     set_dataConsumerObjs (alter close_dataConsumer a (dataConsumerObjs s)) s,
     trace (close_dataConsumer_at a s))
  /\ List.filter from_transport (trace (close_dataConsumer_at a s)) = [].
Proof.
  rewrite alter_lookup.
  unfold close_dataConsumer_at, on_dataConsumerObj, invoke. rewrite bind_gets.
  destruct (dataConsumerObjs s !! a) as [[o sid]|] eqn:Ho.
  - destruct o as [id tid [|] d]; unfold close_dataConsumer, Owned.set_closed; cbn.
    + rewrite alter_lookup, Ho. cbn.
      rewrite !list_insert_id by exact Ho. rewrite !set_dataConsumerObjs_id.
      split; reflexivity.
    + rewrite !alter_lookup, !Ho. split; reflexivity.
  - cbn. rewrite set_dataConsumerObjs_id. split; reflexivity.
Qed.

Lemma quiet (p : Entry -> bool) (l : list Entry) :
  (forall e, p e = true -> from_transport e = true) ->
  List.filter from_transport l = [] -> List.filter p l = [].
Proof.
  intros Hp. induction l as [|e l IH]; [reflexivity|]. cbn.
  destruct (from_transport e) eqn:He; [discriminate|]. intros Hl.
  destruct (p e) eqn:Hpe; [apply Hp in Hpe; congruence|]. apply IH, Hl.
Qed.

Lemma upward_from_transport e : upward e = true -> from_transport e = true.
Proof. destruct e; cbn; congruence. Qed.

Lemma observer_close_from_transport e :
  is_observer_close e = true -> from_transport e = true.
Proof. destruct e; cbn; congruence. Qed.

Lemma filter_inward_id (l : list Entry) :
  List.filter upward l = [] -> List.filter inward l = l.
Proof.
  induction l as [|e l IH]; [reflexivity|]. cbn. unfold inward at 1.
  destruct (upward e); [discriminate|]. cbn. intros H0. rewrite IH by exact H0.
  reflexivity.
Qed.

Section Store.
Context {Obj : Type} (get : State -> list Obj) (put : list Obj -> State -> State).
Hypothesis get_put : forall v s, get (put v s) = v.
Hypothesis put_put : forall v w s, put v (put w s) = put v s.
Hypothesis put_get : forall s, put (get s) s = s.

Lemma fold_store (f : Obj -> Obj) refs s :
  fold_left (fun s a => put (alter f a (get s)) s) refs s
  = put (cascade f refs (get s)) s.
Proof.
  revert s. induction refs as [|a refs IH]; intros s; cbn.
  - symmetry. apply put_get.
  - rewrite IH, get_put, put_put. reflexivity.
Qed.

Context (body : nat -> M unit) (f : Obj -> Obj).
Hypothesis body_eq :
  forall a s, body a s = (Return tt, put (alter f a (get s)) s, trace (body a s))
              /\ List.filter from_transport (trace (body a s)) = [].

Lemma body_returns a s : result (body a s) = Return tt.
Proof. destruct (body_eq a s) as [-> _]. reflexivity. Qed.

(** A loop whose turns each close one object of the store. *)
Lemma cascade_loop refs s :
  for_of refs body s
  = (Return tt, put (cascade f refs (get s)) s, trace (for_of refs body s))
  /\ List.filter from_transport (trace (for_of refs body s)) = [].
Proof.
  split.
  - apply returns_eq; [apply for_of_result, body_returns|].
    rewrite (for_of_state body body_returns (fun a s => put (alter f a (get s)) s)).
    + apply fold_store.
    + intros a s0. destruct (body_eq a s0) as [-> _]. reflexivity.
  - apply for_of_filter_nil; [exact body_returns|]. intros a s0. apply body_eq.
Qed.

(** The same loop telling the Router after each turn. *)
Lemma cascade_loop_telling (n : nat -> Entry) refs s :
  (forall a, upward (n a) = true) ->
  (forall a, is_observer_close (n a) = false) ->
  for_of refs (then_tell body n) s
  = (Return tt, put (cascade f refs (get s)) s, trace (for_of refs (then_tell body n) s))
  /\ List.filter upward (trace (for_of refs (then_tell body n) s)) = List.map n refs
  /\ List.filter inward (trace (for_of refs (then_tell body n) s))
     = trace (for_of refs body s)
  /\ List.filter is_observer_close (trace (for_of refs (then_tell body n) s)) = [].
Proof.
  intros Hn Hn'.
  destruct (cascade_loop refs s) as [Heq Hq].
  split; [|split; [|split]].
  - apply returns_eq; [apply for_of_result, then_tell_returns, body_returns|].
    rewrite for_of_then_tell_state by exact body_returns. rewrite Heq. reflexivity.
  - apply for_of_then_tell_keep; [exact body_returns|exact Hn|]. intros a s0.
    apply quiet; [apply upward_from_transport|apply body_eq].
  - rewrite for_of_then_tell_drop.
    + apply filter_inward_id, quiet; [apply upward_from_transport|exact Hq].
    + exact body_returns.
    + intros a. unfold inward. rewrite Hn. reflexivity.
  - rewrite for_of_then_tell_drop; [|exact body_returns|exact Hn'].
    apply quiet; [apply observer_close_from_transport|exact Hq].
Qed.

End Store.

Lemma producers_loop refs s :
  for_of refs close_producer s
  = (Return tt, set_producerObjs (cascade (Owned.set_closed true) refs (producerObjs s)) s,
     trace (for_of refs close_producer s))
  /\ List.filter from_transport (trace (for_of refs close_producer s)) = [].
Proof.
  apply (cascade_loop producerObjs set_producerObjs); try reflexivity.
  - apply set_producerObjs_id.
  - apply close_producer_eq.
Qed.

Lemma consumers_loop refs s :
  for_of refs close_consumer s
  = (Return tt, set_consumerObjs (cascade (Owned.set_closed true) refs (consumerObjs s)) s,
     trace (for_of refs close_consumer s))
  /\ List.filter from_transport (trace (for_of refs close_consumer s)) = [].
Proof.
  apply (cascade_loop consumerObjs set_consumerObjs); try reflexivity.
  - apply set_consumerObjs_id.
  - apply close_consumer_eq.
Qed.

Lemma dataProducers_loop refs s :
  for_of refs close_dataProducer s
  = (Return tt,
     set_dataProducerObjs
       (cascade (DataProducer.set_closed true) refs (dataProducerObjs s)) s,
     trace (for_of refs close_dataProducer s))
  /\ List.filter from_transport (trace (for_of refs close_dataProducer s)) = [].
Proof.
  apply (cascade_loop dataProducerObjs set_dataProducerObjs); try reflexivity.
  - apply set_dataProducerObjs_id.
  - apply close_dataProducer_eq.
Qed.

Lemma dataConsumers_loop refs s :
  for_of refs close_dataConsumer_at s
  = (Return tt,
     set_dataConsumerObjs (cascade close_dataConsumer refs (dataConsumerObjs s)) s,
     trace (for_of refs close_dataConsumer_at s))
  /\ List.filter from_transport (trace (for_of refs close_dataConsumer_at s)) = [].
Proof.
  apply (cascade_loop dataConsumerObjs set_dataConsumerObjs); try reflexivity.
  - apply set_dataConsumerObjs_id.
  - apply close_dataConsumer_at_eq.
Qed.

Lemma producers_loop_telling refs s :
  for_of refs (then_tell close_producer producerclose_signal) s
  = (Return tt, set_producerObjs (cascade (Owned.set_closed true) refs (producerObjs s)) s,
     trace (for_of refs (then_tell close_producer producerclose_signal) s))
  /\ List.filter upward (trace (for_of refs (then_tell close_producer producerclose_signal) s))
     = List.map producerclose_signal refs
  /\ List.filter inward (trace (for_of refs (then_tell close_producer producerclose_signal) s))
     = trace (for_of refs close_producer s)
  /\ List.filter is_observer_close
       (trace (for_of refs (then_tell close_producer producerclose_signal) s)) = [].
Proof.
  apply (cascade_loop_telling producerObjs set_producerObjs); try reflexivity.
  - apply set_producerObjs_id.
  - apply close_producer_eq.
Qed.

Lemma dataProducers_loop_telling refs s :
  for_of refs (then_tell close_dataProducer dataproducerclose_signal) s
  = (Return tt,
     set_dataProducerObjs
       (cascade (DataProducer.set_closed true) refs (dataProducerObjs s)) s,
     trace (for_of refs (then_tell close_dataProducer dataproducerclose_signal) s))
  /\ List.filter upward
       (trace (for_of refs (then_tell close_dataProducer dataproducerclose_signal) s))
     = List.map dataproducerclose_signal refs
  /\ List.filter inward
       (trace (for_of refs (then_tell close_dataProducer dataproducerclose_signal) s))
     = trace (for_of refs close_dataProducer s)
  /\ List.filter is_observer_close
       (trace (for_of refs (then_tell close_dataProducer dataproducerclose_signal) s)) = [].
Proof.
  apply (cascade_loop_telling dataProducerObjs set_dataProducerObjs); try reflexivity.
  - apply set_dataProducerObjs_id.
  - apply close_dataProducer_eq.
Qed.

Lemma filter_keep {A} (p : A -> bool) e l :
  p e = true -> List.filter p (e :: l) = e :: List.filter p l.
Proof. intros H. cbn. rewrite H. reflexivity. Qed.

Lemma filter_drop {A} (p : A -> bool) e l :
  p e = false -> List.filter p (e :: l) = List.filter p l.
Proof. intros H. cbn. rewrite H. reflexivity. Qed.

Lemma loop_upward (body : nat -> M unit) refs s :
  List.filter from_transport (trace (for_of refs body s)) = [] ->
  List.filter upward (trace (for_of refs body s)) = [].
Proof. apply quiet, upward_from_transport. Qed.

Lemma loop_inward (body : nat -> M unit) refs s :
  List.filter from_transport (trace (for_of refs body s)) = [] ->
  List.filter inward (trace (for_of refs body s)) = trace (for_of refs body s).
Proof. intros H. apply filter_inward_id, loop_upward, H. Qed.

Lemma loop_observer_close (body : nat -> M unit) refs s :
  List.filter from_transport (trace (for_of refs body s)) = [] ->
  List.filter is_observer_close (trace (for_of refs body s)) = [].
Proof. apply quiet, observer_close_from_transport. Qed.

Ltac filters :=
  repeat first
    [ rewrite List.filter_app
    | rewrite filter_keep by reflexivity
    | rewrite filter_drop by reflexivity
    | rewrite (proj1 (proj2 (producers_loop_telling _ _)))
    | rewrite (proj1 (proj2 (proj2 (producers_loop_telling _ _))))
    | rewrite (proj2 (proj2 (proj2 (producers_loop_telling _ _))))
    | rewrite (proj1 (proj2 (dataProducers_loop_telling _ _)))
    | rewrite (proj1 (proj2 (proj2 (dataProducers_loop_telling _ _))))
    | rewrite (proj2 (proj2 (proj2 (dataProducers_loop_telling _ _))))
    | rewrite loop_upward by first
        [ apply producers_loop | apply consumers_loop
        | apply dataProducers_loop | apply dataConsumers_loop ]
    | rewrite loop_inward by first
        [ apply producers_loop | apply consumers_loop
        | apply dataProducers_loop | apply dataConsumers_loop ]
    | rewrite loop_observer_close by first
        [ apply producers_loop | apply consumers_loop
        | apply dataProducers_loop | apply dataConsumers_loop ] ];
  cbn [List.filter app]; rewrite <- ?List.app_assoc; cbn [List.filter app].

Lemma three_closes s :
  closed s = false ->
  exists Tc Tr Tl,
    close s = (Return tt, closed_state s, Tc)
    /\ routerClosed s = (Return tt, closed_state s, Tr)
    /\ listenServerClosed s = (Return tt, closed_state s, Tl)
    /\ List.filter upward Tc
       = closeTransport_request s
         :: List.map producerclose_signal (values (producers s))
         ++ List.map dataproducerclose_signal (values (dataProducers s))
         ++ [on_transport (emit this "@close" [])]
    /\ List.filter upward Tr = [on_transport (safeEmit this "routerclose" [])]
    /\ List.filter upward Tl
       = [on_transport (emit this "@listenserverclose" []);
          on_transport (safeEmit this "listenserverclose" [])]
    /\ List.filter inward Tc = List.filter inward Tr
    /\ List.filter inward Tl = List.filter inward Tr
    /\ List.filter is_observer_close Tc = [observer_close]
    /\ List.filter is_observer_close Tr = [observer_close]
    /\ List.filter is_observer_close Tl = [observer_close].
Proof.
  intros Hc. eexists _, _, _.
  split; [|split; [|split; [|repeat apply conj]]].
  - unfold close. eapply step_gets. cbn beta. rewrite Hc.
    eapply step_modify. eapply step_gets.
    eapply step_tell. eapply step_tell. eapply step_tell. eapply step_gets.
    eapply step_bind; [apply producers_loop_telling|].
    eapply step_modify. eapply step_gets.
    eapply step_bind; [apply consumers_loop|].
    eapply step_modify. eapply step_gets.
    eapply step_bind; [apply dataProducers_loop_telling|].
    eapply step_modify. eapply step_gets.
    eapply step_bind; [apply dataConsumers_loop|].
    eapply step_modify. eapply step_tell. reflexivity.
  - unfold routerClosed, close_owned. eapply step_gets. cbn beta. rewrite Hc.
    eapply step_modify. eapply step_gets.
    eapply step_tell. eapply step_tell.
    eapply step_bind.
    { eapply step_gets. eapply step_bind; [apply producers_loop|].
      eapply step_modify. eapply step_gets.
      eapply step_bind; [apply consumers_loop|].
      eapply step_modify. eapply step_gets.
      eapply step_bind; [apply dataProducers_loop|].
      eapply step_modify. eapply step_gets.
      eapply step_bind; [apply dataConsumers_loop|].
      reflexivity. }
    eapply step_tell. reflexivity.
  - unfold listenServerClosed, close_owned. eapply step_gets. cbn beta. rewrite Hc.
    eapply step_modify. eapply step_gets.
    eapply step_tell. eapply step_tell.
    eapply step_bind.
    { eapply step_gets. eapply step_bind; [apply producers_loop|].
      eapply step_modify. eapply step_gets.
      eapply step_bind; [apply consumers_loop|].
      eapply step_modify. eapply step_gets.
      eapply step_bind; [apply dataProducers_loop|].
      eapply step_modify. eapply step_gets.
      eapply step_bind; [apply dataConsumers_loop|].
      reflexivity. }
    eapply step_tell. eapply step_tell. reflexivity.
  - filters. reflexivity.
  - filters. reflexivity.
  - filters. reflexivity.
  - filters. reflexivity.
  - filters. reflexivity.
  - filters. reflexivity.
  - filters. reflexivity.
  - filters. reflexivity.
Qed.

Lemma cascade_lookup_notin {Obj} (f : Obj -> Obj) refs objs a :
  ~ In a refs -> cascade f refs objs !! a = objs !! a.
Proof.
  revert objs. induction refs as [|b refs IH]; intros objs Hn; [reflexivity|].
  cbn. unfold cascade in IH. rewrite IH by (intros Hin; apply Hn; right; exact Hin).
  apply list_lookup_alter_ne. intros ->. apply Hn. left. reflexivity.
Qed.

Lemma cascade_lookup_in {Obj} (f : Obj -> Obj) refs objs a :
  (forall o, f (f o) = f o) ->
  In a refs -> cascade f refs objs !! a = f <$> objs !! a.
Proof.
  intros Hf. revert objs. induction refs as [|b refs IH]; intros objs Hin; [destruct Hin|].
  change (cascade f (b :: refs) objs) with (cascade f refs (alter f b objs)).
  destruct (in_dec Nat.eq_dec a refs) as [Hr|Hr].
  - rewrite IH by exact Hr. rewrite list_lookup_alter. case_decide; [|reflexivity].
    subst. destruct (objs !! a); cbn; [rewrite Hf|]; reflexivity.
  - rewrite cascade_lookup_notin by exact Hr.
    destruct Hin as [->|Hin]; [|contradiction]. apply list_lookup_alter_eq.
Qed.

Lemma NoDup_signals (r c : Entry) (f g : nat -> Entry) (l1 l2 : list nat) :
  (forall a b, f a = f b -> a = b) -> (forall a b, g a = g b -> a = b) ->
  (forall a b, f a <> g b) -> (forall a, f a <> r) -> (forall a, g a <> r) ->
  (forall a, f a <> c) -> (forall a, g a <> c) -> r <> c ->
  List.NoDup l1 -> List.NoDup l2 ->
  List.NoDup (r :: List.map f l1 ++ List.map g l2 ++ [c]).
Proof.
  intros Hf Hg Hfg Hfr Hgr Hfc Hgc Hrc H1 H2.
  assert (Hmap : forall (h : nat -> Entry) l,
             (forall a b, h a = h b -> a = b) -> List.NoDup l -> List.NoDup (List.map h l)).
  { intros h l Hh Hl. induction Hl as [|x l Hx Hl IH]; cbn; constructor; [|exact IH].
    intros Hin. apply in_map_iff in Hin as (y & Hy & Hin). apply Hh in Hy. subst.
    contradiction. }
  constructor.
  - rewrite !in_app_iff, !in_map_iff. cbn.
    intros [(a & Ha & _)|[(a & Ha & _)|[Ha|[]]]];
      [eapply Hfr | eapply Hgr | apply Hrc]; eauto.
  - apply List.NoDup_app; [apply Hmap; assumption| |].
    + apply List.NoDup_app; [apply Hmap; assumption|repeat constructor; intros []|].
      intros e He [<-|[]]. apply in_map_iff in He as (a & Ha & _). eapply Hgc; eauto.
    + intros e He. apply in_map_iff in He as (a & <- & _).
      rewrite in_app_iff, in_map_iff. cbn.
      intros [(b & Hb & _)|[Hb|[]]]; [eapply Hfg | eapply Hfc]; eauto.
Qed.

(** What the three closes agree on: from an open Transport whose maps refer
    to each Producer and each DataProducer once, [close()], [routerClosed()]
    and [listenServerClosed()] end in the same state, [closed_state]: the flag
    set, the four maps empty, every object they referred to closed; each
    emits the observer event
    ['close'] once; their traces differ only in the notifications that go
    upwards: [close()] issues the engine request and emits ['@producerclose']
    for each Producer, ['@dataproducerclose'] for each DataProducer and
    ['@close']; [routerClosed()] emits just ['routerclose'];
    [listenServerClosed()] emits ['@listenserverclose'] and
    ['listenserverclose'], and no ['@close']; none of these is repeated. *)
Theorem close_triggers_agree s :
  closed s = false ->
  List.NoDup (values (producers s)) ->
  List.NoDup (values (dataProducers s)) ->
  (state (close s) = closed_state s
   /\ state (routerClosed s) = closed_state s
   /\ state (listenServerClosed s) = closed_state s)
  /\ (closed (closed_state s) = true
      /\ producers (closed_state s) = [] /\ consumers (closed_state s) = []
      /\ dataProducers (closed_state s) = [] /\ dataConsumers (closed_state s) = [])
  /\ ((forall a o, In a (values (producers s)) -> producerObjs s !! a = Some o ->
         producerObjs (closed_state s) !! a = Some (Owned.set_closed true o))
      /\ (forall a o, In a (values (consumers s)) -> consumerObjs s !! a = Some o ->
         consumerObjs (closed_state s) !! a = Some (Owned.set_closed true o))
      /\ (forall a o, In a (values (dataProducers s)) -> dataProducerObjs s !! a = Some o ->
         dataProducerObjs (closed_state s) !! a = Some (DataProducer.set_closed true o))
      /\ (forall a o, In a (values (dataConsumers s)) -> dataConsumerObjs s !! a = Some o ->
         dataConsumerObjs (closed_state s) !! a = Some (close_dataConsumer o)))
  /\ (List.filter is_observer_close (trace (close s)) = [observer_close]
      /\ List.filter is_observer_close (trace (routerClosed s)) = [observer_close]
      /\ List.filter is_observer_close (trace (listenServerClosed s)) = [observer_close])
  /\ (List.filter inward (trace (close s)) = List.filter inward (trace (routerClosed s))
      /\ List.filter inward (trace (listenServerClosed s))
         = List.filter inward (trace (routerClosed s)))
  /\ (List.filter upward (trace (close s))
       = closeTransport_request s
         :: List.map producerclose_signal (values (producers s))
         ++ List.map dataproducerclose_signal (values (dataProducers s))
         ++ [on_transport (emit this "@close" [])]
      /\ List.filter upward (trace (routerClosed s))
         = [on_transport (safeEmit this "routerclose" [])]
      /\ List.filter upward (trace (listenServerClosed s))
         = [on_transport (emit this "@listenserverclose" []);
            on_transport (safeEmit this "listenserverclose" [])])
  /\ (List.NoDup (List.filter upward (trace (close s)))
      /\ List.NoDup (List.filter upward (trace (routerClosed s)))
      /\ List.NoDup (List.filter upward (trace (listenServerClosed s)))).
Proof.
  intros Hopen Hp Hdp.
  destruct (three_closes s Hopen)
    as (Tc & Tr & Tl & Hc & Hr & Hl & Huc & Hur & Hul & Hic & Hil & Hoc & Hor & Hol).
  rewrite Hc, Hr, Hl. cbn [state trace fst snd].
  split; [repeat split|]. split; [repeat split|].
  split; [|split; [repeat split; assumption|]].
  { repeat apply conj; intros a o Hin Ho; cbn [closed_state producerObjs consumerObjs
      dataProducerObjs dataConsumerObjs]; rewrite cascade_lookup_in, Ho;
      try reflexivity; try exact Hin.
    all: intros [? ? ? ?]; reflexivity. }
  split; [split; assumption|]. split; [repeat split; assumption|].
  rewrite Huc, Hur, Hul. repeat apply conj.
  - apply NoDup_signals; try assumption; unfold producerclose_signal,
      dataproducerclose_signal, closeTransport_request; try congruence;
      intros; discriminate.
  - repeat constructor. intros [].
  - repeat constructor; cbn; [intros [H0|[]]; discriminate | intros []].
Qed.

End TransportClose.

Lemma close_triggers_agree_witness :
  Transport.closed (Transport.world Examples.busy) = false
  /\ List.NoDup (values (Transport.producers (Transport.world Examples.busy)))
  /\ List.NoDup (values (Transport.dataProducers (Transport.world Examples.busy)))
  /\ state (Transport.close (Transport.world Examples.busy)) = state (Transport.routerClosed (Transport.world Examples.busy)).
Proof.
  assert (H1 : Transport.closed (Transport.world Examples.busy) = false) by (vm_compute; reflexivity).
  assert (H2 : List.NoDup (values (Transport.producers (Transport.world Examples.busy)))).
  { vm_compute. repeat constructor; intros []. }
  assert (H3 : List.NoDup (values (Transport.dataProducers (Transport.world Examples.busy)))).
  { vm_compute. repeat constructor; intros []. }
  split; [exact H1|split; [exact H2|split; [exact H3|]]].
  destruct (close_triggers_agree (Transport.world Examples.busy) H1 H2 H3) as [(Hc & Hr & _) _].
  exact (eq_trans Hc (eq_sym Hr)).
Defined.

Section SameIdTwice.
Import Transport Examples.

(** C1, the failing input: two [produce()] for the same id, the second made
    while the first awaits the engine, both pass the check of the registered
    ids.  Once both are answered the Transport has created two Producers,
    both open, and its registry refers to the second only.  Each of
    [close()], [routerClosed()] and [listenServerClosed()] then closes the
    Transport, empties the registry and closes the second Producer, and
    leaves the first one open; [close()] emits ['@producerclose'] for the
    second only.  A [produce()] for the same id made after the registration
    is refused. *)
Theorem duplicate_id_leaves_producer_open :
  let s := world same_id_twice in
  closed s = false
  /\ pending same_id_twice = []
  /\ producers s = [("x", 1)]
  /\ ((fun p => (Owned.id p, Owned.closed p)) <$> producerObjs s)
     = [("x", false); ("x", false)]
  /\ (forall op, In op [close; routerClosed; listenServerClosed] ->
        closed (state (op s)) = true
        /\ producers (state (op s)) = []
        /\ ((fun p => (Owned.id p, Owned.closed p)) <$> producerObjs (state (op s)))
           = [("x", false); ("x", true)])
  /\ List.filter upward (trace (close s))
     = [closeTransport_request s; producerclose_signal 1;
        on_transport (emit this "@close" [])]
  /\ result (produce_begin router "0f1e2d3c-uuid" "u3"
                (produce_options (Some "x") None encodings_falsy) s)
     = Throw (exception TypeError
                ("a Producer with same id " ++ quoted "x" ++ " already exists")).
Proof.
  cbv zeta. split; [vm_compute; reflexivity|]. split; [vm_compute; reflexivity|].
  split; [vm_compute; reflexivity|]. split; [vm_compute; reflexivity|].
  split; [|split; vm_compute; reflexivity].
  intros op [<-|[<-|[<-|[]]]]; vm_compute; repeat split.
Qed.

End SameIdTwice.


(** ** Invariants of the methods *)

Ltac head_of t :=
  lazymatch t with
  | ?f _ => head_of f
  | _ => t
  end.

(** One step through the structure of a method.  [hint] closes the goals
    about methods that have a lemma of their own, [tac] shows that a field
    update keeps the property; a method with neither is unfolded. *)
Ltac stable_step hint tac :=
  cbn beta;
  first
    [ solve [hint]
    | lazymatch goal with
      | |- stable _ (bind _ _) => apply stable_bind; [|intros ?]
      | |- stable _ (ret _) => apply stable_ret
      | |- stable _ (gets _) => apply stable_gets
      | |- stable _ (tell _) => apply stable_tell
      | |- stable _ (throw _ _) => apply stable_throw
      | |- stable _ (rethrow _) => apply stable_rethrow
      | |- stable _ (when _ _) => apply stable_when
      | |- stable _ (for_of _ _) => apply stable_for_of; intros ?
      | |- stable _ (modify _) => apply stable_modify; tac
      | |- stable _ (match ?x with _ => _ end) => destruct x
      | |- stable _ ?m => let h := head_of m in unfold h
      end ].

Ltac stable_with hint tac := repeat (stable_step hint tac).

(** Proves [methods_stable P]. *)
Ltac methods_stable_with hint tac :=
  unfold Transport.methods_stable; repeat apply conj; intros; stable_with hint tac.

Section TransportInvariants.
Context `{I : Imports} `{O : @Ortc I}.
Import Transport.

Lemma world_run_unit {A} (m : M A) s : world (fst (run_unit m s)) = state (m (world s)).
Proof. unfold run_unit. destruct (m (world s)) as [[r w] l]. reflexivity. Qed.

Lemma world_run_begin {C} (m : M C) k s :
  world (fst (run_begin m k s)) = state (m (world s)).
Proof. unfold run_begin. destruct (m (world s)) as [[[c|e] w] l]; reflexivity. Qed.

Lemma world_run_resume {A} i (m : M A) s :
  world (fst (run_resume i m s)) = state (m (world s)).
Proof. unfold run_resume. destruct (m (world s)) as [[r w] l]. reflexivity. Qed.

Lemma step_stable (P : State -> Prop) a s :
  methods_stable P -> P (world s) -> P (world (fst (step a s))).
Proof.
  intros (H1 & H2 & H3 & H4 & H5 & H6 & H7 & H8 & H9 & H10 & H11 & H12 & H13 & H14 & H15) H.
  destruct a; cbn [step];
    rewrite ?world_run_unit, ?world_run_begin;
    first [ apply H1 | apply H2 | apply H3 | apply H4 | apply H6 | apply H8 | apply H10
          | apply H12 | apply H13 | apply H14 | apply H15 | idtac ]; try exact H.
  destruct (pending s !! i) as [[c|c|c|c]|]; destruct r; cbn [fst]; try exact H;
    rewrite world_run_resume;
    first [ apply H5 | apply H7 | apply H9 | apply H11 ]; exact H.
Qed.

Lemma run_stable (P : State -> Prop) acts s :
  methods_stable P -> P (world s) -> P (world (run acts s)).
Proof.
  intros HP. revert s. induction acts as [|a acts IH]; intros s H; [exact H|].
  cbn [run]. apply IH, step_stable; assumption.
Qed.

End TransportInvariants.

(** ** Closing twice *)

Lemma idempotent_closing_intro {S E} (closed : S -> bool) (ops : list (Js.M S E unit)) :
  (forall op, In op ops -> silent_when_closed closed op) ->
  (forall op, In op ops -> closes closed op) ->
  idempotent_closing closed ops.
Proof.
  intros Hs Hc op Hop. split; [apply Hs, Hop|]. split; [apply Hc, Hop|].
  intros op' Hop' s. apply Hs; [exact Hop|]. apply Hc, Hop'.
Qed.

Ltac in_ops :=
  match goal with
  | H : In _ _ |- _ => cbn in H; repeat destruct H as [<-|H]; try destruct H
  end.

Lemma closes_by_guard {S E} (closed : S -> bool) (set : S -> S) (rest : M S E unit) :
  (forall s, closed (set s) = true) ->
  keeps_closed closed rest ->
  closes closed (bind (gets closed) (fun c =>
                   if c then ret tt else bind (modify set) (fun _ => rest))).
Proof.
  intros Hset Hrest s. rewrite bind_gets. destruct (closed s) eqn:Hc; [exact Hc|].
  rewrite bind_modify. apply Hrest, Hset.
Qed.

Lemma closes_guarded {S E} (closed : S -> bool) (rest : M S E unit) :
  closes closed rest ->
  closes closed (bind (gets closed) (fun c => if c then ret tt else rest)).
Proof.
  intros Hrest s. rewrite bind_gets. destruct (closed s) eqn:Hc; [exact Hc|]. apply Hrest.
Qed.

Lemma DataProducer_closing :
  idempotent_closing DataProducer.closed [DataProducer.close; DataProducer.transportClosed].
Proof.
  apply idempotent_closing_intro; intros op Hop; in_ops.
  - intros s Hs. unfold DataProducer.close. rewrite bind_gets, Hs. reflexivity.
  - intros s Hs. unfold DataProducer.transportClosed. rewrite bind_gets, Hs. reflexivity.
  - intros s. destruct s as [i d [|] a]; reflexivity.
  - intros s. destruct s as [i d [|] a]; reflexivity.
Qed.

Lemma RtpObserver_closing :
  idempotent_closing RtpObserver.closed [RtpObserver.close; RtpObserver.routerClosed].
Proof.
  apply idempotent_closing_intro; intros op Hop; in_ops.
  - intros s Hs. unfold RtpObserver.close. rewrite bind_gets, Hs. reflexivity.
  - intros s Hs. unfold RtpObserver.routerClosed. rewrite bind_gets, Hs. reflexivity.
  - intros s. destruct s as [i [|] p a]; reflexivity.
  - intros s. destruct s as [i [|] p a]; reflexivity.
Qed.

Lemma Owned_closing {D} method event :
  idempotent_closing (@Owned.closed D)
    [Owned.close method; Owned.transportClosed; Owned.sourceClosed event].
Proof.
  apply idempotent_closing_intro; intros op Hop; in_ops.
  - intros s Hs. unfold Owned.close. rewrite bind_gets, Hs. reflexivity.
  - intros s Hs. unfold Owned.transportClosed. rewrite bind_gets, Hs. reflexivity.
  - intros s Hs. unfold Owned.sourceClosed. rewrite bind_gets, Hs. reflexivity.
  - intros s. destruct s as [i t [|] d]; reflexivity.
  - intros s. destruct s as [i t [|] d]; reflexivity.
  - intros s. destruct s as [i t [|] d]; reflexivity.
Qed.

Section ClosingTwice.
Context `{I : Imports} `{O : @Ortc I}.

Lemma closed_methods_stable :
  Transport.methods_stable (fun s => Transport.closed s = true).
Proof. methods_stable_with fail ltac:(intros ? Hs; first [exact Hs | reflexivity]). Qed.

Lemma step_keeps_closed a s :
  Transport.closed (Transport.world s) = true ->
  Transport.closed (Transport.world (fst (Transport.step a s))) = true.
Proof.
  intros H. apply (step_stable (fun s => Transport.closed s = true));
    [apply closed_methods_stable | exact H].
Qed.

Lemma Transport_closing :
  idempotent_closing Transport.closed
    [Transport.close; Transport.routerClosed; Transport.listenServerClosed].
Proof.
  apply idempotent_closing_intro; intros op Hop; in_ops.
  - intros s Hs. unfold Transport.close. rewrite bind_gets, Hs. reflexivity.
  - intros s Hs. unfold Transport.routerClosed. rewrite bind_gets, Hs. reflexivity.
  - intros s Hs. unfold Transport.listenServerClosed. rewrite bind_gets, Hs. reflexivity.
  - intros s. destruct (Transport.closed s) eqn:Hc.
    + apply (proj1 closed_methods_stable), Hc.
    + destruct (three_closes s Hc) as (Tc & Tr & Tl & -> & _). reflexivity.
  - intros s. destruct (Transport.closed s) eqn:Hc.
    + apply (proj1 (proj2 closed_methods_stable)), Hc.
    + destruct (three_closes s Hc) as (Tc & Tr & Tl & _ & -> & _). reflexivity.
  - intros s. destruct (Transport.closed s) eqn:Hc.
    + apply (proj1 (proj2 (proj2 closed_methods_stable))), Hc.
    + destruct (three_closes s Hc) as (Tc & Tr & Tl & _ & _ & -> & _). reflexivity.
Qed.

Lemma WebRtcServer_closing :
  idempotent_closing WebRtcServer.closed [WebRtcServer.close; WebRtcServer.workerClosed].
Proof.
  apply idempotent_closing_intro; intros op Hop; in_ops.
  - intros s Hs. unfold WebRtcServer.close. rewrite bind_gets, Hs. reflexivity.
  - intros s Hs. unfold WebRtcServer.workerClosed. rewrite bind_gets, Hs. reflexivity.
  - apply closes_by_guard; [reflexivity|].
    unfold keeps_closed, WebRtcServer.on_webRtcTransportObj.
    stable_with fail ltac:(intros ? Hs; exact Hs).
  - apply closes_by_guard; [reflexivity|].
    unfold keeps_closed. stable_with fail ltac:(intros ? Hs; exact Hs).
Qed.

Lemma WebRtcServer_keeps_closed a :
  keeps_closed WebRtcServer.closed (WebRtcServer.handleWebRtcTransport a)
  /\ keeps_closed WebRtcServer.closed (WebRtcServer.on_webRtcTransport_close a).
Proof.
  split; unfold keeps_closed, WebRtcServer.handleWebRtcTransport,
    WebRtcServer.on_webRtcTransport_close; stable_with fail ltac:(intros ? Hs; exact Hs).
Qed.

Lemma Plain_super_eq {A} (m : Transport.M A) s :
  PlainTransport.super m s
  = (result (m (PlainTransport.base s)),
     PlainTransport.set_base (state (m (PlainTransport.base s))) s,
     List.map PlainTransport.inherited (trace (m (PlainTransport.base s)))).
Proof.
  unfold PlainTransport.super. destruct (m (PlainTransport.base s)) as [[r b] l].
  reflexivity.
Qed.

Lemma WebRtc_super_eq {A} (m : Transport.M A) s :
  WebRtcTransport.super m s
  = (result (m (WebRtcTransport.base s)),
     WebRtcTransport.set_base (state (m (WebRtcTransport.base s))) s,
     List.map WebRtcTransport.inherited (trace (m (WebRtcTransport.base s)))).
Proof.
  unfold WebRtcTransport.super. destruct (m (WebRtcTransport.base s)) as [[r b] l].
  reflexivity.
Qed.

Lemma Plain_super_silent (m : Transport.M unit) :
  silent_when_closed Transport.closed m -> silent_when_closed PlainTransport.closed (PlainTransport.super m).
Proof.
  intros Hm s Hs. rewrite Plain_super_eq, (Hm _ Hs). destruct s; reflexivity.
Qed.

Lemma WebRtc_super_silent (m : Transport.M unit) :
  silent_when_closed Transport.closed m ->
  silent_when_closed WebRtcTransport.closed (WebRtcTransport.super m).
Proof.
  intros Hm s Hs. rewrite WebRtc_super_eq, (Hm _ Hs). destruct s; reflexivity.
Qed.

Lemma Plain_super_closes (m : Transport.M unit) :
  closes Transport.closed m -> closes PlainTransport.closed (PlainTransport.super m).
Proof. intros Hm s. rewrite Plain_super_eq. apply Hm. Qed.

Lemma WebRtc_super_closes (m : Transport.M unit) :
  closes Transport.closed m -> closes WebRtcTransport.closed (WebRtcTransport.super m).
Proof. intros Hm s. rewrite WebRtc_super_eq. apply Hm. Qed.

Lemma Plain_close_sctpState_eq s :
  PlainTransport.close_sctpState s
  = (Return tt,
     PlainTransport.set_data
       (PlainTransport.set_sctpState
          (closed_sctpState (PlainTransport.sctpState (PlainTransport.data s)))
          (PlainTransport.data s)) s, []).
Proof.
  unfold PlainTransport.close_sctpState. rewrite bind_gets.
  destruct s as [b [m c t r [st|]]]; reflexivity.
Qed.

Lemma WebRtc_close_mirrors_eq s :
  exists d,
    WebRtcTransport.close_mirrors s = (Return tt, WebRtcTransport.set_data d s, [])
    /\ webRtc_mirrors_closed (WebRtcTransport.data s) d.
Proof.
  unfold WebRtcTransport.close_mirrors. rewrite !bind_modify, bind_gets.
  destruct s as [b [i t dt c [st|]]]; cbn; eexists; (split; [reflexivity|]);
    repeat split.
Qed.

Lemma Transport_silent :
  silent_when_closed Transport.closed Transport.close
  /\ silent_when_closed Transport.closed Transport.routerClosed
  /\ silent_when_closed Transport.closed Transport.listenServerClosed.
Proof.
  repeat split; apply Transport_closing; cbn; tauto.
Qed.

Lemma Transport_closes :
  closes Transport.closed Transport.close
  /\ closes Transport.closed Transport.routerClosed
  /\ closes Transport.closed Transport.listenServerClosed.
Proof.
  repeat split; apply Transport_closing; cbn; tauto.
Qed.

Lemma Plain_guarded_closes (m : Transport.M unit) :
  closes Transport.closed m ->
  closes PlainTransport.closed
    (bind PlainTransport.close_sctpState (fun _ => PlainTransport.super m)).
Proof.
  intros Hm s. erewrite bind_Return by apply Plain_close_sctpState_eq.
  cbn [state fst snd]. apply (Plain_super_closes m Hm).
Qed.

Lemma WebRtc_guarded_closes (m : Transport.M unit) :
  closes Transport.closed m ->
  closes WebRtcTransport.closed
    (bind WebRtcTransport.close_mirrors (fun _ => WebRtcTransport.super m)).
Proof.
  intros Hm s. destruct (WebRtc_close_mirrors_eq s) as (d & Hd & _).
  erewrite bind_Return by exact Hd.
  cbn [state fst snd]. apply (WebRtc_super_closes m Hm).
Qed.

Lemma PlainTransport_closing :
  idempotent_closing PlainTransport.closed
    [PlainTransport.close; PlainTransport.routerClosed; PlainTransport.listenServerClosed].
Proof.
  destruct Transport_silent as (Hs1 & Hs2 & Hs3).
  destruct Transport_closes as (Hc1 & Hc2 & Hc3).
  apply idempotent_closing_intro; intros op Hop; in_ops.
  - intros s Hs. unfold PlainTransport.close. rewrite bind_gets, Hs. reflexivity.
  - intros s Hs. unfold PlainTransport.routerClosed. rewrite bind_gets, Hs. reflexivity.
  - apply Plain_super_silent, Hs3.
  - apply closes_guarded, Plain_guarded_closes, Hc1.
  - apply closes_guarded, Plain_guarded_closes, Hc2.
  - apply Plain_super_closes, Hc3.
Qed.

Lemma WebRtcTransport_closing :
  idempotent_closing WebRtcTransport.closed
    [WebRtcTransport.close; WebRtcTransport.routerClosed;
     WebRtcTransport.webRtcServerClosed; WebRtcTransport.listenServerClosed].
Proof.
  destruct Transport_silent as (Hs1 & Hs2 & Hs3).
  destruct Transport_closes as (Hc1 & Hc2 & Hc3).
  apply idempotent_closing_intro; intros op Hop; in_ops.
  - intros s Hs. unfold WebRtcTransport.close. rewrite bind_gets, Hs. reflexivity.
  - intros s Hs. unfold WebRtcTransport.routerClosed. rewrite bind_gets, Hs. reflexivity.
  - intros s Hs. unfold WebRtcTransport.webRtcServerClosed. rewrite bind_gets, Hs.
    reflexivity.
  - apply WebRtc_super_silent, Hs3.
  - apply closes_guarded, WebRtc_guarded_closes, Hc1.
  - apply closes_guarded, WebRtc_guarded_closes, Hc2.
  - apply closes_guarded, WebRtc_guarded_closes, Hc3.
  - apply WebRtc_super_closes, Hc3.
Qed.

Lemma notification_keeps_closed n :
  keeps_closed PlainTransport.closed (PlainTransport.handleWorkerNotification n)
  /\ keeps_closed WebRtcTransport.closed (WebRtcTransport.handleWorkerNotification n).
Proof.
  split; unfold keeps_closed, PlainTransport.handleWorkerNotification,
    WebRtcTransport.handleWorkerNotification;
    stable_with fail ltac:(intros ? Hs; exact Hs).
Qed.

(** *** The mirrors at a close *)

(** A close of an open WebRtcTransport by [close()], [routerClosed()] or
    [webRtcServerClosed()] leaves its mirrors closed. *)
Lemma WebRtcTransport_mirrors_closed s :
  WebRtcTransport.closed s = false ->
  webRtc_mirrors_closed (WebRtcTransport.data s)
    (WebRtcTransport.data (state (WebRtcTransport.close s)))
  /\ webRtc_mirrors_closed (WebRtcTransport.data s)
       (WebRtcTransport.data (state (WebRtcTransport.routerClosed s)))
  /\ webRtc_mirrors_closed (WebRtcTransport.data s)
       (WebRtcTransport.data (state (WebRtcTransport.webRtcServerClosed s))).
Proof.
  intros Hs. destruct (WebRtc_close_mirrors_eq s) as (d & Hd & Hm).
  unfold WebRtcTransport.close, WebRtcTransport.routerClosed,
    WebRtcTransport.webRtcServerClosed.
  rewrite !bind_gets, Hs. rewrite !(bind_Return _ _ _ _ _ _ Hd), !WebRtc_super_eq.
  cbn. repeat split; apply Hm.
Qed.

(** A close of an open PlainTransport by [close()] or [routerClosed()]
    leaves its SCTP mirror closed when it has one. *)
Lemma PlainTransport_mirrors_closed s :
  PlainTransport.closed s = false ->
  plain_mirrors_closed (PlainTransport.data s)
    (PlainTransport.data (state (PlainTransport.close s)))
  /\ plain_mirrors_closed (PlainTransport.data s)
       (PlainTransport.data (state (PlainTransport.routerClosed s))).
Proof.
  intros Hs. unfold PlainTransport.close, PlainTransport.routerClosed.
  rewrite !bind_gets, Hs.
  rewrite !(bind_Return _ _ _ _ _ _ (Plain_close_sctpState_eq s)), !Plain_super_eq.
  cbn. split; reflexivity.
Qed.

(** [listenServerClosed()], which [WebRtcServer.close()] calls, is the method
    of [Transport]: it closes the transport and leaves the mirrors as they
    are. *)
Lemma listenServerClosed_leaves_mirrors s :
  WebRtcTransport.data (state (WebRtcTransport.listenServerClosed s))
  = WebRtcTransport.data s
  /\ WebRtcTransport.closed (state (WebRtcTransport.listenServerClosed s)) = true.
Proof.
  unfold WebRtcTransport.listenServerClosed. rewrite WebRtc_super_eq. split.
  - reflexivity.
  - apply Transport_closes.
Qed.

End ClosingTwice.

(** C8, the failing input: a WebRtcServer that handles a WebRtcTransport
    whose ICE, DTLS and SCTP mirrors are connected is closed.  The transport
    ends closed, by [listenServerClosed()], with its three mirrors still
    connected: [webRtcServerClosed()], which sets them, is not what
    [WebRtcServer.close()] calls. *)
Theorem webRtcServer_close_leaves_mirrors :
  exists t,
    WebRtcServer.webRtcTransportObjs (state (WebRtcServer.close Examples.server)) !! 0
    = Some t
    /\ WebRtcTransport.closed t = true
    /\ WebRtcTransport.iceState (WebRtcTransport.data t) = ice_connected
    /\ WebRtcTransport.dtlsState (WebRtcTransport.data t) = dtls_connected
    /\ WebRtcTransport.sctpState (WebRtcTransport.data t) = Some sctp_connected.
Proof. vm_compute. eexists. repeat split. Qed.

(** C2: for each class of resource in the sources, each closing operation
    run on a closed resource returns with the state as it was and an empty
    trace, so no event and no request; each leaves the resource closed, so a
    second closing call after any first one is such a no-op; and no other
    operation clears the flag: it stays set through every turn of the event
    loop of a Transport, through the notifications of the engine, and through
    [send], [pause], [resume] and the bookkeeping of a WebRtcServer. *)
Theorem closing_is_idempotent `{I : Imports} `{O : @Ortc I} :
  idempotent_closing DataProducer.closed [DataProducer.close; DataProducer.transportClosed]
  /\ idempotent_closing RtpObserver.closed [RtpObserver.close; RtpObserver.routerClosed]
  /\ idempotent_closing Transport.closed
       [Transport.close; Transport.routerClosed; Transport.listenServerClosed]
  /\ idempotent_closing PlainTransport.closed
       [PlainTransport.close; PlainTransport.routerClosed;
        PlainTransport.listenServerClosed]
  /\ idempotent_closing WebRtcTransport.closed
       [WebRtcTransport.close; WebRtcTransport.routerClosed;
        WebRtcTransport.webRtcServerClosed; WebRtcTransport.listenServerClosed]
  /\ idempotent_closing WebRtcServer.closed [WebRtcServer.close; WebRtcServer.workerClosed]
  /\ (forall a s, Transport.closed (Transport.world s) = true ->
        Transport.closed (Transport.world (fst (Transport.step a s))) = true)
  /\ (forall n, keeps_closed PlainTransport.closed (PlainTransport.handleWorkerNotification n)
               /\ keeps_closed WebRtcTransport.closed
                    (WebRtcTransport.handleWorkerNotification n))
  /\ (forall m ppid, keeps_closed DataProducer.closed (DataProducer.send m ppid))
  /\ (forall w, keeps_closed RtpObserver.closed RtpObserver.pause_begin
               /\ keeps_closed RtpObserver.closed (RtpObserver.pause_resume w)
               /\ keeps_closed RtpObserver.closed RtpObserver.resume_begin
               /\ keeps_closed RtpObserver.closed (RtpObserver.resume_resume w))
  /\ (forall a, keeps_closed WebRtcServer.closed (WebRtcServer.handleWebRtcTransport a)
               /\ keeps_closed WebRtcServer.closed (WebRtcServer.on_webRtcTransport_close a)).
Proof.
  split; [apply DataProducer_closing|]. split; [apply RtpObserver_closing|].
  split; [apply Transport_closing|]. split; [apply PlainTransport_closing|].
  split; [apply WebRtcTransport_closing|]. split; [apply WebRtcServer_closing|].
  split; [apply step_keeps_closed|]. split; [apply notification_keeps_closed|].
  split; [|split; [|apply WebRtcServer_keeps_closed]].
  - intros m ppid. unfold keeps_closed, DataProducer.send.
    stable_with fail ltac:(intros ? Hs; exact Hs).
  - intros w. repeat split; unfold keeps_closed, RtpObserver.pause_begin,
      RtpObserver.pause_resume, RtpObserver.resume_begin, RtpObserver.resume_resume;
      stable_with fail ltac:(intros ? Hs; exact Hs).
Qed.

Lemma closing_is_idempotent_witness :
  DataProducer.closed Examples.closed_dataProducer = true
  /\ DataProducer.close Examples.closed_dataProducer
     = (Return tt, Examples.closed_dataProducer, []).
Proof.
  split; [reflexivity|].
  destruct (proj1 (@closing_is_idempotent Examples.imports Examples.ortc)
              DataProducer.close) as [Hs _]; [left; reflexivity|].
  apply Hs. reflexivity.
Defined.

(** ** produce() and consume() *)

Section ProduceConsume.
Context `{I : Imports} `{O : @Ortc I}.
Import Transport.

Lemma set_cnameForProducers_id s : set_cnameForProducers (cnameForProducers s) s = s.
Proof. destruct s; reflexivity. Qed.

(** Lines 584 to 604 in one equation. *)
Lemma assign_cname_eq uuid p s :
  assign_cname uuid p s
  = (Return (if is_pipe s then p
             else set_rtcp (Some (set_cname (chosen_cname s uuid p)
                                    (match rtcp p with Some r => r | None => empty_rtcp end)))
                    p),
     if is_pipe s then s else set_cnameForProducers (chosen_cname s uuid p) s,
     []).
Proof.
  unfold assign_cname, chosen_cname, is_pipe. rewrite bind_gets.
  destruct (String.eqb (constructor_name s) "PipeTransport"); cbn [negb]; [reflexivity|].
  rewrite bind_gets.
  destruct (truthy_opt (cnameForProducers s)) eqn:Hc; cbn [negb andb].
  - rewrite bind_ret, bind_gets, set_cnameForProducers_id. reflexivity.
  - destruct (truthy_opt (rtcp_cname p)); rewrite bind_modify, bind_gets; reflexivity.
Qed.

Lemma lift_check_None s : lift_check None s = (Return tt, s, []).
Proof. reflexivity. Qed.

(** What a [produce()] that reaches its [await] has done. *)
Lemma produce_begin_inv router u1 u2 o s c s' l :
  produce_begin router u1 u2 o s = (Return c, s', l) ->
  produce_accepts s o
  /\ exists p m,
      assign_cname u1 (normalize_encodings (po_rtpParameters o)) s = (Return p, s', [])
      /\ getProducerRtpParametersMapping p (getRouterRtpCapabilities router) = Return m
      /\ getConsumableRtpParameters (po_kind o) p (getRouterRtpCapabilities router) m
         = Return (pc_consumableRtpParameters c)
      /\ pc_rtpParameters c = p
      /\ pc_kind c = po_kind o
      /\ l = [on_transport
                (channel_request "transport.produce" (Some (transportId (internal s')))
                   (Some (produce_req (pc_producerId c) (po_kind o) p m
                            (po_keyFrameRequestDelay o) (po_paused o))))].
Proof.
  unfold produce_begin, produce_accepts. cbv zeta. rewrite bind_gets.
  destruct (truthy_opt (po_id o) && has _ (producers s)); [discriminate|].
  destruct (includes (po_kind o) ["audio"; "video"]); cbn [negb]; [|discriminate].
  destruct (appData_invalid (po_appData o)); [discriminate|].
  destruct (validateRtpParameters (po_rtpParameters o)); [discriminate|].
  cbn [lift_check]. rewrite bind_ret.
  rewrite (bind_Return _ _ _ _ _ _
             (assign_cname_eq u1 (normalize_encodings (po_rtpParameters o)) s)).
  cbn beta. rewrite assign_cname_eq.
  set (p := if is_pipe s then normalize_encodings (po_rtpParameters o) else _).
  set (s1 := if is_pipe s then s else _).
  unfold lift_completion.
  destruct (getProducerRtpParametersMapping p _) as [m|e] eqn:Hm; [|discriminate].
  rewrite bind_ret.
  destruct (getConsumableRtpParameters _ p _ m) as [cons|e] eqn:Hcons; [|discriminate].
  rewrite bind_ret, bind_gets, bind_tell. cbn.
  intros Heq. injection Heq as <- <- <-.
  split; [repeat split|]. exists p, m. cbn. repeat split; assumption.
Qed.

Lemma chosen_cname_normalize s u p :
  chosen_cname s u (normalize_encodings p) = chosen_cname s u p.
Proof.
  unfold chosen_cname, normalize_encodings, rtcp_cname.
  destruct (encodings_blank p); reflexivity.
Qed.

Lemma chosen_cname_fixed s u p :
  truthy_opt (cnameForProducers s) = true -> chosen_cname s u p = cnameForProducers s.
Proof. intros H. unfold chosen_cname. rewrite H. reflexivity. Qed.

Lemma chosen_cname_truthy s u p :
  substring 0 8 u <> "" -> truthy_opt (chosen_cname s u p) = true.
Proof.
  intros Hu. unfold chosen_cname.
  destruct (truthy_opt (cnameForProducers s)) eqn:H1; [exact H1|].
  destruct (truthy_opt (rtcp_cname p)) eqn:H2; [exact H2|].
  cbn. unfold truthy. destruct (String.eqb_spec (substring 0 8 u) ""); [contradiction|].
  reflexivity.
Qed.

Lemma assign_cname_keeps_cname cn u p :
  truthy cn = true -> stable (fun s => cnameForProducers s = Some cn) (assign_cname u p).
Proof.
  intros Hcn s Hs. rewrite assign_cname_eq. cbn [fst snd].
  destruct (is_pipe s); [exact Hs|]. cbn.
  rewrite chosen_cname_fixed; [exact Hs|]. rewrite Hs. exact Hcn.
Qed.

(** Once a Transport has a CNAME for its Producers, no turn of the event
    loop changes it. *)
Lemma cname_methods_stable cn :
  truthy cn = true -> methods_stable (fun s => cnameForProducers s = Some cn).
Proof.
  intros Hcn.
  methods_stable_with ltac:(apply assign_cname_keeps_cname, Hcn)
                      ltac:(intros ? Hs; exact Hs).
Qed.

Lemma name_methods_stable name : methods_stable (fun s => constructor_name s = name).
Proof. methods_stable_with fail ltac:(intros ? Hs; exact Hs). Qed.

Lemma produce_resume_stores c st w :
  producerObjs (state (produce_resume c st w)) !! List.length (producerObjs w)
  = Some (Owned.owned (pc_producerId c) (transportId (internal w)) false
            {| p_kind := pc_kind c; p_rtpParameters := pc_rtpParameters c;
               p_type := ps_type st;
               p_consumableRtpParameters := pc_consumableRtpParameters c;
               p_paused := pc_paused c; p_appData := pc_appData c |}).
Proof. cbn. apply list_lookup_middle. reflexivity. Qed.

(** C5: a [produce()] that reaches its request, on a Transport that is not a
    PipeTransport, leaves the Transport with the CNAME [chosen_cname] (the one
    the Transport had, else the one of the producer, else the first eight
    characters of a fresh uuid) and gives the producer's parameters that same
    CNAME, whatever they carried; the Producer then created keeps these
    parameters; and after any further turns of the event loop a later
    [produce()] gets the CNAME of the earlier one.  On a PipeTransport the
    rtcp parameters are those of the caller and the Transport's CNAME is not
    touched. *)
Theorem one_cname_for_producers router u1 u2 o s c s' l :
  produce_begin router u1 u2 o s = (Return c, s', l) ->
  (is_pipe s = false ->
     cnameForProducers s' = chosen_cname s u1 (po_rtpParameters o)
     /\ rtcp_cname (pc_rtpParameters c) = chosen_cname s u1 (po_rtpParameters o))
  /\ (is_pipe s = false -> truthy_opt (cnameForProducers s) = false ->
      cnameForProducers s'
      = if truthy_opt (rtcp_cname (po_rtpParameters o))
        then rtcp_cname (po_rtpParameters o) else Some (substring 0 8 u1))
  /\ (is_pipe s = true ->
      rtcp (pc_rtpParameters c) = rtcp (po_rtpParameters o)
      /\ cnameForProducers s' = cnameForProducers s)
  /\ (forall st w,
       exists p,
         producerObjs (state (produce_resume c st w)) !! List.length (producerObjs w)
         = Some p
         /\ p_rtpParameters (Owned.data p) = pc_rtpParameters c)
  /\ (is_pipe s = false -> substring 0 8 u1 <> "" ->
      forall acts pend router' u1' u2' o' c' s'' l',
        produce_begin router' u1' u2' o' (world (run acts (sys_ s' pend)))
        = (Return c', s'', l') ->
        rtcp_cname (pc_rtpParameters c') = rtcp_cname (pc_rtpParameters c)
        /\ cnameForProducers s'' = cnameForProducers s').
Proof.
  intros Hb. destruct (produce_begin_inv _ _ _ _ _ _ _ _ Hb) as (_ & p & m & Hcn & _ & _ & Hp & _).
  rewrite assign_cname_eq in Hcn. injection Hcn as Hp' Hs'.
  rewrite chosen_cname_normalize in Hp', Hs'. rewrite Hp.
  assert (Hnp : is_pipe s = false ->
                cnameForProducers s' = chosen_cname s u1 (po_rtpParameters o)
                /\ rtcp_cname p = chosen_cname s u1 (po_rtpParameters o)).
  { intros Hpipe. rewrite Hpipe in Hp', Hs'. subst p s'. split; reflexivity. }
  split; [exact Hnp|]. split; [|split; [|split]].
  - intros Hpipe Hf. rewrite (proj1 (Hnp Hpipe)). unfold chosen_cname. rewrite Hf.
    reflexivity.
  - intros Hpipe. rewrite Hpipe in Hp', Hs'. subst p s'. split; [|reflexivity].
    unfold normalize_encodings. destruct (encodings_blank (po_rtpParameters o));
      reflexivity.
  - intros st w. eexists. split; [apply produce_resume_stores|]. cbn. exact Hp.
  - intros Hpipe Hu acts pend router' u1' u2' o' c' s'' l' Hb'.
    destruct (Hnp Hpipe) as [Hs1 Hp1].
    pose proof (chosen_cname_truthy s u1 (po_rtpParameters o) Hu) as Ht.
    destruct (chosen_cname s u1 (po_rtpParameters o)) as [cn|] eqn:Hc; [|discriminate].
    set (w := world (run acts (sys_ s' pend))) in *.
    assert (Hw : cnameForProducers w = Some cn).
    { apply (run_stable (fun s => cnameForProducers s = Some cn));
        [apply cname_methods_stable, Ht | exact Hs1]. }
    assert (Hn : is_pipe w = false).
    { assert (Hname : constructor_name w = constructor_name s).
      { apply (run_stable (fun x => constructor_name x = constructor_name s));
          [apply name_methods_stable|].
        cbn. rewrite Hpipe in Hs'. subst s'. reflexivity. }
      unfold is_pipe in *. rewrite Hname. exact Hpipe. }
    destruct (produce_begin_inv _ _ _ _ _ _ _ _ Hb')
      as (_ & p2 & m2 & Hcn2 & _ & _ & Hp2 & _).
    rewrite assign_cname_eq, Hn in Hcn2. injection Hcn2 as Hp2' Hs2.
    rewrite chosen_cname_fixed in Hp2', Hs2 by (rewrite Hw; exact Ht).
    rewrite Hp2, Hp1, Hs1. subst p2 s''. cbn. rewrite Hw. split; reflexivity.
Qed.

(** C7: when the parameters given to a [produce()] that reaches its
    request have missing, non-array or empty encodings, the parameters the
    negotiation runs on, those of the request and those of the Producer have
    exactly the one default encoding; the consumable parameters are what
    [ortc.getConsumableRtpParameters] makes of them, so they have one encoding
    entry if that function gives one per encoding. *)
Theorem blank_encodings_get_one_default router u1 u2 o s c s' l :
  produce_begin router u1 u2 o s = (Return c, s', l) ->
  encodings_blank (po_rtpParameters o) = true ->
  encodings (pc_rtpParameters c) = encodings_array [empty_encoding]
  /\ (exists m,
        getProducerRtpParametersMapping (pc_rtpParameters c)
          (getRouterRtpCapabilities router) = Return m
        /\ getConsumableRtpParameters (po_kind o) (pc_rtpParameters c)
             (getRouterRtpCapabilities router) m
           = Return (pc_consumableRtpParameters c)
        /\ l = [on_transport
                  (channel_request "transport.produce" (Some (transportId (internal s')))
                     (Some (produce_req (pc_producerId c) (po_kind o) (pc_rtpParameters c)
                              m (po_keyFrameRequestDelay o) (po_paused o))))])
  /\ (consumable_per_encoding ->
      encodings_length (pc_consumableRtpParameters c) = Some 1)
  /\ (forall st w,
       exists p,
         producerObjs (state (produce_resume c st w)) !! List.length (producerObjs w)
         = Some p
         /\ p_rtpParameters (Owned.data p) = pc_rtpParameters c
         /\ p_consumableRtpParameters (Owned.data p) = pc_consumableRtpParameters c).
Proof.
  intros Hb Hblank.
  destruct (produce_begin_inv _ _ _ _ _ _ _ _ Hb)
    as (_ & p & m & Hcn & Hm & Hcons & Hp & _ & Hl).
  rewrite assign_cname_eq in Hcn. injection Hcn as Hp' _.
  assert (He : encodings p = encodings_array [empty_encoding]).
  { subst p. unfold normalize_encodings. rewrite Hblank.
    destruct (is_pipe s); reflexivity. }
  rewrite Hp. split; [exact He|]. split; [|split].
  - exists m. repeat split; assumption.
  - intros Hortc. rewrite (Hortc _ _ _ _ _ Hcons). unfold encodings_length.
    rewrite He. reflexivity.
  - intros st w. eexists. split; [apply produce_resume_stores|]. cbn.
    split; [exact Hp|reflexivity].
Qed.

(** C4: a [produce()] with a non-empty id that the map of Producers already
    has throws the TypeError of line 560 with the state as it was and an empty
    trace, whatever the engine would have answered; a [consume()] whose
    producerId the Router does not resolve throws with the state as it was and
    an empty trace, and what it throws is the error of line 707 when its
    arguments pass the checks that come before the lookup. *)
Theorem rejected_before_any_request router s :
  (forall u1 u2 o id response,
      po_id o = Some id -> id <> "" -> has id (producers s) = true ->
      let e := exception TypeError
                 ("a Producer with same id " ++ quoted id ++ " already exists") in
      produce_begin router u1 u2 o s = (Throw e, s, [])
      /\ produce router u1 u2 o response s = (Throw e, s, []))
  /\ (forall u o response,
        unresolved router o ->
        exists e,
          consume_begin router u o s = (Throw e, s, [])
          /\ consume router u o response s = (Throw e, s, []))
  /\ (forall u o id,
        unresolved router o -> consume_accepts o -> co_producerId o = Some id ->
        consume_begin router u o s
        = (Throw (exception Error ("Producer with id " ++ quoted id ++ " not found")),
           s, [])).
Proof.
  split; [|split].
  - intros u1 u2 o id response Hid Hne Hhas e.
    assert (Hb : produce_begin router u1 u2 o s = (Throw e, s, [])).
    { unfold produce_begin. rewrite bind_gets, Hid. cbn [truthy_opt]. unfold truthy.
      destruct (String.eqb_spec id ""); [contradiction|]. cbn [negb andb].
      rewrite Hhas. reflexivity. }
    split; [exact Hb|]. unfold produce. apply bind_Throw, Hb.
  - intros u o response Hun.
    assert (Hb : exists e, consume_begin router u o s = (Throw e, s, [])).
    { unfold consume_begin.
      destruct (truthy_opt (co_producerId o)) eqn:Hid; cbn [negb]; [|eexists; reflexivity].
      destruct (appData_invalid (co_appData o)); [eexists; reflexivity|].
      destruct (mid_invalid (co_mid o)); [eexists; reflexivity|].
      destruct (validateRtpCapabilities (co_rtpCapabilities o)) as [e|];
        [eexists; reflexivity|].
      cbn [lift_check]. rewrite bind_ret.
      destruct (co_producerId o) as [id|] eqn:Ho; [|discriminate].
      rewrite (Hun id Ho). eexists. reflexivity. }
    destruct Hb as [e Hb]. exists e. split; [exact Hb|]. unfold consume.
    apply bind_Throw, Hb.
  - intros u o id Hun (Hid & Happ & Hmid & Hcaps) Ho.
    unfold consume_begin. rewrite Hid, Happ, Hmid, Hcaps. cbn [negb lift_check].
    rewrite bind_ret, Ho, (Hun id Ho). reflexivity.
Qed.

(** Lines 735 to 744 in one equation. *)
Lemma next_mid_eq s :
  next_mid s
  = (Return (String_of_N (nextMidForConsumers s)),
     set_nextMidForConsumers (next_counter (nextMidForConsumers s)) s,
     if N.eqb (nextMidForConsumers s + 1) max_mid then [max_mid_reached] else []).
Proof.
  unfold next_mid, next_counter, max_mid_reached.
  rewrite bind_gets, bind_modify, bind_gets. cbn [nextMidForConsumers set_nextMidForConsumers].
  destruct (N.eqb_spec (nextMidForConsumers s + 1) max_mid) as [Heq|Hne].
  - cbn [when]. rewrite Heq. reflexivity.
  - cbn [when]. rewrite bind_ret. reflexivity.
Qed.

Lemma set_nextMidForConsumers_id s :
  set_nextMidForConsumers (nextMidForConsumers s) s = s.
Proof. destruct s; reflexivity. Qed.

(** Lines 726 to 746 in one equation. *)
Lemma assign_mid_eq pipe m p s :
  assign_mid pipe m p s
  = if pipe then (Return p, s, [])
    else if mid_truthy m then (Return (set_mid (mid_value m) p), s, [])
    else (Return (set_mid (Some (String_of_N (nextMidForConsumers s))) p),
          set_nextMidForConsumers (next_counter (nextMidForConsumers s)) s,
          if N.eqb (nextMidForConsumers s + 1) max_mid then [max_mid_reached] else []).
Proof.
  unfold assign_mid. destruct pipe; cbn [negb]; [reflexivity|].
  destruct (mid_truthy m); [reflexivity|].
  rewrite (bind_Return _ _ _ _ _ _ (next_mid_eq s)). cbn. rewrite app_nil_r. reflexivity.
Qed.

(** What a [consume()] that reaches its [await] has done. *)
Lemma consume_begin_inv router u o s c s' l :
  consume_begin router u o s = (Return c, s', l) ->
  consume_accepts o
  /\ exists id producer enableRtx p lm,
      co_producerId o = Some id
      /\ getProducerById router id = Some producer
      /\ getConsumerRtpParameters (p_consumableRtpParameters (Owned.data producer))
           (co_rtpCapabilities o) (co_pipe o) enableRtx = Return p
      /\ assign_mid (co_pipe o) (co_mid o) p s = (Return (cc_rtpParameters c), s', lm)
      /\ exists request, is_request request = true /\ l = lm ++ [on_transport request].
Proof.
  unfold consume_begin, consume_accepts.
  destruct (truthy_opt (co_producerId o)) eqn:Hid; cbn [negb]; [|discriminate].
  destruct (appData_invalid (co_appData o)); [discriminate|].
  destruct (mid_invalid (co_mid o)); [discriminate|].
  destruct (validateRtpCapabilities (co_rtpCapabilities o)); [discriminate|].
  cbn [lift_check]. rewrite bind_ret.
  destruct (co_producerId o) as [id|]; [|discriminate].
  destruct (getProducerById router id) as [producer|] eqn:Hp; [|discriminate].
  cbv zeta. unfold lift_completion.
  destruct (getConsumerRtpParameters _ _ _ _) as [p|e] eqn:Hcp; [|discriminate].
  rewrite bind_ret.
  destruct (assign_mid (co_pipe o) (co_mid o) p s) as [[r s1] lm] eqn:Ham.
  pose proof (assign_mid_eq (co_pipe o) (co_mid o) p s) as Heq. rewrite Ham in Heq.
  assert (exists p', r = Return p') as [p' ->].
  { destruct (co_pipe o); [|destruct (mid_truthy (co_mid o))];
      injection Heq as -> _ _; eexists; reflexivity. }
  rewrite (bind_Return _ _ _ _ _ _ Ham). cbn beta.
  rewrite bind_gets, bind_tell. cbn.
  intros H0. injection H0 as <- <- <-.
  split; [repeat split|].
  eexists id, producer, _, p, lm. repeat split; try eassumption; try reflexivity.
  eexists. split; [|reflexivity]. reflexivity.
Qed.

Lemma next_mid_keeps_bound :
  stable (fun s => (nextMidForConsumers s < max_mid)%N) next_mid.
Proof.
  intros s Hs. rewrite next_mid_eq. cbn. unfold next_counter.
  destruct (N.eqb_spec (nextMidForConsumers s + 1) max_mid); unfold max_mid in *; lia.
Qed.

(** The counter of MIDs stays below its bound. *)
Lemma mid_methods_stable : methods_stable (fun s => (nextMidForConsumers s < max_mid)%N).
Proof.
  methods_stable_with ltac:(apply next_mid_keeps_bound) ltac:(intros ? Hs; exact Hs).
Qed.

Lemma assign_mid_keeps_counter pipe m p n :
  pipe || mid_truthy m = true ->
  stable (fun s => nextMidForConsumers s = n) (assign_mid pipe m p).
Proof.
  intros H s Hs. rewrite assign_mid_eq.
  destruct pipe; [exact Hs|]. cbn in H. rewrite H. exact Hs.
Qed.

(** Only a [consume()] that takes a MID moves the counter. *)
Lemma step_keeps_mid_counter a s :
  takes_no_mid a = true ->
  nextMidForConsumers (world (fst (step a s))) = nextMidForConsumers (world s).
Proof.
  intros Ha.
  set (P := fun w : State => nextMidForConsumers w = nextMidForConsumers (world s)).
  change (P (world (fst (step a s)))).
  assert (H : P (world s)) by reflexivity.
  assert (Hmod : forall m : M unit, stable P m -> P (state (m (world s))))
    by (intros m Hm; apply Hm, H).
  destruct a; cbn [step takes_no_mid] in *;
    rewrite ?world_run_unit, ?world_run_begin;
    try solve [ match goal with
                | |- _ (state (?m _)) =>
                    cut (stable P m); [intros St; apply St, H|];
                    subst P; clear H Hmod;
                    stable_with ltac:(apply assign_mid_keeps_counter; exact Ha)
                                ltac:(intros ? Hs; exact Hs)
                end ].
  - destruct (pending s !! i) as [[c|c|c|c]|]; destruct r; cbn [fst]; try exact H;
      rewrite world_run_resume;
      match goal with
      | |- _ (state (?m _)) =>
          cut (stable P m); [intros St; apply St, H|];
          subst P; clear H Hmod; stable_with fail ltac:(intros ? Hs; exact Hs)
      end.
  - exact H.
Qed.

Lemma run_keeps_mid_counter acts s :
  Forall (fun a => takes_no_mid a = true) acts ->
  nextMidForConsumers (world (run acts s)) = nextMidForConsumers (world s).
Proof.
  revert s. induction acts as [|a acts IH]; intros s Ha; [reflexivity|].
  apply Forall_cons in Ha as [Ha Hacts]. cbn [run].
  rewrite IH by exact Hacts. apply step_keeps_mid_counter, Ha.
Qed.


(** A [consume()] that passes its checks and takes its MID from the counter
    reaches its request and moves nothing but the counter. *)
Lemma consume_begin_takes router u o s id producer p :
  consume_accepts o -> co_producerId o = Some id ->
  getProducerById router id = Some producer ->
  getConsumerRtpParameters (p_consumableRtpParameters (Owned.data producer))
    (co_rtpCapabilities o) (co_pipe o)
    (match co_enableRtx o with
     | Some b => b
     | None => String.eqb (p_kind (Owned.data producer)) "video"
     end) = Return p ->
  co_pipe o = false -> mid_truthy (co_mid o) = false ->
  exists c l,
    consume_begin router u o s
    = (Return c, set_nextMidForConsumers (next_counter (nextMidForConsumers s)) s, l).
Proof.
  intros (H1 & H2 & H3 & H4) Hid Hp Hcp Hpipe Ht.
  unfold consume_begin. rewrite H1, H2, H3, H4. cbn [negb lift_check]. rewrite bind_ret.
  rewrite Hid, Hp. cbv zeta. rewrite Hcp. unfold lift_completion. rewrite bind_ret.
  assert (Ham := assign_mid_eq (co_pipe o) (co_mid o) p s).
  rewrite Hpipe, Ht in Ham. rewrite Hpipe in *.
  rewrite (bind_Return _ _ _ _ _ _ Ham). cbn beta.
  rewrite bind_gets, bind_tell. cbn. eexists _, _. reflexivity.
Qed.

(** A [consume()] that takes its MID from the counter. *)
Lemma consume_takes_counter router u o s c s' l :
  consume_begin router u o s = (Return c, s', l) ->
  co_pipe o = false -> mid_truthy (co_mid o) = false ->
  mid (cc_rtpParameters c) = Some (String_of_N (nextMidForConsumers s))
  /\ nextMidForConsumers s' = next_counter (nextMidForConsumers s).
Proof.
  intros Hb Hpipe Ht.
  destruct (consume_begin_inv _ _ _ _ _ _ _ Hb)
    as (_ & id & producer & rtx & p & lm & _ & _ & _ & Ham & _).
  rewrite assign_mid_eq, Hpipe, Ht in Ham. injection Ham as Hc Hs _.
  subst s'. rewrite <- Hc. split; reflexivity.
Qed.

(** The Consumer [consume()] builds when the engine has answered carries the
    parameters the call went on with, its MID included. *)
Lemma consume_resume_stores c st w :
  exists a consumer,
    result (consume_resume c st w) = Return a
    /\ consumerObjs (state (consume_resume c st w)) !! a = Some consumer
    /\ Owned.id consumer = cc_consumerId c
    /\ c_rtpParameters (Owned.data consumer) = cc_rtpParameters c.
Proof.
  exists (length (consumerObjs w)), (consumed c st w).
  split; [reflexivity|]. split; [|split; reflexivity].
  cbn. rewrite lookup_app_r, Nat.sub_diag by lia. reflexivity.
Qed.

(** C6, as amended: a [consume()] that reaches its request and is not for a
    pipe Consumer gives the Consumer's parameters the non-empty mid of the
    caller, leaving the counter alone, or else the counter as a decimal
    string, after which the counter is one more, or 0 with an error logged
    (through [logger.error]; nothing is logged through [logger.warn]) when one
    more is 100000000.  The next call that takes a MID from the counter,
    whatever else happens in between, gets the counter after this call: one
    more, so successive MIDs increase by one up to "99999999", and then "0".
    The Consumer built when the engine answers carries the parameters with
    that MID.  The counter of a Transport stays below 100000000.  For a pipe
    Consumer the mid is what the negotiation returned and the counter is left
    alone. *)
Theorem mid_assignment router u o s c s' l :
  consume_begin router u o s = (Return c, s', l) ->
  let n := nextMidForConsumers s in
  (co_pipe o = false -> mid_truthy (co_mid o) = true ->
     exists m, co_mid o = mid_string m /\ m <> ""
               /\ mid (cc_rtpParameters c) = Some m
               /\ nextMidForConsumers s' = n
               /\ ~ In max_mid_reached l)
  /\ (co_pipe o = false -> mid_truthy (co_mid o) = false ->
      mid (cc_rtpParameters c) = Some (String_of_N n)
      /\ nextMidForConsumers s' = next_counter n
      /\ (In max_mid_reached l <-> (n + 1)%N = max_mid))
  /\ (co_pipe o = true ->
      nextMidForConsumers s' = n
      /\ exists producer enableRtx p,
           getConsumerRtpParameters (p_consumableRtpParameters (Owned.data producer))
             (co_rtpCapabilities o) true enableRtx = Return p
           /\ mid (cc_rtpParameters c) = mid p)
  /\ ((n + 1 <> max_mid)%N -> next_counter n = (n + 1)%N /\ (n < next_counter n)%N)
  /\ ((n + 1)%N = max_mid -> next_counter n = 0%N
                              /\ String_of_N n = "99999999" /\ String_of_N 0 = "0")
  /\ (forall sys, reachable sys -> (nextMidForConsumers (world sys) < max_mid)%N)
  /\ List.filter is_warning l = []
  /\ (forall st w,
        exists a consumer,
          result (consume_resume c st w) = Return a
          /\ consumerObjs (state (consume_resume c st w)) !! a = Some consumer
          /\ Owned.id consumer = cc_consumerId c
          /\ mid (c_rtpParameters (Owned.data consumer)) = mid (cc_rtpParameters c))
  /\ (co_pipe o = false -> mid_truthy (co_mid o) = false ->
      forall acts waiting router' u' o' c' s'' l',
        Forall (fun a => takes_no_mid a = true) acts ->
        co_pipe o' = false -> mid_truthy (co_mid o') = false ->
        consume_begin router' u' o'
          (world (run acts {| world := s'; pending := waiting |})) = (Return c', s'', l') ->
        mid (cc_rtpParameters c') = Some (String_of_N (next_counter n))
        /\ nextMidForConsumers s'' = next_counter (next_counter n)).
Proof.
  intros Hb n.
  destruct (consume_begin_inv _ _ _ _ _ _ _ Hb)
    as ((_ & _ & Hmid & _) & id & producer & rtx & p & lm & _ & _ & Hcp & Ham
        & request & Hreq & Hl).
  rewrite assign_mid_eq in Ham.
  assert (Hnot : forall e, is_request e = true -> on_transport e <> max_mid_reached).
  { intros e He Heq. unfold max_mid_reached in Heq. injection Heq as ->. discriminate. }
  assert (Hlm : lm = [] \/ lm = [max_mid_reached]).
  { destruct (co_pipe o); [|destruct (mid_truthy (co_mid o))];
      injection Ham as _ _ <-; try (left; reflexivity).
    destruct (N.eqb _ _); [right|left]; reflexivity. }
  repeat apply conj.
  - intros Hpipe Ht. rewrite Hpipe, Ht in Ham. cbv beta iota in Ham.
    injection Ham as Hc Hs Hlm'. subst s'. subst lm. subst l.
    destruct (co_mid o) as [| |m]; [discriminate Ht | discriminate Hmid |].
    exists m. repeat split.
    + cbn in Ht. unfold truthy in Ht. intros ->. discriminate Ht.
    + rewrite <- Hc. reflexivity.
    + cbn. intros [Heq|[]]. exact (Hnot _ Hreq Heq).
  - intros Hpipe Ht. rewrite Hpipe, Ht in Ham. cbv beta iota in Ham.
    injection Ham as Hc Hs Hlm'. subst s' lm l.
    repeat split.
    + rewrite <- Hc. reflexivity.
    + fold n. intros Hin. apply in_app_or in Hin as [Hin|[Heq|[]]].
      * destruct (N.eqb_spec (n + 1) max_mid); [assumption|destruct Hin].
      * destruct (Hnot _ Hreq Heq).
    + fold n. intros Heq. apply in_or_app. left.
      rewrite (proj2 (N.eqb_eq _ _) Heq). left. reflexivity.
  - intros Hpipe. rewrite Hpipe in Ham, Hcp. cbv beta iota in Ham.
    injection Ham as Hc Hs Hlm'. subst s'. split; [reflexivity|].
    exists producer, rtx, p. split; [exact Hcp|]. rewrite Hc. reflexivity.
  - intros Hne. unfold next_counter.
    destruct (N.eqb_spec (n + 1) max_mid); [contradiction|]. split; [reflexivity|lia].
  - intros Heq. unfold next_counter. rewrite (proj2 (N.eqb_eq _ _) Heq).
    split; [reflexivity|]. unfold max_mid in Heq.
    assert (n = 99999999%N) as -> by lia. split; reflexivity.
  - intros sys (name & i & d & a & acts & ->).
    apply (run_stable (fun s => (nextMidForConsumers s < max_mid)%N));
      [apply mid_methods_stable|]. reflexivity.
  - subst l. rewrite List.filter_app. destruct request; try discriminate Hreq.
    destruct Hlm as [-> | ->]; reflexivity.
  - intros st w. destruct (consume_resume_stores c st w) as (a & consumer & H1 & H2 & H3 & H4).
    exists a, consumer. rewrite H4. repeat split; assumption.
  - intros Hpipe Ht acts waiting router' u' o' c' s'' l' Hacts Hpipe' Ht' Hb'.
    destruct (consume_takes_counter _ _ _ _ _ _ _ Hb Hpipe Ht) as [_ Hs'].
    destruct (consume_takes_counter _ _ _ _ _ _ _ Hb' Hpipe' Ht') as [Hm' Hs''].
    rewrite (run_keeps_mid_counter acts _ Hacts) in Hm', Hs''. cbn [world] in Hm', Hs''.
    rewrite Hs' in Hm', Hs''. split; assumption.
Qed.

End ProduceConsume.

Section Witnesses.
Import Transport Examples.

Lemma one_cname_for_producers_witness :
  exists c s' l,
    produce_begin router "0f1e2d3c-uuid" "p1" (produce_options None None encodings_falsy)
      (transport "WebRtcTransport" 2) = (Return c, s', l)
    /\ cnameForProducers s' = Some "0f1e2d3c"
    /\ rtcp_cname (pc_rtpParameters c) = Some "0f1e2d3c".
Proof.
  assert (Hb : exists c s' l,
             produce_begin router "0f1e2d3c-uuid" "p1"
               (produce_options None None encodings_falsy)
               (transport "WebRtcTransport" 2) = (Return c, s', l)).
  { vm_compute. eexists _, _, _. reflexivity. }
  destruct Hb as (c & s' & l & Hb). exists c, s', l. split; [exact Hb|].
  destruct (one_cname_for_producers _ _ _ _ _ _ _ _ Hb) as [H1 _].
  destruct (H1 eq_refl) as [-> ->]. split; reflexivity.
Defined.

Lemma blank_encodings_get_one_default_witness :
  exists c s' l,
    produce_begin router "0f1e2d3c-uuid" "p1" (produce_options None None encodings_falsy)
      (transport "WebRtcTransport" 2) = (Return c, s', l)
    /\ encodings_blank (po_rtpParameters (produce_options None None encodings_falsy)) = true
    /\ consumable_per_encoding
    /\ encodings (pc_rtpParameters c) = encodings_array [empty_encoding]
    /\ encodings_length (pc_consumableRtpParameters c) = Some 1.
Proof.
  assert (Hb : exists c s' l,
             produce_begin router "0f1e2d3c-uuid" "p1"
               (produce_options None None encodings_falsy)
               (transport "WebRtcTransport" 2) = (Return c, s', l)).
  { vm_compute. eexists _, _, _. reflexivity. }
  assert (Hortc : consumable_per_encoding).
  { intros kind p caps m c Hc. injection Hc as <-. unfold encodings_length. cbn.
    reflexivity. }
  destruct Hb as (c & s' & l & Hb). exists c, s', l. split; [exact Hb|].
  split; [reflexivity|]. split; [exact Hortc|].
  destruct (blank_encodings_get_one_default _ _ _ _ _ _ _ _ Hb eq_refl)
    as (H1 & _ & H3 & _).
  split; [exact H1|exact (H3 Hortc)].
Defined.

Lemma rejected_before_any_request_witness :
  po_id (produce_options (Some "p1") None encodings_falsy) = Some "p1"
  /\ "p1" <> ""
  /\ has "p1" (producers (world busy)) = true
  /\ result (produce_begin router "u1" "u2" (produce_options (Some "p1") None encodings_falsy)
               (world busy))
     = Throw (exception TypeError
                ("a Producer with same id " ++ quoted "p1" ++ " already exists"))
  /\ state (produce_begin router "u1" "u2" (produce_options (Some "p1") None encodings_falsy)
              (world busy))
     = world busy.
Proof.
  assert (H1 : has "p1" (producers (world busy)) = true) by (vm_compute; reflexivity).
  assert (H2 : "p1" <> "") by discriminate.
  split; [reflexivity|]. split; [exact H2|]. split; [exact H1|].
  destruct (proj1 (rejected_before_any_request router (world busy)) "u1" "u2"
              (produce_options (Some "p1") None encodings_falsy) "p1"
              (Throw (exception Error "rejected")) eq_refl H2 H1) as [Hb _].
  rewrite Hb. split; reflexivity.
Defined.

Lemma mid_assignment_witness :
  exists c s' l,
    consume_begin router_p "u" (consume_options "p1" mid_falsy false)
      (transport "WebRtcTransport" 2) = (Return c, s', l)
    /\ mid (cc_rtpParameters c) = Some "0"
    /\ nextMidForConsumers s' = 1%N.
Proof.
  assert (Hb : exists c s' l,
             consume_begin router_p "u" (consume_options "p1" mid_falsy false)
               (transport "WebRtcTransport" 2) = (Return c, s', l)).
  { vm_compute. eexists _, _, _. reflexivity. }
  destruct Hb as (c & s' & l & Hb). exists c, s', l. split; [exact Hb|].
  destruct (mid_assignment _ _ _ _ _ _ _ Hb) as (_ & H2 & _).
  destruct (H2 eq_refl eq_refl) as (-> & -> & _). split; reflexivity.
Defined.

Lemma consume_begin_example s :
  exists c l,
    consume_begin router_p "u" (consume_options "p1" mid_falsy false) s
    = (Return c, set_nextMidForConsumers (next_counter (nextMidForConsumers s)) s, l).
Proof.
  apply (consume_begin_takes router_p "u" (consume_options "p1" mid_falsy false) s
           "p1" a_producer (p_consumableRtpParameters (Owned.data a_producer)));
    try reflexivity.
  repeat split.
Qed.

Lemma rejected_consumes_run n : forall k w,
  (k + n < max_mid)%N ->
  run (rejected_consumes n) (sys_ (set_nextMidForConsumers k w) [])
  = sys_ (set_nextMidForConsumers (k + n) w) [].
Proof.
  induction n as [|n IH] using N.peano_ind; intros k w Hk.
  - rewrite N.add_0_r. reflexivity.
  - unfold rejected_consumes. rewrite N.iter_succ. fold (rejected_consumes n).
    destruct (consume_begin_example (set_nextMidForConsumers k w)) as (c & l & E).
    cbn [run step]. unfold run_begin. cbn [world pending]. rewrite E.
    cbn [fst world pending app base.delete].
    assert (Hn : next_counter k = (k + 1)%N).
    { unfold next_counter. destruct (N.eqb_spec (k + 1) max_mid); [lia|reflexivity]. }
    cbn [nextMidForConsumers set_nextMidForConsumers]. rewrite Hn.
    change (sys_ (set_nextMidForConsumers (k + 1) (set_nextMidForConsumers k w))
              (base.delete 0 [pending_consume c]))
      with (sys_ (set_nextMidForConsumers (k + 1) w) []).
    rewrite IH by lia. replace (k + N.succ n)%N with (k + 1 + n)%N by lia. reflexivity.
Qed.

(** The counter reaches 99999999. *)
Lemma last_mid_reachable : reachable (sys_ last_mid []).
Proof.
  exists "WebRtcTransport", (internal_ "r" "t"),
    (transportData_ (Some (sctpParameters_ 5000 1024 (Some 2) 262144))), appData_falsy,
    (rejected_consumes 99999999).
  change (sys_ last_mid []
          = run (rejected_consumes 99999999)
              (sys_ (set_nextMidForConsumers 0 (transport "WebRtcTransport" 2)) [])).
  rewrite rejected_consumes_run by (unfold max_mid; lia). reflexivity.
Qed.

(** C6, the counterexample: the call that takes the MID "99999999" logs
    through [logger.error], and nothing through [logger.warn]. *)
Lemma mid_wrap_logs_an_error :
  reachable (sys_ last_mid [])
  /\ exists c s' l,
       consume_begin router_p "u" (consume_options "p1" mid_falsy false) last_mid
       = (Return c, s', l)
       /\ mid (cc_rtpParameters c) = Some "99999999"
       /\ nextMidForConsumers s' = 0%N
       /\ In max_mid_reached l
       /\ List.filter is_warning l = [].
Proof.
  split; [exact last_mid_reachable|].
  eexists _, _, _. split; [vm_compute; reflexivity|].
  split; [reflexivity|]. split; [reflexivity|]. split; [left; reflexivity|reflexivity].
Qed.

End Witnesses.

(** ** The SCTP stream ids *)
Section StreamIds.
Context `{I : Imports} `{O : @Ortc I}.
Import Transport.

Lemma scan_Some ids next idx n k :
  scan ids next idx n = Some k ->
  exists j, idx <= j < idx + n
    /\ k = (next + j) mod length ids
    /\ slot_free ids k = true
    /\ forall i, idx <= i < j -> slot_free ids ((next + i) mod length ids) = false.
Proof.
  revert idx. induction n as [|n IH]; intros idx H; cbn in H; [discriminate|].
  destruct (slot_free ids ((next + idx) mod length ids)) eqn:E.
  - injection H as <-. exists idx. split; [lia|]. split; [reflexivity|].
    split; [exact E|]. intros i Hi. lia.
  - apply IH in H as (j & Hj & -> & Hf & Hb). exists j. split; [lia|].
    split; [reflexivity|]. split; [exact Hf|].
    intros i Hi. destruct (decide (i = idx)) as [->|Hne]; [exact E|apply Hb; lia].
Qed.

Lemma scan_None ids next idx n :
  scan ids next idx n = None ->
  forall i, idx <= i < idx + n -> slot_free ids ((next + i) mod length ids) = false.
Proof.
  revert idx. induction n as [|n IH]; intros idx H i Hi; [lia|]. cbn in H.
  destruct (slot_free ids ((next + idx) mod length ids)) eqn:E; [discriminate|].
  destruct (decide (i = idx)) as [->|Hne]; [exact E|]. apply (IH (S idx)); [exact H|lia].
Qed.

Lemma scan_first ids next idx n j :
  idx <= j < idx + n ->
  slot_free ids ((next + j) mod length ids) = true ->
  (forall i, idx <= i < j -> slot_free ids ((next + i) mod length ids) = false) ->
  scan ids next idx n = Some ((next + j) mod length ids).
Proof.
  revert idx. induction n as [|n IH]; intros idx Hj Hf Hb; [lia|]. cbn.
  destruct (decide (j = idx)) as [->|Hne].
  - rewrite Hf. reflexivity.
  - rewrite (Hb idx) by lia. apply IH; [lia|exact Hf|]. intros i Hi. apply Hb. lia.
Qed.

(** Going around from [next], every slot is met. *)
Lemma cyclic_cover len next k :
  k < len -> exists i, i < len /\ (next + i) mod len = k.
Proof.
  intros Hk. assert (Hr : next mod len < len) by (apply Nat.mod_upper_bound; lia).
  destruct (le_lt_dec (next mod len) k) as [Hle|Hlt].
  - exists (k - next mod len). split; [lia|].
    rewrite <- Nat.Div0.add_mod_idemp_l.
    replace (next mod len + (k - next mod len)) with k by lia.
    apply Nat.mod_small. exact Hk.
  - exists (k + len - next mod len). split; [lia|].
    rewrite <- Nat.Div0.add_mod_idemp_l.
    replace (next mod len + (k + len - next mod len)) with (k + 1 * len) by lia.
    rewrite Nat.Div0.mod_add. apply Nat.mod_small. exact Hk.
Qed.

Lemma scan_first_free ids next k :
  scan ids next 0 (length ids) = Some k <-> first_free_from ids next k.
Proof.
  split.
  - intros H. apply scan_Some in H as (j & Hj & -> & Hf & Hb). exists j.
    split; [lia|]. split; [reflexivity|]. split; [exact Hf|].
    intros i Hi. apply Hb. lia.
  - intros (j & Hj & -> & Hf & Hb). apply scan_first; [lia|exact Hf|].
    intros i Hi. apply Hb. lia.
Qed.

Lemma scan_all_taken ids next :
  scan ids next 0 (length ids) = None <-> all_taken ids.
Proof.
  split.
  - intros H k Hk. destruct (cyclic_cover (length ids) next k Hk) as (i & Hi & <-).
    apply (scan_None _ _ _ _ H). lia.
  - intros H. destruct (scan ids next 0 (length ids)) as [k|] eqn:E; [|reflexivity].
    apply scan_Some in E as (j & Hj & -> & Hf & _).
    rewrite H in Hf; [discriminate|]. apply Nat.mod_upper_bound. lia.
Qed.

(** An allocation finds a first clear slot or finds every slot set. *)
Lemma first_free_or_all_taken ids next :
  (exists k, first_free_from ids next k) \/ all_taken ids.
Proof.
  destruct (scan ids next 0 (length ids)) as [k|] eqn:E.
  - left. exists k. apply scan_first_free. exact E.
  - right. apply (scan_all_taken ids next). exact E.
Qed.

Lemma first_free_unique ids next k k' :
  first_free_from ids next k -> first_free_from ids next k' -> k = k'.
Proof.
  intros H H'. apply scan_first_free in H, H'. congruence.
Qed.

Lemma first_free_not_all_taken ids next k :
  first_free_from ids next k -> all_taken ids -> False.
Proof.
  intros H H'. apply scan_first_free in H. apply (scan_all_taken ids next) in H'. congruence.
Qed.

Lemma first_free_in_range ids next k : first_free_from ids next k -> k < length ids.
Proof. intros (j & Hj & -> & _). apply Nat.mod_upper_bound. lia. Qed.

Lemma set_sctpStreamIds_id s : set_sctpStreamIds (sctpStreamIds s) s = s.
Proof. destruct s; reflexivity. Qed.

Lemma getNextSctpStreamId_eq n s :
  MIS_of s = Some n ->
  getNextSctpStreamId s
  = match scan (bitmap n s) (nextSctpStreamId s) 0 (length (bitmap n s)) with
    | Some k => (Return k, allocated n k s, [])
    | None => (Throw no_sctpStreamId, exhausted n s, [])
    end.
Proof.
  unfold MIS_of, getNextSctpStreamId, allocated, exhausted, bitmap. intros Hn.
  rewrite bind_gets. destruct (sctpParameters (data s)) as [sp|]; [|discriminate].
  rewrite Hn. rewrite bind_gets.
  destruct (sctpStreamIds s) as [ids|] eqn:Hids.
  - replace (set_sctpStreamIds (Some ids) s) with s
      by (rewrite <- Hids; symmetry; apply set_sctpStreamIds_id).
    cbn. rewrite Hids. destruct (scan ids (nextSctpStreamId s) 0 (length ids)); reflexivity.
  - cbn.
    destruct (scan (replicate n 0%N) (nextSctpStreamId s) 0 (length (replicate n 0%N)));
      reflexivity.
Qed.

Lemma getNextSctpStreamId_missing s :
  MIS_of s = None ->
  getNextSctpStreamId s = (Throw (exception TypeError "missing sctpParameters.MIS"), s, []).
Proof.
  unfold MIS_of, getNextSctpStreamId. intros Hn. rewrite bind_gets.
  destruct (sctpParameters (data s)) as [sp|]; [rewrite Hn|]; reflexivity.
Qed.

(** [consumeData()] up to its request, on a Transport that is not a
    DirectTransport: the id is the one the allocation returns, and its slot
    is set before the request is issued. *)
Lemma consumeData_begin_eq router u o dp n s :
  consumeData_accepts router o dp -> is_direct s = false -> MIS_of s = Some n ->
  match scan (bitmap n s) (nextSctpStreamId s) 0 (length (bitmap n s)) with
  | Some k =>
      exists c req,
        consumeData_begin router u o s
        = (Return c, marked n k s, [on_transport (channel_request "transport.consumeData"
                                                     (Some (transportId (internal s))) req)])
        /\ cdc_sctpStreamId c = Some k
  | None => consumeData_begin router u o s = (Throw no_sctpStreamId, exhausted n s, [])
  end.
Proof.
  intros (Hid & Happ & Hdp) Hdirect Hn. unfold consumeData_begin.
  rewrite Hid, Happ. cbn [negb].
  destruct (dco_dataProducerId o) as [id|]; [|discriminate]. rewrite (Hdp id eq_refl).
  rewrite bind_gets. unfold is_direct in Hdirect. rewrite Hdirect. cbn [negb].
  pose proof (getNextSctpStreamId_eq n s Hn) as Hg.
  destruct (scan (bitmap n s) (nextSctpStreamId s) 0 (length (bitmap n s))) as [k|].
  - eexists _, _. unfold bind at 1 2. rewrite Hg. cbn. split; reflexivity.
  - unfold bind at 1 2. rewrite Hg. reflexivity.
Qed.

Lemma on_dataConsumer_close_returns a s : result (on_dataConsumer_close a s) = Return tt.
Proof.
  unfold on_dataConsumer_close. rewrite bind_gets.
  destruct (dataConsumerObjs s !! a) as [[c sid]|]; [|reflexivity].
  rewrite bind_gets, bind_modify, bind_gets. destruct (sctpStreamIds _); reflexivity.
Qed.

Lemma on_dataConsumer_close_eq a s c sid :
  dataConsumerObjs s !! a = Some (c, sid) ->
  dataConsumerObjs (state (on_dataConsumer_close a s)) = dataConsumerObjs s
  /\ sctpStreamIds (state (on_dataConsumer_close a s))
     = (write_sctpStreamIds sid 0%N <$> sctpStreamIds s).
Proof.
  intros Ho. unfold on_dataConsumer_close. rewrite bind_gets, Ho, bind_gets, bind_modify.
  rewrite bind_gets. destruct s as [? ? ? ? ? ? ? ? ? ? ? [ids|] ? ? ? ? ?]; cbn; repeat split.
Qed.

Lemma deliver_dataConsumer_result a e s : result (deliver_dataConsumer a e s) = Return tt.
Proof.
  unfold deliver_dataConsumer. rewrite bind_tell. cbn [result].
  destruct (is_emit "@close" e), (is_emit "@dataproducerclose" e); cbn [when];
    rewrite ?bind_ret, ?(result_bind_Return _ _ _ tt) by apply on_dataConsumer_close_returns;
    first [apply on_dataConsumer_close_returns | reflexivity].
Qed.

Lemma deliver_dataConsumer_quiet a e s :
  is_emit "@close" e = false -> is_emit "@dataproducerclose" e = false ->
  state (deliver_dataConsumer a e s) = s.
Proof.
  intros H1 H2. unfold deliver_dataConsumer. rewrite bind_tell, H1, H2. reflexivity.
Qed.

Lemma deliver_dataConsumer_signal a ev s :
  ev = "@close" \/ ev = "@dataproducerclose" ->
  state (deliver_dataConsumer a (emit this ev []) s) = state (on_dataConsumer_close a s).
Proof.
  intros [-> | ->]; unfold deliver_dataConsumer; rewrite bind_tell; cbn [state is_emit];
    cbn [String.eqb Ascii.eqb Bool.eqb]; cbn [when]; 
    rewrite ?bind_ret, ?(state_bind_Return _ _ _ tt) by apply on_dataConsumer_close_returns;
    reflexivity.
Qed.

Lemma alter_at {A} (f g : A -> A) a (l : list A) x :
  l !! a = Some x -> f x = g x -> alter f a l = alter g a l.
Proof. intros Hl Hx. rewrite !alter_lookup, Hl, Hx. reflexivity. Qed.

(** A DataConsumer that is closed directly, or because its DataProducer is
    closed, is marked closed and its slot is cleared. *)
Lemma dataConsumer_closes a m s c sid :
  m = Owned.close "transport.closeDataConsumer" \/ m = Owned.sourceClosed "dataproducerclose" ->
  dataConsumerObjs s !! a = Some (c, sid) -> Owned.closed c = false ->
  dataConsumerObjs (state (on_dataConsumerObj a m s))
  = alter close_dataConsumer a (dataConsumerObjs s)
  /\ sctpStreamIds (state (on_dataConsumerObj a m s))
     = (write_sctpStreamIds sid 0%N <$> sctpStreamIds s).
Proof.
  intros Hm Ho Hc. unfold on_dataConsumerObj, invoke. rewrite bind_gets, Ho.
  cbn [fmap option_fmap option_map fst].
  assert (Hl : forall s', dataConsumerObjs s' = alter (fun c0 : DataConsumer * option nat => (Owned.set_closed true c, snd c0)) a (dataConsumerObjs s) -> sctpStreamIds s' = sctpStreamIds s ->
     dataConsumerObjs (state (on_dataConsumer_close a s')) = alter close_dataConsumer a (dataConsumerObjs s)
     /\ sctpStreamIds (state (on_dataConsumer_close a s')) = (write_sctpStreamIds sid 0%N <$> sctpStreamIds s)).
  { intros s' Hs' Hi.
    destruct (on_dataConsumer_close_eq a s' (Owned.set_closed true c) sid) as [-> ->].
    - rewrite Hs', list_lookup_alter_eq, Ho. reflexivity.
    - rewrite Hs', Hi. split; [|reflexivity]. apply (alter_at _ _ _ _ _ Ho). reflexivity. }
  destruct Hm as [-> | ->].
  - assert (Hm : Owned.close "transport.closeDataConsumer" c
                 = (Return tt, Owned.set_closed true c,
                    [channel_removeAllListeners (Owned.id c);
                     payloadChannel_removeAllListeners (Owned.id c);
                     channel_request "transport.closeDataConsumer" (Some (Owned.transportId c))
                       (Some (Owned.close_request (Owned.id c)));
                     emit this "@close" []; safeEmit observer "close" []])).
    { unfold Owned.close. rewrite bind_gets, Hc. reflexivity. }
    rewrite Hm, bind_modify.
    rewrite (state_bind_Return _ _ _ tt) by apply for_of_result, deliver_dataConsumer_result.
    cbn [lift_completion ret state for_of].
    rewrite !(state_bind_Return _ _ _ tt) by apply deliver_dataConsumer_result.
    cbn [ret state].
    repeat first [ rewrite deliver_dataConsumer_quiet by reflexivity
                 | rewrite deliver_dataConsumer_signal by (left; reflexivity) ].
    apply Hl; reflexivity.
  - assert (Hm : Owned.sourceClosed "dataproducerclose" c
                 = (Return tt, Owned.set_closed true c,
                    [channel_removeAllListeners (Owned.id c);
                     payloadChannel_removeAllListeners (Owned.id c);
                     emit this "@dataproducerclose" [];
                     safeEmit this "dataproducerclose" []; safeEmit observer "close" []])).
    { unfold Owned.sourceClosed. rewrite bind_gets, Hc. reflexivity. }
    rewrite Hm, bind_modify.
    rewrite (state_bind_Return _ _ _ tt) by apply for_of_result, deliver_dataConsumer_result.
    cbn [lift_completion ret state for_of].
    rewrite !(state_bind_Return _ _ _ tt) by apply deliver_dataConsumer_result.
    cbn [ret state].
    repeat first [ rewrite deliver_dataConsumer_quiet by reflexivity
                 | rewrite deliver_dataConsumer_signal by (right; reflexivity) ].
    apply Hl; reflexivity.
Qed.

(** On a closed DataConsumer, or on none, they do nothing. *)
Lemma dataConsumer_closes_not a m s :
  m = Owned.close "transport.closeDataConsumer" \/ m = Owned.sourceClosed "dataproducerclose" ->
  match dataConsumerObjs s !! a with
  | Some (c, _) => Owned.closed c = true
  | None => True
  end ->
  state (on_dataConsumerObj a m s) = s.
Proof.
  intros Hm Ho. unfold on_dataConsumerObj, invoke. rewrite bind_gets.
  destruct (dataConsumerObjs s !! a) as [[c sid]|] eqn:E; [|reflexivity].
  cbn [fmap option_fmap option_map fst].
  assert (Hc : m c = (Return tt, c, [])).
  { destruct Hm as [-> | ->]; [unfold Owned.close|unfold Owned.sourceClosed];
      rewrite bind_gets, Ho; reflexivity. }
  rewrite Hc, bind_modify. cbn.
  rewrite alter_lookup, E. cbn. rewrite list_insert_id by exact E.
  apply set_dataConsumerObjs_id.
Qed.

Lemma omap_delete {A B} (f : A -> option B) (l : list A) (i : nat) x :
  l !! i = Some x -> omap f l ≡ₚ option_list (f x) ++ omap f (base.delete i l).
Proof.
  revert i. induction l as [|y l IH]; intros [|i] H; cbn in H; try discriminate.
  - injection H as ->. cbn. destruct (f x); reflexivity.
  - cbn. destruct (f y) as [z|]; [|apply IH; exact H].
    rewrite (IH i H). apply Permutation_middle.
Qed.

Lemma omap_delete_submseteq {A B} (f : A -> option B) (l : list A) (i : nat) :
  omap f (base.delete i l) ⊆+ omap f l.
Proof.
  revert i. induction l as [|y l IH]; intros [|i]; cbn; try reflexivity.
  - destruct (f y); [apply submseteq_cons|]; reflexivity.
  - destruct (f y); [apply submseteq_skip|]; apply IH.
Qed.

Lemma omap_alter_delete {A B} (f : A -> option B) (g : A -> A) (l : list A) (i : nat) :
  (forall x, f (g x) = None) -> omap f (alter g i l) = omap f (base.delete i l).
Proof.
  intros Hg. revert i. induction l as [|y l IH]; intros [|i]; cbn; try reflexivity.
  - rewrite Hg. reflexivity.
  - specialize (IH i). cbn in IH. rewrite IH. reflexivity.
Qed.

Lemma held_closed c : held (close_dataConsumer c) = None.
Proof. reflexivity. Qed.

Lemma held_cascade refs objs :
  omap held (cascade close_dataConsumer refs objs) ⊆+ omap held objs.
Proof.
  revert objs. induction refs as [|a refs IH]; intros objs; [reflexivity|].
  cbn. etransitivity; [apply IH|].
  rewrite (omap_alter_delete held close_dataConsumer objs a held_closed).
  apply omap_delete_submseteq.
Qed.

(** The invariant depends on the bitmap and on the ids in use only, and
    survives giving ids up. *)
Lemma allocator_inv_transfer s s' :
  sctpStreamIds (world s') = sctpStreamIds (world s) ->
  ids_in_use s' ⊆+ ids_in_use s ->
  allocator_inv s -> allocator_inv s'.
Proof.
  intros Hb Hsub [Hnd Ht]. split.
  - destruct (submseteq_Permutation _ _ Hsub) as [k Hk]. rewrite Hk in Hnd.
    exact (proj1 (proj1 (NoDup_app _ _) Hnd)).
  - intros k Hk. unfold taken. rewrite Hb. apply Ht.
    exact (elem_of_submseteq _ _ _ Hk Hsub).
Qed.

(** The methods that have nothing to do with DataConsumers leave the bitmap
    and the DataConsumers alone. *)
Lemma allocator_frame b objs :
  let P := fun s => sctpStreamIds s = b /\ dataConsumerObjs s = objs in
  (forall router u1 u2 o, stable P (produce_begin router u1 u2 o))
  /\ (forall c st, stable P (produce_resume c st))
  /\ (forall router u o, stable P (consume_begin router u o))
  /\ (forall c st, stable P (consume_resume c st))
  /\ (forall u o, stable P (produceData_begin u o))
  /\ (forall c d, stable P (produceData_resume c d))
  /\ (forall a m, stable P (on_producerObj a m))
  /\ (forall a m, stable P (on_consumerObj a m))
  /\ (forall a m, stable P (on_dataProducerObj a m)).
Proof.
  intros P. subst P. repeat apply conj; intros;
    stable_with fail ltac:(intros ? Hs; exact Hs).
Qed.

Lemma framed {A} (m : M A) s :
  (forall b objs, stable (fun s => sctpStreamIds s = b /\ dataConsumerObjs s = objs) m) ->
  sctpStreamIds (state (m s)) = sctpStreamIds s
  /\ held_ids (state (m s)) = held_ids s.
Proof.
  intros Hm. destruct (Hm _ _ s (conj eq_refl eq_refl)) as [Hb Ho].
  split; [exact Hb|]. unfold held_ids. fold (state (m s)) in Ho. rewrite Ho. reflexivity.
Qed.

(** A close of the Transport keeps the bitmap and closes DataConsumers. *)
Lemma closes_give_up (m : M unit) s :
  In m [close; routerClosed; listenServerClosed] ->
  sctpStreamIds (state (m s)) = sctpStreamIds s
  /\ held_ids (state (m s)) ⊆+ held_ids s.
Proof.
  intros Hm. destruct (closed s) eqn:Hc.
  - destruct Transport_silent as (H1 & H2 & H3).
    in_ops; [rewrite (H1 s Hc)|rewrite (H2 s Hc)|rewrite (H3 s Hc)]; split; reflexivity.
  - destruct (three_closes s Hc) as (Tc & Tr & Tl & H1 & H2 & H3 & _).
    in_ops; [rewrite H1|rewrite H2|rewrite H3]; (split; [reflexivity|apply held_cascade]).
Qed.

Lemma run_unit_inv {A} (m : M A) s :
  sctpStreamIds (state (m (world s))) = sctpStreamIds (world s) ->
  held_ids (state (m (world s))) ⊆+ held_ids (world s) ->
  allocator_inv s -> allocator_inv (fst (run_unit m s)).
Proof.
  intros Hb Hh. apply allocator_inv_transfer; unfold ids_in_use, run_unit;
    destruct (m (world s)) as [[r w] l]; cbn in *; [exact Hb|].
  apply submseteq_skips_r, Hh.
Qed.

Lemma run_begin_inv {C} (m : M C) k s :
  (forall c, reserved (k c) = None) ->
  sctpStreamIds (state (m (world s))) = sctpStreamIds (world s) ->
  held_ids (state (m (world s))) ⊆+ held_ids (world s) ->
  allocator_inv s -> allocator_inv (fst (run_begin m k s)).
Proof.
  intros Hk Hb Hh. apply allocator_inv_transfer; unfold ids_in_use, run_begin;
    destruct (m (world s)) as [[[c|e] w] l]; cbn in *; try exact Hb.
  - unfold reserved_ids. rewrite omap_app. cbn. rewrite Hk, app_nil_r.
    apply submseteq_skips_r, Hh.
  - apply submseteq_skips_r, Hh.
Qed.

Lemma run_resume_inv {A} i (m : M A) s :
  sctpStreamIds (state (m (world s))) = sctpStreamIds (world s) ->
  held_ids (state (m (world s))) ⊆+ held_ids (world s) ->
  allocator_inv s -> allocator_inv (fst (run_resume i m s)).
Proof.
  intros Hb Hh. apply allocator_inv_transfer; unfold ids_in_use, run_resume;
    destruct (m (world s)) as [[r w] l]; cbn in *; [exact Hb|].
  apply submseteq_app; [exact Hh|apply omap_delete_submseteq].
Qed.

Lemma slot_free_insert_ne ids k j v :
  j <> k -> slot_free (<[k:=v]> ids) j = slot_free ids j.
Proof. intros Hne. unfold slot_free. rewrite list_lookup_insert_ne by congruence. reflexivity. Qed.

Lemma slot_free_insert_eq ids k v :
  k < length ids -> slot_free (<[k:=v]> ids) k = N.eqb v 0.
Proof. intros Hk. unfold slot_free. rewrite list_lookup_insert_eq by exact Hk. reflexivity. Qed.

Lemma slot_taken_in_range ids k : slot_free ids k = false -> k < length ids.
Proof.
  unfold slot_free. intros H. apply lookup_lt_is_Some.
  destruct (ids !! k); [eexists; reflexivity|discriminate].
Qed.

(** What [consumeData()] up to its request does to the bitmap, whatever its
    arguments: it sets the clear slot of the id it takes, or it leaves the
    bitmap as it is but for its creation. *)
Lemma consumeData_begin_view router u o s :
  let out := consumeData_begin router u o s in
  dataConsumerObjs (state out) = dataConsumerObjs s
  /\ match result out with
     | Return c =>
         match cdc_sctpStreamId c with
         | Some k =>
             exists n, slot_free (bitmap n s) k = true /\ k < length (bitmap n s)
                       /\ sctpStreamIds (state out) = Some (<[k:=1%N]> (bitmap n s))
         | None => sctpStreamIds (state out) = sctpStreamIds s
         end
     | Throw _ =>
         sctpStreamIds (state out) = sctpStreamIds s
         \/ exists n, sctpStreamIds (state out) = Some (bitmap n s)
     end.
Proof.
  cbv zeta. unfold consumeData_begin.
  destruct (negb (truthy_opt (dco_dataProducerId o))); [cbn; auto|].
  destruct (appData_invalid (dco_appData o)); [cbn; auto|].
  destruct (getDataProducerById router _) as [dp|]; [|cbn; auto].
  rewrite bind_gets.
  destruct (String.eqb (constructor_name s) "DirectTransport").
  - cbn [negb].
    destruct (some (dco_ordered o) || some (dco_maxPacketLifeTime o)
              || some (dco_maxRetransmits o)); cbn; auto.
  - cbn [negb]. destruct (MIS_of s) as [n|] eqn:Hn.
    + pose proof (getNextSctpStreamId_eq n s Hn) as Hg.
      destruct (scan (bitmap n s) (nextSctpStreamId s) 0 (length (bitmap n s)))
        as [k|] eqn:Hs; unfold bind; rewrite Hg; cbn.
      * split; [reflexivity|]. exists n. apply scan_first_free in Hs.
        pose proof (first_free_in_range _ _ _ Hs) as Hk.
        destruct Hs as (j & _ & _ & Hf & _). auto.
      * split; [reflexivity|]. right. exists n. reflexivity.
    + unfold bind. rewrite (getNextSctpStreamId_missing s Hn). cbn. auto.
Qed.

Lemma taken_bitmap n s k : taken s k -> sctpStreamIds s = Some (bitmap n s).
Proof. intros (ids & Hb & _). unfold bitmap. rewrite Hb. reflexivity. Qed.

(** The invariant survives taking an id whose slot is clear. *)
Lemma allocator_inv_take n k s s' :
  ids_in_use s' = ids_in_use s ++ [k] ->
  slot_free (bitmap n (world s)) k = true -> k < length (bitmap n (world s)) ->
  sctpStreamIds (world s') = Some (<[k:=1%N]> (bitmap n (world s))) ->
  allocator_inv s -> allocator_inv s'.
Proof.
  intros Hids Hf Hk Hb [Hnd Ht]. unfold allocator_inv. rewrite Hids.
  assert (Hfresh : k ∉ ids_in_use s).
  { intros Hin. destruct (Ht k Hin) as (ids & Hi & Hfalse).
    unfold bitmap in Hf. rewrite Hi in Hf. congruence. }
  split.
  - apply NoDup_app. split; [exact Hnd|]. split; [|apply NoDup_singleton].
    intros x Hx Hxk. apply list_elem_of_singleton in Hxk. subst x. exact (Hfresh Hx).
  - intros j Hj. exists (<[k:=1%N]> (bitmap n (world s))). split; [exact Hb|].
    apply elem_of_app in Hj as [Hj|Hj].
    + destruct (Ht j Hj) as (ids & Hi & Hfalse).
      rewrite slot_free_insert_ne by (intros ->; exact (Hfresh Hj)).
      unfold bitmap. rewrite Hi. exact Hfalse.
    + apply list_elem_of_singleton in Hj. subst j.
      rewrite slot_free_insert_eq by exact Hk. reflexivity.
Qed.

(** The invariant survives giving an id up and clearing its slot. *)
Lemma allocator_inv_release k s s' :
  ids_in_use s ≡ₚ k :: ids_in_use s' ->
  sctpStreamIds (world s') = (write_sctpStreamIds (Some k) 0%N <$> sctpStreamIds (world s)) ->
  allocator_inv s -> allocator_inv s'.
Proof.
  intros Hids Hb [Hnd Ht]. rewrite Hids in Hnd. apply NoDup_cons in Hnd as [Hfresh Hnd].
  split; [exact Hnd|]. intros j Hj.
  destruct (Ht j) as (ids & Hi & Hfalse); [rewrite Hids; right; exact Hj|].
  exists (<[k:=0%N]> ids). rewrite Hb, Hi. split; [reflexivity|].
  rewrite slot_free_insert_ne by (intros ->; exact (Hfresh Hj)). exact Hfalse.
Qed.

Lemma consumeData_begin_inv router u o s :
  allocator_inv s ->
  allocator_inv (fst (run_begin (consumeData_begin router u o) pending_consumeData s)).
Proof.
  intros Hinv. destruct (consumeData_begin_view router u o (world s)) as [Ho Hv].
  unfold run_begin.
  destruct (consumeData_begin router u o (world s)) as [[[c|e] w] l]; cbn in *.
  - destruct (cdc_sctpStreamId c) as [k|] eqn:Hc.
    + destruct Hv as (n & Hf & Hk & Hb). apply (allocator_inv_take n k s); auto.
      unfold ids_in_use, held_ids, reserved_ids. cbn.
      rewrite Ho, omap_app, app_assoc. cbn. rewrite Hc. reflexivity.
    + apply (allocator_inv_transfer s); [exact Hv| |exact Hinv].
      unfold ids_in_use, held_ids, reserved_ids. cbn.
      rewrite Ho, omap_app. cbn. rewrite Hc, app_nil_r. reflexivity.
  - destruct Hinv as [Hnd Ht]. split.
    + unfold ids_in_use, held_ids in *. cbn. rewrite Ho. exact Hnd.
    + unfold ids_in_use, held_ids in *. cbn. rewrite Ho. intros k Hk.
      destruct Hv as [Hv|[n Hv]].
      * unfold taken. rewrite Hv. apply Ht, Hk.
      * destruct (Ht k Hk) as (ids & Hids & Hfalse). exists ids. split; [|exact Hfalse].
        rewrite Hv. unfold bitmap. rewrite Hids. reflexivity.
Qed.

(** [consumeData()] after its request: the DataConsumer takes over the id
    the call had taken. *)
Lemma consumeData_resume_view c d s :
  sctpStreamIds (state (consumeData_resume c d s)) = sctpStreamIds s
  /\ held_ids (state (consumeData_resume c d s))
     = held_ids s ++ option_list (cdc_sctpStreamId c).
Proof.
  unfold consumeData_resume, new_dataConsumer, held_ids. cbn.
  rewrite omap_app. cbn. destruct (cdc_sctpStreamId c); split; reflexivity.
Qed.

Lemma consumeData_resume_inv i c d s :
  pending s !! i = Some (pending_consumeData c) ->
  allocator_inv s -> allocator_inv (fst (run_resume i (consumeData_resume c d) s)).
Proof.
  intros Hi. destruct (consumeData_resume_view c d (world s)) as [Hb Hh].
  apply allocator_inv_transfer; unfold ids_in_use, run_resume;
    destruct (consumeData_resume c d (world s)) as [[r w] l]; cbn in *; [exact Hb|].
  rewrite Hh. apply Permutation_submseteq.
  unfold reserved_ids. rewrite (omap_delete reserved (pending s) i _ Hi). cbn.
  rewrite <- app_assoc. reflexivity.
Qed.

Lemma dataConsumer_close_inv a m s :
  m = Owned.close "transport.closeDataConsumer" \/ m = Owned.sourceClosed "dataproducerclose" ->
  allocator_inv s -> allocator_inv (fst (run_unit (on_dataConsumerObj a m) s)).
Proof.
  intros Hm. destruct (dataConsumerObjs (world s) !! a) as [[c sid]|] eqn:Ho.
  - destruct (Owned.closed c) eqn:Hc.
    + apply run_unit_inv; rewrite (dataConsumer_closes_not a m (world s) Hm);
        try reflexivity; rewrite Ho; exact Hc.
    + destruct (dataConsumer_closes a m (world s) c sid Hm Ho Hc) as [Hobjs Hb].
      assert (Hheld : held_ids (world s)
                      ≡ₚ option_list sid
                         ++ held_ids (state (on_dataConsumerObj a m (world s)))).
      { unfold held_ids. rewrite Hobjs.
        rewrite (omap_alter_delete held close_dataConsumer _ a held_closed).
        rewrite (omap_delete held _ a _ Ho). unfold held. cbn. rewrite Hc. reflexivity. }
      destruct sid as [k|].
      * apply (allocator_inv_release k); unfold ids_in_use, run_unit;
          destruct (on_dataConsumerObj a m (world s)) as [[r w] l]; cbn in *;
          [rewrite Hheld; reflexivity|exact Hb].
      * apply run_unit_inv.
        -- rewrite Hb. destruct (sctpStreamIds (world s)); reflexivity.
        -- apply Permutation_submseteq. symmetry. exact Hheld.
  - apply run_unit_inv; rewrite (dataConsumer_closes_not a m (world s) Hm);
      try reflexivity; rewrite Ho; trivial.
Qed.

Lemma framed_inv {A} (m : M A) s :
  (forall b objs, stable (fun s => sctpStreamIds s = b /\ dataConsumerObjs s = objs) m) ->
  sctpStreamIds (state (m (world s))) = sctpStreamIds (world s)
  /\ held_ids (state (m (world s))) ⊆+ held_ids (world s).
Proof.
  intros Hm. destruct (framed m (world s) Hm) as [Hb Hh]. rewrite Hh. split; [exact Hb|reflexivity].
Qed.

(** Every turn of the event loop keeps the invariant. *)
Lemma step_allocator_inv a s : allocator_inv s -> allocator_inv (fst (step a s)).
Proof.
  intros H.
  assert (F := fun b objs => allocator_frame b objs). cbv zeta in F.
  destruct a; cbn [step].
  - apply run_unit_inv; [apply closes_give_up|apply closes_give_up|exact H]; cbn; tauto.
  - apply run_unit_inv; [apply closes_give_up|apply closes_give_up|exact H]; cbn; tauto.
  - apply run_unit_inv; [apply closes_give_up|apply closes_give_up|exact H]; cbn; tauto.
  - apply run_begin_inv; [reflexivity| | |exact H]; apply framed_inv; intros b objs; apply F.
  - apply run_begin_inv; [reflexivity| | |exact H]; apply framed_inv; intros b objs; apply F.
  - apply run_begin_inv; [reflexivity| | |exact H]; apply framed_inv; intros b objs; apply F.
  - apply consumeData_begin_inv, H.
  - destruct (pending s !! i) as [[c|c|c|c]|] eqn:Hi; destruct r; cbn [fst]; try exact H.
    + apply run_resume_inv; [ | |exact H]; apply framed_inv; intros b objs; apply F.
    + apply run_resume_inv; [ | |exact H]; apply framed_inv; intros b objs; apply F.
    + apply run_resume_inv; [ | |exact H]; apply framed_inv; intros b objs; apply F.
    + apply consumeData_resume_inv; [exact Hi|exact H].
  - cbn [fst]. apply (allocator_inv_transfer s); [reflexivity| |exact H].
    apply submseteq_skips_l, omap_delete_submseteq.
  - apply run_unit_inv; [ | |exact H]; apply framed_inv; intros b objs; apply F.
  - apply run_unit_inv; [ | |exact H]; apply framed_inv; intros b objs; apply F.
  - apply run_unit_inv; [ | |exact H]; apply framed_inv; intros b objs; apply F.
  - apply run_unit_inv; [ | |exact H]; apply framed_inv; intros b objs; apply F.
  - apply dataConsumer_close_inv; [left; reflexivity|exact H].
  - apply dataConsumer_close_inv; [right; reflexivity|exact H].
Qed.

Lemma run_allocator_inv acts s : allocator_inv s -> allocator_inv (run acts s).
Proof.
  revert s. induction acts as [|a acts IH]; intros s H; [exact H|].
  cbn [run]. apply IH, step_allocator_inv, H.
Qed.

Lemma reachable_allocator_inv s : reachable s -> allocator_inv s.
Proof.
  intros (name & i & d & a & acts & ->). apply run_allocator_inv.
  split; [apply NoDup_nil_2|]. intros k Hk. cbn in Hk. inversion Hk.
Qed.

(** An id whose slot is clear is neither held by an open DataConsumer nor
    taken by a suspended call. *)
Lemma free_slot_not_in_use n k s :
  allocator_inv s -> slot_free (bitmap n (world s)) k = true -> k ∉ ids_in_use s.
Proof.
  intros [_ Ht] Hf Hin. destruct (Ht k Hin) as (ids & Hi & Hfalse).
  unfold bitmap in Hf. rewrite Hi in Hf. congruence.
Qed.

(** When one slot only is clear, the allocation finds it wherever the
    cursor is. *)
Lemma only_free_found ids next k :
  k < length ids -> slot_free ids k = true ->
  (forall j, j < length ids -> j <> k -> slot_free ids j = false) ->
  first_free_from ids next k.
Proof.
  intros Hk Hf Hrest. destruct (first_free_or_all_taken ids next) as [[k' Hk']|Hall].
  - destruct (decide (k' = k)) as [->|Hne]; [exact Hk'|].
    pose proof (first_free_in_range _ _ _ Hk') as Hr.
    destruct Hk' as (j & _ & _ & Hf' & _). rewrite (Hrest k' Hr Hne) in Hf'. discriminate.
  - rewrite (Hall k Hk) in Hf. discriminate.
Qed.

(** C3, as amended.  On a Transport that is not a DirectTransport and whose
    SCTP parameters carry a numeric MIS, in any state the event loop can
    reach: a new Transport has no bitmap and the first allocation creates
    one of MIS clear slots; an allocation either finds the first id whose
    slot is clear, going from the cursor around the bitmap, or finds every
    slot set; in the first case it returns that id and moves the cursor to
    the id plus one, the id is neither held by an open DataConsumer nor
    taken by a [consumeData()] awaiting the engine, and [consumeData()] sets
    its slot before it issues its request; in the second case the allocation
    and [consumeData()] throw and nothing is requested; when an open
    DataConsumer is closed, or its DataProducer is, the slot of its id is
    cleared, and an allocation can return the id again: it does so from any
    cursor when every slot was set. *)
Theorem stream_ids_follow_bitmap (s : Sys) (n : nat) :
  reachable s -> MIS_of (world s) = Some n -> is_direct (world s) = false ->
  (forall name i d a, sctpStreamIds (new name i d a) = None)
  /\ (sctpStreamIds (world s) = None ->
      sctpStreamIds (state (getNextSctpStreamId (world s))) = Some (replicate n 0%N))
  /\ ((exists k, first_free_from (bitmap n (world s)) (nextSctpStreamId (world s)) k)
      \/ all_taken (bitmap n (world s)))
  /\ (forall k,
        first_free_from (bitmap n (world s)) (nextSctpStreamId (world s)) k ->
        getNextSctpStreamId (world s) = (Return k, allocated n k (world s), [])
        /\ nextSctpStreamId (allocated n k (world s)) = k + 1
        /\ (k ∉ ids_in_use s)
        /\ forall router u o dp,
             consumeData_accepts router o dp ->
             exists c req,
               consumeData_begin router u o (world s)
               = (Return c, marked n k (world s),
                  [on_transport (channel_request "transport.consumeData"
                                   (Some (transportId (internal (world s)))) req)])
               /\ cdc_sctpStreamId c = Some k
               /\ sctpStreamIds (marked n k (world s))
                  = Some (<[k:=1%N]> (bitmap n (world s))))
  /\ (all_taken (bitmap n (world s)) ->
      getNextSctpStreamId (world s) = (Throw no_sctpStreamId, exhausted n (world s), [])
      /\ forall router u o dp,
           consumeData_accepts router o dp ->
           consumeData_begin router u o (world s)
           = (Throw no_sctpStreamId, exhausted n (world s), []))
  /\ (forall a c k act,
        dataConsumerObjs (world s) !! a = Some (c, Some k) ->
        Owned.closed c = false ->
        act = dataConsumer_close a \/ act = dataConsumer_dataproducerclose a ->
        sctpStreamIds (world (fst (step act s)))
        = Some (<[k:=0%N]> (bitmap n (world s)))
        /\ slot_free (<[k:=0%N]> (bitmap n (world s))) k = true
        /\ (all_taken (bitmap n (world s)) ->
            forall next, first_free_from (<[k:=0%N]> (bitmap n (world s))) next k)).
Proof.
  intros Hreach Hn Hdirect. pose proof (reachable_allocator_inv s Hreach) as Hinv.
  pose proof (getNextSctpStreamId_eq n (world s) Hn) as Hg.
  split; [reflexivity|]. split; [|split; [apply first_free_or_all_taken|split; [|split]]].
  - intros Hnone. destruct (scan _ _ _ _); rewrite Hg; cbn; unfold bitmap; rewrite Hnone;
      reflexivity.
  - intros k Hk. pose proof (consumeData_begin_eq) as Hbegin.
    pose proof (proj2 (scan_first_free _ _ _) Hk) as Hs. rewrite Hs in Hg.
    split; [exact Hg|]. split; [reflexivity|]. split.
    + apply (free_slot_not_in_use n); [exact Hinv|]. destruct Hk as (j & _ & _ & Hf & _).
      exact Hf.
    + intros router u o dp Hacc.
      specialize (Hbegin router u o dp n (world s) Hacc Hdirect Hn). rewrite Hs in Hbegin.
      destruct Hbegin as (c & req & Hc & Hid). exists c, req. auto.
  - intros Hall. pose proof (proj2 (scan_all_taken _ (nextSctpStreamId (world s))) Hall) as Hs.
    rewrite Hs in Hg. split; [exact Hg|]. intros router u o dp Hacc.
    pose proof (consumeData_begin_eq router u o dp n (world s) Hacc Hdirect Hn) as Hbegin.
    rewrite Hs in Hbegin. exact Hbegin.
  - intros a c k act Ho Hc Hact.
    assert (Hin : k ∈ ids_in_use s).
    { apply elem_of_app. left. apply list_elem_of_omap. exists (c, Some k).
      split; [exact (list_elem_of_lookup_2 _ _ _ Ho)|]. unfold held. cbn. rewrite Hc.
      reflexivity. }
    destruct (proj2 Hinv k Hin) as (ids & Hi & Hfalse).
    assert (Hb : bitmap n (world s) = ids) by (unfold bitmap; rewrite Hi; reflexivity).
    rewrite Hb. pose proof (slot_taken_in_range _ _ Hfalse) as Hk.
    split; [|split].
    + assert (Hm : exists m, (m = Owned.close "transport.closeDataConsumer"
                              \/ m = Owned.sourceClosed "dataproducerclose")
                             /\ step act s = run_unit (on_dataConsumerObj a m) s).
      { destruct Hact as [-> | ->]; eexists; (split; [|reflexivity]); auto. }
      destruct Hm as (m & Hm & ->). rewrite world_run_unit.
      destruct (dataConsumer_closes a m (world s) c (Some k) Hm Ho Hc) as [_ ->].
      rewrite Hi. reflexivity.
    + apply slot_free_insert_eq, Hk.
    + intros Hall next. apply only_free_found.
      * rewrite length_insert. exact Hk.
      * apply slot_free_insert_eq, Hk.
      * intros j Hj Hne. rewrite length_insert in Hj.
        rewrite slot_free_insert_ne by exact Hne. apply Hall, Hj.
Qed.

End StreamIds.

Section StreamIdExamples.
Import Transport Examples.

(** The claim of C3 as it is worded fails: on a Transport with one stream
    id and a [consumeData()] awaiting the engine, no DataConsumer exists, so
    id 0 is the first id no open DataConsumer holds, and the allocation
    throws. *)
Lemma pending_call_keeps_its_id :
  Transport.reachable Examples.one_pending
  /\ Transport.MIS_of (Transport.world Examples.one_pending) = Some 1
  /\ Transport.is_direct (Transport.world Examples.one_pending) = false
  /\ Transport.dataConsumerObjs (Transport.world Examples.one_pending) = []
  /\ Transport.first_unheld_from (Transport.world Examples.one_pending) 1
       (Transport.nextSctpStreamId (Transport.world Examples.one_pending)) 0
  /\ Transport.getNextSctpStreamId (Transport.world Examples.one_pending)
     = (Throw Transport.no_sctpStreamId, Transport.world Examples.one_pending, []).
Proof.
  split; [|split; [|split; [|split; [|split]]]].
  - unfold Transport.reachable, Examples.one_pending, Examples.transport.
    eexists _, _, _, _, _. reflexivity.
  - vm_compute. reflexivity.
  - vm_compute. reflexivity.
  - vm_compute. reflexivity.
  - exists 0. split; [lia|]. split; [vm_compute; reflexivity|]. split; [|intros j Hj; lia].
    assert (Transport.held_ids (Transport.world Examples.one_pending) = []) as ->
      by (vm_compute; reflexivity).
    intros H. inversion H.
  - vm_compute. reflexivity.
Qed.

Lemma stream_ids_follow_bitmap_witness :
  Transport.reachable Examples.both_taken
  /\ Transport.MIS_of (Transport.world Examples.both_taken) = Some 2
  /\ Transport.is_direct (Transport.world Examples.both_taken) = false
  /\ Transport.held_ids (Transport.world Examples.both_taken) = [0]
  /\ Transport.reserved_ids (Transport.pending Examples.both_taken) = [1]
  /\ result (Transport.consumeData_begin Examples.router_dp "dc3" Examples.consumeData_options
               (Transport.world Examples.both_taken))
     = Throw Transport.no_sctpStreamId
  /\ Transport.sctpStreamIds
       (Transport.world (fst (Transport.step (Transport.dataConsumer_close 0)
                                Examples.both_taken)))
     = Some [0; 1]%N
  /\ Transport.first_free_from [0; 1]%N 2 0.
Proof.
  assert (Hreach : Transport.reachable Examples.both_taken).
  { unfold Transport.reachable, Examples.both_taken, Examples.transport.
    eexists _, _, _, _, _. reflexivity. }
  assert (Hmis : Transport.MIS_of (Transport.world Examples.both_taken) = Some 2)
    by (vm_compute; reflexivity).
  assert (Hdirect : Transport.is_direct (Transport.world Examples.both_taken) = false)
    by (vm_compute; reflexivity).
  assert (Hb : Transport.bitmap 2 (Transport.world Examples.both_taken) = [1; 1]%N)
    by (vm_compute; reflexivity).
  assert (Hall : Transport.all_taken
                   (Transport.bitmap 2 (Transport.world Examples.both_taken))).
  { rewrite Hb. intros [|[|k]] Hk; [reflexivity|reflexivity|cbn in Hk; lia]. }
  destruct (@stream_ids_follow_bitmap Examples.imports Examples.ortc Examples.both_taken 2
              Hreach Hmis Hdirect) as (_ & _ & _ & _ & Hfull & Hfree).
  destruct (Hfull Hall) as [_ Hthrow].
  destruct (Hfree 0 (Owned.owned "dc1" "t" false ("data", appData_falsy)) 0
              (Transport.dataConsumer_close 0)) as (Hcleared & _ & Hagain);
    [vm_compute; reflexivity|reflexivity|left; reflexivity|].
  rewrite Hb in Hcleared, Hagain.
  repeat apply conj; try exact Hreach; try exact Hmis; try exact Hdirect.
  - vm_compute. reflexivity.
  - vm_compute. reflexivity.
  - rewrite (Hthrow Examples.router_dp "dc3" Examples.consumeData_options
               Examples.a_dataProducer); [reflexivity|].
    repeat apply conj; try reflexivity. intros id Hid. injection Hid as <-. reflexivity.
  - exact Hcleared.
  - apply (Hagain Hall 2).
Defined.

End StreamIdExamples.

(** ** The registries of a Transport *)
Section MapFacts.
Context {V : Type}.
Implicit Types (m : Map V) (k : string) (v : V).

Lemma has_keys k m : has k m = true <-> In k (keys m).
Proof.
  unfold has, keys. rewrite existsb_exists. split.
  - intros ([k' v] & Hin & Heq). apply String.eqb_eq in Heq. cbn in Heq. subst k'.
    apply (List.in_map fst) in Hin. exact Hin.
  - intros Hin. apply List.in_map_iff in Hin as ([k' v] & Heq & Hin). cbn in Heq. subst k'.
    exists (k, v). split; [exact Hin|]. apply String.eqb_refl.
Qed.

Lemma keys_replace k v m : keys (replace k v m) = keys m.
Proof.
  induction m as [|[k' v'] m IH]; [reflexivity|]. cbn.
  destruct (String.eqb k' k); cbn; [reflexivity|]. unfold keys in IH. rewrite IH. reflexivity.
Qed.

Lemma In_replace k v m k' a :
  NoDup (keys m) -> In (k', a) (replace k v m) ->
  (k' = k /\ a = v) \/ (k' <> k /\ In (k', a) m).
Proof.
  induction m as [|[k0 v0] m IH]; intros Hnd Hin; [destruct Hin|].
  cbn in Hnd. apply NoDup_cons in Hnd as [Hk0 Hnd]. cbn in Hin.
  destruct (String.eqb k0 k) eqn:E.
  - apply String.eqb_eq in E. subst k0. destruct Hin as [Hin|Hin].
    + injection Hin as <- <-. left. split; reflexivity.
    + right. split; [|right; exact Hin]. intros ->. apply Hk0.
      apply list_elem_of_In. apply (List.in_map fst) in Hin. exact Hin.
  - apply String.eqb_neq in E. destruct Hin as [Hin|Hin].
    + injection Hin as <- <-. right. split; [exact E|left; reflexivity].
    + destruct (IH Hnd Hin) as [H|[Hne H]]; [left; exact H|].
      right. split; [exact Hne|right; exact H].
Qed.

Lemma In_set k v m k' a :
  NoDup (keys m) -> In (k', a) (set k v m) ->
  (k' = k /\ a = v) \/ (k' <> k /\ In (k', a) m).
Proof.
  intros Hnd. unfold set. destruct (has k m) eqn:Hhas.
  - apply In_replace, Hnd.
  - intros Hin. apply List.in_app_or in Hin as [Hin|[Hin|[]]].
    + right. split; [|exact Hin]. intros ->.
      assert (has k m = true) as Ht; [|congruence].
      apply has_keys. apply (List.in_map fst) in Hin. exact Hin.
    + injection Hin as <- <-. left. split; reflexivity.
Qed.

Lemma NoDup_keys_set k v m : NoDup (keys m) -> NoDup (keys (set k v m)).
Proof.
  intros Hnd. unfold set. destruct (has k m) eqn:Hhas.
  - rewrite keys_replace. exact Hnd.
  - unfold keys. rewrite List.map_app. cbn. apply NoDup_app.
    split; [exact Hnd|]. split; [|apply NoDup_singleton].
    intros x Hx Hxk. apply list_elem_of_singleton in Hxk. subst x.
    assert (has k m = true) as Ht; [|congruence].
    apply has_keys, list_elem_of_In, Hx.
Qed.

Lemma In_delete k m k' a : In (k', a) (delete k m) <-> k' <> k /\ In (k', a) m.
Proof.
  unfold delete. rewrite List.filter_In. cbn. rewrite negb_true_iff, String.eqb_neq. tauto.
Qed.

Lemma NoDup_keys_delete k m : NoDup (keys m) -> NoDup (keys (delete k m)).
Proof.
  induction m as [|[k0 v0] m IH]; intros Hnd; [exact Hnd|].
  cbn in Hnd. apply NoDup_cons in Hnd as [Hk0 Hnd]. cbn.
  destruct (negb (String.eqb k0 k)); [|apply IH, Hnd]. cbn. apply NoDup_cons.
  split; [|apply IH, Hnd]. intros Hin. apply Hk0.
  apply list_elem_of_In in Hin. apply list_elem_of_In.
  apply List.in_map_iff in Hin as ([k1 v1] & Heq & Hin). cbn in Heq. subst k1.
  apply In_delete in Hin as [_ Hin]. apply (List.in_map fst) in Hin. exact Hin.
Qed.

Lemma has_set k v m : has k (set k v m) = true.
Proof.
  unfold set. destruct (has k m) eqn:Hhas.
  - apply has_keys. rewrite keys_replace. apply has_keys, Hhas.
  - apply has_keys. unfold keys. rewrite List.map_app. apply List.in_or_app.
    right. left. reflexivity.
Qed.

Lemma has_delete k m : has k (delete k m) = false.
Proof.
  destruct (has k (delete k m)) eqn:Hhas; [|reflexivity].
  apply has_keys in Hhas. apply List.in_map_iff in Hhas as ([k1 v1] & Heq & Hin).
  cbn in Heq. subst k1. apply In_delete in Hin as [Hne _]. congruence.
Qed.

Lemma has_delete_ne k k' m : k' <> k -> has k' (delete k m) = has k' m.
Proof.
  intros Hne. destruct (has k' m) eqn:H1.
  - apply has_keys in H1. apply List.in_map_iff in H1 as ([k1 v1] & Heq & Hin).
    cbn in Heq. subst k1. apply has_keys.
    apply (List.in_map fst (delete k m) (k', v1)). apply In_delete. split; assumption.
  - destruct (has k' (delete k m)) eqn:H2; [|reflexivity].
    apply has_keys in H2. apply List.in_map_iff in H2 as ([k1 v1] & Heq & Hin).
    cbn in Heq. subst k1. apply In_delete in Hin as [_ Hin].
    assert (has k' m = true) as Ht; [|congruence].
    apply has_keys. apply (List.in_map fst) in Hin. exact Hin.
Qed.

End MapFacts.

Section Registered.
Context {Obj : Type} (key : Obj -> string) (shut : Obj -> bool).
Import Transport.

Lemma registered_nil objs : registered key shut [] objs.
Proof. split; [apply NoDup_nil_2|]. intros k a []. Qed.

(** A new object is registered under its id. *)
Lemma registered_new m objs o :
  shut o = false ->
  registered key shut m objs ->
  registered key shut (set (key o) (length objs) m) (objs ++ [o]).
Proof.
  intros Ho [Hnd Hm]. split; [apply NoDup_keys_set, Hnd|].
  intros k a Hin. apply In_set in Hin as [[-> ->]|[Hne Hin]]; [| |exact Hnd].
  - exists o. split; [|split; [reflexivity|exact Ho]].
    rewrite lookup_app_r, Nat.sub_diag by lia. reflexivity.
  - destruct (Hm k a Hin) as (o' & Hl & Hid & Hc). exists o'.
    split; [|split; assumption]. apply lookup_app_l_Some, Hl.
Qed.

(** An object that closes leaves the registry through its id. *)
Lemma registered_close m objs a o o' :
  objs !! a = Some o ->
  registered key shut m objs ->
  registered key shut (delete (key o) m) (<[a:=o']> objs).
Proof.
  intros Ho [Hnd Hm]. split; [apply NoDup_keys_delete, Hnd|].
  intros k b Hin. apply In_delete in Hin as [Hne Hin].
  destruct (Hm k b Hin) as (o1 & Hl & Hid & Hc). exists o1.
  split; [|split; assumption]. rewrite list_lookup_insert_ne; [exact Hl|].
  intros ->. rewrite Ho in Hl. injection Hl as <-. congruence.
Qed.

(** A registry refers to each object once. *)
Lemma registered_values m objs :
  registered key shut m objs -> List.NoDup (values m).
Proof.
  intros [Hnd Hm]. induction m as [|[k a] m IH]; [constructor|].
  cbn in Hnd. apply NoDup_cons in Hnd as [Hk Hnd]. cbn. constructor.
  - intros Hin. apply List.in_map_iff in Hin as ([k' a'] & Heq & Hin). cbn in Heq. subst a'.
    destruct (Hm k a) as (o & Hl & Hid & _); [left; reflexivity|].
    destruct (Hm k' a) as (o' & Hl' & Hid' & _); [right; exact Hin|].
    rewrite Hl in Hl'. injection Hl' as <-. apply Hk. apply list_elem_of_In.
    apply (List.in_map fst) in Hin. cbn in Hin. congruence.
  - apply IH; [exact Hnd|]. intros k' a' Hin. apply Hm. right. exact Hin.
Qed.

End Registered.

Section ObjectCloses.
Context `{I : Imports} `{O : @Ortc I}.
Import Transport.

Lemma invoke_eq {Obj E} (get : State -> option Obj) (put : Obj -> State -> State)
    (deliver : E -> M unit) (m : Js.M Obj E unit) s o r o' effs :
  get s = Some o -> m o = (r, o', effs) ->
  invoke get put deliver m s
  = bind (for_of effs deliver) (fun _ => lift_completion r) (put o' s).
Proof.
  intros Hg Hm. unfold invoke. rewrite bind_gets, Hg, Hm, bind_modify. reflexivity.
Qed.

Lemma invoke_none {Obj E} (get : State -> option Obj) (put : Obj -> State -> State)
    (deliver : E -> M unit) (m : Js.M Obj E unit) s :
  get s = None -> invoke get put deliver m s = (Return tt, s, []).
Proof. intros Hg. unfold invoke. rewrite bind_gets, Hg. reflexivity. Qed.

Lemma Owned_close_eq {D} method (o : Owned.t D) :
  Owned.closed o = false ->
  Owned.close method o
  = (Return tt, Owned.set_closed true o,
     [channel_removeAllListeners (Owned.id o);
      payloadChannel_removeAllListeners (Owned.id o);
      channel_request method (Some (Owned.transportId o))
        (Some (Owned.close_request (Owned.id o)));
      emit this "@close" []; safeEmit observer "close" []]).
Proof. intros Hc. unfold Owned.close. rewrite bind_gets, Hc. reflexivity. Qed.

Lemma Owned_sourceClosed_eq {D} event (o : Owned.t D) :
  Owned.closed o = false ->
  Owned.sourceClosed event o
  = (Return tt, Owned.set_closed true o,
     [channel_removeAllListeners (Owned.id o);
      payloadChannel_removeAllListeners (Owned.id o);
      emit this ("@" ++ event) []; safeEmit this event [];
      safeEmit observer "close" []]).
Proof. intros Hc. unfold Owned.sourceClosed. rewrite bind_gets, Hc. reflexivity. Qed.

Lemma Owned_closed_silent {D} (m : Owned.M (D:=D) unit) method event (o : Owned.t D) :
  m = Owned.close method \/ m = Owned.sourceClosed event ->
  Owned.closed o = true -> m o = (Return tt, o, []).
Proof.
  intros [-> | ->] Hc; [unfold Owned.close|unfold Owned.sourceClosed];
    rewrite bind_gets, Hc; reflexivity.
Qed.

(** *** Producers *)

Lemma on_producer_close_eq a s p :
  producerObjs s !! a = Some p ->
  on_producer_close a s
  = (Return tt, set_producers (delete (Owned.id p) (producers s)) s,
     [producerclose_signal a]).
Proof.
  intros Ho. unfold on_producer_close. rewrite bind_gets, Ho, bind_gets, bind_modify.
  reflexivity.
Qed.

Lemma deliver_producer_quiet a e s :
  is_emit "@close" e = false -> deliver_producer a e s = (Return tt, s, [on_producer a e]).
Proof. intros He. unfold deliver_producer. rewrite bind_tell, He. reflexivity. Qed.

Lemma deliver_producer_signal a s p :
  producerObjs s !! a = Some p ->
  deliver_producer a (emit this "@close" []) s
  = (Return tt, set_producers (delete (Owned.id p) (producers s)) s,
     [on_producer a (emit this "@close" []); producerclose_signal a]).
Proof.
  intros Ho. unfold deliver_producer. rewrite bind_tell.
  change (is_emit "@close" (emit this "@close" [])) with true. unfold when.
  rewrite (on_producer_close_eq a s p Ho). reflexivity.
Qed.

(** Symbolic execution of a loop over the effects of an object. *)
Ltac deliver_with quiet signal :=
  repeat first
    [ eapply step_bind; [first [apply quiet; reflexivity | signal]|]
    | reflexivity ].

Lemma producer_closes a s p :
  producerObjs s !! a = Some p -> Owned.closed p = false ->
  on_producerObj a (Owned.close "transport.closeProducer") s
  = (Return tt,
     set_producers (delete (Owned.id p) (producers s))
       (set_producerObjs (<[a:=Owned.set_closed true p]> (producerObjs s)) s),
     [on_producer a (channel_removeAllListeners (Owned.id p));
      on_producer a (payloadChannel_removeAllListeners (Owned.id p));
      on_producer a (channel_request "transport.closeProducer" (Some (Owned.transportId p))
                       (Some (Owned.close_request (Owned.id p))));
      on_producer a (emit this "@close" []);
      producerclose_signal a;
      on_producer a (safeEmit observer "close" [])]).
Proof.
  intros Ho Hc. unfold on_producerObj.
  rewrite (invoke_eq _ _ _ _ s p _ _ _ Ho (Owned_close_eq _ p Hc)).
  assert (Hl : producerObjs (set_producerObjs (<[a:=Owned.set_closed true p]> (producerObjs s)) s)
               !! a = Some (Owned.set_closed true p)).
  { cbn. apply list_lookup_insert_eq. exact (lookup_lt_Some _ _ _ Ho). }
  etransitivity.
  - eapply step_bind; [|reflexivity]. cbn [for_of].
    deliver_with deliver_producer_quiet ltac:(apply (deliver_producer_signal _ _ _ Hl)).
  - reflexivity.
Qed.

Lemma producer_closes_not a s :
  match producerObjs s !! a with
  | Some p => Owned.closed p = true
  | None => True
  end ->
  on_producerObj a (Owned.close "transport.closeProducer") s = (Return tt, s, []).
Proof.
  intros Ho. unfold on_producerObj.
  destruct (producerObjs s !! a) as [p|] eqn:E; [|apply invoke_none, E].
  rewrite (invoke_eq _ _ _ _ s p _ _ _ E
             (Owned_closed_silent _ "transport.closeProducer" "" p (or_introl eq_refl) Ho)).
  cbn. rewrite list_insert_id by exact E. rewrite set_producerObjs_id. reflexivity.
Qed.

(** *** Consumers *)

Lemma on_consumer_close_eq a s c :
  consumerObjs s !! a = Some c ->
  on_consumer_close a s
  = (Return tt, set_consumers (delete (Owned.id c) (consumers s)) s, []).
Proof.
  intros Ho. unfold on_consumer_close. rewrite bind_gets, Ho, bind_gets. reflexivity.
Qed.

Lemma deliver_consumer_quiet a e s :
  is_emit "@close" e = false -> is_emit "@producerclose" e = false ->
  deliver_consumer a e s = (Return tt, s, [on_consumer a e]).
Proof. intros H1 H2. unfold deliver_consumer. rewrite bind_tell, H1, H2. reflexivity. Qed.

Lemma deliver_consumer_signal a ev s c :
  ev = "@close" \/ ev = "@producerclose" ->
  consumerObjs s !! a = Some c ->
  deliver_consumer a (emit this ev []) s
  = (Return tt, set_consumers (delete (Owned.id c) (consumers s)) s,
     [on_consumer a (emit this ev [])]).
Proof.
  intros [-> | ->] Ho; unfold deliver_consumer; rewrite bind_tell.
  - change (is_emit "@close" (emit this "@close" [])) with true.
    change (is_emit "@producerclose" (emit this "@close" [])) with false. unfold when.
    rewrite (bind_Return _ _ _ _ _ _ (on_consumer_close_eq a s c Ho)). reflexivity.
  - change (is_emit "@close" (emit this "@producerclose" [])) with false.
    change (is_emit "@producerclose" (emit this "@producerclose" [])) with true.
    unfold when. rewrite bind_ret, (on_consumer_close_eq a s c Ho). reflexivity.
Qed.

Lemma consumer_closes a s c :
  consumerObjs s !! a = Some c -> Owned.closed c = false ->
  let s' := set_consumers (delete (Owned.id c) (consumers s))
              (set_consumerObjs (<[a:=Owned.set_closed true c]> (consumerObjs s)) s) in
  on_consumerObj a (Owned.close "transport.closeConsumer") s
  = (Return tt, s',
     [on_consumer a (channel_removeAllListeners (Owned.id c));
      on_consumer a (payloadChannel_removeAllListeners (Owned.id c));
      on_consumer a (channel_request "transport.closeConsumer" (Some (Owned.transportId c))
                       (Some (Owned.close_request (Owned.id c))));
      on_consumer a (emit this "@close" []);
      on_consumer a (safeEmit observer "close" [])])
  /\ on_consumerObj a (Owned.sourceClosed "producerclose") s
     = (Return tt, s',
        [on_consumer a (channel_removeAllListeners (Owned.id c));
         on_consumer a (payloadChannel_removeAllListeners (Owned.id c));
         on_consumer a (emit this "@producerclose" []);
         on_consumer a (safeEmit this "producerclose" []);
         on_consumer a (safeEmit observer "close" [])]).
Proof.
  intros Ho Hc. cbv zeta. unfold on_consumerObj.
  rewrite (invoke_eq _ _ _ _ s c _ _ _ Ho (Owned_close_eq _ c Hc)).
  rewrite (invoke_eq _ _ _ _ s c _ _ _ Ho (Owned_sourceClosed_eq _ c Hc)).
  assert (Hl : consumerObjs (set_consumerObjs (<[a:=Owned.set_closed true c]> (consumerObjs s)) s)
               !! a = Some (Owned.set_closed true c)).
  { cbn. apply list_lookup_insert_eq. exact (lookup_lt_Some _ _ _ Ho). }
  split.
  - etransitivity;
      [eapply step_bind;
         [cbn [for_of];
          deliver_with deliver_consumer_quiet
            ltac:(apply (deliver_consumer_signal _ _ _ _ (or_introl eq_refl) Hl))
         |reflexivity]
      |reflexivity].
  - etransitivity;
      [eapply step_bind;
         [cbn [for_of];
          deliver_with deliver_consumer_quiet
            ltac:(apply (deliver_consumer_signal _ _ _ _ (or_intror eq_refl) Hl))
         |reflexivity]
      |reflexivity].
Qed.

Lemma consumer_closes_not a m s :
  m = Owned.close "transport.closeConsumer" \/ m = Owned.sourceClosed "producerclose" ->
  match consumerObjs s !! a with
  | Some c => Owned.closed c = true
  | None => True
  end ->
  on_consumerObj a m s = (Return tt, s, []).
Proof.
  intros Hm Ho. unfold on_consumerObj.
  destruct (consumerObjs s !! a) as [c|] eqn:E; [|apply invoke_none, E].
  rewrite (invoke_eq _ _ _ _ s c _ _ _ E (Owned_closed_silent _ _ _ c Hm Ho)).
  cbn. rewrite list_insert_id by exact E. rewrite set_consumerObjs_id. reflexivity.
Qed.

(** *** DataProducers *)

Lemma on_dataProducer_close_eq a s p :
  dataProducerObjs s !! a = Some p ->
  on_dataProducer_close a s
  = (Return tt, set_dataProducers (delete (DataProducer.id p) (dataProducers s)) s,
     [dataproducerclose_signal a]).
Proof.
  intros Ho. unfold on_dataProducer_close. rewrite bind_gets, Ho, bind_gets, bind_modify.
  reflexivity.
Qed.

Lemma deliver_dataProducer_quiet a e s :
  is_emit "@close" e = false ->
  deliver_dataProducer a e s = (Return tt, s, [on_dataProducer a e]).
Proof. intros He. unfold deliver_dataProducer. rewrite bind_tell, He. reflexivity. Qed.

Lemma deliver_dataProducer_signal a s p :
  dataProducerObjs s !! a = Some p ->
  deliver_dataProducer a (emit this "@close" []) s
  = (Return tt, set_dataProducers (delete (DataProducer.id p) (dataProducers s)) s,
     [on_dataProducer a (emit this "@close" []); dataproducerclose_signal a]).
Proof.
  intros Ho. unfold deliver_dataProducer. rewrite bind_tell.
  change (is_emit "@close" (emit this "@close" [])) with true. unfold when.
  rewrite (on_dataProducer_close_eq a s p Ho). reflexivity.
Qed.

Lemma DataProducer_close_eq (p : DataProducer.t) :
  DataProducer.closed p = false ->
  DataProducer.close p
  = (Return tt, DataProducer.set_closed true p,
     [channel_removeAllListeners (DataProducer.id p);
      payloadChannel_removeAllListeners (DataProducer.id p);
      channel_request "transport.closeDataProducer"
        (Some (DataProducer.transportId (DataProducer.internal p)))
        (Some (DataProducer.closeDataProducer (DataProducer.id p)));
      emit this "@close" []; safeEmit observer "close" []]).
Proof. intros Hc. unfold DataProducer.close. rewrite bind_gets, Hc. reflexivity. Qed.

Lemma dataProducer_closes a s p :
  dataProducerObjs s !! a = Some p -> DataProducer.closed p = false ->
  on_dataProducerObj a DataProducer.close s
  = (Return tt,
     set_dataProducers (delete (DataProducer.id p) (dataProducers s))
       (set_dataProducerObjs (<[a:=DataProducer.set_closed true p]> (dataProducerObjs s)) s),
     [on_dataProducer a (channel_removeAllListeners (DataProducer.id p));
      on_dataProducer a (payloadChannel_removeAllListeners (DataProducer.id p));
      on_dataProducer a
        (channel_request "transport.closeDataProducer"
           (Some (DataProducer.transportId (DataProducer.internal p)))
           (Some (DataProducer.closeDataProducer (DataProducer.id p))));
      on_dataProducer a (emit this "@close" []);
      dataproducerclose_signal a;
      on_dataProducer a (safeEmit observer "close" [])]).
Proof.
  intros Ho Hc. unfold on_dataProducerObj.
  rewrite (invoke_eq _ _ _ _ s p _ _ _ Ho (DataProducer_close_eq p Hc)).
  assert (Hl : dataProducerObjs
                 (set_dataProducerObjs
                    (<[a:=DataProducer.set_closed true p]> (dataProducerObjs s)) s)
               !! a = Some (DataProducer.set_closed true p)).
  { cbn. apply list_lookup_insert_eq. exact (lookup_lt_Some _ _ _ Ho). }
  etransitivity;
    [eapply step_bind;
       [cbn [for_of];
        deliver_with deliver_dataProducer_quiet
          ltac:(apply (deliver_dataProducer_signal _ _ _ Hl))
       |reflexivity]
    |reflexivity].
Qed.

Lemma dataProducer_closes_not a s :
  match dataProducerObjs s !! a with
  | Some p => DataProducer.closed p = true
  | None => True
  end ->
  on_dataProducerObj a DataProducer.close s = (Return tt, s, []).
Proof.
  intros Ho. unfold on_dataProducerObj.
  destruct (dataProducerObjs s !! a) as [p|] eqn:E; [|apply invoke_none, E].
  assert (Hm : DataProducer.close p = (Return tt, p, [])).
  { unfold DataProducer.close. rewrite bind_gets, Ho. reflexivity. }
  rewrite (invoke_eq _ _ _ _ s p _ _ _ E Hm).
  cbn. rewrite list_insert_id by exact E. rewrite set_dataProducerObjs_id. reflexivity.
Qed.

(** *** DataConsumers *)

Lemma dataConsumer_closes_registry a m s c sid :
  m = Owned.close "transport.closeDataConsumer" \/ m = Owned.sourceClosed "dataproducerclose" ->
  dataConsumerObjs s !! a = Some (c, sid) -> Owned.closed c = false ->
  let s' := state (on_dataConsumerObj a m s) in
  dataConsumers s' = delete (Owned.id c) (dataConsumers s)
  /\ dataConsumerObjs s' = <[a:=(Owned.set_closed true c, sid)]> (dataConsumerObjs s)
  /\ producers s' = producers s /\ producerObjs s' = producerObjs s
  /\ consumers s' = consumers s /\ consumerObjs s' = consumerObjs s
  /\ dataProducers s' = dataProducers s /\ dataProducerObjs s' = dataProducerObjs s.
Proof.
  intros Hm Ho Hc. cbv zeta.
  assert (Hl : forall s0,
    dataConsumerObjs s0 !! a = Some (Owned.set_closed true c, sid) ->
    state (on_dataConsumer_close a s0)
    = set_sctpStreamIds (write_sctpStreamIds sid 0%N <$> sctpStreamIds s0)
        (set_dataConsumers (delete (Owned.id c) (dataConsumers s0)) s0)).
  { intros s0 H0. unfold on_dataConsumer_close.
    rewrite bind_gets, H0, bind_gets, bind_modify, bind_gets.
    destruct s0 as [? ? ? ? ? ? ? ? ? ? ? [ids|] ? ? ? ? ?]; reflexivity. }
  assert (Hs : state (on_dataConsumerObj a m s)
               = state (on_dataConsumer_close a
                          (set_dataConsumerObjs
                             (alter (fun c0 : DataConsumer * option nat =>
                                       (Owned.set_closed true c, snd c0)) a
                                (dataConsumerObjs s)) s))).
  { unfold on_dataConsumerObj.
    assert (Hg : fst <$> dataConsumerObjs s !! a = Some c) by (rewrite Ho; reflexivity).
    destruct Hm as [-> | ->].
    - rewrite (invoke_eq _ _ _ _ s c _ _ _ Hg (Owned_close_eq _ c Hc)).
      rewrite (state_bind_Return _ _ _ tt) by apply for_of_result, deliver_dataConsumer_result.
      cbn [lift_completion ret state for_of].
      rewrite !(state_bind_Return _ _ _ tt) by apply deliver_dataConsumer_result.
      cbn [ret state].
      repeat first [ rewrite deliver_dataConsumer_quiet by reflexivity
                   | rewrite deliver_dataConsumer_signal by (left; reflexivity) ].
      reflexivity.
    - rewrite (invoke_eq _ _ _ _ s c _ _ _ Hg (Owned_sourceClosed_eq _ c Hc)).
      rewrite (state_bind_Return _ _ _ tt) by apply for_of_result, deliver_dataConsumer_result.
      cbn [lift_completion ret state for_of].
      rewrite !(state_bind_Return _ _ _ tt) by apply deliver_dataConsumer_result.
      cbn [ret state].
      repeat first [ rewrite deliver_dataConsumer_quiet by reflexivity
                   | rewrite deliver_dataConsumer_signal by (right; reflexivity) ].
      reflexivity. }
  rewrite Hs, Hl.
  - cbn. rewrite alter_lookup, Ho. repeat split; reflexivity.
  - cbn. rewrite list_lookup_alter_eq, Ho. reflexivity.
Qed.

End ObjectCloses.

Section Registries.
Context `{I : Imports} `{O : @Ortc I}.
Import Transport.

(** What a call does before its request leaves the registries and the
    stores alone. *)
Lemma begins_keep_registries m1 o1 m2 o2 m3 o3 m4 o4 :
  let P := fun s =>
    producers s = m1 /\ producerObjs s = o1 /\ consumers s = m2 /\ consumerObjs s = o2
    /\ dataProducers s = m3 /\ dataProducerObjs s = o3
    /\ dataConsumers s = m4 /\ dataConsumerObjs s = o4 in
  (forall router u1 u2 o, stable P (produce_begin router u1 u2 o))
  /\ (forall router u o, stable P (consume_begin router u o))
  /\ (forall u o, stable P (produceData_begin u o))
  /\ (forall router u o, stable P (consumeData_begin router u o)).
Proof.
  intros P. subst P. repeat apply conj; intros;
    stable_with fail ltac:(intros ? Hs; exact Hs).
Qed.

Lemma registry_inv_begin {A} (m : M A) s :
  (forall m1 o1 m2 o2 m3 o3 m4 o4,
     stable (fun s =>
       producers s = m1 /\ producerObjs s = o1 /\ consumers s = m2 /\ consumerObjs s = o2
       /\ dataProducers s = m3 /\ dataProducerObjs s = o3
       /\ dataConsumers s = m4 /\ dataConsumerObjs s = o4) m) ->
  registry_inv s -> registry_inv (state (m s)).
Proof.
  intros Hm. unfold registry_inv, state.
  destruct (Hm _ _ _ _ _ _ _ _ s
              (conj eq_refl (conj eq_refl (conj eq_refl (conj eq_refl
                 (conj eq_refl (conj eq_refl (conj eq_refl eq_refl))))))))
    as (-> & -> & -> & -> & -> & -> & -> & ->).
  tauto.
Qed.

Lemma registry_inv_closed_state s : registry_inv s -> registry_inv (closed_state s).
Proof. intros _. repeat split; try apply NoDup_nil_2; intros k a []. Qed.

Lemma registry_inv_closes (m : M unit) s :
  In m [close; routerClosed; listenServerClosed] ->
  registry_inv s -> registry_inv (state (m s)).
Proof.
  intros Hm H. destruct (closed s) eqn:Hc.
  - destruct Transport_silent as (H1 & H2 & H3).
    in_ops; [rewrite (H1 s Hc)|rewrite (H2 s Hc)|rewrite (H3 s Hc)]; exact H.
  - destruct (three_closes s Hc) as (Tc & Tr & Tl & H1 & H2 & H3 & _).
    in_ops; [rewrite H1|rewrite H2|rewrite H3]; apply registry_inv_closed_state, H.
Qed.

Lemma registry_inv_produce_resume c st s :
  registry_inv s -> registry_inv (state (produce_resume c st s)).
Proof.
  intros (H1 & H2 & H3 & H4). unfold produce_resume, new_producer. cbn.
  split; [|split; [exact H2|split; [exact H3|exact H4]]].
  apply (registered_new Owned.id Owned.closed _ _ (Owned.owned _ _ false _) eq_refl H1).
Qed.

Lemma registry_inv_consume_resume c st s :
  registry_inv s -> registry_inv (state (consume_resume c st s)).
Proof.
  intros (H1 & H2 & H3 & H4). unfold consume_resume, new_consumer. cbn.
  split; [exact H1|split; [|split; [exact H3|exact H4]]].
  apply (registered_new Owned.id Owned.closed _ _ (Owned.owned _ _ false _) eq_refl H2).
Qed.

Lemma registry_inv_produceData_resume c d s :
  registry_inv s -> registry_inv (state (produceData_resume c d s)).
Proof.
  intros (H1 & H2 & H3 & H4). unfold produceData_resume, new_dataProducer. cbn.
  split; [exact H1|split; [exact H2|split; [|exact H4]]].
  exact (registered_new DataProducer.id DataProducer.closed _ _
           (DataProducer.dataProducer
              (DataProducer.internal_ (routerId (internal s)) (transportId (internal s))
                 (pdc_dataProducerId c))
              d false (pdc_appData c)) eq_refl H3).
Qed.

Lemma registry_inv_consumeData_resume c d s :
  registry_inv s -> registry_inv (state (consumeData_resume c d s)).
Proof.
  intros (H1 & H2 & H3 & H4). unfold consumeData_resume, new_dataConsumer. cbn.
  split; [exact H1|split; [exact H2|split; [exact H3|]]].
  exact (registered_new (fun c => Owned.id (fst c)) (fun c => Owned.closed (fst c)) _ _
           (Owned.owned (cdc_dataConsumerId c) (transportId (internal s)) false
              (d, cdc_appData c), cdc_sctpStreamId c) eq_refl H4).
Qed.

Lemma registry_inv_producer_close a s :
  registry_inv s ->
  registry_inv (state (on_producerObj a (Owned.close "transport.closeProducer") s)).
Proof.
  intros H. destruct (producerObjs s !! a) as [p|] eqn:Ho.
  - destruct (Owned.closed p) eqn:Hc.
    + rewrite producer_closes_not; [exact H|]. rewrite Ho. exact Hc.
    + rewrite (producer_closes a s p Ho Hc). destruct H as (H1 & H2 & H3 & H4).
      split; [|split; [exact H2|split; [exact H3|exact H4]]].
      cbn. apply registered_close; assumption.
  - rewrite producer_closes_not; [exact H|]. rewrite Ho. trivial.
Qed.

Lemma registry_inv_consumer_close a m s :
  m = Owned.close "transport.closeConsumer" \/ m = Owned.sourceClosed "producerclose" ->
  registry_inv s -> registry_inv (state (on_consumerObj a m s)).
Proof.
  intros Hm H. destruct (consumerObjs s !! a) as [c|] eqn:Ho.
  - destruct (Owned.closed c) eqn:Hc.
    + rewrite (consumer_closes_not a m s Hm); [exact H|]. rewrite Ho. exact Hc.
    + destruct (consumer_closes a s c Ho Hc) as [E1 E2].
      destruct H as (H1 & H2 & H3 & H4).
      destruct Hm as [-> | ->]; [rewrite E1|rewrite E2];
        (split; [exact H1|split; [|split; [exact H3|exact H4]]]);
        cbn; apply registered_close; assumption.
  - rewrite (consumer_closes_not a m s Hm); [exact H|]. rewrite Ho. trivial.
Qed.

Lemma registry_inv_dataProducer_close a s :
  registry_inv s -> registry_inv (state (on_dataProducerObj a DataProducer.close s)).
Proof.
  intros H. destruct (dataProducerObjs s !! a) as [p|] eqn:Ho.
  - destruct (DataProducer.closed p) eqn:Hc.
    + rewrite dataProducer_closes_not; [exact H|]. rewrite Ho. exact Hc.
    + rewrite (dataProducer_closes a s p Ho Hc). destruct H as (H1 & H2 & H3 & H4).
      split; [exact H1|split; [exact H2|split; [|exact H4]]].
      cbn. apply (registered_close DataProducer.id); assumption.
  - rewrite dataProducer_closes_not; [exact H|]. rewrite Ho. trivial.
Qed.

Lemma registry_inv_dataConsumer_close a m s :
  m = Owned.close "transport.closeDataConsumer" \/ m = Owned.sourceClosed "dataproducerclose" ->
  registry_inv s -> registry_inv (state (on_dataConsumerObj a m s)).
Proof.
  intros Hm H. destruct (dataConsumerObjs s !! a) as [[c sid]|] eqn:Ho.
  - destruct (Owned.closed c) eqn:Hc.
    + rewrite (dataConsumer_closes_not a m s Hm); [exact H|]. rewrite Ho. exact Hc.
    + destruct (dataConsumer_closes_registry a m s c sid Hm Ho Hc)
        as (E1 & E2 & E3 & E4 & E5 & E6 & E7 & E8).
      destruct H as (H1 & H2 & H3 & H4). unfold registry_inv.
      rewrite E1, E2, E3, E4, E5, E6, E7, E8.
      split; [exact H1|split; [exact H2|split; [exact H3|]]].
      apply (registered_close (fun c => Owned.id (fst c)) (fun c => Owned.closed (fst c))
               _ _ a (c, sid)); assumption.
  - rewrite (dataConsumer_closes_not a m s Hm); [exact H|]. rewrite Ho. trivial.
Qed.

Lemma step_registry_inv a s :
  registry_inv (world s) -> registry_inv (world (fst (step a s))).
Proof.
  intros H.
  assert (B := fun m1 o1 m2 o2 m3 o3 m4 o4 =>
                 begins_keep_registries m1 o1 m2 o2 m3 o3 m4 o4). cbv zeta in B.
  destruct a; cbn [step]; rewrite ?world_run_unit, ?world_run_begin.
  - apply registry_inv_closes; [cbn; tauto|exact H].
  - apply registry_inv_closes; [cbn; tauto|exact H].
  - apply registry_inv_closes; [cbn; tauto|exact H].
  - apply registry_inv_begin; [intros; apply B|exact H].
  - apply registry_inv_begin; [intros; apply B|exact H].
  - apply registry_inv_begin; [intros; apply B|exact H].
  - apply registry_inv_begin; [intros; apply B|exact H].
  - destruct (pending s !! i) as [[c|c|c|c]|]; destruct r; cbn [fst]; try exact H;
      rewrite world_run_resume.
    + apply registry_inv_produce_resume, H.
    + apply registry_inv_consume_resume, H.
    + apply registry_inv_produceData_resume, H.
    + apply registry_inv_consumeData_resume, H.
  - exact H.
  - apply registry_inv_producer_close, H.
  - apply registry_inv_consumer_close; [left; reflexivity|exact H].
  - apply registry_inv_consumer_close; [right; reflexivity|exact H].
  - apply registry_inv_dataProducer_close, H.
  - apply registry_inv_dataConsumer_close; [left; reflexivity|exact H].
  - apply registry_inv_dataConsumer_close; [right; reflexivity|exact H].
Qed.

Lemma run_registry_inv acts s :
  registry_inv (world s) -> registry_inv (world (run acts s)).
Proof.
  revert s. induction acts as [|a acts IH]; intros s H; [exact H|].
  cbn [run]. apply IH, step_registry_inv, H.
Qed.

(** The four registries of a Transport hold open objects only: in every
    state the Transport reaches through calls, answers of the engine and
    closes of single objects, each id of a registry is there once, the object
    under it is open and carries that id, and no object is registered under
    two ids. *)
Theorem registries_hold_open_objects s :
  reachable s ->
  registry_inv (world s)
  /\ List.NoDup (values (producers (world s)))
  /\ List.NoDup (values (consumers (world s)))
  /\ List.NoDup (values (dataProducers (world s)))
  /\ List.NoDup (values (dataConsumers (world s))).
Proof.
  intros (name & i & d & a & acts & ->).
  assert (H : registry_inv (world (run acts {| world := new name i d a; pending := [] |}))).
  { apply run_registry_inv. repeat split; try apply NoDup_nil_2; intros k b []. }
  split; [exact H|]. destruct H as (H1 & H2 & H3 & H4).
  repeat apply conj; eapply registered_values; eassumption.
Qed.

End Registries.

(** ** A stream id whose request is rejected *)
Section StreamIdLeak.
Context `{I : Imports} `{O : @Ortc I}.
Import Transport.

Lemma ids_run_unit {A} (m : M A) s :
  ids_in_use (fst (run_unit m s)) = held_ids (state (m (world s))) ++ reserved_ids (pending s).
Proof. unfold run_unit, ids_in_use. destruct (m (world s)) as [[r w] l]. reflexivity. Qed.

Lemma ids_run_resume {A} i (m : M A) s :
  ids_in_use (fst (run_resume i m s))
  = held_ids (state (m (world s))) ++ reserved_ids (base.delete i (pending s)).
Proof. unfold run_resume, ids_in_use. destruct (m (world s)) as [[r w] l]. reflexivity. Qed.

(** What a turn of the event loop does to the bitmap and to the ids in use:
    it gives ids up and leaves the bitmap alone; or it takes an id whose slot
    is clear and sets the slot; or it gives an id up and clears its slot; or
    it does no more than create the bitmap. *)
Lemma step_allocator_move a s :
  (sctpStreamIds (world (fst (step a s))) = sctpStreamIds (world s)
   /\ ids_in_use (fst (step a s)) ⊆+ ids_in_use s)
  \/ (exists n k,
        ids_in_use (fst (step a s)) = ids_in_use s ++ [k]
        /\ slot_free (bitmap n (world s)) k = true
        /\ sctpStreamIds (world (fst (step a s))) = Some (<[k:=1%N]> (bitmap n (world s))))
  \/ (exists k,
        ids_in_use s ≡ₚ k :: ids_in_use (fst (step a s))
        /\ sctpStreamIds (world (fst (step a s)))
           = (write_sctpStreamIds (Some k) 0%N <$> sctpStreamIds (world s)))
  \/ (ids_in_use (fst (step a s)) = ids_in_use s
      /\ exists n, sctpStreamIds (world (fst (step a s))) = Some (bitmap n (world s))).
Proof.
  assert (F := fun b objs => allocator_frame b objs). cbv zeta in F.
  assert (Hunit : forall (m : M unit),
    sctpStreamIds (state (m (world s))) = sctpStreamIds (world s)
    /\ held_ids (state (m (world s))) ⊆+ held_ids (world s) ->
    sctpStreamIds (world (fst (run_unit m s))) = sctpStreamIds (world s)
    /\ ids_in_use (fst (run_unit m s)) ⊆+ ids_in_use s).
  { intros m [Hb Hh]. rewrite world_run_unit, ids_run_unit. split; [exact Hb|].
    apply submseteq_skips_r, Hh. }
  assert (Hbegin : forall C (m : M C) k,
    (forall c, reserved (k c) = None) ->
    sctpStreamIds (state (m (world s))) = sctpStreamIds (world s)
    /\ held_ids (state (m (world s))) ⊆+ held_ids (world s) ->
    sctpStreamIds (world (fst (run_begin m k s))) = sctpStreamIds (world s)
    /\ ids_in_use (fst (run_begin m k s)) ⊆+ ids_in_use s).
  { intros C m k Hk [Hb Hh]. rewrite world_run_begin. split; [exact Hb|].
    unfold run_begin, ids_in_use. destruct (m (world s)) as [[[c|e] w] l]; cbn in *.
    - unfold reserved_ids. rewrite omap_app. cbn. rewrite Hk, app_nil_r.
      apply submseteq_skips_r, Hh.
    - apply submseteq_skips_r, Hh. }
  assert (Hresume : forall A i (m : M A),
    sctpStreamIds (state (m (world s))) = sctpStreamIds (world s)
    /\ held_ids (state (m (world s))) ⊆+ held_ids (world s) ->
    sctpStreamIds (world (fst (run_resume i m s))) = sctpStreamIds (world s)
    /\ ids_in_use (fst (run_resume i m s)) ⊆+ ids_in_use s).
  { intros A i m [Hb Hh]. rewrite world_run_resume, ids_run_resume. split; [exact Hb|].
    apply submseteq_app; [exact Hh|apply omap_delete_submseteq]. }
  assert (Hdc : forall a m,
    m = Owned.close "transport.closeDataConsumer"
    \/ m = Owned.sourceClosed "dataproducerclose" ->
    (sctpStreamIds (world (fst (run_unit (on_dataConsumerObj a m) s)))
     = sctpStreamIds (world s)
     /\ ids_in_use (fst (run_unit (on_dataConsumerObj a m) s)) ⊆+ ids_in_use s)
    \/ (exists k,
          ids_in_use s ≡ₚ k :: ids_in_use (fst (run_unit (on_dataConsumerObj a m) s))
          /\ sctpStreamIds (world (fst (run_unit (on_dataConsumerObj a m) s)))
             = (write_sctpStreamIds (Some k) 0%N <$> sctpStreamIds (world s)))).
  { intros a0 m Hm. rewrite world_run_unit, ids_run_unit.
    destruct (dataConsumerObjs (world s) !! a0) as [[c sid]|] eqn:Ho.
    - destruct (Owned.closed c) eqn:Hc.
      + left. rewrite (dataConsumer_closes_not a0 m (world s) Hm); [split; reflexivity|].
        rewrite Ho. exact Hc.
      + destruct (dataConsumer_closes a0 m (world s) c sid Hm Ho Hc) as [Hobjs Hb].
        assert (Hheld : held_ids (world s)
                        ≡ₚ option_list sid
                           ++ held_ids (state (on_dataConsumerObj a0 m (world s)))).
        { unfold held_ids. rewrite Hobjs.
          rewrite (omap_alter_delete held close_dataConsumer _ a0 held_closed).
          rewrite (omap_delete held _ a0 _ Ho). unfold held. cbn. rewrite Hc. reflexivity. }
        destruct sid as [k|].
        * right. exists k. split; [|exact Hb]. unfold ids_in_use. rewrite Hheld. reflexivity.
        * left. split.
          -- rewrite Hb. destruct (sctpStreamIds (world s)); reflexivity.
          -- apply submseteq_skips_r, Permutation_submseteq. symmetry. exact Hheld.
    - left. rewrite (dataConsumer_closes_not a0 m (world s) Hm); [split; reflexivity|].
      rewrite Ho. trivial. }
  destruct a; cbn [step].
  - left. apply Hunit, closes_give_up. cbn. tauto.
  - left. apply Hunit, closes_give_up. cbn. tauto.
  - left. apply Hunit, closes_give_up. cbn. tauto.
  - left. apply Hbegin; [reflexivity|]. apply framed_inv. intros b objs. apply F.
  - left. apply Hbegin; [reflexivity|]. apply framed_inv. intros b objs. apply F.
  - left. apply Hbegin; [reflexivity|]. apply framed_inv. intros b objs. apply F.
  - destruct (consumeData_begin_view router uuid o (world s)) as [Ho Hv].
    rewrite world_run_begin. unfold run_begin, ids_in_use, held_ids.
    destruct (consumeData_begin router uuid o (world s)) as [[[c|e] w] l]; cbn in *.
    + destruct (cdc_sctpStreamId c) as [k|] eqn:Hc.
      * right. left. destruct Hv as (n & Hf & Hk & Hb). exists n, k.
        split; [|split; [exact Hf|exact Hb]].
        unfold reserved_ids. rewrite Ho, omap_app, app_assoc. cbn. rewrite Hc. reflexivity.
      * left. split; [exact Hv|]. unfold reserved_ids. rewrite Ho, omap_app. cbn.
        rewrite Hc, app_nil_r. reflexivity.
    + rewrite Ho. destruct Hv as [Hv|Hv].
      * left. split; [exact Hv|reflexivity].
      * right. right. right. split; [reflexivity|exact Hv].
  - left. destruct (pending s !! i) as [[c|c|c|c]|] eqn:Hi; destruct r as [st|st|d|d];
      cbn [fst]; try (split; reflexivity).
    + apply Hresume, framed_inv. intros b objs. apply F.
    + apply Hresume, framed_inv. intros b objs. apply F.
    + apply Hresume, framed_inv. intros b objs. apply F.
    + destruct (consumeData_resume_view c d (world s)) as [Hb Hh].
      rewrite world_run_resume, ids_run_resume. split; [exact Hb|].
      rewrite Hh. apply Permutation_submseteq.
      unfold ids_in_use, reserved_ids. rewrite (omap_delete reserved (pending s) i _ Hi). cbn.
      rewrite <- app_assoc. reflexivity.
  - left. cbn [fst world]. split; [reflexivity|].
    apply submseteq_skips_l, omap_delete_submseteq.
  - left. apply Hunit, framed_inv. intros b objs. apply F.
  - left. apply Hunit, framed_inv. intros b objs. apply F.
  - left. apply Hunit, framed_inv. intros b objs. apply F.
  - left. apply Hunit, framed_inv. intros b objs. apply F.
  - destruct (Hdc a (Owned.close "transport.closeDataConsumer")) as [H|H];
      [left; reflexivity|left; exact H|right; right; left; exact H].
  - destruct (Hdc a (Owned.sourceClosed "dataproducerclose")) as [H|H];
      [right; reflexivity|left; exact H|right; right; left; exact H].
Qed.

Lemma step_leaked a s k : leaked s k -> leaked (fst (step a s)) k.
Proof.
  intros [(ids & Hi & Hfalse) Hk].
  destruct (step_allocator_move a s)
    as [[Hb Hsub]|[(n & k' & Hids & Hf & Hb)|[(k' & Hids & Hb)|[Hids (n & Hb)]]]].
  - split.
    + exists ids. rewrite Hb. split; assumption.
    + intros Hin. apply Hk. exact (elem_of_submseteq _ _ _ Hin Hsub).
  - assert (Hne : k <> k').
    { intros ->. unfold bitmap in Hf. rewrite Hi in Hf. congruence. }
    split.
    + exists (<[k':=1%N]> ids). unfold bitmap in Hb. rewrite Hi in Hb.
      split; [exact Hb|]. rewrite slot_free_insert_ne by exact Hne. exact Hfalse.
    + rewrite Hids. intros Hin. apply elem_of_app in Hin as [Hin|Hin]; [exact (Hk Hin)|].
      apply list_elem_of_singleton in Hin. exact (Hne Hin).
  - assert (Hne : k <> k').
    { intros ->. apply Hk. rewrite Hids. left. }
    split.
    + exists (<[k':=0%N]> ids). rewrite Hb, Hi. split; [reflexivity|].
      rewrite slot_free_insert_ne by exact Hne. exact Hfalse.
    + intros Hin. apply Hk. rewrite Hids. right. exact Hin.
  - split.
    + exists ids. rewrite Hb. unfold bitmap. rewrite Hi. split; [reflexivity|exact Hfalse].
    + rewrite Hids. exact Hk.
Qed.

Lemma run_leaked acts s k : leaked s k -> leaked (run acts s) k.
Proof.
  revert s. induction acts as [|a acts IH]; intros s H; [exact H|].
  cbn [run]. apply IH, step_leaked, H.
Qed.

(** An allocation does not return an id whose slot is set. *)
Lemma taken_not_returned n k s :
  MIS_of s = Some n -> taken s k -> result (getNextSctpStreamId s) <> Return k.
Proof.
  intros Hn (ids & Hi & Hfalse) Hr. rewrite (getNextSctpStreamId_eq n s Hn) in Hr.
  destruct (scan (bitmap n s) (nextSctpStreamId s) 0 (length (bitmap n s))) as [k'|] eqn:Hs;
    [|discriminate].
  cbn in Hr. injection Hr as ->. apply scan_first_free in Hs as (j & _ & _ & Hf & _).
  unfold bitmap in Hf. rewrite Hi in Hf. congruence.
Qed.

(** When the engine rejects the request of a [consumeData()], the stream id
    the call had taken stays set in the bitmap: whatever happens to the
    Transport afterwards, no DataConsumer holds the id, no call has it, and no
    allocation returns it. *)
Theorem rejected_request_keeps_stream_id s i c k acts :
  reachable s ->
  pending s !! i = Some (pending_consumeData c) ->
  cdc_sctpStreamId c = Some k ->
  leaked (run acts (fst (step (reject i) s))) k
  /\ forall n,
       MIS_of (world (run acts (fst (step (reject i) s)))) = Some n ->
       result (getNextSctpStreamId (world (run acts (fst (step (reject i) s))))) <> Return k.
Proof.
  intros Hreach Hi Hc. destruct (reachable_allocator_inv s Hreach) as [Hnd Ht].
  assert (Hperm : ids_in_use s
                  ≡ₚ k :: ids_in_use (fst (step (reject i) s))).
  { cbn. unfold ids_in_use, reserved_ids. cbn.
    rewrite (omap_delete reserved (pending s) i _ Hi). cbn. rewrite Hc. cbn.
    symmetry. apply Permutation_middle. }
  assert (Hleak : leaked (run acts (fst (step (reject i) s))) k).
  { apply run_leaked. split.
    - cbn. apply Ht. rewrite Hperm. left.
    - rewrite Hperm in Hnd. apply NoDup_cons in Hnd as [Hk _]. exact Hk. }
  split; [exact Hleak|]. intros n Hn. apply (taken_not_returned n); [exact Hn|apply Hleak].
Qed.

End StreamIdLeak.

Section StreamIdLeakExample.
Import Transport Examples.

Lemma rejected_request_keeps_stream_id_witness :
  reachable one_pending
  /\ pending one_pending !! 0
     = Some (pending_consumeData (consumeDataCall_ "dc1" (Some 0) appData_falsy))
  /\ leaked (run [call_consumeData router_dp "dc2" consumeData_options]
               (fst (step (reject 0) one_pending))) 0.
Proof.
  assert (Hreach : reachable one_pending).
  { unfold reachable, one_pending, transport. eexists _, _, _, _, _. reflexivity. }
  assert (Hp : pending one_pending !! 0
               = Some (pending_consumeData (consumeDataCall_ "dc1" (Some 0) appData_falsy)))
    by (vm_compute; reflexivity).
  split; [exact Hreach|]. split; [exact Hp|].
  apply (@rejected_request_keeps_stream_id imports ortc one_pending 0 _ 0
           [call_consumeData router_dp "dc2" consumeData_options] Hreach Hp eq_refl).
Defined.

End StreamIdLeakExample.

(** ** Stream ids in the order of the requests *)
Section StreamIdOrder.
Context `{I : Imports} `{O : @Ortc I}.
Import Transport.

Lemma filled_length n j s : j <= n -> filled n j s -> length (bitmap n s) = n.
Proof.
  intros Hj [Hb _]. rewrite Hb, length_app, !length_replicate. lia.
Qed.

Lemma filled_first_free n j s :
  j < n -> filled n j s -> first_free_from (bitmap n s) (nextSctpStreamId s) j.
Proof.
  intros Hj Hf. pose proof (filled_length n j s (Nat.lt_le_incl _ _ Hj) Hf) as Hlen.
  destruct Hf as [Hb Hc]. exists 0. rewrite Hlen, Hc, Nat.add_0_r.
  split; [lia|]. split; [symmetry; apply Nat.mod_small, Hj|]. split; [|intros j' Hj'; lia].
  unfold slot_free. rewrite Hb, lookup_app_r, length_replicate, Nat.sub_diag
    by (rewrite length_replicate; lia).
  rewrite lookup_replicate_2 by lia. reflexivity.
Qed.

Lemma filled_all_taken n s : filled n n s -> all_taken (bitmap n s).
Proof.
  intros [Hb _] k Hk. rewrite Hb, Nat.sub_diag in *. cbn in *. rewrite app_nil_r in *.
  rewrite length_replicate in Hk. unfold slot_free.
  rewrite lookup_replicate_2 by exact Hk. reflexivity.
Qed.

Lemma filled_marked n j s : j < n -> filled n j s -> filled n (j + 1) (marked n j s).
Proof.
  intros Hj [Hb Hc]. split; [|reflexivity]. unfold marked, bitmap at 1. cbn. rewrite Hb.
  replace (n - j) with (S (n - (j + 1))) by lia. cbn [replicate].
  rewrite insert_app_r_alt, length_replicate, Nat.sub_diag by (rewrite length_replicate; lia).
  cbn. rewrite Nat.add_1_r, replicate_S_end, <- app_assoc. reflexivity.
Qed.

Lemma consumeData_call_takes_next router u o dp n j s :
  consumeData_accepts router o dp ->
  is_direct (world s) = false -> MIS_of (world s) = Some n ->
  filled n j (world s) -> j < n ->
  is_direct (world (fst (step (call_consumeData router u o) s))) = false
  /\ MIS_of (world (fst (step (call_consumeData router u o) s))) = Some n
  /\ filled n (j + 1) (world (fst (step (call_consumeData router u o) s)))
  /\ reserved_ids (pending (fst (step (call_consumeData router u o) s)))
     = reserved_ids (pending s) ++ [j].
Proof.
  intros Hacc Hdirect Hn Hf Hj. cbn [step]. unfold run_begin.
  pose proof (consumeData_begin_eq router u o dp n (world s) Hacc Hdirect Hn) as Hbegin.
  rewrite (proj2 (scan_first_free _ _ _) (filled_first_free n j (world s) Hj Hf)) in Hbegin.
  destruct Hbegin as (c & req & -> & Hc). cbn [fst world pending].
  split; [exact Hdirect|]. split; [exact Hn|]. split; [apply filled_marked; assumption|].
  unfold reserved_ids. rewrite omap_app. cbn. rewrite Hc. reflexivity.
Qed.

Lemma consumeData_calls_take_in_order router o dp n (uuids : list string) :
  consumeData_accepts router o dp ->
  forall s j,
    is_direct (world s) = false -> MIS_of (world s) = Some n ->
    filled n j (world s) -> j + length uuids <= n ->
    filled n (j + length uuids)
      (world (run (List.map (fun u => call_consumeData router u o) uuids) s))
    /\ is_direct (world (run (List.map (fun u => call_consumeData router u o) uuids) s))
       = false
    /\ MIS_of (world (run (List.map (fun u => call_consumeData router u o) uuids) s))
       = Some n
    /\ reserved_ids (pending (run (List.map (fun u => call_consumeData router u o) uuids) s))
       = reserved_ids (pending s) ++ seq j (length uuids).
Proof.
  intros Hacc. induction uuids as [|u uuids IH]; intros s j Hdirect Hn Hf Hj.
  - cbn. rewrite Nat.add_0_r, app_nil_r. auto.
  - cbn [List.map run length] in *.
    destruct (consumeData_call_takes_next router u o dp n j s Hacc Hdirect Hn Hf)
      as (Hd' & Hn' & Hf' & Hr'); [lia|].
    destruct (IH _ (j + 1) Hd' Hn' Hf') as (H1 & H2 & H3 & H4); [lia|].
    replace (j + S (length uuids)) with (j + 1 + length uuids) by lia.
    split; [exact H1|]. split; [exact H2|]. split; [exact H3|].
    rewrite H4, Hr', <- app_assoc. cbn. rewrite Nat.add_1_r. reflexivity.
Qed.

End StreamIdOrder.

Section StreamIdOrderAnswered.
Context `{I : Imports} `{O : @Ortc I}.
Import Transport.

Lemma consumeData_call_keeps_held router u o dp n j s :
  consumeData_accepts router o dp ->
  is_direct (world s) = false -> MIS_of (world s) = Some n ->
  filled n j (world s) -> j < n ->
  held_ids (world (fst (step (call_consumeData router u o) s))) = held_ids (world s).
Proof.
  intros Hacc Hdirect Hn Hf Hj. cbn [step]. unfold run_begin.
  pose proof (consumeData_begin_eq router u o dp n (world s) Hacc Hdirect Hn) as Hbegin.
  rewrite (proj2 (scan_first_free _ _ _) (filled_first_free n j (world s) Hj Hf)) in Hbegin.
  destruct Hbegin as (c & req & -> & Hc). reflexivity.
Qed.

(** An answer of the engine leaves the allocator as it is and moves the id
    of the call, if it had one, to the DataConsumer. *)
Lemma answer_keeps_allocator i r n j s :
  is_direct (world s) = false -> MIS_of (world s) = Some n -> filled n j (world s) ->
  is_direct (world (fst (step (resolve i r) s))) = false
  /\ MIS_of (world (fst (step (resolve i r) s))) = Some n
  /\ filled n j (world (fst (step (resolve i r) s)))
  /\ ids_in_use (fst (step (resolve i r) s)) ≡ₚ ids_in_use s.
Proof.
  intros Hd Hn Hf. cbn [step].
  destruct (pending s !! i) as [[c|c|c|c]|] eqn:Hi; destruct r as [st|st|dt|dt]; cbn [fst];
    try (split; [assumption|split; [assumption|split; [assumption|reflexivity]]]);
    pose proof (omap_delete reserved (pending s) i _ Hi) as Hp;
    rewrite ids_run_resume, world_run_resume; cbn [reserved option_list app] in Hp.
  - split; [assumption|split; [assumption|split; [assumption|]]].
    unfold ids_in_use, reserved_ids. rewrite Hp. reflexivity.
  - split; [assumption|split; [assumption|split; [assumption|]]].
    unfold ids_in_use, reserved_ids. rewrite Hp. reflexivity.
  - split; [assumption|split; [assumption|split; [assumption|]]].
    unfold ids_in_use, reserved_ids. rewrite Hp. reflexivity.
  - destruct (consumeData_resume_view c dt (world s)) as [_ Hh]. rewrite Hh.
    split; [assumption|split; [assumption|split; [assumption|]]].
    unfold ids_in_use, reserved_ids. rewrite Hp, <- app_assoc. reflexivity.
Qed.

Lemma calls_and_answers_fill router o dp n events :
  consumeData_accepts router o dp ->
  forall s j,
    is_direct (world s) = false -> MIS_of (world s) = Some n ->
    filled n j (world s) -> ids_in_use s ≡ₚ seq 0 j -> j + calls events <= n ->
    is_direct (world (run (calls_and_answers router o events) s)) = false
    /\ MIS_of (world (run (calls_and_answers router o events) s)) = Some n
    /\ filled n (j + calls events) (world (run (calls_and_answers router o events) s))
    /\ ids_in_use (run (calls_and_answers router o events) s) ≡ₚ seq 0 (j + calls events).
Proof.
  intros Hacc. induction events as [|[u|[i r]] events IH]; intros s j Hd Hn Hf Hu Hj.
  - cbn. rewrite Nat.add_0_r. auto.
  - change (calls (inl u :: events)) with (S (calls events)) in *.
    cbn [calls_and_answers List.map run]. fold (calls_and_answers router o events).
    destruct (consumeData_call_takes_next router u o dp n j s Hacc Hd Hn Hf)
      as (Hd' & Hn' & Hf' & Hr'); [lia|].
    pose proof (consumeData_call_keeps_held router u o dp n j s Hacc Hd Hn Hf) as Hh.
    replace (j + S (calls events)) with (j + 1 + calls events) by lia.
    apply IH; try assumption; [|lia].
    unfold ids_in_use in *. rewrite Hh by lia. rewrite Hr', app_assoc, Hu.
    rewrite Nat.add_1_r, seq_S. reflexivity.
  - change (calls (inr (i, r) :: events)) with (calls events) in *.
    cbn [calls_and_answers List.map run]. fold (calls_and_answers router o events).
    destruct (answer_keeps_allocator i r n j s Hd Hn Hf) as (Hd' & Hn' & Hf' & Hu').
    apply IH; try assumption. rewrite Hu'. exact Hu.
Qed.

(** On a new Transport that is not a DirectTransport, [consumeData()] calls
    get the stream ids 0, 1, 2, ... in the order in which they are made,
    whether the engine has answered earlier calls or not: after any calls and
    answers, the ids of the DataConsumers and of the calls that wait are those
    below the number of calls made, and the next call gets that number as its
    id and marks it; with all MIS ids taken the next call throws and requests
    nothing.  With no answer yet, the calls that wait have the ids in their
    order. *)
Theorem stream_ids_in_request_order router o dp name i d a n
    (events : list (string + nat * Response)) :
  consumeData_accepts router o dp ->
  is_direct (new name i d a) = false ->
  MIS_of (new name i d a) = Some n ->
  calls events <= n ->
  let s := run (calls_and_answers router o events)
             {| world := new name i d a; pending := [] |} in
  ids_in_use s ≡ₚ seq 0 (calls events)
  /\ (calls events < n ->
      forall u, exists c req,
        consumeData_begin router u o (world s)
        = (Return c, marked n (calls events) (world s),
           [on_transport (channel_request "transport.consumeData"
                            (Some (transportId (internal (world s)))) req)])
        /\ cdc_sctpStreamId c = Some (calls events))
  /\ (calls events = n ->
      forall u,
        result (consumeData_begin router u o (world s)) = Throw no_sctpStreamId
        /\ trace (consumeData_begin router u o (world s)) = [])
  /\ (forall uuids, events = List.map inl uuids ->
        reserved_ids (pending s) = seq 0 (length uuids)).
Proof.
  intros Hacc Hdirect Hn Hlen. cbv zeta.
  destruct (calls_and_answers_fill router o dp n events Hacc
              {| world := new name i d a; pending := [] |} 0 Hdirect Hn)
    as (Hd' & Hn' & Hf & Hu).
  - split; [|reflexivity]. unfold bitmap. cbn. rewrite Nat.sub_0_r. reflexivity.
  - reflexivity.
  - exact Hlen.
  - cbn [Nat.add] in Hf, Hu. split; [exact Hu|]. split; [|split].
    + intros Hlt u.
      pose proof (consumeData_begin_eq router u o dp n _ Hacc Hd' Hn') as Hbegin.
      rewrite (proj2 (scan_first_free _ _ _) (filled_first_free n _ _ Hlt Hf)) in Hbegin.
      exact Hbegin.
    + intros Hfull u. rewrite Hfull in Hf.
      pose proof (consumeData_begin_eq router u o dp n _ Hacc Hd' Hn') as Hbegin.
      rewrite (proj2 (scan_all_taken _ _) (filled_all_taken n _ Hf)) in Hbegin.
      rewrite Hbegin. split; reflexivity.
    + intros uuids ->.
      assert (Hc : calls (List.map inl uuids) = length uuids).
      { clear. induction uuids as [|u uuids IH]; [reflexivity|].
        change (calls (List.map inl (u :: uuids))) with (S (calls (List.map inl uuids))).
        rewrite IH. reflexivity. }
      rewrite Hc in Hlen.
      assert (Hm : calls_and_answers router o (List.map inl uuids)
                   = List.map (fun u => call_consumeData router u o) uuids).
      { unfold calls_and_answers. rewrite List.map_map. reflexivity. }
      rewrite Hm.
      destruct (consumeData_calls_take_in_order router o dp n uuids Hacc
                  {| world := new name i d a; pending := [] |} 0 Hdirect Hn)
        as (_ & _ & _ & Hr); [|exact Hlen|exact Hr].
      split; [|reflexivity]. unfold bitmap. cbn. rewrite Nat.sub_0_r. reflexivity.
Qed.

End StreamIdOrderAnswered.

Section StreamIdOrderExample.
Import Transport Examples.

Lemma stream_ids_in_request_order_witness :
  result
    (consumeData_begin router_dp "dc3" consumeData_options
       (world (run (calls_and_answers router_dp consumeData_options
                      [inl "dc1"; inr (0, consumeData_response "data"); inl "dc2"])
                 {| world := transport "WebRtcTransport" 2; pending := [] |})))
  = Throw no_sctpStreamId.
Proof.
  refine (proj1 (proj1 (proj2 (proj2
    (@stream_ids_in_request_order imports ortc router_dp consumeData_options
       a_dataProducer "WebRtcTransport" _ _ _ 2
       [inl "dc1"; inr (0, consumeData_response "data"); inl "dc2"] _ _ _ _))) eq_refl "dc3")).
  - repeat apply conj; try reflexivity. intros id Hid. injection Hid as <-. reflexivity.
  - reflexivity.
  - reflexivity.
  - cbn. lia.
Defined.

End StreamIdOrderExample.

(** ** produceData() *)
Section ProduceData.
Context `{I : Imports} `{O : @Ortc I}.
Import Transport.

Lemma id_or_eq (id : option string) uuid :
  (if truthy_opt id then match id with Some s => s | None => "" end else uuid)
  = id_or id uuid.
Proof. destruct id as [s|]; reflexivity. Qed.

(** [produceData()] up to its request never changes the Transport.  It
    throws before the request when the non-empty id given is one the registry
    has, and, unless the Transport is a DirectTransport, when the SCTP stream
    parameters do not validate.  On a DirectTransport the parameters are not
    validated: they are warned about when given, and sent all the same.  The
    id requested is the one given unless it is missing or empty. *)
Theorem produceData_before_its_request uuid o s :
  state (produceData_begin uuid o s) = s
  /\ (forall id,
        dpo_id o = Some id -> id <> "" -> has id (dataProducers s) = true ->
        produceData_begin uuid o s
        = (Throw (exception TypeError
                    ("a DataProducer with same id " ++ quoted id ++ " already exists")),
           s, []))
  /\ (produceData_accepts s o -> is_direct s = false ->
      match validateSctpStreamParameters (dpo_sctpStreamParameters o) with
      | Some e => produceData_begin uuid o s = (Throw e, s, [])
      | None =>
          produceData_begin uuid o s
          = (Return {| pdc_dataProducerId := id_or (dpo_id o) uuid;
                       pdc_appData := dpo_appData o |},
             s, [produceData_request s uuid o DataProducer.sctp])
      end)
  /\ (produceData_accepts s o -> is_direct s = true ->
      produceData_begin uuid o s
      = (Return {| pdc_dataProducerId := id_or (dpo_id o) uuid;
                   pdc_appData := dpo_appData o |},
         s,
         (if some (dpo_sctpStreamParameters o) then [sctpStreamParameters_ignored] else [])
         ++ [produceData_request s uuid o DataProducer.direct])).
Proof.
  split; [|split; [|split]].
  - unfold produceData_begin. rewrite bind_gets.
    destruct (truthy_opt (dpo_id o) && has _ (dataProducers s)); [reflexivity|].
    destruct (appData_invalid (dpo_appData o)); [reflexivity|]. rewrite bind_gets.
    destruct (String.eqb (constructor_name s) "DirectTransport"); cbn [negb].
    + destruct (dpo_sctpStreamParameters o); reflexivity.
    + destruct (validateSctpStreamParameters (dpo_sctpStreamParameters o)); reflexivity.
  - intros id Hid Hne Hhas. unfold produceData_begin. rewrite bind_gets, Hid, Hhas.
    assert (truthy id = true) as Ht.
    { unfold truthy. apply negb_true_iff, String.eqb_neq, Hne. }
    cbn [truthy_opt]. rewrite Ht. reflexivity.
  - intros [Hdup Happ] Hdirect. unfold produceData_begin, produceData_request.
    rewrite bind_gets, Hdup, Happ, bind_gets. unfold is_direct in Hdirect.
    rewrite Hdirect. cbn [negb]. rewrite id_or_eq.
    destruct (validateSctpStreamParameters (dpo_sctpStreamParameters o)); reflexivity.
  - intros [Hdup Happ] Hdirect. unfold produceData_begin, produceData_request.
    rewrite bind_gets, Hdup, Happ, bind_gets. unfold is_direct in Hdirect.
    rewrite Hdirect. cbn [negb]. rewrite id_or_eq.
    destruct (dpo_sctpStreamParameters o); reflexivity.
Qed.

End ProduceData.

(** ** From registration to close *)
Section MapRoundTrip.
Context {V : Type}.

Lemma delete_replace (k : string) (v : V) m : delete k (replace k v m) = delete k m.
Proof.
  induction m as [|[k0 v0] m IH]; [reflexivity|]. cbn.
  destruct (String.eqb k0 k) eqn:E; cbn; rewrite E; cbn; [reflexivity|].
  unfold delete in IH. rewrite IH. reflexivity.
Qed.

Lemma delete_set (k : string) (v : V) m : delete k (set k v m) = delete k m.
Proof.
  unfold set. destruct (has k m); [apply delete_replace|].
  unfold delete. rewrite List.filter_app. cbn. rewrite String.eqb_refl. cbn.
  apply app_nil_r.
Qed.

Lemma delete_absent (k : string) (m : Map V) : has k m = false -> delete k m = m.
Proof.
  induction m as [|[k0 v0] m IH]; intros H; [reflexivity|]. cbn in *.
  apply orb_false_iff in H as [H1 H2]. rewrite H1. cbn. unfold delete in IH.
  rewrite IH by exact H2. reflexivity.
Qed.

End MapRoundTrip.

Section RoundTrips.
Context `{I : Imports} `{O : @Ortc I}.
Import Transport.

(** A DataProducer from the answer of the engine to its close:
    [produceData()] registers it under its id and announces it, a direct
    close takes its id out of the registry and emits ['@dataproducerclose']
    once, and a second close does nothing. *)
Theorem dataProducer_registered_until_closed c d s :
  let a := length (dataProducerObjs s) in
  let s1 := state (produceData_resume c d s) in
  let closing := on_dataProducerObj a DataProducer.close in
  produceData_resume c d s
  = (Return a, s1,
     [on_transport (emit this "@newdataproducer" [dataProducer_ref a]);
      on_transport (safeEmit observer "newdataproducer" [dataProducer_ref a])])
  /\ has (pdc_dataProducerId c) (dataProducers s1) = true
  /\ (exists p, dataProducerObjs s1 !! a = Some p
                /\ DataProducer.id p = pdc_dataProducerId c
                /\ DataProducer.closed p = false
                /\ DataProducer.data p = d)
  /\ result (closing s1) = Return tt
  /\ dataProducers (state (closing s1)) = delete (pdc_dataProducerId c) (dataProducers s)
  /\ has (pdc_dataProducerId c) (dataProducers (state (closing s1))) = false
  /\ (exists p, dataProducerObjs (state (closing s1)) !! a = Some p
                /\ DataProducer.closed p = true)
  /\ List.filter upward (trace (closing s1)) = [dataproducerclose_signal a]
  /\ closing (state (closing s1)) = (Return tt, state (closing s1), []).
Proof.
  cbv zeta.
  set (p := DataProducer.dataProducer
              (DataProducer.internal_ (routerId (internal s)) (transportId (internal s))
                 (pdc_dataProducerId c))
              d false (pdc_appData c)).
  assert (H1 : produceData_resume c d s
               = (Return (length (dataProducerObjs s)),
                  set_dataProducers
                    (set (pdc_dataProducerId c) (length (dataProducerObjs s))
                       (dataProducers s))
                    (set_dataProducerObjs (dataProducerObjs s ++ [p]) s),
                  [on_transport (emit this "@newdataproducer"
                                   [dataProducer_ref (length (dataProducerObjs s))]);
                   on_transport (safeEmit observer "newdataproducer"
                                   [dataProducer_ref (length (dataProducerObjs s))])]))
    by reflexivity.
  rewrite H1. cbn [state fst snd].
  assert (Hl : dataProducerObjs
                 (set_dataProducers
                    (set (pdc_dataProducerId c) (length (dataProducerObjs s))
                       (dataProducers s))
                    (set_dataProducerObjs (dataProducerObjs s ++ [p]) s))
               !! length (dataProducerObjs s) = Some p).
  { cbn. rewrite lookup_app_r, Nat.sub_diag by lia. reflexivity. }
  rewrite (dataProducer_closes _ _ p Hl eq_refl). cbn [result state trace fst snd].
  split; [reflexivity|]. split; [apply has_set|]. split; [exists p; auto|].
  split; [reflexivity|].
  split; [cbn [dataProducers set_dataProducers]; apply delete_set|].
  split; [cbn [dataProducers set_dataProducers]; rewrite delete_set; apply has_delete|].
  split.
  - exists (DataProducer.set_closed true p). split; [|reflexivity]. cbn.
    apply list_lookup_insert_eq. rewrite length_app. cbn. lia.
  - split; [reflexivity|]. apply dataProducer_closes_not. cbn.
    rewrite list_lookup_insert_eq by (rewrite length_app; cbn; lia). reflexivity.
Qed.

End RoundTrips.

Section RegistryExample.
Import Transport Examples.

Lemma registries_hold_open_objects_witness :
  reachable busy /\ registry_inv (world busy).
Proof.
  assert (Hreach : reachable busy).
  { unfold reachable, busy, transport. eexists _, _, _, _, _. reflexivity. }
  split; [exact Hreach|].
  exact (proj1 (@registries_hold_open_objects imports ortc busy Hreach)).
Defined.

End RegistryExample.

(** ** consumeData() *)
Section ConsumeData.
Context `{I : Imports} `{O : @Ortc I}.
Import Transport.

(** [consumeData()] throws before it requests anything, with the Transport
    as it was, when the id of the DataProducer is missing or empty, when the
    Router does not know it, and, unless the Transport is a DirectTransport,
    when the SCTP parameters of the Transport have no numeric MIS. *)
Theorem consumeData_rejects router uuid o s :
  (truthy_opt (dco_dataProducerId o) = false ->
   consumeData_begin router uuid o s
   = (Throw (exception TypeError "missing dataProducerId"), s, []))
  /\ (forall id,
        dco_dataProducerId o = Some id -> id <> "" ->
        (appData_invalid (dco_appData o) = true ->
         consumeData_begin router uuid o s
         = (Throw (exception TypeError "if given, appData must be an object"), s, []))
        /\ (appData_invalid (dco_appData o) = false ->
            getDataProducerById router id = None ->
            consumeData_begin router uuid o s
            = (Throw (exception Error ("DataProducer with id " ++ quoted id ++ " not found")),
               s, [])))
  /\ (forall dp,
        consumeData_accepts router o dp -> is_direct s = false -> MIS_of s = None ->
        consumeData_begin router uuid o s
        = (Throw (exception TypeError "missing sctpParameters.MIS"), s, [])).
Proof.
  split; [|split].
  - intros Hid. unfold consumeData_begin. rewrite Hid. reflexivity.
  - intros id Hid Hne.
    assert (Ht : truthy_opt (dco_dataProducerId o) = true).
    { rewrite Hid. unfold truthy_opt, truthy. apply negb_true_iff, String.eqb_neq, Hne. }
    split.
    + intros Happ. unfold consumeData_begin. rewrite Ht, Happ. reflexivity.
    + intros Happ Hdp. unfold consumeData_begin. rewrite Ht, Happ, Hid, Hdp. reflexivity.
  - intros dp (Hid & Happ & Hdp) Hdirect Hn. unfold consumeData_begin.
    rewrite Hid, Happ. cbn [negb].
    destruct (dco_dataProducerId o) as [id|]; [|discriminate]. rewrite (Hdp id eq_refl).
    rewrite bind_gets. unfold is_direct in Hdirect. rewrite Hdirect. cbn [negb].
    unfold bind. rewrite (getNextSctpStreamId_missing s Hn). reflexivity.
Qed.


End ConsumeData.

Section ConsumeDataExamples.
Import Transport Examples.


End ConsumeDataExamples.

(** ** Calls that fail after they have changed the Transport *)
Section FailedCalls.
Context `{I : Imports} `{O : @Ortc I}.
Import Transport.

Lemma rtcp_normalize p : rtcp (normalize_encodings p) = rtcp p.
Proof. unfold normalize_encodings. destruct (encodings_blank p); reflexivity. Qed.

(** The CNAME is fixed before the negotiation: a [produce()] on a Transport
    that is not a PipeTransport whose negotiation with the capabilities of the
    Router throws, or whose request the engine rejects, throws and registers
    no Producer, and leaves the Transport with the CNAME it has chosen. *)
Theorem failed_produce_fixes_cname router u1 u2 o s :
  produce_accepts s o -> is_pipe s = false ->
  (forall e,
     getProducerRtpParametersMapping
       (produced_parameters s u1 (po_rtpParameters o)) (getRouterRtpCapabilities router)
     = Throw e ->
     produce_begin router u1 u2 o s
     = (Throw e, set_cnameForProducers (chosen_cname s u1 (po_rtpParameters o)) s, []))
  /\ (forall m e,
        getProducerRtpParametersMapping
          (produced_parameters s u1 (po_rtpParameters o)) (getRouterRtpCapabilities router)
        = Return m ->
        getConsumableRtpParameters (po_kind o)
          (produced_parameters s u1 (po_rtpParameters o)) (getRouterRtpCapabilities router) m
        = Throw e ->
        produce_begin router u1 u2 o s
        = (Throw e, set_cnameForProducers (chosen_cname s u1 (po_rtpParameters o)) s, []))
  /\ (forall c s' l e,
        produce_begin router u1 u2 o s = (Return c, s', l) ->
        produce router u1 u2 o (Throw e) s = (Throw e, s', l)
        /\ s' = set_cnameForProducers (chosen_cname s u1 (po_rtpParameters o)) s).
Proof.
  intros (Hdup & Hkind & Happ & Hval) Hpipe.
  assert (Ha : assign_cname u1 (normalize_encodings (po_rtpParameters o)) s
               = (Return (produced_parameters s u1 (po_rtpParameters o)),
                  set_cnameForProducers (chosen_cname s u1 (po_rtpParameters o)) s, [])).
  { rewrite assign_cname_eq, Hpipe, chosen_cname_normalize. unfold produced_parameters.
    rewrite rtcp_normalize. reflexivity. }
  assert (Hb : produce_begin router u1 u2 o s
               = bind (assign_cname u1 (normalize_encodings (po_rtpParameters o)))
                   (fun rtpParameters =>
                      bind (lift_completion
                              (getProducerRtpParametersMapping rtpParameters
                                 (getRouterRtpCapabilities router)))
                        (fun rtpMapping =>
                           bind (lift_completion
                                   (getConsumableRtpParameters (po_kind o) rtpParameters
                                      (getRouterRtpCapabilities router) rtpMapping))
                             (fun consumableRtpParameters =>
                                bind (gets internal)
                                  (fun i =>
                                     bind (tell (on_transport
                                       (channel_request "transport.produce"
                                          (Some (transportId i))
                                          (Some (produce_req
                                             (if truthy_opt (po_id o)
                                              then match po_id o with
                                                   | Some s => s | None => "" end
                                              else u2)
                                             (po_kind o) rtpParameters rtpMapping
                                             (po_keyFrameRequestDelay o) (po_paused o))))))
                                       (fun _ =>
                                          ret {| pc_producerId :=
                                                   if truthy_opt (po_id o)
                                                   then match po_id o with
                                                        | Some s => s | None => "" end
                                                   else u2;
                                                 pc_kind := po_kind o;
                                                 pc_rtpParameters := rtpParameters;
                                                 pc_consumableRtpParameters :=
                                                   consumableRtpParameters;
                                                 pc_appData := po_appData o;
                                                 pc_paused := po_paused o |}))))) s).
  { unfold produce_begin. cbv zeta. rewrite bind_gets, Hdup, Hkind, Happ, Hval. cbn [negb].
    unfold lift_check. rewrite bind_ret. reflexivity. }
  split; [|split].
  - intros e He. rewrite Hb, (bind_Return _ _ _ _ _ _ Ha), He. reflexivity.
  - intros m e Hm He. rewrite Hb, (bind_Return _ _ _ _ _ _ Ha), Hm. cbn.
    unfold bind. cbn. rewrite He. reflexivity.
  - intros c s' l e Hbegin. split.
    + unfold produce. rewrite (bind_Return _ _ _ _ _ _ Hbegin). cbn.
      rewrite app_nil_r. reflexivity.
    + apply produce_begin_inv in Hbegin as (_ & p & m & Hassign & _).
      rewrite Ha in Hassign. injection Hassign as _ <-. reflexivity.
Qed.

(** A MID is taken before the request: when the engine rejects the request
    of a [consume()] that had no mid of its own and is not for a pipe
    Consumer, the call throws, no Consumer is registered, and the counter of
    the Transport has moved on: the MID of the failed call is not given
    again. *)
Theorem rejected_consume_uses_a_mid router u o s c s' l e :
  consume_begin router u o s = (Return c, s', l) ->
  co_pipe o = false -> mid_truthy (co_mid o) = false ->
  consume router u o (Throw e) s = (Throw e, s', l)
  /\ mid (cc_rtpParameters c) = Some (String_of_N (nextMidForConsumers s))
  /\ s' = set_nextMidForConsumers (next_counter (nextMidForConsumers s)) s
  /\ consumers s' = consumers s /\ consumerObjs s' = consumerObjs s.
Proof.
  intros Hbegin Hpipe Hmid. split.
  - unfold consume. rewrite (bind_Return _ _ _ _ _ _ Hbegin). cbn.
    rewrite app_nil_r. reflexivity.
  - apply consume_begin_inv in Hbegin
      as (_ & id & producer & enableRtx & p & lm & _ & _ & _ & Hassign & _).
    rewrite assign_mid_eq, Hpipe, Hmid in Hassign. injection Hassign as <- <- _.
    repeat split; reflexivity.
Qed.

End FailedCalls.

Section FailedCallsExamples.
Import Transport Examples.

Lemma failed_produce_fixes_cname_witness :
  exists c s' l,
    produce_begin router "0f1e2d3c-uuid" "p1" (produce_options None None encodings_falsy)
      (transport "WebRtcTransport" 2) = (Return c, s', l)
    /\ produce router "0f1e2d3c-uuid" "p1" (produce_options None None encodings_falsy)
         (Throw (exception Error "rejected")) (transport "WebRtcTransport" 2)
       = (Throw (exception Error "rejected"), s', l)
    /\ cnameForProducers s' = Some "0f1e2d3c".
Proof.
  assert (Hb : exists c s' l,
             produce_begin router "0f1e2d3c-uuid" "p1"
               (produce_options None None encodings_falsy)
               (transport "WebRtcTransport" 2) = (Return c, s', l)).
  { vm_compute. eexists _, _, _. reflexivity. }
  destruct Hb as (c & s' & l & Hb). exists c, s', l. split; [exact Hb|].
  assert (Hacc : produce_accepts (transport "WebRtcTransport" 2)
                   (produce_options None None encodings_falsy)).
  { repeat split. }
  destruct (failed_produce_fixes_cname router "0f1e2d3c-uuid" "p1"
              (produce_options None None encodings_falsy) (transport "WebRtcTransport" 2)
              Hacc eq_refl) as (_ & _ & H3).
  destruct (H3 c s' l (exception Error "rejected") Hb) as [Hp ->].
  split; [exact Hp|reflexivity].
Defined.

Lemma rejected_consume_uses_a_mid_witness :
  exists c s' l,
    consume_begin router_p "u" (consume_options "p1" mid_falsy false)
      (transport "WebRtcTransport" 2) = (Return c, s', l)
    /\ consume router_p "u" (consume_options "p1" mid_falsy false)
         (Throw (exception Error "rejected")) (transport "WebRtcTransport" 2)
       = (Throw (exception Error "rejected"), s', l)
    /\ nextMidForConsumers s' = 1%N
    /\ consumers s' = [].
Proof.
  assert (Hb : exists c s' l,
             consume_begin router_p "u" (consume_options "p1" mid_falsy false)
               (transport "WebRtcTransport" 2) = (Return c, s', l)).
  { vm_compute. eexists _, _, _. reflexivity. }
  destruct Hb as (c & s' & l & Hb). exists c, s', l. split; [exact Hb|].
  destruct (rejected_consume_uses_a_mid router_p "u" (consume_options "p1" mid_falsy false)
              (transport "WebRtcTransport" 2) c s' l (exception Error "rejected")
              Hb eq_refl eq_refl) as (H1 & _ & -> & _).
  split; [exact H1|]. split; reflexivity.
Defined.

End FailedCallsExamples.

(** ** Closing a WebRtcServer *)
Section WebRtcServerCloses.
Context `{I : Imports} `{O : @Ortc I}.
Import WebRtcServer.

Lemma set_webRtcTransportObjs_id s : set_webRtcTransportObjs (webRtcTransportObjs s) s = s.
Proof. destruct s; reflexivity. Qed.

Lemma listenServerClosed_returns t :
  result (WebRtcTransport.listenServerClosed t) = Return tt.
Proof.
  unfold WebRtcTransport.listenServerClosed. rewrite WebRtc_super_eq. cbn [result fst].
  destruct (Transport.closed (WebRtcTransport.base t)) eqn:Hc.
  - destruct Transport_silent as (_ & _ & H3). rewrite (H3 _ Hc). reflexivity.
  - destruct (three_closes (WebRtcTransport.base t) Hc) as (Tc & Tr & Tl & _ & _ & -> & _).
    reflexivity.
Qed.

Lemma listen_closed_idempotent t : listen_closed (listen_closed t) = listen_closed t.
Proof.
  unfold listen_closed.
  destruct WebRtcTransport_closing with (op := WebRtcTransport.listenServerClosed)
    as (_ & _ & Hagain); [cbn; tauto|].
  rewrite (Hagain WebRtcTransport.listenServerClosed); [reflexivity|cbn; tauto].
Qed.

Lemma listenServerClosed_at a s :
  on_webRtcTransportObj a WebRtcTransport.listenServerClosed s
  = (Return tt,
     set_webRtcTransportObjs (alter listen_closed a (webRtcTransportObjs s)) s,
     match webRtcTransportObjs s !! a with
     | Some t => List.map (on_webRtcTransport a) (trace (WebRtcTransport.listenServerClosed t))
     | None => []
     end).
Proof.
  rewrite alter_lookup. unfold on_webRtcTransportObj. rewrite bind_gets.
  destruct (webRtcTransportObjs s !! a) as [t|] eqn:Ho.
  - pose proof (listenServerClosed_returns t) as Hr. unfold listen_closed.
    destruct (WebRtcTransport.listenServerClosed t) as [[r t'] effs] eqn:E.
    cbn in Hr. subst r. rewrite bind_modify.
    rewrite (bind_Return _ _ _ _ _ _
               (for_of_tell (on_webRtcTransport a) effs
                  (set_webRtcTransportObjs (<[a:=t']> (webRtcTransportObjs s)) s))).
    cbn. rewrite app_nil_r. reflexivity.
  - rewrite set_webRtcTransportObjs_id. reflexivity.
Qed.

(** One turn of the loop of [close()]. *)
Lemma unhandle_eq a s :
  (on_webRtcTransportObj a WebRtcTransport.listenServerClosed ;;; tell (unhandled a))%js s
  = (Return tt,
     set_webRtcTransportObjs (alter listen_closed a (webRtcTransportObjs s)) s,
     match webRtcTransportObjs s !! a with
     | Some t => List.map (on_webRtcTransport a) (trace (WebRtcTransport.listenServerClosed t))
     | None => []
     end ++ [unhandled a]).
Proof. rewrite (bind_Return _ _ _ _ _ _ (listenServerClosed_at a s)). reflexivity. Qed.

Lemma unhandle_loop refs s :
  result (for_of refs (fun a =>
            on_webRtcTransportObj a WebRtcTransport.listenServerClosed ;;;
            tell (unhandled a))%js s) = Return tt
  /\ state (for_of refs (fun a =>
              on_webRtcTransportObj a WebRtcTransport.listenServerClosed ;;;
              tell (unhandled a))%js s)
     = set_webRtcTransportObjs
         (Transport.cascade listen_closed refs (webRtcTransportObjs s)) s
  /\ List.filter from_server
       (trace (for_of refs (fun a =>
                 on_webRtcTransportObj a WebRtcTransport.listenServerClosed ;;;
                 tell (unhandled a))%js s))
     = List.map unhandled refs.
Proof.
  revert s. induction refs as [|a refs IH]; intros s.
  - cbn. rewrite set_webRtcTransportObjs_id. auto.
  - cbn [for_of]. rewrite (bind_Return _ _ _ _ _ _ (unhandle_eq a s)).
    cbn [result state trace fst snd].
    destruct (IH (set_webRtcTransportObjs
                    (alter listen_closed a (webRtcTransportObjs s)) s)) as (H1 & H2 & H3).
    split; [exact H1|]. split; [rewrite H2; reflexivity|].
    rewrite !List.filter_app, H3. cbn.
    destruct (webRtcTransportObjs s !! a) as [t|]; [|reflexivity].
    assert (Hq : forall l, List.filter from_server (List.map (on_webRtcTransport a) l) = []).
    { induction l as [|e l IHl]; [reflexivity|exact IHl]. }
    rewrite Hq. reflexivity.
Qed.

(** [close()] on an open WebRtcServer: one request to the engine; every
    WebRtcTransport the registry refers to gets [listenServerClosed()], which
    closes it, and the observer is told once for each, in the order of the
    registry, that it is no longer handled; the registry ends empty; the
    transports it did not refer to are not touched. *)
Theorem WebRtcServer_close_unhandles_all s :
  closed s = false ->
  result (close s) = Return tt
  /\ state (close s)
     = set_webRtcTransports []
         (set_webRtcTransportObjs
            (Transport.cascade listen_closed (values (webRtcTransports s))
               (webRtcTransportObjs s))
            (set_closed true s))
  /\ List.filter from_server (trace (close s))
     = closeWebRtcServer_request s
       :: List.map unhandled (values (webRtcTransports s))
       ++ [on_server (emit this "@close" []); on_server (safeEmit observer "close" [])]
  /\ (forall a t,
        In a (values (webRtcTransports s)) -> webRtcTransportObjs s !! a = Some t ->
        exists t',
          webRtcTransportObjs (state (close s)) !! a = Some t'
          /\ WebRtcTransport.closed t' = true)
  /\ (forall a,
        ~ In a (values (webRtcTransports s)) ->
        webRtcTransportObjs (state (close s)) !! a = webRtcTransportObjs s !! a).
Proof.
  intros Hc.
  destruct (unhandle_loop (values (webRtcTransports s)) (set_closed true s))
    as (L1 & L2 & L3).
  assert (Hclose : close s
    = (Return tt,
       set_webRtcTransports []
         (set_webRtcTransportObjs
            (Transport.cascade listen_closed (values (webRtcTransports s))
               (webRtcTransportObjs s))
            (set_closed true s)),
       closeWebRtcServer_request s
       :: trace (for_of (values (webRtcTransports s)) (fun a =>
                   on_webRtcTransportObj a WebRtcTransport.listenServerClosed ;;;
                   tell (unhandled a))%js (set_closed true s))
       ++ [on_server (emit this "@close" []); on_server (safeEmit observer "close" [])])).
  { unfold close. rewrite bind_gets, Hc, bind_modify, bind_gets.
    eapply step_tell. rewrite bind_gets.
    etransitivity;
      [eapply step_bind; [apply returns_eq; [exact L1|exact L2]|reflexivity]|reflexivity]. }
  rewrite Hclose. cbn [result state trace fst snd].
  split; [reflexivity|]. split; [reflexivity|]. split; [|split].
  - cbn [List.filter from_server closeWebRtcServer_request]. rewrite List.filter_app, L3.
    reflexivity.
  - intros a t Hin Ho. exists (listen_closed t). cbn.
    rewrite (cascade_lookup_in listen_closed _ _ a listen_closed_idempotent Hin), Ho.
    split; [reflexivity|]. unfold listen_closed.
    exact (proj2 (listenServerClosed_leaves_mirrors t)).
  - intros a Hin. cbn. apply cascade_lookup_notin, Hin.
Qed.

(** A WebRtcTransport from [handleWebRtcTransport()] to its ['@close']:
    the server keeps it under its id and tells the observer; the listener of
    ['@close'] takes the id out again and tells the observer; the registry is
    then the one before without that id, and the transport itself was not
    touched. *)
Theorem webRtcTransport_handled_until_closed a t s :
  webRtcTransportObjs s !! a = Some t ->
  handleWebRtcTransport a s
  = (Return tt, set_webRtcTransports (set (id_of t) a (webRtcTransports s)) s, [handled a])
  /\ has (id_of t) (webRtcTransports (state (handleWebRtcTransport a s))) = true
  /\ on_webRtcTransport_close a (state (handleWebRtcTransport a s))
     = (Return tt, set_webRtcTransports (delete (id_of t) (webRtcTransports s)) s,
        [unhandled a])
  /\ has (id_of t)
       (webRtcTransports
          (state (on_webRtcTransport_close a (state (handleWebRtcTransport a s))))) = false.
Proof.
  intros Ho.
  assert (H1 : handleWebRtcTransport a s
               = (Return tt, set_webRtcTransports (set (id_of t) a (webRtcTransports s)) s,
                  [handled a])).
  { unfold handleWebRtcTransport. rewrite bind_gets, Ho, bind_gets, bind_modify.
    reflexivity. }
  assert (H2 : on_webRtcTransport_close a
                 (set_webRtcTransports (set (id_of t) a (webRtcTransports s)) s)
               = (Return tt, set_webRtcTransports (delete (id_of t) (webRtcTransports s)) s,
                  [unhandled a])).
  { unfold on_webRtcTransport_close. rewrite bind_gets.
    cbn [webRtcTransportObjs set_webRtcTransports]. rewrite Ho, bind_gets, bind_modify.
    cbn [webRtcTransports set_webRtcTransports]. fold (id_of t). rewrite delete_set.
    reflexivity. }
  rewrite H1. cbn [state fst snd]. rewrite H2. cbn [state fst snd].
  split; [reflexivity|]. split; [apply has_set|]. split; [reflexivity|]. apply has_delete.
Qed.

End WebRtcServerCloses.

Section WebRtcServerExamples.
Import WebRtcServer Examples.

Lemma WebRtcServer_close_unhandles_all_witness :
  closed server = false
  /\ List.filter from_server (trace (close server))
     = [closeWebRtcServer_request server; unhandled 0;
        on_server (emit this "@close" []); on_server (safeEmit observer "close" [])].
Proof.
  split; [reflexivity|].
  destruct (@WebRtcServer_close_unhandles_all imports ortc server eq_refl)
    as (_ & _ & H3 & _).
  rewrite H3. reflexivity.
Defined.

Lemma webRtcTransport_handled_until_closed_witness :
  webRtcTransportObjs server !! 0 = Some connected
  /\ has "t" (webRtcTransports (state (handleWebRtcTransport 0 server))) = true.
Proof.
  split; [reflexivity|].
  exact (proj1 (proj2 (@webRtcTransport_handled_until_closed imports 0 connected server
                         eq_refl))).
Defined.

End WebRtcServerExamples.

(** ** The closes of the subclasses *)
Section SubclassCloses.
Context `{I : Imports} `{O : @Ortc I}.

Lemma WebRtc_close_mirrors_data s :
  WebRtcTransport.close_mirrors s
  = (Return tt, WebRtcTransport.set_data (webRtc_closed_data (WebRtcTransport.data s)) s, []).
Proof.
  unfold WebRtcTransport.close_mirrors. rewrite !bind_modify, bind_gets.
  destruct s as [b [i t dt c [st|]]]; reflexivity.
Qed.

(** [close()], [routerClosed()] and [webRtcServerClosed()] of an open
    WebRtcTransport close its mirrors, forget the selected tuple, keep the
    remote certificate, and then do what the method of [Transport] they call
    does; [listenServerClosed()] does what [webRtcServerClosed()] does to the
    Transport and notifies the same, and leaves the data as they are. *)
Theorem WebRtcTransport_closes_compose s :
  WebRtcTransport.closed s = false ->
  let closed_by (op : Transport.M unit) :=
    (Return tt,
     {| WebRtcTransport.base := Transport.closed_state (WebRtcTransport.base s);
        WebRtcTransport.data := webRtc_closed_data (WebRtcTransport.data s) |},
     List.map WebRtcTransport.inherited (trace (op (WebRtcTransport.base s)))) in
  WebRtcTransport.close s = closed_by Transport.close
  /\ WebRtcTransport.routerClosed s = closed_by Transport.routerClosed
  /\ WebRtcTransport.webRtcServerClosed s = closed_by Transport.listenServerClosed
  /\ WebRtcTransport.listenServerClosed s
     = (Return tt,
        {| WebRtcTransport.base := Transport.closed_state (WebRtcTransport.base s);
           WebRtcTransport.data := WebRtcTransport.data s |},
        List.map WebRtcTransport.inherited
          (trace (Transport.listenServerClosed (WebRtcTransport.base s)))).
Proof.
  intros Hc. cbv zeta.
  destruct (three_closes (WebRtcTransport.base s) Hc)
    as (Tc & Tr & Tl & H1 & H2 & H3 & _).
  unfold WebRtcTransport.close, WebRtcTransport.routerClosed,
    WebRtcTransport.webRtcServerClosed, WebRtcTransport.listenServerClosed.
  rewrite !bind_gets, Hc. rewrite !(bind_Return _ _ _ _ _ _ (WebRtc_close_mirrors_data s)).
  rewrite !WebRtc_super_eq. cbn [WebRtcTransport.base WebRtcTransport.set_data].
  rewrite H1, H2, H3. cbn. repeat split.
Qed.

(** [close()] and [routerClosed()] of an open PlainTransport close its SCTP
    mirror when it has one, keep its tuples, and then do what the method of
    [Transport] does; [listenServerClosed()], which it inherits, leaves the
    data as they are. *)
Theorem PlainTransport_closes_compose s :
  PlainTransport.closed s = false ->
  let closed_by (op : Transport.M unit) :=
    (Return tt,
     {| PlainTransport.base := Transport.closed_state (PlainTransport.base s);
        PlainTransport.data := plain_closed_data (PlainTransport.data s) |},
     List.map PlainTransport.inherited (trace (op (PlainTransport.base s)))) in
  PlainTransport.close s = closed_by Transport.close
  /\ PlainTransport.routerClosed s = closed_by Transport.routerClosed
  /\ PlainTransport.listenServerClosed s
     = (Return tt,
        {| PlainTransport.base := Transport.closed_state (PlainTransport.base s);
           PlainTransport.data := PlainTransport.data s |},
        List.map PlainTransport.inherited
          (trace (Transport.listenServerClosed (PlainTransport.base s))))
  /\ PlainTransport.tuple (plain_closed_data (PlainTransport.data s))
     = PlainTransport.tuple (PlainTransport.data s)
  /\ PlainTransport.rtcpTuple (plain_closed_data (PlainTransport.data s))
     = PlainTransport.rtcpTuple (PlainTransport.data s).
Proof.
  intros Hc. cbv zeta.
  destruct (three_closes (PlainTransport.base s) Hc)
    as (Tc & Tr & Tl & H1 & H2 & H3 & _).
  unfold PlainTransport.close, PlainTransport.routerClosed,
    PlainTransport.listenServerClosed.
  rewrite !bind_gets, Hc. rewrite !(bind_Return _ _ _ _ _ _ (Plain_close_sctpState_eq s)).
  rewrite !Plain_super_eq. cbn [PlainTransport.base PlainTransport.set_data].
  rewrite H1, H2, H3. cbn. repeat split.
Qed.

End SubclassCloses.

Section SubclassClosesExamples.
Import Examples.

Lemma WebRtcTransport_closes_compose_witness :
  WebRtcTransport.closed connected = false
  /\ WebRtcTransport.data (state (WebRtcTransport.webRtcServerClosed connected))
     = webRtc_closed_data (WebRtcTransport.data connected)
  /\ WebRtcTransport.data (state (WebRtcTransport.listenServerClosed connected))
     = WebRtcTransport.data connected.
Proof.
  split; [reflexivity|].
  destruct (@WebRtcTransport_closes_compose imports connected eq_refl)
    as (_ & _ & H3 & H4).
  rewrite H3, H4. split; reflexivity.
Defined.

Lemma PlainTransport_closes_compose_witness :
  PlainTransport.closed plain = false
  /\ PlainTransport.sctpState (PlainTransport.data (state (PlainTransport.close plain)))
     = Some sctp_closed.
Proof.
  split; [reflexivity|].
  destruct (@PlainTransport_closes_compose imports plain eq_refl) as (H1 & _).
  rewrite H1. reflexivity.
Defined.

End SubclassClosesExamples.

(** ** The shape of the bitmap *)
Section BitmapShape.
Context `{I : Imports} `{O : @Ortc I}.
Import Transport.

Lemma Forall_bit_insert (ids : list N) k (v : N) :
  v = 0%N \/ v = 1%N ->
  Forall (fun v => v = 0%N \/ v = 1%N) ids ->
  Forall (fun v => v = 0%N \/ v = 1%N) (<[k:=v]> ids).
Proof. intros Hv Hids. apply Forall_insert; assumption. Qed.

Lemma bitmap_shaped_bitmap n s :
  bitmap_shaped n s ->
  length (bitmap n s) = n /\ Forall (fun v => v = 0%N \/ v = 1%N) (bitmap n s).
Proof.
  intros (_ & _ & Hb). unfold bitmap. destruct (sctpStreamIds s) as [ids|]; [exact Hb|].
  split; [apply length_replicate|]. apply Forall_replicate. left. reflexivity.
Qed.

Lemma getNextSctpStreamId_shaped n : stable (bitmap_shaped n) getNextSctpStreamId.
Proof.
  intros s H. fold (state (getNextSctpStreamId s)).
  destruct (bitmap_shaped_bitmap n s H) as [Hlen Hbits]. destruct H as (Hn & Hc & Hb).
  rewrite (getNextSctpStreamId_eq n s Hn).
  destruct (scan (bitmap n s) (nextSctpStreamId s) 0 (length (bitmap n s))) as [k|] eqn:Hs.
  - apply scan_first_free, first_free_in_range in Hs. unfold bitmap_shaped, allocated. cbn.
    split; [exact Hn|]. split; [lia|]. split; assumption.
  - unfold bitmap_shaped, exhausted. cbn. split; [exact Hn|]. split; [exact Hc|]. split; assumption.
Qed.

(** The allocation followed by the write of line 947. *)
Lemma allocate_and_mark_shaped {A} n (k : nat -> M A) :
  (forall sctpStreamId, stable (bitmap_shaped n) (k sctpStreamId)) ->
  stable (bitmap_shaped n)
    (sctpStreamId <- getNextSctpStreamId ;;
     ids <- gets sctpStreamIds ;;
     modify (set_sctpStreamIds (write_sctpStreamIds (Some sctpStreamId) 1%N <$> ids)) ;;;
     k sctpStreamId)%js.
Proof.
  intros Hk. apply stable_bind; [apply getNextSctpStreamId_shaped|]. intros sid s H.
  fold (state ((ids <- gets sctpStreamIds ;;
                modify (set_sctpStreamIds (write_sctpStreamIds (Some sid) 1%N <$> ids)) ;;;
                k sid)%js s)).
  rewrite bind_gets, bind_modify. apply Hk. destruct H as (Hn & Hc & Hb).
  split; [exact Hn|]. split; [exact Hc|]. cbn.
  destruct (sctpStreamIds s) as [ids|]; [|exact Logic.I]. cbn.
  destruct Hb as [Hlen Hbits]. rewrite length_insert. split; [exact Hlen|].
  apply Forall_bit_insert; [right; reflexivity|exact Hbits].
Qed.

Lemma on_dataConsumer_close_shaped n a : stable (bitmap_shaped n) (on_dataConsumer_close a).
Proof.
  intros s H. fold (state (on_dataConsumer_close a s)). unfold on_dataConsumer_close.
  rewrite bind_gets. destruct (dataConsumerObjs s !! a) as [[c sid]|]; [|exact H].
  rewrite bind_gets, bind_modify, bind_gets. destruct H as (Hn & Hc & Hb). cbn.
  destruct (sctpStreamIds s) as [ids|] eqn:Hi; cbn.
  - split; [exact Hn|]. split; [exact Hc|]. cbn. destruct Hb as [Hlen Hbits].
    destruct sid as [k|]; cbn; [|split; assumption].
    rewrite length_insert. split; [exact Hlen|].
    apply Forall_bit_insert; [left; reflexivity|exact Hbits].
  - split; [exact Hn|]. split; [exact Hc|]. cbn. rewrite Hi. exact Logic.I.
Qed.

Lemma bitmap_shaped_stable n : methods_stable (bitmap_shaped n).
Proof.
  methods_stable_with
    ltac:(first [apply allocate_and_mark_shaped; intros ?; apply stable_ret
                |apply on_dataConsumer_close_shaped])
    ltac:(intros ? Hs; exact Hs).
Qed.

Lemma data_methods_stable d : methods_stable (fun s => data s = d).
Proof. methods_stable_with fail ltac:(intros ? Hs; exact Hs). Qed.

(** In every state the event loop can reach, on a Transport whose SCTP
    parameters carry the numeric MIS [n]: the bitmap, once created, has [n]
    slots holding 0 or 1, the cursor is at most [n], and the stream ids of the
    open DataConsumers, of the suspended calls and of the next allocation are
    below [n]. *)
Theorem stream_ids_below_MIS s n :
  reachable s -> MIS_of (world s) = Some n ->
  bitmap_shaped n (world s)
  /\ (forall k, k ∈ ids_in_use s -> k < n)
  /\ (forall k, result (getNextSctpStreamId (world s)) = Return k -> k < n).
Proof.
  intros Hreach Hn. pose proof (reachable_allocator_inv s Hreach) as [_ Ht].
  assert (Hshape : bitmap_shaped n (world s)).
  { destruct Hreach as (name & i & d & a & acts & ->).
    apply run_stable; [apply bitmap_shaped_stable|].
    pose proof (run_stable (fun s => data s = d) acts
                  {| world := new name i d a; pending := [] |}
                  (data_methods_stable d) eq_refl) as Hd.
    cbn beta in Hd. unfold MIS_of in Hn. rewrite Hd in Hn.
    split; [exact Hn|]. split; [cbn; lia|exact Logic.I]. }
  split; [exact Hshape|].
  destruct (bitmap_shaped_bitmap n _ Hshape) as [Hlen _]. split.
  - intros k Hk. destruct (Ht k Hk) as (ids & Hi & Hfalse).
    apply slot_taken_in_range in Hfalse. unfold bitmap in Hlen. rewrite Hi in Hlen. lia.
  - intros k Hk. rewrite (getNextSctpStreamId_eq n _ Hn) in Hk.
    destruct (scan (bitmap n (world s)) (nextSctpStreamId (world s)) 0
                (length (bitmap n (world s)))) as [k'|] eqn:Hs; [|discriminate].
    cbn in Hk. injection Hk as ->.
    apply scan_first_free, first_free_in_range in Hs. lia.
Qed.

End BitmapShape.

Section BitmapShapeExample.
Import Transport Examples.

Lemma stream_ids_below_MIS_witness :
  reachable both_taken /\ MIS_of (world both_taken) = Some 2
  /\ bitmap_shaped 2 (world both_taken).
Proof.
  assert (Hreach : reachable both_taken).
  { unfold reachable, both_taken, transport. eexists _, _, _, _, _. reflexivity. }
  assert (Hn : MIS_of (world both_taken) = Some 2) by (vm_compute; reflexivity).
  split; [exact Hreach|]. split; [exact Hn|].
  exact (proj1 (@stream_ids_below_MIS imports ortc both_taken 2 Hreach Hn)).
Defined.

End BitmapShapeExample.

(** ** The Producers of an RtpObserver *)
Section ObservedProducers.
Context {Producer : Type} (getProducerById : string -> option Producer).
Import RtpObserverProducers.

(** [addProducer()] and [removeProducer()] look the Producer up before
    anything else: for an id the Router does not know they throw and request
    nothing.  For a known Producer they issue their request, and emit
    ['addproducer'] or ['removeproducer'] with that Producer on the observer
    only when the request has resolved.  Neither changes the RtpObserver, and
    neither looks at its [closed] or [paused] flag. *)
Theorem observed_producers_are_known producerId (o : RtpObserver.t) :
  (getProducerById producerId = None ->
   forall response,
     addProducer getProducerById producerId response o
     = (Throw (exception Error ("Producer with id " ++ quoted producerId ++ " not found")),
        o, [])
     /\ removeProducer getProducerById producerId response o
        = (Throw (exception Error ("Producer with id " ++ quoted producerId ++ " not found")),
           o, []))
  /\ (forall p,
        getProducerById producerId = Some p ->
        addProducer getProducerById producerId (Return tt) o
        = (Return tt, o,
           [request "rtpObserver.addProducer" o producerId;
            safeEmit observer "addproducer" [p]])
        /\ removeProducer getProducerById producerId (Return tt) o
           = (Return tt, o,
              [request "rtpObserver.removeProducer" o producerId;
               safeEmit observer "removeproducer" [p]])
        /\ forall e,
             addProducer getProducerById producerId (Throw e) o
             = (Throw e, o, [request "rtpObserver.addProducer" o producerId])
             /\ removeProducer getProducerById producerId (Throw e) o
                = (Throw e, o, [request "rtpObserver.removeProducer" o producerId])).
Proof.
  split.
  - intros Hnone response.
    unfold addProducer, removeProducer, addProducer_begin, removeProducer_begin, begin.
    rewrite Hnone. split; reflexivity.
  - intros p Hp.
    unfold addProducer, removeProducer, addProducer_begin, removeProducer_begin, begin.
    rewrite Hp. repeat split.
Qed.

End ObservedProducers.

(** ** Notifications in a row *)
Section Notifications.
Context `{I : Imports} `{O : @Ortc I}.

Lemma webRtc_notification_eq n s :
  result (WebRtcTransport.handleWorkerNotification n s) = Return tt
  /\ WebRtcTransport.base (state (WebRtcTransport.handleWorkerNotification n s))
     = WebRtcTransport.base s
  /\ WebRtcTransport.data (state (WebRtcTransport.handleWorkerNotification n s))
     = (let d := WebRtcTransport.data s in
        {| WebRtcTransport.iceState := latest ice_of [n] (WebRtcTransport.iceState d);
           WebRtcTransport.iceSelectedTuple :=
             latest iceTuple_of [n] (WebRtcTransport.iceSelectedTuple d);
           WebRtcTransport.dtlsState := latest dtls_of [n] (WebRtcTransport.dtlsState d);
           WebRtcTransport.dtlsRemoteCert :=
             latest cert_of [n] (WebRtcTransport.dtlsRemoteCert d);
           WebRtcTransport.sctpState := latest sctp_of [n] (WebRtcTransport.sctpState d) |}).
Proof.
  unfold WebRtcTransport.handleWorkerNotification. rewrite bind_gets.
  destruct s as [b [i t dt c st]].
  destruct n as [t0|t0|st0|t0|st0 cert|st0|info|ev]; try (repeat split; reflexivity).
  destruct st0; repeat split; reflexivity.
Qed.

Lemma latest_cons {A} (pick : Notification -> option A) n ns before :
  latest pick (n :: ns) before = latest pick ns (latest pick [n] before).
Proof. reflexivity. Qed.

(** After any notifications, each mirror of a WebRtcTransport holds what the
    last notification about it has said, the remote certificate is the one of
    the last change of the DTLS state to connected, and the Transport
    underneath, its [closed] flag included, is as it was. *)
Theorem webRtc_mirrors_follow_notifications ns s :
  result (webRtc_notifications ns s) = Return tt
  /\ WebRtcTransport.base (state (webRtc_notifications ns s)) = WebRtcTransport.base s
  /\ WebRtcTransport.data (state (webRtc_notifications ns s))
     = (let d := WebRtcTransport.data s in
        {| WebRtcTransport.iceState := latest ice_of ns (WebRtcTransport.iceState d);
           WebRtcTransport.iceSelectedTuple :=
             latest iceTuple_of ns (WebRtcTransport.iceSelectedTuple d);
           WebRtcTransport.dtlsState := latest dtls_of ns (WebRtcTransport.dtlsState d);
           WebRtcTransport.dtlsRemoteCert :=
             latest cert_of ns (WebRtcTransport.dtlsRemoteCert d);
           WebRtcTransport.sctpState := latest sctp_of ns (WebRtcTransport.sctpState d) |}).
Proof.
  unfold webRtc_notifications. revert s. induction ns as [|n ns IH]; intros s.
  - destruct s as [b [i t dt c st]]. repeat split.
  - destruct (webRtc_notification_eq n s) as (H1 & H2 & H3). cbn [for_of].
    rewrite (result_bind_Return _ _ _ tt H1), (state_bind_Return _ _ _ tt H1).
    destruct (IH (state (WebRtcTransport.handleWorkerNotification n s))) as (I1 & I2 & I3).
    split; [exact I1|]. split; [rewrite I2; exact H2|].
    rewrite I3, H3. cbv zeta. cbn [WebRtcTransport.iceState WebRtcTransport.iceSelectedTuple
      WebRtcTransport.dtlsState WebRtcTransport.dtlsRemoteCert WebRtcTransport.sctpState].
    rewrite !(latest_cons _ n ns). reflexivity.
Qed.

Lemma plain_notification_eq n s :
  result (PlainTransport.handleWorkerNotification n s) = Return tt
  /\ PlainTransport.base (state (PlainTransport.handleWorkerNotification n s))
     = PlainTransport.base s
  /\ PlainTransport.data (state (PlainTransport.handleWorkerNotification n s))
     = (let d := PlainTransport.data s in
        {| PlainTransport.rtcpMux := PlainTransport.rtcpMux d;
           PlainTransport.comedia := PlainTransport.comedia d;
           PlainTransport.tuple := latest tuple_of [n] (PlainTransport.tuple d);
           PlainTransport.rtcpTuple := latest rtcpTuple_of [n] (PlainTransport.rtcpTuple d);
           PlainTransport.sctpState := latest sctp_of [n] (PlainTransport.sctpState d) |}).
Proof.
  unfold PlainTransport.handleWorkerNotification. rewrite bind_gets.
  destruct s as [b [m c t r st]].
  destruct n as [t0|t0|st0|t0|st0 cert|st0|info|ev]; repeat split; reflexivity.
Qed.

(** The same for a PlainTransport: its tuple, its RTCP tuple and its SCTP
    state are those of the last notification about each. *)
Theorem plain_mirrors_follow_notifications ns s :
  result (plain_notifications ns s) = Return tt
  /\ PlainTransport.base (state (plain_notifications ns s)) = PlainTransport.base s
  /\ PlainTransport.data (state (plain_notifications ns s))
     = (let d := PlainTransport.data s in
        {| PlainTransport.rtcpMux := PlainTransport.rtcpMux d;
           PlainTransport.comedia := PlainTransport.comedia d;
           PlainTransport.tuple := latest tuple_of ns (PlainTransport.tuple d);
           PlainTransport.rtcpTuple := latest rtcpTuple_of ns (PlainTransport.rtcpTuple d);
           PlainTransport.sctpState := latest sctp_of ns (PlainTransport.sctpState d) |}).
Proof.
  unfold plain_notifications. revert s. induction ns as [|n ns IH]; intros s.
  - destruct s as [b [m c t r st]]. repeat split.
  - destruct (plain_notification_eq n s) as (H1 & H2 & H3). cbn [for_of].
    rewrite (result_bind_Return _ _ _ tt H1), (state_bind_Return _ _ _ tt H1).
    destruct (IH (state (PlainTransport.handleWorkerNotification n s))) as (I1 & I2 & I3).
    split; [exact I1|]. split; [rewrite I2; exact H2|].
    rewrite I3, H3. cbv zeta. cbn [PlainTransport.rtcpMux PlainTransport.comedia
      PlainTransport.tuple PlainTransport.rtcpTuple PlainTransport.sctpState].
    rewrite !(latest_cons _ n ns). reflexivity.
Qed.

End Notifications.

Section MoreExamples.
Import Transport Examples.

Lemma produceData_before_its_request_witness :
  produceData_accepts (transport "DirectTransport" 0) produceData_options
  /\ produceData_begin "u" produceData_options (transport "DirectTransport" 0)
     = (Return (produceDataCall_ "dp" appData_falsy), transport "DirectTransport" 0,
        [produceData_request (transport "DirectTransport" 0) "u" produceData_options
           DataProducer.direct]).
Proof.
  assert (Hacc : produceData_accepts (transport "DirectTransport" 0) produceData_options)
    by (split; reflexivity).
  split; [exact Hacc|].
  exact (proj2 (proj2 (proj2 (@produceData_before_its_request imports ortc "u"
                                produceData_options (transport "DirectTransport" 0))))
           Hacc eq_refl).
Defined.

Lemma consumeData_rejects_witness :
  consumeData_begin router "u" consumeData_options (transport "WebRtcTransport" 2)
  = (Throw (exception Error ("DataProducer with id " ++ quoted "dp" ++ " not found")),
     transport "WebRtcTransport" 2, []).
Proof.
  refine (proj2 (proj1 (proj2 (@consumeData_rejects imports ortc router "u"
                                 consumeData_options (transport "WebRtcTransport" 2)))
                   "dp" eq_refl _) eq_refl eq_refl).
  discriminate.
Defined.

Lemma observed_producers_are_known_witness :
  RtpObserverProducers.addProducer (getProducerById router_p) "p1" (Return tt)
    (RtpObserver.rtpObserver (RtpObserver.internal_ "r" "o1") true false appData_falsy)
  = (Return tt,
     RtpObserver.rtpObserver (RtpObserver.internal_ "r" "o1") true false appData_falsy,
     [channel_request "rtpObserver.addProducer" (Some "o1")
        (Some (RtpObserverProducers.producer_request "p1"));
      safeEmit observer "addproducer" [a_producer]]).
Proof.
  exact (proj1 (proj2 (observed_producers_are_known (getProducerById router_p) "p1"
                         (RtpObserver.rtpObserver (RtpObserver.internal_ "r" "o1")
                            true false appData_falsy))
                  a_producer eq_refl)).
Defined.

End MoreExamples.

Section Listeners.
Context `{I : Imports} `{O : @Ortc I}.
Import Transport.

Lemma delete_delete {V} (k : string) (m : Map V) : delete k (delete k m) = delete k m.
Proof. apply delete_absent, has_delete. Qed.

Lemma is_emit_other {Req Arg} ev ev' (e : Effect Req Arg) :
  ev <> ev' -> is_emit ev e = true -> is_emit ev' e = false.
Proof.
  intros Hne He. destruct e as [| | | |on event args| | |]; try discriminate.
  destruct on; try discriminate. cbn in *.
  apply String.eqb_eq in He. subst event. apply String.eqb_neq. exact Hne.
Qed.

(** *** A Producer *)

Lemma lift_completion_state {A} (r : Completion A) w : state (lift_completion r w) = w.
Proof. destruct r; reflexivity. Qed.

Lemma lift_completion_trace {A} (r : Completion A) w : trace (lift_completion r w) = [].
Proof. destruct r; reflexivity. Qed.

Lemma deliver_producer_eq a e s p :
  producerObjs s !! a = Some p ->
  deliver_producer a e s
  = (Return tt,
     (if unregisters_producer e
      then set_producers (delete (Owned.id p) (producers s)) s else s),
     on_producer a e :: (if unregisters_producer e then [producerclose_signal a] else [])).
Proof.
  intros Ho. unfold deliver_producer, unregisters_producer. rewrite bind_tell.
  destruct (is_emit "@close" e); unfold when.
  - rewrite (on_producer_close_eq a s p Ho). reflexivity.
  - reflexivity.
Qed.

Lemma deliver_producers_eq a effs s p :
  producerObjs s !! a = Some p ->
  for_of effs (deliver_producer a) s
  = (Return tt,
     (if existsb unregisters_producer effs
      then set_producers (delete (Owned.id p) (producers s)) s else s),
     flat_map (fun e => on_producer a e
                        :: (if unregisters_producer e then [producerclose_signal a] else []))
       effs).
Proof.
  revert s. induction effs as [|e effs IH]; intros s Ho; [reflexivity|].
  cbn [for_of existsb flat_map].
  rewrite (bind_Return _ _ _ _ _ _ (deliver_producer_eq a e s p Ho)).
  destruct (unregisters_producer e); cbn [orb].
  - rewrite IH by exact Ho. cbn [result state trace fst snd producers set_producers].
    rewrite delete_delete.
    destruct (existsb unregisters_producer effs); reflexivity.
  - rewrite IH by exact Ho. reflexivity.
Qed.


Lemma upward_producer_effects a (effs : list Owned.Eff) :
  List.filter upward
    (flat_map (fun e => on_producer a e
                        :: (if unregisters_producer e then [producerclose_signal a] else []))
       effs)
  = List.map (fun _ => producerclose_signal a) (List.filter unregisters_producer effs).
Proof.
  induction effs as [|e effs IH]; [reflexivity|]. cbn [flat_map List.filter].
  rewrite List.filter_app, IH. destruct (unregisters_producer e); reflexivity.
Qed.

Lemma produce_resume_eq c st s :
  produce_resume c st s
  = (Return (length (producerObjs s)),
     set_producers (set (pc_producerId c) (length (producerObjs s)) (producers s))
       (set_producerObjs (producerObjs s ++ [produced c st s]) s),
     [on_transport (emit this "@newproducer" [producer_ref (length (producerObjs s))]);
      on_transport (safeEmit observer "newproducer" [producer_ref (length (producerObjs s))])]).
Proof. reflexivity. Qed.

(** A Producer from the answer of the engine on: [produce()] stores the
    Producer it constructs, registers it under its id and announces it.
    Whatever the Producer does afterwards, the Transport takes its id out of
    the registry when, and only when, the Producer emits ['@close'], and what
    it emits itself is one ['@producerclose'] with that Producer for each
    ['@close']. *)
Theorem producer_registered_until_closed c st s (m : Js.M Producer Owned.Eff unit) r p' effs :
  let a := length (producerObjs s) in
  let s1 := state (produce_resume c st s) in
  m (produced c st s) = (r, p', effs) ->
  Owned.id p' = pc_producerId c ->
  produce_resume c st s
  = (Return a, s1,
     [on_transport (emit this "@newproducer" [producer_ref a]);
      on_transport (safeEmit observer "newproducer" [producer_ref a])])
  /\ producerObjs s1 !! a = Some (produced c st s)
  /\ has (pc_producerId c) (producers s1) = true
  /\ producers (state (on_producerObj a m s1))
     = (if existsb unregisters_producer effs
        then delete (pc_producerId c) (producers s) else producers s1)
  /\ has (pc_producerId c) (producers (state (on_producerObj a m s1)))
     = negb (existsb unregisters_producer effs)
  /\ List.filter upward (trace (on_producerObj a m s1))
     = List.map (fun _ => producerclose_signal a) (List.filter unregisters_producer effs).
Proof.
  cbv zeta. intros Hm Hid. rewrite produce_resume_eq. cbn [state fst snd].
  set (s1 := set_producers _ _).
  assert (Hl : producerObjs s1 !! length (producerObjs s) = Some (produced c st s)).
  { subst s1. cbn. rewrite lookup_app_r, Nat.sub_diag by lia. reflexivity. }
  assert (Hl' : producerObjs
                  (set_producerObjs (<[length (producerObjs s):=p']> (producerObjs s1)) s1)
                !! length (producerObjs s) = Some p').
  { cbn. apply list_lookup_insert_eq. exact (lookup_lt_Some _ _ _ Hl). }
  assert (E : on_producerObj (length (producerObjs s)) m s1
              = bind (for_of effs (deliver_producer (length (producerObjs s))))
                  (fun _ => lift_completion r)
                  (set_producerObjs (<[length (producerObjs s):=p']> (producerObjs s1)) s1)).
  { unfold on_producerObj.
    exact (invoke_eq (fun s0 => producerObjs s0 !! length (producerObjs s))
             (fun o s0 => set_producerObjs (<[length (producerObjs s):=o]> (producerObjs s0)) s0)
             (deliver_producer (length (producerObjs s))) m s1 _ r p' effs Hl Hm). }
  rewrite E, (bind_Return _ _ _ _ _ _ (deliver_producers_eq _ effs _ p' Hl')).
  cbn [result state trace fst snd]. rewrite Hid.
  split; [reflexivity|]. split; [exact Hl|]. split; [apply has_set|].
  rewrite lift_completion_state, lift_completion_trace, app_nil_r.
  destruct (existsb unregisters_producer effs); cbn [negb].
  - subst s1. cbn [producers set_producers set_producerObjs]. rewrite delete_set.
    split; [reflexivity|]. split; [apply has_delete|]. apply upward_producer_effects.
  - subst s1. cbn [producers set_producers set_producerObjs].
    split; [reflexivity|]. split; [apply has_set|]. apply upward_producer_effects.
Qed.


(** *** A Consumer *)

Lemma deliver_consumer_eq a e s c :
  consumerObjs s !! a = Some c ->
  deliver_consumer a e s
  = (Return tt,
     (if unregisters_consumer e
      then set_consumers (delete (Owned.id c) (consumers s)) s else s),
     [on_consumer a e]).
Proof.
  intros Ho. unfold deliver_consumer, unregisters_consumer. rewrite bind_tell.
  destruct (is_emit "@close" e) eqn:E1.
  - rewrite (is_emit_other "@close" "@producerclose" e) by (discriminate || exact E1).
    unfold when. rewrite (bind_Return _ _ _ _ _ _ (on_consumer_close_eq a s c Ho)).
    reflexivity.
  - destruct (is_emit "@producerclose" e); unfold when; rewrite bind_ret;
      [rewrite (on_consumer_close_eq a s c Ho)|]; reflexivity.
Qed.

Lemma deliver_consumers_eq a effs s c :
  consumerObjs s !! a = Some c ->
  for_of effs (deliver_consumer a) s
  = (Return tt,
     (if existsb unregisters_consumer effs
      then set_consumers (delete (Owned.id c) (consumers s)) s else s),
     List.map (on_consumer a) effs).
Proof.
  revert s. induction effs as [|e effs IH]; intros s Ho; [reflexivity|].
  cbn [for_of existsb List.map].
  rewrite (bind_Return _ _ _ _ _ _ (deliver_consumer_eq a e s c Ho)).
  destruct (unregisters_consumer e); cbn [orb].
  - rewrite IH by exact Ho. cbn [result state trace fst snd consumers set_consumers].
    rewrite delete_delete.
    destruct (existsb unregisters_consumer effs); reflexivity.
  - rewrite IH by exact Ho. reflexivity.
Qed.

Lemma consume_resume_eq c st s :
  consume_resume c st s
  = (Return (length (consumerObjs s)),
     set_consumers (set (cc_consumerId c) (length (consumerObjs s)) (consumers s))
       (set_consumerObjs (consumerObjs s ++ [consumed c st s]) s),
     [on_transport (safeEmit observer "newconsumer" [consumer_ref (length (consumerObjs s))])]).
Proof. reflexivity. Qed.

(** A Consumer from the answer of the engine on: [consume()] stores the
    Consumer it constructs, registers it under its id and announces it to the
    observer.  Whatever the Consumer does afterwards, the Transport takes its
    id out of the registry when, and only when, the Consumer emits ['@close']
    or ['@producerclose'], and emits nothing itself. *)
Theorem consumer_registered_until_closed c st s (m : Js.M Consumer Owned.Eff unit) r c' effs :
  let a := length (consumerObjs s) in
  let s1 := state (consume_resume c st s) in
  m (consumed c st s) = (r, c', effs) ->
  Owned.id c' = cc_consumerId c ->
  consume_resume c st s
  = (Return a, s1, [on_transport (safeEmit observer "newconsumer" [consumer_ref a])])
  /\ consumerObjs s1 !! a = Some (consumed c st s)
  /\ has (cc_consumerId c) (consumers s1) = true
  /\ consumers (state (on_consumerObj a m s1))
     = (if existsb unregisters_consumer effs
        then delete (cc_consumerId c) (consumers s) else consumers s1)
  /\ has (cc_consumerId c) (consumers (state (on_consumerObj a m s1)))
     = negb (existsb unregisters_consumer effs)
  /\ List.filter from_transport (trace (on_consumerObj a m s1)) = [].
Proof.
  cbv zeta. intros Hm Hid. rewrite consume_resume_eq. cbn [state fst snd].
  set (s1 := set_consumers _ _).
  assert (Hl : consumerObjs s1 !! length (consumerObjs s) = Some (consumed c st s)).
  { subst s1. cbn. rewrite lookup_app_r, Nat.sub_diag by lia. reflexivity. }
  assert (Hl' : consumerObjs
                  (set_consumerObjs (<[length (consumerObjs s):=c']> (consumerObjs s1)) s1)
                !! length (consumerObjs s) = Some c').
  { cbn. apply list_lookup_insert_eq. exact (lookup_lt_Some _ _ _ Hl). }
  assert (E : on_consumerObj (length (consumerObjs s)) m s1
              = bind (for_of effs (deliver_consumer (length (consumerObjs s))))
                  (fun _ => lift_completion r)
                  (set_consumerObjs (<[length (consumerObjs s):=c']> (consumerObjs s1)) s1)).
  { unfold on_consumerObj.
    exact (invoke_eq (fun s0 => consumerObjs s0 !! length (consumerObjs s))
             (fun o s0 => set_consumerObjs (<[length (consumerObjs s):=o]> (consumerObjs s0)) s0)
             (deliver_consumer (length (consumerObjs s))) m s1 _ r c' effs Hl Hm). }
  rewrite E, (bind_Return _ _ _ _ _ _ (deliver_consumers_eq _ effs _ c' Hl')).
  cbn [result state trace fst snd]. rewrite Hid.
  split; [reflexivity|]. split; [exact Hl|]. split; [apply has_set|].
  rewrite lift_completion_state, lift_completion_trace, app_nil_r.
  assert (Hq : List.filter from_transport
                 (List.map (on_consumer (length (consumerObjs s))) effs) = []).
  { clear. induction effs as [|e effs IH]; [reflexivity|exact IH]. }
  destruct (existsb unregisters_consumer effs); cbn [negb].
  - subst s1. cbn [consumers set_consumers set_consumerObjs]. rewrite delete_set.
    split; [reflexivity|]. split; [apply has_delete|exact Hq].
  - subst s1. cbn [consumers set_consumers set_consumerObjs].
    split; [reflexivity|]. split; [apply has_set|exact Hq].
Qed.

(** *** A DataConsumer *)

Lemma on_dataConsumer_close_at a s c sid :
  dataConsumerObjs s !! a = Some (c, sid) ->
  on_dataConsumer_close a s
  = (Return tt,
     set_sctpStreamIds (write_sctpStreamIds sid 0%N <$> sctpStreamIds s)
       (set_dataConsumers (delete (Owned.id c) (dataConsumers s)) s),
     []).
Proof.
  intros Ho. unfold on_dataConsumer_close.
  rewrite bind_gets, Ho, bind_gets, bind_modify, bind_gets.
  destruct s as [? ? ? ? ? ? ? ? ? ? ? [ids|] ? ? ? ? ?]; reflexivity.
Qed.

Lemma deliver_dataConsumer_eq a e s c sid :
  dataConsumerObjs s !! a = Some (c, sid) ->
  deliver_dataConsumer a e s
  = (Return tt,
     (if unregisters_dataConsumer e
      then set_sctpStreamIds (write_sctpStreamIds sid 0%N <$> sctpStreamIds s)
             (set_dataConsumers (delete (Owned.id c) (dataConsumers s)) s)
      else s),
     [on_dataConsumer a e]).
Proof.
  intros Ho. unfold deliver_dataConsumer, unregisters_dataConsumer. rewrite bind_tell.
  destruct (is_emit "@close" e) eqn:E1.
  - rewrite (is_emit_other "@close" "@dataproducerclose" e) by (discriminate || exact E1).
    unfold when. rewrite (bind_Return _ _ _ _ _ _ (on_dataConsumer_close_at a s c sid Ho)).
    reflexivity.
  - destruct (is_emit "@dataproducerclose" e); unfold when; rewrite bind_ret;
      [rewrite (on_dataConsumer_close_at a s c sid Ho)|]; reflexivity.
Qed.

Lemma write_write (sid : option nat) (v : N) (ids : list N) :
  write_sctpStreamIds sid v (write_sctpStreamIds sid v ids) = write_sctpStreamIds sid v ids.
Proof.
  destruct sid as [k|]; [|reflexivity]. cbn. apply list_insert_insert_eq.
Qed.

Lemma deliver_dataConsumers_eq a effs s c sid :
  dataConsumerObjs s !! a = Some (c, sid) ->
  for_of effs (deliver_dataConsumer a) s
  = (Return tt,
     (if existsb unregisters_dataConsumer effs
      then set_sctpStreamIds (write_sctpStreamIds sid 0%N <$> sctpStreamIds s)
             (set_dataConsumers (delete (Owned.id c) (dataConsumers s)) s)
      else s),
     List.map (on_dataConsumer a) effs).
Proof.
  revert s. induction effs as [|e effs IH]; intros s Ho; [reflexivity|].
  cbn [for_of existsb List.map].
  rewrite (bind_Return _ _ _ _ _ _ (deliver_dataConsumer_eq a e s c sid Ho)).
  destruct (unregisters_dataConsumer e); cbn [orb].
  - rewrite IH by exact Ho.
    cbn [result state trace fst snd dataConsumers set_dataConsumers sctpStreamIds
           set_sctpStreamIds].
    rewrite delete_delete.
    assert (Hw : write_sctpStreamIds sid 0%N <$> (write_sctpStreamIds sid 0%N <$> sctpStreamIds s)
                 = (write_sctpStreamIds sid 0%N <$> sctpStreamIds s)).
    { destruct (sctpStreamIds s) as [ids|]; [|reflexivity]. cbn. rewrite write_write.
      reflexivity. }
    destruct (existsb unregisters_dataConsumer effs); [|reflexivity].
    cbn [set_sctpStreamIds set_dataConsumers sctpStreamIds dataConsumers]. rewrite Hw.
    reflexivity.
  - rewrite IH by exact Ho. reflexivity.
Qed.

Lemma consumeData_resume_eq c d s :
  consumeData_resume c d s
  = (Return (length (dataConsumerObjs s)),
     set_dataConsumers
       (set (cdc_dataConsumerId c) (length (dataConsumerObjs s)) (dataConsumers s))
       (set_dataConsumerObjs
          (dataConsumerObjs s ++ [(consumedData c d s, cdc_sctpStreamId c)]) s),
     [on_transport (safeEmit observer "newdataconsumer"
                      [dataConsumer_ref (length (dataConsumerObjs s))])]).
Proof. reflexivity. Qed.

(** A DataConsumer from the answer of the engine on: [consumeData()] stores
    the DataConsumer it constructs with the stream id the call had taken,
    registers it under its id and announces it to the observer.  Whatever the
    DataConsumer does afterwards, the Transport takes its id out of the
    registry and clears the slot of its stream id when, and only when, the
    DataConsumer emits ['@close'] or ['@dataproducerclose'], and emits nothing
    itself. *)
Theorem dataConsumer_registered_until_closed c d s
    (m : Js.M DataConsumer Owned.Eff unit) r c' effs :
  let a := length (dataConsumerObjs s) in
  let s1 := state (consumeData_resume c d s) in
  let s2 := state (on_dataConsumerObj a m s1) in
  m (consumedData c d s) = (r, c', effs) ->
  Owned.id c' = cdc_dataConsumerId c ->
  consumeData_resume c d s
  = (Return a, s1, [on_transport (safeEmit observer "newdataconsumer" [dataConsumer_ref a])])
  /\ dataConsumerObjs s1 !! a = Some (consumedData c d s, cdc_sctpStreamId c)
  /\ has (cdc_dataConsumerId c) (dataConsumers s1) = true
  /\ dataConsumers s2
     = (if existsb unregisters_dataConsumer effs
        then delete (cdc_dataConsumerId c) (dataConsumers s) else dataConsumers s1)
  /\ has (cdc_dataConsumerId c) (dataConsumers s2)
     = negb (existsb unregisters_dataConsumer effs)
  /\ sctpStreamIds s2
     = (if existsb unregisters_dataConsumer effs
        then write_sctpStreamIds (cdc_sctpStreamId c) 0%N <$> sctpStreamIds s
        else sctpStreamIds s)
  /\ List.filter from_transport (trace (on_dataConsumerObj a m s1)) = [].
Proof.
  cbv zeta. intros Hm Hid. rewrite consumeData_resume_eq. cbn [state fst snd].
  set (s1 := set_dataConsumers _ _).
  assert (Hl : dataConsumerObjs s1 !! length (dataConsumerObjs s)
               = Some (consumedData c d s, cdc_sctpStreamId c)).
  { subst s1. cbn. rewrite lookup_app_r, Nat.sub_diag by lia. reflexivity. }
  set (put := fun (o : DataConsumer) s0 =>
                set_dataConsumerObjs
                  (alter (fun c0 : DataConsumer * option nat => (o, snd c0))
                     (length (dataConsumerObjs s)) (dataConsumerObjs s0)) s0).
  assert (Hl' : dataConsumerObjs (put c' s1) !! length (dataConsumerObjs s)
                = Some (c', cdc_sctpStreamId c)).
  { subst put. cbn [dataConsumerObjs set_dataConsumerObjs].
    rewrite list_lookup_alter_eq, Hl. reflexivity. }
  assert (E : on_dataConsumerObj (length (dataConsumerObjs s)) m s1
              = bind (for_of effs (deliver_dataConsumer (length (dataConsumerObjs s))))
                  (fun _ => lift_completion r) (put c' s1)).
  { unfold on_dataConsumerObj.
    refine (invoke_eq (fun s0 => fst <$> dataConsumerObjs s0 !! length (dataConsumerObjs s))
              put (deliver_dataConsumer (length (dataConsumerObjs s))) m s1 _ r c' effs _ Hm).
    rewrite Hl. reflexivity. }
  rewrite E, (bind_Return _ _ _ _ _ _ (deliver_dataConsumers_eq _ effs _ c' _ Hl')).
  cbn [result state trace fst snd]. rewrite Hid.
  split; [reflexivity|]. split; [exact Hl|]. split; [apply has_set|].
  rewrite lift_completion_state, lift_completion_trace, app_nil_r.
  assert (Hq : List.filter from_transport
                 (List.map (on_dataConsumer (length (dataConsumerObjs s))) effs) = []).
  { clear. induction effs as [|e effs IH]; [reflexivity|exact IH]. }
  destruct (existsb unregisters_dataConsumer effs); cbn [negb].
  - subst s1 put.
    cbn [dataConsumers set_dataConsumers set_dataConsumerObjs sctpStreamIds set_sctpStreamIds].
    rewrite delete_set.
    split; [reflexivity|]. split; [apply has_delete|]. split; [reflexivity|exact Hq].
  - subst s1 put.
    cbn [dataConsumers set_dataConsumers set_dataConsumerObjs sctpStreamIds set_sctpStreamIds].
    split; [reflexivity|]. split; [apply has_set|]. split; [reflexivity|exact Hq].
Qed.

End Listeners.

Section ListenerExamples.
Import Transport Examples.

Lemma producer_registered_until_closed_witness :
  has "p1"
    (producers
       (state (on_producerObj 0 (Owned.close "transport.closeProducer")
                 (state (produce_resume
                           (produceCall_ "p1" "video" (rtp None encodings_falsy)
                              (rtp None encodings_falsy) appData_falsy false)
                           (produceStatus_ "simple")
                           (transport "WebRtcTransport" 2)))))) = false.
Proof.
  exact (proj1 (proj2 (proj2 (proj2 (proj2
    (@producer_registered_until_closed imports
       (produceCall_ "p1" "video" (rtp None encodings_falsy) (rtp None encodings_falsy)
          appData_falsy false)
       (produceStatus_ "simple") (transport "WebRtcTransport" 2)
       (Owned.close "transport.closeProducer") _ _ _ eq_refl eq_refl)))))).
Defined.

Lemma consumer_registered_until_closed_witness :
  has "c1"
    (consumers
       (state (on_consumerObj 0 (Owned.sourceClosed "producerclose")
                 (state (consume_resume
                           (consumeCall_ "c1" "p1" "video" (rtp None encodings_falsy)
                              "simple" appData_falsy)
                           (consumeStatus_ false false None None)
                           (transport "WebRtcTransport" 2)))))) = false.
Proof.
  exact (proj1 (proj2 (proj2 (proj2 (proj2
    (@consumer_registered_until_closed imports
       (consumeCall_ "c1" "p1" "video" (rtp None encodings_falsy) "simple" appData_falsy)
       (consumeStatus_ false false None None) (transport "WebRtcTransport" 2)
       (Owned.sourceClosed "producerclose") _ _ _ eq_refl eq_refl)))))).
Defined.

Lemma dataConsumer_registered_until_closed_witness :
  sctpStreamIds
    (state (on_dataConsumerObj 1 (Owned.sourceClosed "dataproducerclose")
              (state (consumeData_resume (consumeDataCall_ "dc2" (Some 1) appData_falsy)
                        "data" (world (fst (step (reject 0) (fst (step (reject 0) both_taken)))))))))
  = Some [1; 0]%N.
Proof.
  etransitivity;
    [exact (proj1 (proj2 (proj2 (proj2 (proj2 (proj2
       (@dataConsumer_registered_until_closed imports
          (consumeDataCall_ "dc2" (Some 1) appData_falsy) "data"
          (world (fst (step (reject 0) (fst (step (reject 0) both_taken)))))
          (Owned.sourceClosed "dataproducerclose") _ _ _ eq_refl eq_refl)))))))
    | vm_compute; reflexivity].
Defined.

End ListenerExamples.
